(* ===== verification/_CoqProject ===== *)
-Q . S2P
Prelude.v
Types.v
Bytes.v
GoStrings.v
GoTime.v
GoNet.v
Statistics.v
GoFlag.v
ChunkBuilder.v
ChunkQueue.v
Storage.v
LocalStorage.v
ChunkManager.v
ChunkTransfer.v
Availability.v
Delivery.v
Completion.v
Http.v
HttpClosers.v
HttpServer.v
HttpServing.v
PeerDownloader.v
Network.v
Readable.v
Peers.v
PeersFacts.v
Manifest.v
ManifestFacts.v
Transfer.v
Command.v
CommandFacts.v
Dns.v
DnsFacts.v
Registry.v
Logger.v
StorageFactory.v
TestStorage.v
Flags.v
Main.v
MainFacts.v
TokenCodec.v
Downloader.v
PeerUpdates.v
Controller.v
DownloaderSafety.v
DownloaderLiveness.v
MissedUpdate.v
DownloaderData.v
DownloaderBooks.v
DownloaderDriving.v
DownloaderCompletion.v
Node.v
Swarm.v
SwarmFacts.v
SwarmRequests.v
SwarmCompletion.v
DownloadFiles.v
Program.v
ProgramFacts.v
MemOS.v
Examples.v
CompletionExamples.v
HttpExamples.v
SwarmExamples.v
DownloadExamples.v
PeerExamples.v
ManifestExamples.v
DownloadFilesExamples.v
MainExamples.v
DnsExamples.v
TestStorageExamples.v
LoggerExamples.v
