(* ===== verification/Prelude.v ===== *)
(** * p2pcp: a peer-to-peer file copier

    p2pcp copies a directory to many hosts at once. A seed reads a source directory; a peer
    receives chunks from the seed, from a source directory of its own and from other peers,
    writes them into its destination, and serves the chunks it has to the others. This
    development models the Go code under src/src and proves what makes such a transfer
    correct: every file ends up equal to the source's, whatever the order of the chunks, the
    interleaving of the goroutines and the failures of the network; nothing panics that
    should not; and the transfer comes to an end.

    ** How the parts interact

    [main.go] checks the options ([Init]) and starts three goroutines: the HTTP server, the
    download and the one that waits for a signal or for completion. A manifest (the entries
    of the source with a checksum) is made from a walk of the source, or fetched from a peer;
    [BuildChunks] cuts its files into chunks and the chunk manager keeps their state.
    [DownloadFiles] prepares the destination and runs one [execDownloader] per source: one
    for the local source and one per peer, added and removed by the peer controller as the
    provider's list of peers changes. Each has a queue of chunk indices, filled by an update
    goroutine that follows the peer's available list, and workers that take an index,
    request the chunk and hand the stream to [WriteChunk]. The server answers with the
    manifest, the available list and the chunks that are done. At the end the entries are
    committed, verified, and a command is run.

    ** Files and the code they model

    - Prelude: lists, options, integers, Go's conversions of durations to seconds and floats.
      Types: src/src/types (entries, chunks, states, constants). GoStrings: the functions of
      [strings], [strconv], [unicode/utf8] and [filepath] the program calls. GoTime: which
      durations have which whole seconds. Bytes: byte strings, readers, and the monad [io W] of effectful code: a state [W], and a result that is a value, an
      error or a panic; [post] is its postcondition.
    - Statistics: utils/atomic.go, statistics.go, version.go.
    - ChunkBuilder: [types.BuildChunks]. ChunkQueue: transfer/chunk_queue.go.
    - Storage: the interface of storage/storage.go, with its contract as classes
      ([StorageSpec], [StorageWalk], [StoragePrepare], [StorageWalkSame]; [StorageHealthy] and
      [StorageReadable] for a storage whose writes and whose reads succeed); every client is
      proved against them. LocalStorage: local_storage.go over a class [OS] of system calls, and
      the instances that discharge the contract from the laws of those calls ([OSLaws],
      [OSPrepareLaws], [OSHealthy]). StorageFactory: the factory and option.go.
    - ChunkManager, ChunkTransfer, Delivery: transfer/chunk_manager.go and chunk_reader.go,
      what one chunk does to the bytes of the files, and what all of them do together.
      Completion: the counters of remaining chunks and the callback for a complete file.
    - Availability, PeerDownloader: available_list.go, local_downloader.go and
      peer_downloader.go, without and with HTTP.
    - Http, HttpClosers: http/option.go, encoder.go, client.go; the second has what a request
      holds until it is closed. HttpServer, HttpServing: http_server.go and what it serves;
      MissedUpdate: what the lists of a server never say while its download runs on. Network: a client, a server and a connection that can be refused or
      cut at any byte between them. Readable: the requests that succeed, because the storage can
      be read and the connection holds.
    - Peers, PeersFacts: peers/provider.go, option.go and the providers. Registry:
      peers/registry.go. Controller: peers/controller.go.
    - Manifest, ManifestFacts: transfer/manifest.go and [NewChunkManager]. Transfer:
      transfer/transfer.go. Command, CommandFacts: utils/command.go.
    - Downloader: downloader.go as a machine. A state ([system]) holds what the goroutines
      share and, for every downloader, the program counters of its scheduler and workers; an
      [event] lets one goroutine run to its next access of something shared, so that every
      list of events that [run_events] accepts is an interleaving of the code.
      DownloaderSafety, DownloaderLiveness, DownloaderData and DownloaderBooks prove its
      invariants; DownloaderDriving that its goroutines can be driven to completion in every
      [environment] that answers their requests, and DownloaderCompletion that it can always
      still complete by itself. PeerUpdates: a round of the update goroutine is a sequence of its
      events. DownloadFiles puts the parts before and after it together.
    - Logger: utils/logger.go over a class for the library zap.
    - Node, Swarm, SwarmFacts: the composition. A node is the download machine together with the
      HTTP server that shares its context; a swarm is any number of seeds and nodes that request
      chunks and lists from each other over connections that are refused or cut. SwarmRequests,
      SwarmCompletion: a node of a swarm is an environment of its download machine, and the
      nodes complete one after the other.
    - GoFlag, Flags: package flag, and the flags of main.go with their defaults and usage. Main,
      MainFacts: [Init]. Program, ProgramFacts: the program from its command line to its exit
      code. Its goroutines are the steps of a [process]: the server, the watcher, the heartbeat
      as far as it can panic, and the download, which is [SetupTransfer], the download machine
      with the context [main] cancels, and the end of [DownloadFiles]; a goroutine that panics
      ends the process with code 2 and without its deferred calls.
    - GoNet, Dns, DnsFacts: testutil/dns.go, the DNS server of the tests, over the functions of
      package net it calls, against a decoder of DNS messages. TestStorage: testutil/storage.go.
    - MemOS, TokenCodec and the files named Examples: a file system in memory, a text format
      and small encodings that keep the promises of the classes, and the theorems applied to
      concrete inputs on them.

    ** What the theorems show

    - The whole transfer: [swarm_correct] (nodes that download from seeds and from each other
      while they serve, on every schedule and with any failures: no panic, a chunk that is done
      holds the source's bytes, a completed node has every file), [swarm_can_complete] (from
      every such state the whole swarm can still complete, if the downloaders lead to servers
      that have every chunk), [DownloadFiles_correct] (one node from its preparation to its
      verification), [getManifestFromPeer_agrees] (a peer that accepts a manifest cuts the same
      chunks as the one that made it, if the files' names are UTF-8), [RequestDownload_correct] and
      [UpdatePeerAvailableList_correct] (a request across the network).
    - The download machine: a chunk has one owner, from the swap of its status to the next store,
      none is lost, completion means that all are done, no downloader is stuck, a cancelled one
      can only stop by exiting and has a bounded number of steps left to do so, and from every
      other state the goroutines can go on until the download is complete, if one
      downloader has all chunks to offer ([download_can_complete]).
    - Its components: the layout, bounds and counters of [BuildChunks]; what
      [WriteChunk], [GetChunkReader] and the checksum do, on every branch; a file is reported
      as complete once, when it is, if no attempt fails; the queue keeps its
      indices and starves none; the server refuses what it does not have; the client
      releases what its requests hold ([Request_releases]), but for one branch of a download
      that leaves a body open; the negotiation of the encoding.
    - Around it: what [Init] lets through, how the program ends ([program_exit]), that [Stop]
      waits for every command, that templates are filled in as if at once, the normal form of
      addresses, that the providers return the static peers with the remote ones and fail with
      the remote source, that the controller keeps exactly the peers of the last list it polled,
      that the heartbeat goes on after failures, and that the log loses nothing.
    - The DNS server of the tests: what it answers decodes to the records it was told, in the
      order in which it is to tell them, and every packet gets a well-formed answer or none.
    - Where the code does not do what it means to: an update that no later incremental list has
      ([missed_update]), a file that is reported too early after a failed attempt
      ([reported_too_early]), an on-complete command after an incomplete transfer
      ([incomplete_download_runs_command]), a heartbeat interval that panics
      ([registry_heartbeats]), names that are not UTF-8 and arrive changed
      ([getManifestFromPeer_agrees]), a program without source and destination that can only
      crash ([program_exit]), and a walk's error that is dropped. The first three are
      stated for every input of their kind; their witnesses are concrete runs.

    ** What is a parameter, and fuel

    Code that is not in the repository is a class with laws, or an argument: the operating
    system, the HTTP transport, JSON, zstd, the hash, [url.Parse], DNS lookups, [filepath.Abs],
    the random numbers, [sort.Slice], the tables of package unicode, the order of a map, clocks
    and timers (their readings are inputs of steps) and what a command's process does. The laws
    say what is documented of that code; each class has a concrete instance, on which the
    theorems that use it are evaluated.

    Loops that are not structural have fuel, and it is enough: [split_fuel] is the number of
    pieces of a file and two more, and [BuildChunks_layout] shows that the loop returns;
    [copy_fuel] covers every read of a chunk, which [GetChunkReader_exact] and its users show;
    the trimming functions of GoStrings and the parsers of GoFlag and Dns shorten what they read
    with every turn, so its length is enough ([parseDomainName_total]); a walk goes 4096 levels
    deep, beyond which a path is too long for the system to open, and returns that error. The
    number of polls for a manifest is an argument: it is how often the loop comes around before
    its context is done. The event lists of the machines are unbounded.

    Integers that wrap are written with their wrap-around (the remaining-chunk counter
    is 32 bits wide); sizes and offsets are [Z], and where 64 bits matter the theorem says so.

    ** Not modelled

    - Which log lines the code writes: nothing the program decides depends on them. The logger
      itself is modelled over the library zap.
    - In [program_exit]: how long a request of a cancelled download takes (the step of the worker
      takes its outcome from outside, so that it does return); a heartbeat goroutine that comes
      to its ticker only while [Fin] runs; and the commands that are queued, which CommandFacts
      has.
    - Shutting the HTTP server down ([CloseServer] waits for the package net/http, and its error
      is only logged), and the details of starting a process (the environment, process groups
      and signals): a process has an outcome. The UDP socket of the DNS server is an input.
    - In a swarm a request is one step of its server: two handlers do not overlap, and the bytes
      of a chunk are read in one piece, so a worker that writes during a request is seen before
      it or after it. Peers join through the events of the machine; the discovery that finds
      them is modelled on its own (Peers, Controller). *)
From stdpp Require Export prelude gmap strings sorting.
From Stdlib Require Export ZArith Lia.
From Stdlib Require Import SpecFloat.

(** * Machine integers

    A Go [intN] is a [Z] kept in range by [wrap N] after every operation that can
    leave the range; a [uintN] is kept by [wrapu N]. *)

Definition wrap (w z : Z) : Z := (z + 2 ^ (w - 1)) mod 2 ^ w - 2 ^ (w - 1).
Definition wrapu (w z : Z) : Z := z mod 2 ^ w.

Declare Scope go_scope.
Delimit Scope go_scope with go.

Notation "x '+i64' y" := (wrap 64 (x + y)) (at level 50, left associativity) : go_scope.
Notation "x '-i64' y" := (wrap 64 (x - y)) (at level 50, left associativity) : go_scope.
Notation "x '+i32' y" := (wrap 32 (x + y)) (at level 50, left associativity) : go_scope.

Definition int64_range (z : Z) : Prop := (- 2 ^ 63 ≤ z < 2 ^ 63)%Z.
Definition int32_range (z : Z) : Prop := (- 2 ^ 31 ≤ z < 2 ^ 31)%Z.
Definition uint64_range (z : Z) : Prop := (0 ≤ z < 2 ^ 64)%Z.

Create HintDb go discriminated.
#[export] Hint Constants Opaque : go.
#[export] Hint Variables Opaque : go.

Section integers.
Local Open Scope Z_scope.

Lemma wrap_small w z : 0 < w → - 2 ^ (w - 1) ≤ z < 2 ^ (w - 1) → wrap w z = z.
Proof.
  intros Hw Hz. unfold wrap.
  assert (2 ^ w = 2 * 2 ^ (w - 1)) as Hp.
  { rewrite <- Z.pow_succ_r by lia. f_equal. lia. }
  rewrite Z.mod_small by lia. lia.
Qed.

Lemma wrap64_small z : - 2 ^ 63 ≤ z < 2 ^ 63 → wrap 64 z = z.
Proof. intros. by apply wrap_small. Qed.

Lemma wrap32_small z : - 2 ^ 31 ≤ z < 2 ^ 31 → wrap 32 z = z.
Proof. intros. by apply wrap_small. Qed.

Lemma wrap_range w z : 0 < w → - 2 ^ (w - 1) ≤ wrap w z < 2 ^ (w - 1).
Proof.
  intros Hw. unfold wrap.
  assert (2 ^ w = 2 * 2 ^ (w - 1)) as Hp.
  { rewrite <- Z.pow_succ_r by lia. f_equal. lia. }
  pose proof (Z.mod_pos_bound (z + 2 ^ (w - 1)) (2 ^ w)). lia.
Qed.

Lemma wrap64_range z : int64_range (wrap 64 z).
Proof. by apply (wrap_range 64). Qed.

(** Wrapping the operands first changes nothing: machine addition is addition
    modulo the width. *)
Lemma wrap_add_l w x y : 0 < w → wrap w (wrap w x + y) = wrap w (x + y).
Proof.
  intros Hw. unfold wrap. f_equal.
  assert (0 < 2 ^ w) by (apply Z.pow_pos_nonneg; lia).
  replace ((x + 2 ^ (w - 1)) mod 2 ^ w - 2 ^ (w - 1) + y + 2 ^ (w - 1))
    with ((x + 2 ^ (w - 1)) mod 2 ^ w + y) by lia.
  rewrite Zplus_mod_idemp_l. f_equal. lia.
Qed.

Lemma wrapu_small w z : 0 ≤ z < 2 ^ w → wrapu w z = z.
Proof. intros. unfold wrapu. by apply Z.mod_small. Qed.
End integers.

#[export] Hint Resolve wrap64_small wrap32_small wrap64_range : go.

(** [wrap_simpl] removes the wrap-around of an operation whose operands [lia] knows
    to be in range. *)
Ltac wrap_simpl :=
  repeat match goal with
    | |- context [wrap 64 ?x] => rewrite (wrap64_small x) by lia
    | |- context [wrap 32 ?x] => rewrite (wrap32_small x) by lia
    end.
Ltac wrap_simpl_in H :=
  repeat match type of H with
    | context [wrap 64 ?x] => rewrite (wrap64_small x) in H by lia
    | context [wrap 32 ?x] => rewrite (wrap32_small x) in H by lia
    end.

(** [forall_lia] proves a list of concrete bounds. *)
Ltac forall_lia :=
  repeat (apply Forall_nil_2 || (apply Forall_cons_2; [simpl; unfold int64_range, int32_range; lia|])).

(** * Errors and results

    A Go [error] keeps the format string of the code and the values it prints. *)

Inductive error : Type :=
| errors_New (msg : string)
| fmt_Errorf (format : string) (args : list fmt_arg)
| io_EOF
with fmt_arg : Type :=
| AStr (s : string)
| AInt (z : Z)
| AErr (e : error).

(** A call returns a value, returns an error, or panics. *)
Inductive result (A : Type) : Type :=
| Ok (a : A)
| Err (e : error)
| Panic (msg : string).
Arguments Ok {A} _.
Arguments Err {A} _.
Arguments Panic {A} _.

#[export] Instance result_ret : MRet result := @Ok.
#[export] Instance result_bind : MBind result := λ A B f m,
  match m with Ok a => f a | Err e => Err e | Panic s => Panic s end.
#[export] Instance result_fmap : FMap result := λ A B f m,
  match m with Ok a => Ok (f a) | Err e => Err e | Panic s => Panic s end.

Definition is_ok {A} (r : result A) : bool :=
  match r with Ok _ => true | _ => false end.
Definition is_panic {A} (r : result A) : bool :=
  match r with Panic _ => true | _ => false end.

(** [fmt.Errorf] around a callee's error. *)
Definition wrap_err {A} (format : string) (r : result A) : result A :=
  match r with
  | Err e => Err (fmt_Errorf format [AErr e])
  | _ => r
  end.

Section results.
Context {A B : Type}.

Lemma bind_ok (m : result A) (f : A → result B) b :
  (a ← m; f a) = Ok b ↔ ∃ a, m = Ok a ∧ f a = Ok b.
Proof. destruct m; naive_solver. Qed.

Lemma bind_panic (m : result A) (f : A → result B) s :
  (a ← m; f a) = Panic s ↔ m = Panic s ∨ ∃ a, m = Ok a ∧ f a = Panic s.
Proof. destruct m; naive_solver. Qed.

Lemma wrap_err_ok fm (m : result A) a : wrap_err fm m = Ok a ↔ m = Ok a.
Proof. destruct m; naive_solver. Qed.
End results.

(** [x[i]] on a Go slice. *)
Definition index_slice {A} (l : list A) (i : nat) : result A :=
  match l !! i with
  | Some a => Ok a
  | None => Panic "index out of range"
  end.

Lemma index_slice_ok {A} (l : list A) i a : index_slice l i = Ok a ↔ l !! i = Some a.
Proof. unfold index_slice. destruct (l !! i); naive_solver. Qed.

Lemma index_slice_panic {A} (l : list A) i s :
  index_slice l i = Panic s → length l ≤ i.
Proof.
  unfold index_slice. destruct (l !! i) eqn:E; [done|]. intros _.
  by apply lookup_ge_None.
Qed.

(** * Time

    A [time.Time] is the number of nanoseconds since the zero time [time.Time{}]; a
    [time.Duration] is a number of nanoseconds. *)
Abbreviation Time := Z (only parsing).
Abbreviation Duration := Z (only parsing).
Definition time_zero : Time := 0%Z.
Definition Nanosecond : Duration := 1%Z.
Definition Millisecond : Duration := 1000000%Z.
Definition Second : Duration := 1000000000%Z.
Definition Minute : Duration := 60000000000%Z.
(** [time.Duration.Seconds] and the conversion to [int]: double-precision arithmetic. *)
Definition float64_of_int (z : Z) : spec_float := binary_normalize 53 1024 z 0 false.

(** [float64(d/Second) + float64(d%Second)/1e9] *)
Definition Duration_Seconds (d : Duration) : spec_float :=
  SFadd 53 1024 (float64_of_int (Z.quot d Second))
    (SFdiv 53 1024 (float64_of_int (Z.rem d Second)) (float64_of_int Second)).

(** [int(x)] cuts the fraction off. *)
Definition int_of_float64 (x : spec_float) : Z :=
  match x with
  | S754_finite s m e =>
    let a := if (0 <=? e)%Z then (Z.pos m * 2 ^ e)%Z else (Z.pos m / 2 ^ (- e))%Z in
    if s then (- a)%Z else a
  | _ => 0%Z
  end.

(** [t.After(u)] *)
Definition After (t u : Time) : bool := (u <? t)%Z.

(** * Sums over lists and reachability *)

Definition Zsum (l : list Z) : Z := foldr Z.add 0%Z l.

Lemma Zsum_cons z l : Zsum (z :: l) = (z + Zsum l)%Z.
Proof. done. Qed.

Lemma Zsum_app l k : Zsum (l ++ k) = (Zsum l + Zsum k)%Z.
Proof. induction l; simpl; lia. Qed.
#[export] Hint Rewrite Zsum_app : go.

#[export] Instance Zsum_perm : Proper ((≡ₚ) ==> (=)) Zsum.
Proof. induction 1; simpl; lia. Qed.

Lemma Zsum_nonneg l : Forall (λ z, 0 ≤ z)%Z l → (0 ≤ Zsum l)%Z.
Proof. induction 1; simpl; lia. Qed.

Section filters.
Context {A : Type} (P : A → Prop) `{!∀ x, Decision (P x)}.
Lemma list_filter_all l : Forall P l → filter P l = l.
Proof.
  induction 1 as [|x l Hx Hl IH]; [done|]. by rewrite filter_cons_True, IH.
Qed.
Lemma list_filter_none l : Forall (λ x, ¬ P x) l → filter P l = [].
Proof.
  induction 1 as [|x l Hx Hl IH]; [done|]. by rewrite filter_cons_False.
Qed.
End filters.

(** [forallb] and positions. *)
Lemma forallb_false_lookup {A} (f : A → bool) l :
  forallb f l = false → ∃ j x, l !! j = Some x ∧ f x = false.
Proof.
  induction l as [|x l IH]; simpl; [done|]. destruct (f x) eqn:E; simpl.
  - intros (j & y & ? & ?)%IH. by exists (S j), y.
  - intros _. by exists 0, x.
Qed.

Lemma forallb_lookup {A} (f : A → bool) l j x : forallb f l = true → l !! j = Some x → f x = true.
Proof.
  intros H Hj. apply Is_true_true. apply Is_true_true, forallb_True in H.
  by eapply (proj1 (Forall_lookup _ _) H).
Qed.

Lemma NoDup_fmap_elem {A B} (f : A → B) l x y :
  NoDup (f <$> l) → x ∈ l → y ∈ l → f x = f y → x = y.
Proof.
  intros Hnd (i & Hi)%list_elem_of_lookup (j & Hj)%list_elem_of_lookup Hxy.
  assert (i = j) as ->; [|congruence].
  apply (NoDup_lookup (f <$> l) i j (f x)); [done| |];
    rewrite list_lookup_fmap; [rewrite Hi|rewrite Hj]; simpl; congruence.
Qed.

(** Rule induction over the reachable states of a step relation. *)
Lemma rtc_invariant {S} (step : relation S) (I : S → Prop) :
  (∀ s s', step s s' → I s → I s') → ∀ s s', rtc step s s' → I s → I s'.
Proof. intros Hstep s s' Hr. induction Hr; eauto. Qed.

(** Two lists sorted by the same strict order on an injective key, with the same
    elements, are equal: which sorting algorithm produced them does not matter. *)
Section sorted_unique.
Context {A : Type} (R : relation A).
Lemma StronglySorted_perm_eq (l1 l2 : list A) :
  (∀ x y, x ∈ l1 → y ∈ l1 → R x y → R y x → x = y) →
  StronglySorted R l1 → StronglySorted R l2 → l1 ≡ₚ l2 → l1 = l2.
Proof.
  revert l2. induction l1 as [|x l1 IH]; intros l2 Hanti Hs1 Hs2 Hp.
  { symmetry in Hp. by apply Permutation_nil_r in Hp. }
  destruct l2 as [|y l2]; [by apply Permutation_nil_r in Hp|].
  apply StronglySorted_inv in Hs1 as [Hs1 Hx].
  apply StronglySorted_inv in Hs2 as [Hs2 Hy].
  rewrite Forall_forall in Hx, Hy.
  assert (x = y) as ->.
  { assert (x ∈ y :: l2) as Hin by (rewrite <- Hp; set_solver).
    assert (y ∈ x :: l1) as Hin' by (rewrite Hp; set_solver).
    apply elem_of_cons in Hin as [->|Hin]; [done|].
    apply elem_of_cons in Hin' as [->|Hin']; [done|].
    apply Hanti; set_solver. }
  f_equal. apply IH; [set_solver|done|done|]. by eapply Permutation_cons_inv.
Qed.
End sorted_unique.
