(* ===== verification/Types.v ===== *)
(** The data of [src/src/types]: manifest entries (entry.go) and chunks (chunk.go).
    [types.BuildChunks] is in ChunkBuilder.v. *)
From S2P Require Import Prelude.

(** * constants/constants.go *)

Definition ShutdownTimeout : Duration := (10 * Second)%Z.
Definition DNSLookupTimeout : Duration := (2 * Second)%Z.
Definition PeerWaitDuration : Duration := (200 * Millisecond)%Z.
Definition MaxPeerNumConcurrent : Z := 16.
Definition MaxLocalNumConcurrent : Z := 16.
Definition MaxChunkSize : Z := 134217728.
Definition DefaultPort : Z := 10090.
Definition DefaultDigest : string := "xxh3".
Definition PeerTransferTimeout : Duration := (20 * Second)%Z.
Definition DefaultMaxConnsPerHost : Z := 2.
Definition HttpConnectTimeout : Duration := (500 * Millisecond)%Z.
Definition HttpIdleConnTimeout : Duration := (5 * Second)%Z.

(** * types/entry.go *)

Record DirEntry := mkDirEntry { DirEntry_Name : string; DirEntry_Perm : Z }.
Record SymlinkEntry := mkSymlinkEntry
  { SymlinkEntry_Name : string; SymlinkEntry_SymlinkTo : string }.
Record EmptyFileEntry := mkEmptyFileEntry
  { EmptyFileEntry_Name : string; EmptyFileEntry_Perm : Z }.
(** [remainingChunkCount] is an [atomic.Int32] and is not part of the JSON form. *)
Record FileEntry := mkFileEntry
  { FileEntry_Name : string; FileEntry_Size : Z; FileEntry_Perm : Z;
    FileEntry_remainingChunkCount : Z }.

(** The [Entry] interface: what [entry.(type)] can be. *)
Inductive Entry :=
| EDir (e : DirEntry)
| ESymlink (e : SymlinkEntry)
| EEmptyFile (e : EmptyFileEntry)
| EFile (e : FileEntry).

Definition GetName (e : Entry) : string :=
  match e with
  | EDir e => DirEntry_Name e
  | ESymlink e => SymlinkEntry_Name e
  | EEmptyFile e => EmptyFileEntry_Name e
  | EFile e => FileEntry_Name e
  end.

#[export] Instance DirEntry_eq_dec : EqDecision DirEntry.
Proof. solve_decision. Defined.
#[export] Instance SymlinkEntry_eq_dec : EqDecision SymlinkEntry.
Proof. solve_decision. Defined.
#[export] Instance EmptyFileEntry_eq_dec : EqDecision EmptyFileEntry.
Proof. solve_decision. Defined.
#[export] Instance FileEntry_eq_dec : EqDecision FileEntry.
Proof. solve_decision. Defined.
#[export] Instance Entry_eq_dec : EqDecision Entry.
Proof. solve_decision. Defined.

(** [e.Copy()] drops the counter. *)
Definition FileEntry_Copy (e : FileEntry) : FileEntry :=
  mkFileEntry (FileEntry_Name e) (FileEntry_Size e) (FileEntry_Perm e) 0.

Definition set_remainingChunkCount (n : Z) (e : FileEntry) : FileEntry :=
  mkFileEntry (FileEntry_Name e) (FileEntry_Size e) (FileEntry_Perm e) n.

(** [atomic.Int32.Add] returns the new value. *)
Definition IncrementRemainingChunkCount (e : FileEntry) : FileEntry * Z :=
  let n := (FileEntry_remainingChunkCount e +i32 1)%go in
  (set_remainingChunkCount n e, n).
Definition DecrementRemainingChunkCount (e : FileEntry) : FileEntry * Z :=
  let n := (FileEntry_remainingChunkCount e +i32 (-1))%go in
  (set_remainingChunkCount n e, n).

(** * types/chunk.go *)

Record FileRange := mkFileRange { FileIndex : nat; StartOffset : Z; EndOffset : Z }.

Inductive ChunkStatus := ChunkStatusPending | ChunkStatusDownloading | ChunkStatusDone.

#[export] Instance FileRange_eq_dec : EqDecision FileRange.
Proof. solve_decision. Defined.
#[export] Instance ChunkStatus_eq_dec : EqDecision ChunkStatus.
Proof. solve_decision. Defined.

Record Chunk := mkChunk
  { FileRanges : list FileRange; status : ChunkStatus; updatedAt : Time }.

#[export] Instance Chunk_eq_dec : EqDecision Chunk.
Proof. solve_decision. Defined.

(** [Chunk{}] *)
Definition Chunk_zero : Chunk := mkChunk [] ChunkStatusPending time_zero.

(** [c.copy()]: the ranges, with a fresh status. *)
Definition Chunk_copy (c : Chunk) : Chunk :=
  mkChunk (FileRanges c) ChunkStatusPending time_zero.

(** [length += EndOffset - StartOffset] over the ranges, in int64. *)
Definition Chunk_Size (c : Chunk) : Z :=
  foldl (λ length r, (length +i64 (EndOffset r -i64 StartOffset r)))%go 0%Z
    (FileRanges c).

Definition GetStatus (c : Chunk) : ChunkStatus := status c.
Definition SetStatus (s : ChunkStatus) (c : Chunk) : Chunk :=
  mkChunk (FileRanges c) s (updatedAt c).
(** [CompareAndSwap] *)
Definition UpdateStatus (old new : ChunkStatus) (c : Chunk) : Chunk * bool :=
  if decide (status c = old) then (SetStatus new c, true) else (c, false).
Definition GetUpdatedAt (c : Chunk) : Time := updatedAt c.
Definition SetUpdatedAt (t : Time) (c : Chunk) : Chunk :=
  mkChunk (FileRanges c) (status c) t.

(** * transfer/manifest.go: the manifest *)

Record Manifest := mkManifest {
  MajorVersion : string;
  MinorVersion : string;
  ChunkSize : Z;
  ChunkChecksum : Z;
  TransferChunkCount : Z;
  Dirs : list DirEntry;
  Symlinks : list SymlinkEntry;
  EmptyFiles : list EmptyFileEntry;
  Files : list FileEntry
}.

#[export] Instance Manifest_eq_dec : EqDecision Manifest.
Proof. solve_decision. Defined.

Definition set_Files (files : list FileEntry) (m : Manifest) : Manifest :=
  mkManifest (MajorVersion m) (MinorVersion m) (ChunkSize m) (ChunkChecksum m)
    (TransferChunkCount m) (Dirs m) (Symlinks m) (EmptyFiles m) files.

(** * Facts *)

(** The length of a range and the exact (unbounded) length of a list of ranges. *)
Definition range_len (r : FileRange) : Z := (EndOffset r - StartOffset r)%Z.
Definition ranges_len (l : list FileRange) : Z := Zsum (range_len <$> l).

Lemma ranges_len_app l k : ranges_len (l ++ k) = (ranges_len l + ranges_len k)%Z.
Proof. unfold ranges_len. by rewrite fmap_app, Zsum_app. Qed.
#[export] Hint Rewrite ranges_len_app : go.


Lemma ranges_len_cons r l : ranges_len (r :: l) = (range_len r + ranges_len l)%Z.
Proof. done. Qed.

Lemma ranges_len_nonneg l : Forall (λ r, 0 ≤ range_len r)%Z l → (0 ≤ ranges_len l)%Z.
Proof. intros H. apply Zsum_nonneg. by rewrite Forall_fmap. Qed.

Lemma Size_loop_exact l acc :
  (0 ≤ acc)%Z → Forall (λ r, 0 ≤ range_len r)%Z l → (acc + ranges_len l < 2 ^ 63)%Z →
  foldl (λ length r, (length +i64 (EndOffset r -i64 StartOffset r)))%go acc l
  = (acc + ranges_len l)%Z.
Proof.
  revert acc. induction l as [|r l IH]; intros acc Hacc Hl Hs; simpl.
  { unfold ranges_len. simpl. lia. }
  apply Forall_cons in Hl as [Hr Hl]. rewrite ranges_len_cons in *.
  pose proof (ranges_len_nonneg l Hl). unfold range_len in Hr, Hs |- * at 1.
  rewrite IH; wrap_simpl; [lia|lia|done|lia].
Qed.

(** When the exact sum fits in an int64, [Size] computes it. *)
Lemma Chunk_Size_exact c :
  Forall (λ r, 0 ≤ range_len r)%Z (FileRanges c) →
  (ranges_len (FileRanges c) < 2 ^ 63)%Z →
  Chunk_Size c = ranges_len (FileRanges c).
Proof. intros. unfold Chunk_Size. by rewrite Size_loop_exact. Qed.
