(* ===== verification/Bytes.v ===== *)
(** Byte strings, positioned reads and writes on a file's content, [io.Reader] and the
    error-and-state monad in which the effectful code is written. *)
From S2P Require Import Prelude.
From Stdlib Require Strings.Byte String.

#[export] Instance byte_eq_dec : EqDecision Byte.byte := Byte.byte_eq_dec.

Abbreviation bytes := (list Byte.byte) (only parsing).

(** * Bytes, strings and numbers *)

(** [[]byte(s)] and [string(b)] *)
Definition string_bytes (s : string) : bytes := String.list_byte_of_string s.
Definition bytes_string (b : bytes) : string := String.string_of_list_byte b.

Lemma bytes_string_bytes s : bytes_string (string_bytes s) = s.
Proof. apply String.string_of_list_byte_of_string. Qed.

Lemma string_bytes_string b : string_bytes (bytes_string b) = b.
Proof. apply String.list_byte_of_string_of_list_byte. Qed.

Lemma length_string_bytes s : length (string_bytes s) = String.length s.
Proof.
  unfold string_bytes, String.list_byte_of_string. rewrite length_map.
  induction s as [|c s IH]; [done|]. cbn. by rewrite IH.
Qed.

(** [byte(z)] keeps the low eight bits; [byte_val] is the conversion back to an integer. *)
Definition byte_of (z : Z) : Byte.byte :=
  default Byte.x00 (Byte.of_N (Z.to_N (wrapu 8 z))).
Definition byte_val (b : Byte.byte) : Z := Z.of_N (Byte.to_N b).

Lemma byte_val_bound b : (0 ≤ byte_val b < 256)%Z.
Proof. unfold byte_val. pose proof (Byte.to_N_bounded b). lia. Qed.

Lemma byte_val_of z : byte_val (byte_of z) = wrapu 8 z.
Proof.
  unfold byte_val, byte_of. pose proof (Z.mod_pos_bound z (2 ^ 8) ltac:(lia)) as Hz.
  fold (wrapu 8 z) in Hz. destruct (Byte.of_N _) as [b|] eqn:E; cbn.
  - apply Byte.to_of_N in E. rewrite E. lia.
  - apply Byte.of_N_None_iff in E. lia.
Qed.

Lemma byte_of_val b : byte_of (byte_val b) = b.
Proof.
  unfold byte_of, byte_val. rewrite wrapu_small.
  - by rewrite N2Z.id, Byte.of_to_N.
  - pose proof (Byte.to_N_bounded b). lia.
Qed.

(** * Positioned reads and writes *)

(** What a reader positioned at [off] and limited to [size] bytes delivers. *)
Definition read_at (off size : Z) (content : bytes) : bytes :=
  take (Z.to_nat size) (drop (Z.to_nat off) content).

(** Writing [data] at [off]: a hole before it reads as zeros; writing nothing does not
    extend the file. *)
Definition write_at (off : Z) (data content : bytes) : bytes :=
  if decide (data = []) then content
  else
    let off := Z.to_nat off in
    take off content ++ replicate (off - length content) Byte.x00 ++ data ++
      drop (off + length data) content.

(** [ftruncate]: cut, or extend with zeros. *)
Definition truncate_to (size : Z) (content : bytes) : bytes :=
  take (Z.to_nat size) content ++ replicate (Z.to_nat size - length content) Byte.x00.

Lemma length_truncate_to size c : length (truncate_to size c) = Z.to_nat size.
Proof. unfold truncate_to. rewrite length_app, length_take, length_replicate. lia. Qed.

Lemma length_read_at off size c :
  (0 ≤ off)%Z → (0 ≤ size)%Z → (off + size ≤ Z.of_nat (length c))%Z →
  length (read_at off size c) = Z.to_nat size.
Proof. intros. unfold read_at. rewrite length_take, length_drop. lia. Qed.

Lemma write_at_inside off data c :
  (0 ≤ off)%Z → (off + Z.of_nat (length data) ≤ Z.of_nat (length c))%Z →
  write_at off data c =
    take (Z.to_nat off) c ++ data ++ drop (Z.to_nat off + length data) c.
Proof.
  intros Ho Hl. unfold write_at. case_decide as Hd.
  - subst data. simpl. rewrite Nat.add_0_r. by rewrite take_drop.
  - replace (Z.to_nat off - length c) with 0 by lia. done.
Qed.

Lemma length_write_at off data c :
  (0 ≤ off)%Z → (off + Z.of_nat (length data) ≤ Z.of_nat (length c))%Z →
  length (write_at off data c) = length c.
Proof.
  intros. rewrite write_at_inside by done.
  rewrite !length_app, length_take, length_drop. lia.
Qed.

(** A write inside the file, byte by byte. *)
Lemma lookup_write_at off data c k :
  (0 ≤ off)%Z → (off + Z.of_nat (length data) ≤ Z.of_nat (length c))%Z →
  write_at off data c !! k =
    if decide (off ≤ Z.of_nat k < off + Z.of_nat (length data))%Z
    then data !! (k - Z.to_nat off) else c !! k.
Proof.
  intros Ho Hl. rewrite write_at_inside by done. case_decide as Hk.
  - rewrite lookup_app_r by (rewrite length_take; lia).
    rewrite length_take, Nat.min_l by lia. rewrite lookup_app_l by lia. done.
  - destruct (decide (Z.of_nat k < off)%Z).
    + rewrite lookup_app_l by (rewrite length_take; lia). by rewrite lookup_take_lt by lia.
    + rewrite lookup_app_r by (rewrite length_take; lia).
      rewrite length_take, Nat.min_l by lia. rewrite lookup_app_r by lia.
      rewrite lookup_drop. f_equal. lia.
Qed.

Lemma lookup_read_at off size c k :
  (0 ≤ off)%Z →
  read_at off size c !! k =
    if decide (Z.of_nat k < size)%Z then c !! (Z.to_nat off + k) else None.
Proof.
  intros. unfold read_at. case_decide.
  - rewrite lookup_take_lt by lia. by rewrite lookup_drop.
  - rewrite lookup_take_ge by lia. done.
Qed.

(** Reading back what was written. *)
Lemma read_write_same off data c :
  (0 ≤ off)%Z → (off + Z.of_nat (length data) ≤ Z.of_nat (length c))%Z →
  read_at off (Z.of_nat (length data)) (write_at off data c) = data.
Proof.
  intros. apply list_eq. intros k. rewrite lookup_read_at, lookup_write_at by done.
  case_decide.
  - rewrite decide_True by lia. f_equal. lia.
  - symmetry. apply lookup_ge_None. lia.
Qed.

(** A write elsewhere is not seen. *)
Lemma read_write_disjoint off size off' data c :
  (0 ≤ off)%Z → (0 ≤ off')%Z → (off' + Z.of_nat (length data) ≤ Z.of_nat (length c))%Z →
  (off + size ≤ off' ∨ off' + Z.of_nat (length data) ≤ off)%Z →
  read_at off size (write_at off' data c) = read_at off size c.
Proof.
  intros. apply list_eq. intros k. rewrite !lookup_read_at by done.
  case_decide; [|done]. rewrite lookup_write_at by done.
  rewrite decide_False by lia. done.
Qed.

(** Reading all of a file piece by piece. *)
Lemma read_at_app off s1 s2 c :
  (0 ≤ off)%Z → (0 ≤ s1)%Z → (0 ≤ s2)%Z →
  read_at off s1 c ++ read_at (off + s1) s2 c = read_at off (s1 + s2) c.
Proof.
  intros. unfold read_at. rewrite !Z2Nat.inj_add by lia.
  rewrite <- drop_drop. by rewrite take_take_drop.
Qed.

Lemma read_at_all size c :
  Z.of_nat (length c) = size → read_at 0 size c = c.
Proof. intros <-. unfold read_at. simpl. rewrite Nat2Z.id. by apply take_ge. Qed.

(** * The monad of effectful code

    A world is threaded; a call returns a value, an error or a panic. *)

Definition io (W A : Type) : Type := W → result A * W.

Section io.
Context {W : Type}.

Definition io_ret {A} (a : A) : io W A := λ w, (Ok a, w).
Definition io_fail {A} (e : error) : io W A := λ w, (Err e, w).
Definition io_panic {A} (s : string) : io W A := λ w, (Panic s, w).
Definition io_lift {A} (r : result A) : io W A := λ w, (r, w).
Definition io_bind_def {A B} (f : A → io W B) (m : io W A) : io W B := λ w,
  let '(r, w) := m w in
  match r with
  | Ok a => f a w
  | Err e => (Err e, w)
  | Panic s => (Panic s, w)
  end.
(** Keep the error as a value: [x, err := f()] without an early return. *)
Definition io_try {A} (m : io W A) : io W (result A) := λ w,
  let '(r, w) := m w in
  match r with Panic s => (Panic s, w) | _ => (Ok r, w) end.
(** Call and drop the error. *)
Definition io_ignore {A} (m : io W A) : io W unit := io_bind_def (λ _, io_ret ()) (io_try m).
(** [for _, x := range l { if err := f(x); err != nil { return err } }] *)
Fixpoint io_foreach {A} (f : A → io W unit) (l : list A) : io W unit :=
  match l with
  | [] => io_ret ()
  | x :: l => io_bind_def (λ _, io_foreach f l) (f x)
  end.
End io.

#[export] Instance io_mret {W} : MRet (io W) := @io_ret W.
#[export] Instance io_mbind {W} : MBind (io W) := @io_bind_def W.

Lemma io_bind_unfold {W A B} (m : io W A) (f : A → io W B) w :
  (m ≫= f) w = match (m w).1 with
               | Ok a => f a (m w).2
               | Err e => (Err e, (m w).2)
               | Panic s => (Panic s, (m w).2)
               end.
Proof. unfold mbind, io_mbind, io_bind_def. by destruct (m w) as [[] ?]. Qed.

Lemma io_bind_ok {W A B} (m : io W A) (f : A → io W B) w a w' :
  m w = (Ok a, w') → (m ≫= f) w = f a w'.
Proof. intros H. rewrite io_bind_unfold. by rewrite H. Qed.

(** [wp] style: a property of every run of [m] from [w]. *)
Definition post {W A} (m : io W A) (w : W) (Q : result A → W → Prop) : Prop :=
  Q (m w).1 (m w).2.

Lemma post_bind {W A B} (m : io W A) (f : A → io W B) w Q :
  post m w (λ r w', match r with
                    | Ok a => post (f a) w' Q
                    | Err e => Q (Err e) w'
                    | Panic s => Q (Panic s) w'
                    end) →
  post (m ≫= f) w Q.
Proof. unfold post. rewrite io_bind_unfold. by destruct (m w) as [[] ?]. Qed.

Lemma post_run {W A B} (m : io W A) (f : A → io W B) w a w' Q :
  m w = (Ok a, w') → post (f a) w' Q → post (m ≫= f) w Q.
Proof. intros H. unfold post. by rewrite (io_bind_ok _ _ _ _ _ H). Qed.

Lemma post_ret {W A} (a : A) w (Q : result A → W → Prop) :
  Q (Ok a) w → post (io_ret a) w Q.
Proof. done. Qed.

Lemma post_mono {W A} (m : io W A) w (Q Q' : result A → W → Prop) :
  post m w Q → (∀ r w', Q r w' → Q' r w') → post m w Q'.
Proof. unfold post. auto. Qed.

Lemma post_and {W A} (m : io W A) w (Q Q' : result A → W → Prop) :
  post m w Q → post m w Q' → post m w (λ r w', Q r w' ∧ Q' r w').
Proof. done. Qed.

(** Calls that do not panic. *)
Definition calm {A} (r : result A) : Prop := ∀ msg, r ≠ Panic msg.

Lemma calm_bind {W A B} (m : io W A) (f : A → io W B) w :
  post m w (λ r _, calm r) → (∀ a w, post (f a) w (λ r _, calm r)) →
  post (m ≫= f) w (λ r _, calm r).
Proof.
  intros Hm Hf. apply post_bind. eapply post_mono; [exact Hm|].
  intros [a|e|msg] w' Hc; [apply Hf|done|by destruct (Hc msg)].
Qed.

Lemma calm_try {W A} (m : io W A) w : post m w (λ r _, calm r) → post (io_try m) w (λ r _, calm r).
Proof.
  unfold post, io_try. destruct (m w) as [[a|e|msg] w']; intros Hc; [done..|by destruct (Hc msg)].
Qed.

Lemma calm_try_bind {W A B} (m : io W A) (f : result A → io W B) w :
  post m w (λ r _, calm r) → (∀ r w, calm r → post (f r) w (λ r _, calm r)) →
  post (io_try m ≫= f) w (λ r _, calm r).
Proof.
  intros Hm Hf. unfold post in *. rewrite io_bind_unfold. unfold io_try.
  destruct (m w) as [[a|e|msg] w']; cbn in *; [by apply Hf|by apply Hf|by destruct (Hm msg)].
Qed.

Lemma calm_ignore {W A} (m : io W A) w :
  post m w (λ r _, calm r) → post (io_ignore m) w (λ r _, calm r).
Proof. intros Hm. apply (calm_bind (io_try m)); [by apply calm_try|done]. Qed.

Lemma calm_lift {W A} (r : result A) w : calm r → post (io_lift (W := W) r) w (λ r _, calm r).
Proof. done. Qed.
(** An invariant kept by every element is kept by the loop. *)
Lemma post_foreach {W A} (f : A → io W unit) (I : W → Prop) l w :
  (∀ x w, x ∈ l → I w → post (f x) w (λ _ w', I w')) → I w →
  post (io_foreach f l) w (λ _ w', I w').
Proof.
  intros Hf. revert w. induction l as [|x l IH]; intros w Hw; [done|].
  change (io_foreach f (x :: l)) with (f x ≫= λ _, io_foreach f l).
  apply post_bind. eapply post_mono; [apply Hf; [set_solver|done]|].
  intros [] w' Hw'; [|done..]. apply IH; [set_solver|done].
Qed.

(** * io.Reader

    A reader holds the bytes it has left and how it ends: [io.EOF], or an error. Each
    [Read] may return fewer bytes than asked for; [rd_frags] says how many (at least one)
    and runs over to full reads. *)
Record reader := mkReader
  { rd_data : bytes; rd_frags : list nat; rd_err : option error }.

Definition Read (n : nat) (r : reader) : (bytes * option error) * reader :=
  match rd_data r with
  | [] => (([], Some (default io_EOF (rd_err r))), r)
  | _ =>
    let k := match rd_frags r with [] => n | f :: _ => min n (S f) end in
    ((take k (rd_data r), None),
     mkReader (drop k (rd_data r)) (tail (rd_frags r)) (rd_err r))
  end.

(** [io.LimitReader(r, n)] *)
Definition io_LimitReader (n : Z) (r : reader) : reader :=
  mkReader (take (Z.to_nat n) (rd_data r)) (rd_frags r)
    (if decide (Z.to_nat n ≤ length (rd_data r)) then None else rd_err r).

(** What is left of [r] after [n] bytes were taken through a limited reader. *)
Definition rd_skip (n : nat) (r : reader) : reader :=
  mkReader (drop n (rd_data r)) [] (rd_err r).
