(* ===== verification/GoStrings.v ===== *)
(** The functions of Go's [strings], [strconv] and [path/filepath] packages that the
    program calls, on byte strings. *)
From S2P Require Import Prelude.
From Stdlib Require Export Ascii.
From Stdlib Require Import DecimalString DecimalN.
From Stdlib Require String.

(** * package strings *)

(** [strings.Split(s, sep)] for a one-byte separator. *)
Fixpoint strings_Split (sep : ascii) (s : string) : list string :=
  match s with
  | "" => [""]
  | String c s =>
    if Ascii.eqb c sep then "" :: strings_Split sep s
    else match strings_Split sep s with
         | h :: t => String c h :: t
         | [] => [String c ""]
         end
  end.

(** [strings.SplitN(s, sep, 2)] for a one-byte separator. *)
Fixpoint strings_SplitN2 (sep : ascii) (s : string) : list string :=
  match s with
  | "" => [""]
  | String c s =>
    if Ascii.eqb c sep then [""; s]
    else match strings_SplitN2 sep s with
         | h :: t => String c h :: t
         | [] => [String c ""]
         end
  end.

Definition strings_HasPrefix (prefix s : string) : bool := String.prefix prefix s.

Fixpoint string_drop (n : nat) (s : string) : string :=
  match n, s with
  | S n, String _ s => string_drop n s
  | _, _ => s
  end.

Definition string_take (n : nat) (s : string) : string := String.substring 0 n s.

Definition strings_TrimPrefix (s prefix : string) : string :=
  if strings_HasPrefix prefix s then string_drop (String.length prefix) s else s.

Definition strings_HasSuffix (suffix s : string) : bool :=
  (String.length suffix <=? String.length s)%nat &&
  String.eqb (string_drop (String.length s - String.length suffix) s) suffix.

Definition strings_TrimSuffix (s suffix : string) : string :=
  if strings_HasSuffix suffix s
  then string_take (String.length s - String.length suffix) s else s.

(** The UTF-8 encodings of the runes with [unicode.IsSpace]. *)
Definition byte_string (l : list N) : string :=
  String.string_of_list_ascii (ascii_of_N <$> l).
Definition space_runes : list string :=
  Eval vm_compute in map byte_string
    [[9]; [10]; [11]; [12]; [13]; [32]; [194; 133]; [194; 160]; [225; 154; 128];
     [226; 128; 128]; [226; 128; 129]; [226; 128; 130]; [226; 128; 131]; [226; 128; 132];
     [226; 128; 133]; [226; 128; 134]; [226; 128; 135]; [226; 128; 136]; [226; 128; 137];
     [226; 128; 138]; [226; 128; 168]; [226; 128; 169]; [226; 128; 175]; [226; 129; 159];
     [227; 128; 128]]%N.

(** ** UTF-8 *)

Definition byte_in (lo hi : N) (c : ascii) : bool :=
  (lo <=? N_of_ascii c)%N && (N_of_ascii c <=? hi)%N.

(** The length of the rune [s] starts with, as package unicode/utf8 decodes it: 0 when the first
    byte does not start a rune. *)
Definition rune_size (s : string) : nat :=
  match s with
  | String a s =>
    if byte_in 0 127 a then 1
    else if byte_in 194 223 a then
      match s with String b _ => if byte_in 128 191 b then 2 else 0 | _ => 0 end
    else if byte_in 224 239 a then
      let lo := if (N_of_ascii a =? 224)%N then 160%N else 128%N in
      let hi := if (N_of_ascii a =? 237)%N then 159%N else 191%N in
      match s with
      | String b (String c _) => if byte_in lo hi b && byte_in 128 191 c then 3 else 0
      | _ => 0
      end
    else if byte_in 240 244 a then
      let lo := if (N_of_ascii a =? 240)%N then 144%N else 128%N in
      let hi := if (N_of_ascii a =? 244)%N then 143%N else 191%N in
      match s with
      | String b (String c (String d _)) =>
        if byte_in lo hi b && byte_in 128 191 c && byte_in 128 191 d then 4 else 0
      | _ => 0
      end
    else 0
  | _ => 0
  end.

(** The replacement character U+FFFD. *)
Definition RuneError : string := byte_string [239; 191; 189]%N.

(** [utf8.ValidString], and a string with every byte that is not part of a rune replaced, as
    encoding/json documents it. [skip] bytes are left of the rune that was decoded last. *)
Fixpoint utf8_valid (skip : nat) (s : string) : bool :=
  match s, skip with
  | "", _ => true
  | String c t, S skip => utf8_valid skip t
  | String c t, O => match rune_size s with O => false | S skip => utf8_valid skip t end
  end.
Definition utf8_ValidString : string → bool := utf8_valid 0.

Fixpoint utf8_replace (skip : nat) (s : string) : string :=
  match s, skip with
  | "", _ => ""
  | String c t, S skip => String c (utf8_replace skip t)
  | String c t, O =>
    match rune_size s with
    | O => RuneError +:+ utf8_replace 0 t
    | S skip => String c (utf8_replace skip t)
    end
  end.
Definition utf8_coerce : string → string := utf8_replace 0.

(** Nothing happens to valid strings. *)
Lemma utf8_coerce_valid s : utf8_ValidString s = true → utf8_coerce s = s.
Proof.
  unfold utf8_ValidString, utf8_coerce. generalize 0. induction s as [|c s IH]; intros skip Hv; [done|].
  destruct skip as [|skip].
  - cbn [utf8_valid utf8_replace] in *. destruct (rune_size _) as [|skip]; [done|]. f_equal. by apply IH.
  - cbn [utf8_valid utf8_replace] in *. f_equal. by apply IH.
Qed.

(** ** Spaces *)

(** [strings.TrimSpace]: a rune comes off an end at a time; the length is enough fuel. *)
Fixpoint trim_left (fuel : nat) (s : string) : string :=
  match fuel with
  | O => s
  | S fuel =>
    match find (λ p, strings_HasPrefix p s) space_runes with
    | Some p => trim_left fuel (string_drop (String.length p) s)
    | None => s
    end
  end.
Fixpoint trim_right (fuel : nat) (s : string) : string :=
  match fuel with
  | O => s
  | S fuel =>
    match find (λ p, strings_HasSuffix p s) space_runes with
    | Some p => trim_right fuel (string_take (String.length s - String.length p) s)
    | None => s
    end
  end.
Definition strings_TrimSpace (s : string) : string :=
  let s := trim_left (String.length s) s in trim_right (String.length s) s.

(** [strings.ToLower] on the ASCII letters; the two non-ASCII letters whose lower case is
    ASCII (it is i or k) do not matter to the names it is compared with. *)
Definition ascii_lower (c : ascii) : ascii :=
  let n := N_of_ascii c in
  if (65 <=? n)%N && (n <=? 90)%N then ascii_of_N (n + 32) else c.
Fixpoint strings_ToLower (s : string) : string :=
  match s with "" => "" | String c s => String (ascii_lower c) (strings_ToLower s) end.

(** [strings.Replace(s, old, new, -1)] for a non-empty [old]: left to right, without
    overlaps; [skip] counts the bytes of a match still to be passed over. *)
Fixpoint replace_from (old new : string) (skip : nat) (s : string) : string :=
  match s with
  | "" => ""
  | String c s' =>
    match skip with
    | S skip => replace_from old new skip s'
    | O =>
      if strings_HasPrefix old s then new +:+ replace_from old new (String.length old - 1) s'
      else String c (replace_from old new 0 s')
    end
  end.
Definition strings_Replace (s old new : string) : string := replace_from old new 0 s.

(** * package strconv *)

(** [strconv.FormatUint(n, 10)], and what [%d] prints for an unsigned number. *)
Definition FormatUint (n : Z) : string := NilZero.string_of_uint (N.to_uint (Z.to_N n)).
(** [strconv.FormatInt(n, 10)] and [strconv.Itoa]. *)
Definition FormatInt (n : Z) : string :=
  if (n <? 0)%Z then String "-" (FormatUint (- n)) else FormatUint n.

(** [strconv.ParseUint(s, 10, 64)] *)
Definition ParseUint (s : string) : result Z :=
  let err := Err (fmt_Errorf "strconv.ParseUint: parsing %q" [AStr s]) in
  match NilZero.uint_of_string s with
  | Some d =>
    let n := Z.of_N (N.of_uint d) in
    if (n <? 2 ^ 64)%Z then Ok n else err
  | None => err
  end.

(** [strconv.Atoi]: an optional sign and digits, in the range of an int64. *)
Definition Atoi (s : string) : result Z :=
  let err := Err (fmt_Errorf "strconv.Atoi: parsing %q" [AStr s]) in
  let signed sign digits :=
    match NilZero.uint_of_string digits with
    | Some d =>
      let n := (sign * Z.of_N (N.of_uint d))%Z in
      if decide (int64_range n) then Ok n else err
    | None => err
    end in
  match s with
  | String c digits =>
    if Ascii.eqb c "-" then signed (-1)%Z digits
    else if Ascii.eqb c "+" then signed 1%Z digits
    else signed 1%Z s
  | "" => err
  end.

(** * package path/filepath (Unix) *)

(** [strings.Join(elems, "/")] *)
Fixpoint join_slash (elems : list string) : string :=
  match elems with
  | [] => ""
  | [e] => e
  | e :: elems => e +:+ String "/" (join_slash elems)
  end.

Definition is_rooted (path : string) : bool :=
  match path with String c _ => Ascii.eqb c "/" | "" => false end.

(** One path element against the stack of the elements kept so far (top first). *)
Definition clean_step (rooted : bool) (stack : list string) (elem : string) : list string :=
  if decide (elem = "" ∨ elem = ".") then stack
  else if decide (elem = "..") then
    match stack with
    | top :: rest => if decide (top = "..") then elem :: stack else rest
    | [] => if rooted then [] else [elem]
    end
  else elem :: stack.

Definition filepath_Clean (path : string) : string :=
  let rooted := is_rooted path in
  let elems := reverse (foldl (clean_step rooted) [] (strings_Split "/" path)) in
  if rooted then String "/" (join_slash elems)
  else match elems with [] => "." | _ => join_slash elems end.

(** [filepath.Join(a, b)] *)
Definition filepath_Join (a b : string) : string :=
  if decide (a = "") then (if decide (b = "") then "" else filepath_Clean b)
  else filepath_Clean (a +:+ String "/" b).

(** * Facts *)

Lemma uint_of_FormatUint n :
  ∃ d, NilZero.uint_of_string (FormatUint n) = Some d ∧ N.of_uint d = Z.to_N n.
Proof.
  unfold FormatUint. pose proof (Unsigned.of_to (Z.to_N n)) as Hto.
  destruct (N.to_uint (Z.to_N n)) eqn:E;
    [exists Decimal.zero; split; [done|by rewrite <- Hto]|..];
    (eexists; split; [by apply NilZero.usu|done]).
Qed.

Lemma ParseUint_FormatUint n : uint64_range n → ParseUint (FormatUint n) = Ok n.
Proof.
  intros [H0 H1]. unfold ParseUint. destruct (uint_of_FormatUint n) as (d & -> & ->).
  rewrite Z2N.id by done. by rewrite (proj2 (Z.ltb_lt n _)).
Qed.

Lemma FormatUint_inj m n :
  uint64_range m → uint64_range n → FormatUint m = FormatUint n → m = n.
Proof.
  intros Hm Hn H. apply (f_equal ParseUint) in H.
  rewrite !ParseUint_FormatUint in H by done. by injection H.
Qed.

(** The bytes of a string. *)
Abbreviation chars := String.list_ascii_of_string (only parsing).

Lemma chars_app a b : chars (a +:+ b) = chars a ++ chars b.
Proof. induction a as [|c a IH]; simpl; [done|]. by rewrite IH. Qed.

Lemma digits_of_uint d sep :
  (N_of_ascii sep < 48 ∨ 57 < N_of_ascii sep)%N →
  sep ∉ chars (NilEmpty.string_of_uint d).
Proof.
  intros Hsep. induction d; simpl; [by apply not_elem_of_nil|..];
    (apply not_elem_of_cons; split; [|done]); intros ->; by destruct Hsep as [H|H]; vm_compute in H.
Qed.

(** A printed number has only digits in it. *)
Lemma FormatUint_digits n sep :
  (N_of_ascii sep < 48 ∨ 57 < N_of_ascii sep)%N → sep ∉ chars (FormatUint n).
Proof.
  intros Hsep. unfold FormatUint, NilZero.string_of_uint.
  destruct (N.to_uint _) eqn:E; [|rewrite <- E; by apply digits_of_uint..].
  simpl. apply not_elem_of_cons; split; [|by apply not_elem_of_nil].
  intros ->. by destruct Hsep as [H|H]; vm_compute in H.
Qed.

Lemma Atoi_FormatInt n : (0 ≤ n < 2 ^ 63)%Z → Atoi (FormatInt n) = Ok n.
Proof.
  intros Hn. unfold FormatInt. rewrite (proj2 (Z.ltb_ge n 0)) by lia.
  destruct (uint_of_FormatUint n) as (d & Hd & Hn'). unfold Atoi.
  pose proof (FormatUint_digits n "-"%char ltac:(by left)) as Hminus.
  pose proof (FormatUint_digits n "+"%char ltac:(by left)) as Hplus.
  destruct (FormatUint n) as [|c digits]; [done|].
  destruct (Ascii.eqb_spec c "-"); [subst; set_solver|].
  destruct (Ascii.eqb_spec c "+"); [subst; set_solver|].
  rewrite Hd, Hn', Z2N.id by lia. rewrite Z.mul_1_l, decide_True; [done|].
  unfold int64_range. lia.
Qed.

Lemma strings_Split_fresh sep s : sep ∉ chars s → strings_Split sep s = [s].
Proof.
  induction s as [|c s IH]; simpl; [done|]. intros [Hc Hs]%not_elem_of_cons.
  rewrite IH by done. destruct (Ascii.eqb_spec c sep); congruence.
Qed.

Lemma strings_Split_nonempty sep s : strings_Split sep s ≠ [].
Proof.
  destruct s as [|c s]; simpl; [done|]. destruct (Ascii.eqb c sep); [done|].
  by destruct (strings_Split sep s).
Qed.

Lemma strings_Split_app sep a b :
  sep ∉ chars a → strings_Split sep (a +:+ String sep b) = a :: strings_Split sep b.
Proof.
  induction a as [|c a IH]; simpl.
  - intros _. by rewrite Ascii.eqb_refl.
  - intros [Hc Ha]%not_elem_of_cons. rewrite IH by done.
    destruct (Ascii.eqb_spec c sep); congruence.
Qed.

Lemma strings_SplitN2_fresh sep s : sep ∉ chars s → strings_SplitN2 sep s = [s].
Proof.
  induction s as [|c s IH]; simpl; [done|]. intros [Hc Hs]%not_elem_of_cons.
  rewrite IH by done. destruct (Ascii.eqb_spec c sep); congruence.
Qed.

Lemma strings_SplitN2_app sep a b :
  sep ∉ chars a → strings_SplitN2 sep (a +:+ String sep b) = [a; b].
Proof.
  induction a as [|c a IH]; simpl.
  - intros _. by rewrite Ascii.eqb_refl.
  - intros [Hc Ha]%not_elem_of_cons. rewrite IH by done.
    destruct (Ascii.eqb_spec c sep); congruence.
Qed.

Lemma string_app_nil s : s +:+ "" = s.
Proof. induction s as [|c s IH]; [done|]. exact (f_equal (String c) IH). Qed.

Lemma string_app_assoc a b c : (a +:+ b) +:+ c = a +:+ (b +:+ c).
Proof. induction a as [|x a IH]; [done|]. exact (f_equal (String x) IH). Qed.

(** * Paths *)

(** A path element that [Clean] keeps. *)
Definition plain_elem (e : string) : Prop :=
  e ≠ "" ∧ e ≠ "." ∧ e ≠ ".." ∧ "/"%char ∉ chars e.

Lemma clean_step_plain rooted stack e :
  plain_elem e → clean_step rooted stack e = e :: stack.
Proof.
  intros (? & ? & ? & _). unfold clean_step.
  rewrite decide_False by naive_solver. by rewrite decide_False.
Qed.

Lemma clean_plain rooted stack elems :
  Forall plain_elem elems →
  foldl (clean_step rooted) stack elems = reverse elems ++ stack.
Proof.
  intros H. revert stack. induction H as [|e elems He H IH]; intros stack; simpl; [done|].
  rewrite clean_step_plain by done. rewrite IH.
  by rewrite reverse_cons, <- (assoc_L (++)).
Qed.

Lemma Split_join_slash elems :
  elems ≠ [] → Forall (λ e, "/"%char ∉ chars e) elems →
  strings_Split "/" (join_slash elems) = elems.
Proof.
  intros Hne H. induction H as [|e elems He H IH]; [done|].
  destruct elems as [|e' elems]; simpl.
  - by apply strings_Split_fresh.
  - rewrite strings_Split_app by done. f_equal. by apply IH.
Qed.

Lemma join_slash_app a b :
  a ≠ [] → b ≠ [] → join_slash (a ++ b) = join_slash a +:+ String "/" (join_slash b).
Proof.
  intros Ha Hb. induction a as [|e a IH]; [done|]. destruct a as [|e' a].
  - simpl. by destruct b.
  - change (join_slash ((e :: e' :: a) ++ b))
      with (e +:+ String "/" (join_slash ((e' :: a) ++ b))).
    rewrite IH by done.
    change (join_slash (e :: e' :: a)) with (e +:+ String "/" (join_slash (e' :: a))).
    by rewrite string_app_assoc.
Qed.

Lemma Split_app_join sep a b :
  strings_Split sep (a +:+ String sep b) = strings_Split sep a ++ strings_Split sep b.
Proof.
  induction a as [|c a IH]; simpl.
  - by rewrite Ascii.eqb_refl.
  - rewrite IH. destruct (Ascii.eqb c sep); [done|].
    pose proof (strings_Split_nonempty sep a). by destruct (strings_Split sep a).
Qed.

(** Joining plain elements under an absolute directory is concatenation, so files with
    different plain names get different paths, all of them below the directory. *)
Lemma filepath_Join_plain dir name :
  dir ≠ [] → name ≠ [] → Forall plain_elem dir → Forall plain_elem name →
  filepath_Join (String "/" (join_slash dir)) (join_slash name)
  = String "/" (join_slash (dir ++ name)).
Proof.
  intros Hd Hn Hdir Hname. unfold filepath_Join. rewrite decide_False by done.
  unfold filepath_Clean. simpl is_rooted. cbv iota.
  assert (Forall (λ e, "/"%char ∉ chars e) dir) by (eapply Forall_impl; [done|]; by intros ? (?&?&?&?)).
  assert (Forall (λ e, "/"%char ∉ chars e) name) by (eapply Forall_impl; [done|]; by intros ? (?&?&?&?)).
  change (String "/" (join_slash dir) +:+ String "/" (join_slash name))
    with (String "/" (join_slash dir +:+ String "/" (join_slash name))).
  simpl strings_Split. rewrite Split_app_join, !Split_join_slash by done.
  simpl foldl. unfold clean_step at 2. rewrite decide_True by auto.
  rewrite clean_plain by (by apply Forall_app). rewrite app_nil_r, reverse_involutive. done.
Qed.

Lemma join_slash_inj a b :
  a ≠ [] → b ≠ [] → Forall plain_elem a → Forall plain_elem b →
  join_slash a = join_slash b → a = b.
Proof.
  intros Ha Hb Hpa Hpb H. apply (f_equal (strings_Split "/")) in H.
  rewrite !Split_join_slash in H; try done;
    (eapply Forall_impl; [done|]; by intros ? (?&?&?&?)).
Qed.
