(* ===== verification/GoTime.v ===== *)
(** Facts about [time.Duration.Seconds]: which durations become which whole number of seconds
    in double precision. *)
From S2P Require Import Prelude.
From Stdlib Require Import SpecFloat.

Local Open Scope Z_scope.

(** * Shifting and rounding in double precision *)

Lemma digits2_pos_bounds p : 2 ^ (Z.pos (digits2_pos p) - 1) ≤ Z.pos p < 2 ^ Z.pos (digits2_pos p).
Proof.
  induction p as [p IH|p IH|]; cbn [digits2_pos]; [..|done].
  all: rewrite Pos2Z.inj_succ; replace (Z.succ (Z.pos (digits2_pos p)) - 1)
         with (Z.succ (Z.pos (digits2_pos p) - 1)) by lia;
       rewrite !Z.pow_succ_r by lia; lia.
Qed.

Lemma Zdigits2_unique m d : 0 < d → 2 ^ (d - 1) ≤ m < 2 ^ d → Zdigits2 m = d.
Proof.
  intros Hd Hm. destruct m as [|p|p]; [|cbn|]; [pose proof (Z.pow_pos_nonneg 2 (d - 1)); lia| |
    pose proof (Z.pow_pos_nonneg 2 (d - 1)); lia].
  pose proof (digits2_pos_bounds p) as Hp.
  destruct (Z.lt_trichotomy (Z.pos (digits2_pos p)) d) as [H|[H|H]]; [|done|].
  - assert (2 ^ Z.pos (digits2_pos p) ≤ 2 ^ (d - 1)) by (apply Z.pow_le_mono_r; lia). lia.
  - assert (2 ^ d ≤ 2 ^ (Z.pos (digits2_pos p) - 1)) by (apply Z.pow_le_mono_r; lia). lia.
Qed.

Lemma Zdigits2_small m d : 0 ≤ d → 0 ≤ m < 2 ^ d → 0 ≤ Zdigits2 m ≤ d.
Proof.
  intros Hd Hm. destruct m as [|p|p]; cbn; [lia| |lia]. pose proof (digits2_pos_bounds p) as Hp.
  split; [lia|]. destruct (Z.le_gt_cases (Z.pos (digits2_pos p)) d) as [|H]; [done|].
  assert (2 ^ d ≤ 2 ^ (Z.pos (digits2_pos p) - 1)) by (apply Z.pow_le_mono_r; lia). lia.
Qed.

Lemma shr_1_m mrs : 0 ≤ shr_m mrs → shr_m (shr_1 mrs) = shr_m mrs / 2.
Proof.
  destruct mrs as [m r s]. destruct m as [|[p|p|]|p]; cbn [shr_1 shr_m]; intros Hm; [done|..|done|lia].
  - apply (Z.div_unique _ _ _ 1); lia.
  - apply (Z.div_unique _ _ _ 0); lia.
Qed.

Lemma iter_shr_m p mrs :
  0 ≤ shr_m mrs → shr_m (iter_pos shr_1 p mrs) = shr_m mrs / 2 ^ Z.pos p.
Proof.
  assert (∀ a b c, 0 ≤ b → 0 ≤ c → 0 ≤ a → a / 2 ^ b / 2 ^ c = a / 2 ^ (b + c)) as Hdiv.
  { intros. rewrite Z.pow_add_r by lia. apply Z.div_div; [lia|]. apply Z.pow_pos_nonneg; lia. }
  assert (∀ a b, 0 ≤ a → 0 ≤ b → 0 ≤ a / 2 ^ b) as Hpos.
  { intros. apply Z.div_pos; [done|]. apply Z.pow_pos_nonneg; lia. }
  revert mrs. induction p as [p IH|p IH|]; intros mrs Hm; cbn [iter_pos].
  - pose proof (shr_1_m mrs Hm) as H1. change 2 with (2 ^ 1) in H1 at 1.
    rewrite IH; rewrite IH; rewrite H1; try apply Hpos; try apply Hpos; try done.
    rewrite !Hdiv by (try apply Hpos; lia). f_equal. f_equal. lia.
  - rewrite IH; rewrite IH; try apply Hpos; try done.
    rewrite !Hdiv by (try apply Hpos; lia). f_equal. f_equal. lia.
  - by rewrite shr_1_m.
Qed.

Lemma shr_fexp_spec m e l : 0 ≤ m →
  let n := Z.max 0 (fexp 53 1024 (Zdigits2 m + e) - e) in
  shr_m (shr_fexp 53 1024 m e l).1 = m / 2 ^ n ∧ (shr_fexp 53 1024 m e l).2 = e + n.
Proof.
  intros Hm. assert (shr_m (shr_record_of_loc m l) = m) as Hr by (by destruct l as [|[]]).
  unfold shr_fexp, shr. destruct (fexp 53 1024 (Zdigits2 m + e) - e) as [|p|p]; cbn.
  - rewrite Hr, Z.div_1_r. lia.
  - rewrite iter_shr_m; rewrite Hr; [|done]. rewrite Z.max_r by lia. done.
  - rewrite Hr, Z.div_1_r. lia.
Qed.

Lemma round_nearest_even_bounds m l : m ≤ round_nearest_even m l ≤ m + 1.
Proof. destruct l as [|[]]; cbn; try destruct (Z.even m); lia. Qed.

Lemma binary_round_aux_exact m e :
  Z.pos (digits2_pos m) = 53 → -1074 ≤ e ≤ 971 →
  binary_round_aux 53 1024 false (Z.pos m) e loc_Exact = S754_finite false m e.
Proof.
  intros Hd He. unfold binary_round_aux.
  assert (∀ r, shr_fexp 53 1024 (Z.pos m) e loc_Exact = r →
    r = ({| shr_m := Z.pos m; shr_r := false; shr_s := false |}, e)) as Hshr.
  { intros r <-. unfold shr_fexp. cbn [Zdigits2]. rewrite Hd.
    replace (fexp 53 1024 (53 + e) - e) with 0 by (unfold fexp, emin; lia). done. }
  rewrite (Hshr _ eq_refl). cbn [shr_m loc_of_shr_record round_nearest_even].
  rewrite (Hshr _ eq_refl). cbn [shr_m].
  destruct (Z.leb_spec e (1024 - 53)); [done|lia].
Qed.

Lemma iter_xO p n : Z.pos (Pos.iter xO p n) = Z.pos p * 2 ^ Z.pos n.
Proof.
  induction n as [|n IH] using Pos.peano_ind; [cbn; lia|].
  rewrite Pos.iter_succ, Pos2Z.inj_succ, Z.pow_succ_r by lia.
  change (Z.pos (Pos.iter xO p n)~0) with (2 * Z.pos (Pos.iter xO p n)). lia.
Qed.

(** Integers below 2^53 are represented exactly. *)
Lemma float64_of_int_exact z :
  0 < z < 2 ^ 53 → ∃ m k, float64_of_int z = S754_finite false m (- k) ∧
    Z.pos m = z * 2 ^ k ∧ Z.pos (digits2_pos m) = 53 ∧ k = 53 - Zdigits2 z ∧ 0 ≤ k ≤ 52.
Proof.
  intros [Hpos Hz]. destruct z as [|p|p]; [lia| |lia].
  pose proof (digits2_pos_bounds p) as Hp. set (d := Z.pos (digits2_pos p)) in *.
  assert (1 ≤ d) as Hd1 by (unfold d; lia).
  assert (d ≤ 53) as Hd by (apply (Zdigits2_small (Z.pos p)); lia).
  assert (∃ m, shl_align p 0 (fexp 53 1024 (d + 0)) = (m, d - 53) ∧
    Z.pos m = Z.pos p * 2 ^ (53 - d)) as (m & Hm & Hmp).
  { replace (fexp 53 1024 (d + 0)) with (d - 53) by (unfold fexp, emin; lia).
    unfold shl_align. rewrite Z.sub_0_r. destruct (d - 53) as [|q|q] eqn:E; [|lia|].
    - exists p. split; [done|]. assert (53 - d = 0) as -> by lia. cbn. lia.
    - exists (Pos.iter xO p q). split; [done|]. rewrite iter_xO. do 2 f_equal. lia. }
  assert (Z.pos (digits2_pos m) = 53) as Hm53.
  { apply (Zdigits2_unique (Z.pos m)); [lia|]. rewrite Hmp.
    assert (2 ^ (53 - 1) = 2 ^ (d - 1) * 2 ^ (53 - d)) as ->
      by (rewrite <- Z.pow_add_r by lia; f_equal; lia).
    assert (2 ^ 53 = 2 ^ d * 2 ^ (53 - d)) as -> by (rewrite <- Z.pow_add_r by lia; f_equal; lia).
    assert (0 < 2 ^ (53 - d)) by (apply Z.pow_pos_nonneg; lia). nia. }
  exists m, (53 - d). split_and!; try done; try lia.
  unfold float64_of_int, binary_normalize, binary_round. fold d. rewrite Hm.
  rewrite binary_round_aux_exact by lia. f_equal. lia.
Qed.

(** * Seconds *)

(** A quotient [mx * 2 ^ ex] below one that leaves room for the rounding is cut to 0. *)
Lemma binary_round_aux_below_one mx ex lx :
  0 ≤ mx → ex ≤ -53 → mx * Second ≤ (Second - 1) * 2 ^ (- ex) →
  int_of_float64 (binary_round_aux 53 1024 false mx ex lx) = 0 ∧
  match binary_round_aux 53 1024 false mx ex lx with
  | S754_finite s _ _ | S754_zero s => s = false
  | _ => True
  end.
Proof.
  intros Hmx Hex Hlt. unfold binary_round_aux.
  pose proof (shr_fexp_spec mx ex lx Hmx) as H1. cbv zeta in H1.
  destruct (shr_fexp 53 1024 mx ex lx) as [mrs' e1]. cbn [fst snd] in H1.
  set (n1 := Z.max 0 _) in H1. destruct H1 as [Hm1 He1].
  assert (0 < 2 ^ (- ex)) as Hpow by (apply Z.pow_pos_nonneg; lia).
  assert (Zdigits2 mx ≤ - ex) as Hdig.
  { apply (Zdigits2_small mx (- ex)); [lia|]. unfold Second in *. nia. }
  assert (n1 = Z.max 0 (Z.max (Zdigits2 mx + ex - 53) (-1074) - ex)) as En1 by done.
  clearbody n1. assert (0 ≤ n1 ∧ e1 ≤ -53) as [Hn1 He53] by lia.
  set (m1 := round_nearest_even _ _).
  pose proof (round_nearest_even_bounds (shr_m mrs') (loc_of_shr_record mrs')) as Hm1'.
  fold m1 in Hm1'.
  assert (0 < 2 ^ n1) as Hp1 by (apply Z.pow_pos_nonneg; lia).
  assert (0 ≤ mx / 2 ^ n1) as Hq by (apply Z.div_pos; lia).
  assert (m1 < 2 ^ (- e1)) as Hone.
  { assert (2 ^ (- ex) = 2 ^ (- e1) * 2 ^ n1) as E by (rewrite <- Z.pow_add_r by lia; f_equal; lia).
    rewrite E in Hlt. pose proof (Z.mul_div_le mx (2 ^ n1) Hp1) as Hle.
    assert (2 ^ 53 ≤ 2 ^ (- e1)) as Hbig by (apply Z.pow_le_mono_r; lia).
    assert (mx / 2 ^ n1 * Second ≤ (Second - 1) * 2 ^ (- e1)).
    { apply (Z.mul_le_mono_pos_r _ _ (2 ^ n1)); [done|]. unfold Second in *. lia. }
    unfold Second in *. lia. }
  pose proof (shr_fexp_spec m1 e1 loc_Exact ltac:(lia)) as H2. cbv zeta in H2.
  destruct (shr_fexp 53 1024 m1 e1 loc_Exact) as [mrs'' e2]. cbn [fst snd] in H2.
  destruct H2 as [Hm2 He2].
  assert (Zdigits2 m1 ≤ - e1) as Hdig1 by (apply (Zdigits2_small m1 (- e1)); lia).
  match type of He2 with _ = _ + ?n =>
    assert (n = Z.max 0 (Z.max (Zdigits2 m1 + e1 - 53) (-1074) - e1)) as En2 by done;
    set (n2 := n) in *; clearbody n2 end.
  assert (shr_m mrs'' < 2 ^ (- e2)) as Hsmall.
  { rewrite Hm2. apply Z.div_lt_upper_bound; [apply Z.pow_pos_nonneg; lia|].
    rewrite <- Z.pow_add_r by lia. replace (n2 + - e2) with (- e1) by lia. done. }
  destruct (shr_m mrs'') as [|m|m]; [done| |done].
  destruct (Z.leb_spec e2 (1024 - 53)); [|lia]. split; [|done]. cbn.
  destruct (Z.leb_spec 0 e2); [lia|]. apply Z.div_small. lia.
Qed.

Lemma second_float : float64_of_int Second = S754_finite false 8388608000000000 (-23).
Proof. by vm_compute. Qed.

(** A duration below one second has no whole seconds. *)
Lemma Seconds_below_one d : 0 < d < Second → int_of_float64 (Duration_Seconds d) = 0.
Proof.
  intros Hd. unfold Duration_Seconds. rewrite Z.quot_small, Z.rem_small, second_float by lia.
  destruct (float64_of_int_exact d) as (m & k & -> & Hm & Hm53 & Hk & Hkr); [unfold Second in *; lia|].
  assert (23 ≤ k) as Hk23.
  { pose proof (Zdigits2_small d 30 ltac:(lia)) as Hdig. unfold Second in *. lia. }
  cbn [SFdiv xorb]. unfold SFdiv_core_binary. cbn [Zdigits2].
  replace (digits2_pos m) with 53%positive by lia.
  change (digits2_pos 8388608000000000) with 53%positive.
  assert (fexp 53 1024 (53 + - k - (53 + -23)) `min` (- k - -23) = -30 - k) as ->
    by (unfold fexp, emin; lia).
  replace (- k - -23 - (-30 - k)) with 53 by lia. rewrite Z.shiftl_mul_pow2 by lia.
  pose proof (Z.div_eucl_eq (Z.pos m * 2 ^ 53) 8388608000000000 ltac:(done)) as Heq.
  pose proof (Z.mod_pos_bound (Z.pos m * 2 ^ 53) 8388608000000000 ltac:(done)) as Hmod.
  unfold Z.modulo in Hmod. pose proof (Z.div_pos (Z.pos m * 2 ^ 53) 8388608000000000) as Hpos.
  unfold Z.div in Hpos. destruct (Z.div_eucl _ _) as [q r].
  destruct (binary_round_aux_below_one q (-30 - k) (new_location 8388608000000000 r)) as [Hz Hs];
    [lia|lia| |].
  { replace (- (-30 - k)) with (30 + k) by lia. rewrite Z.pow_add_r by lia. rewrite Hm in Heq.
    assert (0 < 2 ^ k) by (apply Z.pow_pos_nonneg; lia). unfold Second in *. nia. }
  change (float64_of_int 0) with (S754_zero false).
  destruct (binary_round_aux _ _ _ _ _ _) as [s|s| |s m' e]; cbn in *; try done; by subst.
Qed.

(** Whole seconds are kept. *)
Lemma Seconds_whole n :
  0 < n < 2 ^ 53 → int_of_float64 (Duration_Seconds (n * Second)) = n.
Proof.
  intros Hn. unfold Duration_Seconds.
  rewrite Z.quot_mul, Z.rem_mul, second_float by (unfold Second; lia).
  change (SFdiv 53 1024 (float64_of_int 0) _) with (S754_zero false).
  destruct (float64_of_int_exact n) as (m & k & -> & Hm & _ & _ & Hkr); [lia|]. cbn [SFadd].
  unfold int_of_float64. destruct (Z.leb_spec 0 (- k)).
  - assert (k = 0) as -> by lia. cbn. lia.
  - rewrite Hm, Z.opp_involutive. apply Z.div_mul. by apply Z.pow_nonzero; lia.
Qed.
