(* ===== verification/GoNet.v ===== *)
(** The functions of Go's packages [net] and [encoding/binary], and of [strings] on names, that
    the DNS server of the tests calls. *)
From S2P Require Import Prelude Bytes GoStrings.

(** * Slices and numbers *)

(** [b[lo:hi]]; a slice of a buffer may reach beyond its length, up to its capacity, which
    nothing modelled here does. *)
Definition slice (lo hi : nat) (b : bytes) : result bytes :=
  if (lo <=? hi)%nat && (hi <=? length b)%nat then Ok (take (hi - lo) (drop lo b))
  else Panic "slice bounds out of range".

(** [binary.BigEndian.Uint16(b)] *)
Definition BigEndian_Uint16 (b : bytes) : result Z :=
  match b with
  | hi :: lo :: _ => Ok (byte_val hi * 256 + byte_val lo)%Z
  | _ => Panic "index out of range"
  end.

(** A 16-bit number, high byte first: [byte(n>>8), byte(n)]. *)
Definition put_uint16 (n : Z) : bytes := [byte_of (Z.shiftr n 8); byte_of n].

(** * package strings *)

(** [strings.Join(l, sep)] *)
Fixpoint strings_Join (l : list string) (sep : string) : string :=
  match l with
  | [] => ""
  | [s] => s
  | s :: l => s +:+ sep +:+ strings_Join l sep
  end.

(** [strings.ToLower] follows the tables of package unicode; on ASCII it is the usual map. *)
Definition is_ascii (c : ascii) : bool := (N_of_ascii c <? 128)%N.
Class Unicode := {
  ToLower : string → string;
  ToLower_ascii s : forallb is_ascii (chars s) = true → ToLower s = strings_ToLower s
}.

(** * net.ParseIP *)

Definition digit_value (c : ascii) : option Z :=
  let n := Z.of_N (N_of_ascii c) in
  if (48 <=? n)%Z && (n <=? 57)%Z then Some (n - 48)%Z else None.

Definition hex_value (c : ascii) : option Z :=
  let n := Z.of_N (N_of_ascii c) in
  match digit_value c with
  | Some d => Some d
  | None =>
    if (97 <=? n)%Z && (n <=? 102)%Z then Some (n - 87)%Z
    else if (65 <=? n)%Z && (n <=? 70)%Z then Some (n - 55)%Z else None
  end.

(** [parseIPv4Fields]: [fresh] says that the character before is a dot, or that there is none;
    [val] and [digLen] are the field being read, [fields] those before it. *)
Fixpoint parseIPv4Fields (fresh : bool) (val : Z) (digLen : nat) (fields : list Z)
    (s : list ascii) : option (list Z) :=
  match s with
  | [] => if (length fields <? 3)%nat then None else Some (fields ++ [val])
  | c :: s =>
    match digit_value c with
    | Some d =>
      if (digLen =? 1)%nat && (val =? 0)%Z then None
      else
        let val := (val * 10 + d)%Z in
        if (255 <? val)%Z then None else parseIPv4Fields false val (S digLen) fields s
    | None =>
      if Ascii.eqb c "." then
        if fresh || match s with [] => true | _ => false end then None
        else if (length fields =? 3)%nat then None
        else parseIPv4Fields true 0 0 (fields ++ [val]) s
      else None
    end
  end.

(** The digits of one group: how many, their value, and what follows. *)
Fixpoint parse_group (off : nat) (acc : Z) (s : list ascii) : option (nat * Z * list ascii) :=
  match s with
  | [] => Some (off, acc, [])
  | c :: s' =>
    match hex_value c with
    | None => Some (off, acc, s)
    | Some d =>
      let acc := (acc * 16 + d)%Z in
      if (3 <? off)%nat || (65535 <? acc)%Z then None else parse_group (S off) acc s'
    end
  end.

(** The loop of [parseIPv6] over the groups; a turn adds two or four of the 16 bytes. *)
Fixpoint parse_groups (fuel : nat) (ip : list Z) (ellipsis : option nat) (s : list ascii) :
    option (list Z * option nat * list ascii) :=
  match fuel with
  | O => None
  | S fuel =>
    if (16 <=? length ip)%nat then Some (ip, ellipsis, s)
    else
      '(off, acc, rest) ← parse_group 0 0 s;
      let ip' := ip ++ [acc / 256; acc mod 256]%Z in
      if (off =? 0)%nat then None
      else match rest with
      | [] => Some (ip', ellipsis, [])
      | c :: rest =>
        if Ascii.eqb c "." then
          if bool_decide (ellipsis = None) && negb (length ip =? 12)%nat then None
          else if (16 <? length ip + 4)%nat then None
          else
            fields ← parseIPv4Fields true 0 0 [] s;
            Some (ip ++ fields, ellipsis, [])
        else if Ascii.eqb c ":" then
          match rest with
          | [] => None
          | c :: rest' =>
            if Ascii.eqb c ":" then
              if bool_decide (ellipsis = None) then
                match rest' with
                | [] => Some (ip', Some (length ip'), [])
                | _ => parse_groups fuel ip' (Some (length ip')) rest'
                end
              else None
            else parse_groups fuel ip' ellipsis rest
          end
        else None
      end
  end.

(** [parseIPv6]; an address with a zone is not an [IP]. *)
Definition parseIPv6 (s : list ascii) : option (list Z) :=
  if bool_decide ("%"%char ∈ s) then None
  else
    let '(ellipsis, s, only) :=
      match s with
      | c :: d :: s =>
        if Ascii.eqb c ":" && Ascii.eqb d ":"
        then (Some 0, s, bool_decide (s = [])) else (None, c :: d :: s, false)
      | s => (None, s, false)
      end in
    if only then Some (replicate 16 0%Z)
    else
      '(ip, ellipsis, rest) ← parse_groups 9 [] ellipsis s;
      if bool_decide (rest = []) then
        if (length ip <? 16)%nat then
          e ← ellipsis;
          Some (take e ip ++ replicate (16 - length ip) 0%Z ++ drop e ip)
        else if bool_decide (ellipsis = None) then Some ip else None
      else None.

(** [netip.ParseAddr]: the first dot, colon or percent sign decides. *)
Fixpoint parse_kind (s : list ascii) : option ascii :=
  match s with
  | [] => None
  | c :: s => if Ascii.eqb c "." || Ascii.eqb c ":" || Ascii.eqb c "%" then Some c else parse_kind s
  end.

Definition v4InV6Prefix : list Z := replicate 10 0%Z ++ [255; 255]%Z.

(** [net.ParseIP]: sixteen bytes, or nil. *)
Definition net_ParseIP (s : string) : option bytes :=
  let s := chars s in
  c ← parse_kind s;
  ip ← (if Ascii.eqb c "." then app v4InV6Prefix <$> parseIPv4Fields true 0 0 [] s
        else if Ascii.eqb c ":" then parseIPv6 s else None);
  Some (byte_of <$> ip).

(** [ip.To4()]: the last four bytes of an IPv4 address, or nil. *)
Definition To4 (ip : option bytes) : bytes :=
  match ip with
  | Some ip => if bool_decide (take 12 ip = byte_of <$> v4InV6Prefix) then drop 12 ip else []
  | None => []
  end.

(** * Facts *)

Lemma slice_ok lo hi b : lo ≤ hi → hi ≤ length b → slice lo hi b = Ok (take (hi - lo) (drop lo b)).
Proof.
  intros H1 H2. unfold slice. by rewrite (proj2 (Nat.leb_le _ _) H1), (proj2 (Nat.leb_le _ _) H2).
Qed.

Lemma slice_mid a b c : slice (length a) (length a + length b) (a ++ b ++ c) = Ok b.
Proof.
  rewrite slice_ok by (rewrite ?length_app; lia).
  by rewrite drop_app_length, Nat.add_comm, Nat.add_sub, take_app_length.
Qed.

Lemma Uint16_put n rest :
  (0 ≤ n < 2 ^ 16)%Z → BigEndian_Uint16 (put_uint16 n ++ rest) = Ok n.
Proof.
  intros Hn. unfold put_uint16. cbn [app BigEndian_Uint16]. rewrite !byte_val_of.
  unfold wrapu. rewrite Z.shiftr_div_pow2 by lia.
  rewrite (Z.mod_small (n / 2 ^ 8)) by (split; [apply Z.div_pos; lia|apply Z.div_lt_upper_bound; lia]).
  f_equal. pose proof (Z.div_mod n (2 ^ 8)). lia.
Qed.

Lemma put_uint16_length n : length (put_uint16 n) = 2.
Proof. done. Qed.

Lemma strings_Join_cons s l sep :
  l ≠ [] → strings_Join (s :: l) sep = s +:+ sep +:+ strings_Join l sep.
Proof. by destruct l. Qed.

(** Splitting a joined list at the separator gives it back. *)
Lemma Split_Join l sep :
  l ≠ [] → Forall (λ s, sep ∉ chars s) l → strings_Split sep (strings_Join l (String sep "")) = l.
Proof.
  intros Hl. induction 1 as [|s l Hs _ IH]; [done|]. destruct (decide (l = [])) as [->|Hne].
  - by apply strings_Split_fresh.
  - rewrite strings_Join_cons by done.
    change (String sep "" +:+ strings_Join l (String sep ""))
      with (String sep (strings_Join l (String sep ""))).
    rewrite strings_Split_app by done. by rewrite IH.
Qed.

Lemma Join_last l sep :
  l ≠ [] → strings_Join l sep +:+ sep = strings_Join (l ++ [""]) sep.
Proof.
  induction l as [|s l IH]; [done|]. intros _. destruct (decide (l = [])) as [->|Hne].
  - change (s +:+ sep = s +:+ sep +:+ ""). by rewrite string_app_nil.
  - rewrite strings_Join_cons by done. cbn [app]. rewrite strings_Join_cons by (by destruct l).
    by rewrite <- IH, !string_app_assoc.
Qed.

Lemma strings_ToLower_app a b :
  strings_ToLower (a +:+ b) = strings_ToLower a +:+ strings_ToLower b.
Proof. induction a as [|c a IH]; [done|]. exact (f_equal (String (ascii_lower c)) IH). Qed.
