(* ===== verification/Statistics.v ===== *)
(** Counters: src/src/utils/atomic.go, src/src/statistics.go and src/src/version/version.go. *)
From S2P Require Import Prelude GoStrings.

(** * utils/atomic.go

    An operation is one atomic step on the value. *)

Definition AtomicDuration_Load (value : Duration) : Duration := value.
Definition AtomicDuration_Store (val : Duration) (value : Duration) : Duration := val.
Definition AtomicDuration_Swap (new : Duration) (value : Duration) : Duration * Duration :=
  (value, new).
Definition AtomicDuration_CompareAndSwap (old new : Duration) (value : Duration) :
    bool * Duration :=
  if (value =? old)%Z then (true, new) else (false, value).
Definition AtomicDuration_Add (delta : Duration) (value : Duration) : Duration * Duration :=
  let new := (value +i64 delta)%go in (new, new).

(** An [atomic.Value] holds nothing until the first [Store]. *)
Definition AtomicTime : Type := option Time.
Definition AtomicTime_Load (value : AtomicTime) : Time :=
  match value with None => time_zero | Some val => val end.
Definition AtomicTime_Store (val : Time) (value : AtomicTime) : AtomicTime := Some val.
Definition AtomicTime_Swap (new : Time) (value : AtomicTime) : Time * AtomicTime :=
  (AtomicTime_Load value, Some new).
(** Before the first [Store] there is nothing that [old] could equal. *)
Definition AtomicTime_CompareAndSwap (old new : Time) (value : AtomicTime) : bool * AtomicTime :=
  if decide (value = Some old) then (true, Some new) else (false, value).

(** * version/version.go

    The variables are set by the linker. *)
Record Version := mkVersion
  { ver_Major : string; ver_Minor : string; ver_Patch : string; ver_Build : string }.

Definition GetVersion (v : Version) : string :=
  "p2pcp-" +:+ ver_Major v +:+ "." +:+ ver_Minor v +:+ "." +:+ ver_Patch v +:+ "+" +:+
    ver_Build v.

(** * time.Duration.String *)

Definition digit_char (d : Z) : ascii := ascii_of_N (Z.to_N (48 + d)).

(** The fraction of [v / 10^prec] without trailing zeros, and the integer part. *)
Fixpoint fmtFrac (prec : nat) (print : bool) (w : string) (v : Z) : string * Z :=
  match prec with
  | O => ((if print then String "." w else w), v)
  | S prec =>
    let digit := (v mod 10)%Z in
    let print := print || negb (digit =? 0)%Z in
    fmtFrac prec print (if print then String (digit_char digit) w else w) (v / 10)%Z
  end.

Definition Duration_String (d : Duration) : string :=
  let u := Z.abs d in
  let frac prec unit := let '(w, v) := fmtFrac prec false unit u in (w, v) in
  let s :=
    if (u =? 0)%Z then "0s"
    else if (u <? 1000)%Z then FormatUint u +:+ "ns"
    else if (u <? 1000000)%Z then
      let '(w, v) := frac 3 (byte_string [194; 181; 115]%N) in FormatUint v +:+ w
    else if (u <? 1000000000)%Z then let '(w, v) := frac 6 "ms" in FormatUint v +:+ w
    else
      let '(w, v) := frac 9 "s" in
      let seconds := FormatUint (v mod 60) +:+ w in
      let v := (v / 60)%Z in
      if (0 <? v)%Z then
        let minutes := FormatUint (v mod 60) +:+ "m" +:+ seconds in
        let v := (v / 60)%Z in
        if (0 <? v)%Z then FormatUint v +:+ "h" +:+ minutes else minutes
      else seconds in
  if (d <? 0)%Z then String "-" s else s.

Example Duration_String_ex :
  Duration_String 3723500000000%Z = "1h2m3.5s" ∧ Duration_String 1500000%Z = "1.5ms" ∧
  Duration_String 0 = "0s" ∧ Duration_String 60000000000 = "1m0s".
Proof. by vm_compute. Qed.

(** * statistics.go *)

Record Statistics := mkStatistics {
  IsUse : bool;
  Data : gmap string string;
  IsSetBytesTransmittedTotal : bool;
  IsSetBytesReceivedTotal : bool;
  BytesTransmittedTotal : Z;
  BytesReceivedTotal : Z;
  ChunksReceivedTotal : Z;
  CumulativeDurationTotal : Duration;
  Elapsed : Duration
}.

Definition NewStatistics (isUse : bool) : Statistics :=
  mkStatistics isUse ∅ false false 0 0 0 0 0.

Definition GetBytesReceivedTotal (stat : Statistics) : Z := BytesReceivedTotal stat.

Definition AddBytesTransmittedTotal (n : Z) (stat : Statistics) : Statistics :=
  mkStatistics (IsUse stat) (Data stat) true (IsSetBytesReceivedTotal stat)
    (BytesTransmittedTotal stat +i64 n)%go (BytesReceivedTotal stat)
    (ChunksReceivedTotal stat) (CumulativeDurationTotal stat) (Elapsed stat).

Definition data_key (name what : string) : string := "[" +:+ name +:+ "] " +:+ what.

Definition AddDownloader (name : string) (bytesReceivedTotal chunksReceivedTotal : Z)
    (cumulativeDurationTotal : Duration) (stat : Statistics) : Statistics :=
  mkStatistics (IsUse stat)
    (if IsUse stat then
       <[data_key name "cumulative_transfer_time" := Duration_String cumulativeDurationTotal]>
       (<[data_key name "received_chunks" := FormatInt chunksReceivedTotal]>
       (<[data_key name "received_bytes" := FormatInt bytesReceivedTotal]> (Data stat)))
     else Data stat)
    (IsSetBytesTransmittedTotal stat) true (BytesTransmittedTotal stat)
    (BytesReceivedTotal stat +i64 bytesReceivedTotal)%go
    (ChunksReceivedTotal stat +i64 chunksReceivedTotal)%go
    (AtomicDuration_Add cumulativeDurationTotal (CumulativeDurationTotal stat)).2
    (Elapsed stat).

Definition SetElapsed (elapsed : Duration) (stat : Statistics) : Statistics :=
  mkStatistics (IsUse stat) (Data stat) (IsSetBytesTransmittedTotal stat)
    (IsSetBytesReceivedTotal stat) (BytesTransmittedTotal stat) (BytesReceivedTotal stat)
    (ChunksReceivedTotal stat) (CumulativeDurationTotal stat) elapsed.

(** The closure [Print]: [sort.Strings] on the keys, a line each. *)
Definition Print_data (data : gmap string string) : list string :=
  (λ key, key +:+ " = " +:+ default "" (data !! key)) <$>
    merge_sort String.le (map_to_list data).*1.

(** [int64(elapsed.Seconds())] *)
Definition elapsed_seconds (elapsed : Duration) : Z := int_of_float64 (Duration_Seconds elapsed).

Definition TotalData (stat : Statistics) : gmap string string :=
  let data :=
    if IsSetBytesReceivedTotal stat then
      let elapsedSeconds := elapsed_seconds (Elapsed stat) in
      let elapsedSeconds := if (elapsedSeconds =? 0)%Z then 1%Z else elapsedSeconds in
      <["[Total] transfer_bytes_per_seconds" :=
          FormatInt (wrap 64 (Z.quot (BytesReceivedTotal stat) elapsedSeconds))]>
      (<["[Total] elapsed_time" := Duration_String (Elapsed stat)]>
      (<["[Total] cumulative_transfer_time" :=
          Duration_String (AtomicDuration_Load (CumulativeDurationTotal stat))]>
      (<["[Total] received_chunks" := FormatInt (ChunksReceivedTotal stat)]>
      (<["[Total] received_bytes" := FormatInt (BytesReceivedTotal stat)]> ∅))))
    else ∅ in
  if IsSetBytesTransmittedTotal stat then
    <["[Total] transmitted_bytes" := FormatInt (BytesTransmittedTotal stat)]> data
  else data.

(** The lines it logs. *)
Definition PrintAll (v : Version) (stat : Statistics) : list string :=
  if IsUse stat then
    [GetVersion v +:+ " download statistics information:"] ++
      Print_data (Data stat) ++ Print_data (TotalData stat)
  else [].

(** * Concurrent updates *)

Inductive stat_op :=
| StatTransmitted (n : Z)
| StatDownloader (name : string) (bytes chunks : Z) (duration : Duration).

Definition stat_step (stat : Statistics) (op : stat_op) : Statistics :=
  match op with
  | StatTransmitted n => AddBytesTransmittedTotal n stat
  | StatDownloader name b c d => AddDownloader name b c d stat
  end.

Definition op_transmitted (op : stat_op) : Z :=
  match op with StatTransmitted n => n | _ => 0 end.
Definition op_bytes (op : stat_op) : Z :=
  match op with StatDownloader _ b _ _ => b | _ => 0 end.
Definition op_chunks (op : stat_op) : Z :=
  match op with StatDownloader _ _ c _ => c | _ => 0 end.
Definition op_duration (op : stat_op) : Z :=
  match op with StatDownloader _ _ _ d => d | _ => 0 end.

(** A counter that adds with wrap-around ends at the wrapped sum. *)
Lemma wrap_sum_loop (f : stat_op → Z) (get : Statistics → Z) ops stat :
  (∀ stat op, get (stat_step stat op) = wrap 64 (get stat + f op) ∨
    get (stat_step stat op) = get stat ∧ f op = 0%Z) →
  int64_range (get stat) →
  get (foldl stat_step stat ops) = wrap 64 (get stat + Zsum (f <$> ops)).
Proof.
  intros Hstep. revert stat. induction ops as [|op ops IH]; intros stat Hr.
  - change (get stat = wrap 64 (get stat + 0)). by rewrite Z.add_0_r, wrap64_small.
  - rewrite fmap_cons, Zsum_cons. cbn [foldl]. destruct (Hstep stat op) as [H|[H H0]].
    + rewrite IH, H by (rewrite H; auto with go).
      rewrite wrap_add_l by lia. f_equal. lia.
    + rewrite IH, H by (by rewrite H). by rewrite H0.
Qed.

(** The totals do not depend on the interleaving: after any sequence of
    [AddBytesTransmittedTotal] and [AddDownloader] calls every total is the sum of what
    was added (in 64 bits), and the received and transmitted sections are printed exactly
    when something of their kind was added. *)
Theorem statistics_totals isUse ops :
  let stat := foldl stat_step (NewStatistics isUse) ops in
  BytesTransmittedTotal stat = wrap 64 (Zsum (op_transmitted <$> ops)) ∧
  GetBytesReceivedTotal stat = wrap 64 (Zsum (op_bytes <$> ops)) ∧
  ChunksReceivedTotal stat = wrap 64 (Zsum (op_chunks <$> ops)) ∧
  CumulativeDurationTotal stat = wrap 64 (Zsum (op_duration <$> ops)) ∧
  (IsSetBytesReceivedTotal stat = true ↔
    ∃ name b c d, StatDownloader name b c d ∈ ops) ∧
  (IsSetBytesTransmittedTotal stat = true ↔ ∃ n, StatTransmitted n ∈ ops).
Proof.
  cbv zeta. split_and!.
  - apply (wrap_sum_loop op_transmitted BytesTransmittedTotal); [|done].
    intros stat []; simpl; auto.
  - apply (wrap_sum_loop op_bytes BytesReceivedTotal); [|done]. intros stat []; simpl; auto.
  - apply (wrap_sum_loop op_chunks ChunksReceivedTotal); [|done]. intros stat []; simpl; auto.
  - apply (wrap_sum_loop op_duration CumulativeDurationTotal); [|done].
    intros stat []; simpl; auto.
  - induction ops as [|op ops IH] using rev_ind.
    { simpl. split; [done|]. intros (?&?&?&?&H). by apply elem_of_nil in H. }
    rewrite foldl_app. simpl. destruct op; simpl; [|set_solver].
    rewrite IH. set_solver.
  - induction ops as [|op ops IH] using rev_ind.
    { simpl. split; [done|]. intros (?&H). by apply elem_of_nil in H. }
    rewrite foldl_app. simpl. destruct op; simpl; [set_solver|].
    rewrite IH. set_solver.
Qed.
