(* ===== verification/GoFlag.v ===== *)
(** Go's package [flag] as far as the program uses it: the values of flags as text, and the
    parsing of the command line, with [strconv.ParseInt], [strconv.ParseBool] and
    [time.ParseDuration]. *)
From S2P Require Import Prelude Bytes GoStrings GoNet Statistics.
From Stdlib Require Import SpecFloat.

(** * Parsing values *)

(** [strconv.ParseBool] *)
Definition ParseBool (s : string) : option bool :=
  if bool_decide (s ∈ ["1"; "t"; "T"; "TRUE"; "true"; "True"]) then Some true
  else if bool_decide (s ∈ ["0"; "f"; "F"; "FALSE"; "false"; "False"]) then Some false
  else None.

(** A digit of any base up to 36. *)
Definition base_digit (c : ascii) : option Z :=
  let n := Z.of_N (N_of_ascii (ascii_lower c)) in
  match digit_value c with
  | Some d => Some d
  | None => if (97 <=? n)%Z && (n <=? 122)%Z then Some (n - 87)%Z else None
  end.

(** The digits of [ParseUint] in base 0; underscores are passed over. *)
Fixpoint parse_digits (base acc : Z) (s : list ascii) : option Z :=
  match s with
  | [] => Some acc
  | c :: s =>
    if Ascii.eqb c "_" then parse_digits base acc s
    else
      d ← base_digit c;
      if (base <=? d)%Z then None else parse_digits base (acc * base + d)%Z s
  end.

(** [underscoreOK] behind the sign and the prefix: an underscore stands between digits. *)
Inductive underscore_state := AtStart | AtDigit | AtUnderscore | AtOther.

Fixpoint underscore_loop (hex : bool) (i : underscore_state) (s : list ascii) : bool :=
  match s with
  | [] => match i with AtUnderscore => false | _ => true end
  | c :: s =>
    let digit := match digit_value c with
                 | Some _ => true
                 | None => hex && match hex_value c with Some _ => true | None => false end
                 end in
    if digit then underscore_loop hex AtDigit s
    else if Ascii.eqb c "_" then
      match i with AtDigit => underscore_loop hex AtUnderscore s | _ => false end
    else match i with AtUnderscore => false | _ => underscore_loop hex AtOther s end
  end.

(** The base that a prefix names, and what follows it. *)
Definition base_prefix (s : list ascii) : option (Z * list ascii) :=
  match s with
  | z :: c :: s =>
    if Ascii.eqb z "0" then
      if Ascii.eqb (ascii_lower c) "b" then Some (2%Z, s)
      else if Ascii.eqb (ascii_lower c) "o" then Some (8%Z, s)
      else if Ascii.eqb (ascii_lower c) "x" then Some (16%Z, s)
      else None
    else None
  | _ => None
  end.

Definition underscoreOK (s : list ascii) : bool :=
  match base_prefix s with
  | Some (base, s) => underscore_loop (base =? 16)%Z AtDigit s
  | None => underscore_loop false AtStart s
  end.

(** [strconv.ParseUint(s, 0, 64)] without its bound, for the digits behind a sign. *)
Definition parse_uint0 (s : list ascii) : option Z :=
  match s with
  | [] => None
  | z :: s' =>
    let '(base, digits) :=
      match base_prefix s with
      | Some (base, rest) => if bool_decide (rest = []) then (8%Z, s') else (base, rest)
      | None => if Ascii.eqb z "0" then (8%Z, s') else (10%Z, s)
      end in
    n ← parse_digits base 0 digits;
    if bool_decide ("_"%char ∈ digits) && negb (underscoreOK s) then None else Some n
  end.

Definition cut_sign (s : list ascii) : bool * list ascii :=
  match s with
  | c :: s' => if Ascii.eqb c "-" then (true, s') else if Ascii.eqb c "+" then (false, s')
               else (false, s)
  | [] => (false, [])
  end.

(** [strconv.ParseInt(s, 0, 64)] *)
Definition ParseInt (s : string) : option Z :=
  let '(neg, digits) := cut_sign (chars s) in
  n ← parse_uint0 digits;
  let n := if neg then (- n)%Z else n in
  if bool_decide (int64_range n) then Some n else None.

(** ** [time.ParseDuration] *)

(** [leadingInt]: the number, unless it exceeds 2^63, and what follows. *)
Fixpoint leadingInt (x : Z) (s : list ascii) : option (Z * list ascii) :=
  match s with
  | [] => Some (x, [])
  | c :: s' =>
    match digit_value c with
    | None => Some (x, s)
    | Some d => if (2 ^ 63 <? x * 10 + d)%Z then None else leadingInt (x * 10 + d) s'
    end
  end.

(** [leadingFraction]: digits that would overflow are passed over. *)
Fixpoint leadingFraction (x scale : Z) (overflow : bool) (s : list ascii) : Z * Z * list ascii :=
  match s with
  | [] => (x, scale, [])
  | c :: s' =>
    match digit_value c with
    | None => (x, scale, s)
    | Some d =>
      if overflow || ((2 ^ 63 - 1) / 10 <? x)%Z || (2 ^ 63 <? x * 10 + d)%Z
      then leadingFraction x scale true s'
      else leadingFraction (x * 10 + d) (scale * 10) false s'
    end
  end.

(** A unit goes on to the next digit or dot. *)
Fixpoint take_unit (s : list ascii) : list ascii * list ascii :=
  match s with
  | [] => ([], [])
  | c :: s' =>
    if Ascii.eqb c "." || match digit_value c with Some _ => true | None => false end
    then ([], s)
    else let '(u, rest) := take_unit s' in (c :: u, rest)
  end.

Definition unit_value (u : list ascii) : option Z :=
  let u := String.string_of_list_ascii u in
  if bool_decide (u = "ns") then Some 1%Z
  else if bool_decide (u ∈ ["us"; byte_string [194; 181; 115]%N; byte_string [206; 188; 115]%N])
  then Some 1000%Z
  else if bool_decide (u = "ms") then Some Millisecond
  else if bool_decide (u = "s") then Some Second
  else if bool_decide (u = "m") then Some Minute
  else if bool_decide (u = "h") then Some (60 * Minute)%Z
  else None.

(** [uint64(float64(f) * (float64(unit) / scale))] *)
Definition fraction_value (f unit scale : Z) : Z :=
  int_of_float64 (SFmul 53 1024 (float64_of_int f)
    (SFdiv 53 1024 (float64_of_int unit) (float64_of_int scale))).

(** The loop over the numbers with units; every turn takes at least a digit and a unit. *)
Fixpoint parse_duration_loop (fuel : nat) (d : Z) (s : list ascii) : option Z :=
  match fuel with
  | O => None
  | S fuel =>
    match s with
    | [] => Some d
    | _ =>
      '(v, rest) ← leadingInt 0 s;
      let pre := (length rest <? length s)%nat in
      let '(f, scale, post, rest) :=
        match rest with
        | c :: r =>
          if Ascii.eqb c "." then
            let '(f, scale, r') := leadingFraction 0 1 false r in
            (f, scale, (length r' <? length r)%nat, r')
          else (0%Z, 1%Z, false, rest)
        | [] => (0%Z, 1%Z, false, [])
        end in
      if negb pre && negb post then None
      else
        let '(u, rest) := take_unit rest in
        if bool_decide (u = []) then None
        else
          unit ← unit_value u;
          if (2 ^ 63 / unit <? v)%Z then None
          else
            let v := (v * unit + if (0 <? f)%Z then fraction_value f unit scale else 0)%Z in
            if (2 ^ 63 <? v)%Z || (2 ^ 63 <? d + v)%Z then None
            else parse_duration_loop fuel (d + v) rest
    end
  end.

Definition ParseDuration (s : string) : option Duration :=
  let '(neg, rest) := cut_sign (chars s) in
  if bool_decide (rest = ["0"%char]) then Some 0%Z
  else if bool_decide (rest = []) then None
  else
    d ← parse_duration_loop (S (length rest)) 0 rest;
    if neg then Some (- d)%Z else if (2 ^ 63 - 1 <? d)%Z then None else Some d.

(** * Flags *)

Inductive flag_value :=
| FBool (b : bool)
| FInt (z : Z)
| FString (s : string)
| FDuration (d : Duration).

#[export] Instance flag_value_eq_dec : EqDecision flag_value.
Proof. solve_decision. Defined.

(** [flag.Flag]; [DefValue] is the text of the default. *)
Record Flag := mkFlag { fl_Name : string; fl_Value : flag_value; fl_Usage : string }.

Definition value_String (v : flag_value) : string :=
  match v with
  | FBool b => if b then "true" else "false"
  | FInt z => FormatInt z
  | FString s => s
  | FDuration d => Duration_String d
  end.
Definition DefValue (f : Flag) : string := value_String (fl_Value f).

(** [Value.Set]: a value of the same kind, read from the text. *)
Definition value_Set (v : flag_value) (s : string) : option flag_value :=
  match v with
  | FBool _ => FBool <$> ParseBool s
  | FInt _ => FInt <$> ParseInt s
  | FString _ => Some (FString s)
  | FDuration _ => FDuration <$> ParseDuration s
  end.

Abbreviation flag_values := (gmap string flag_value) (only parsing).

(** [flag.Lookup] in a table; the values at the start are the defaults. *)
Definition flag_Lookup (table : list Flag) (name : string) : option Flag :=
  snd <$> list_find (λ f, fl_Name f = name) table.
Definition default_values (table : list Flag) : flag_values :=
  list_to_map ((λ f, (fl_Name f, fl_Value f)) <$> table).

(** How [flag.Parse] ends: with the values, after printing the usage, or with a complaint. *)
Inductive parsed := Parsed (vs : flag_values) | HelpRequested | BadFlag (msg : string).

(** The name of a flag and its value, if an equals sign follows. *)
Fixpoint cut_equals (name : string) : string * option string :=
  match name with
  | "" => ("", None)
  | String c rest =>
    if Ascii.eqb c "=" then ("", Some rest)
    else let '(n, v) := cut_equals rest in (String c n, v)
  end.

(** What [parseOne] makes of an argument: the end of the flags, bad syntax, or a flag. *)
Inductive argument := NotAFlag | BadSyntax | FlagArg (name : string) (value : option string).

Definition read_argument (s : string) : argument :=
  match s with
  | String "-" rest =>
    let named (name : string) :=
      match name with
      | "" | String "-" _ | String "=" _ => BadSyntax
      | _ => let '(name, value) := cut_equals name in FlagArg name value
      end in
    match rest with
    | "" => NotAFlag
    | String "-" "" => NotAFlag
    | String "-" name => named name
    | name => named name
    end
  | _ => NotAFlag
  end.

(** [flag.Parse] on the arguments. *)
Fixpoint flag_Parse (vs : flag_values) (args : list string) : parsed :=
  match args with
  | [] => Parsed vs
  | s :: args =>
    match read_argument s with
    | NotAFlag => Parsed vs
    | BadSyntax => BadFlag ("bad flag syntax: " +:+ s)
    | FlagArg name value =>
      match vs !! name with
      | None =>
        if bool_decide (name ∈ ["help"; "h"]) then HelpRequested
        else BadFlag ("flag provided but not defined: -" +:+ name)
      | Some (FBool b) =>
        match value_Set (FBool b) (default "true" value) with
        | Some v => flag_Parse (<[name := v]> vs) args
        | None => BadFlag ("invalid boolean value for -" +:+ name)
        end
      | Some old =>
        match value, args with
        | Some s, _ =>
          match value_Set old s with
          | Some v => flag_Parse (<[name := v]> vs) args
          | None => BadFlag ("invalid value for flag -" +:+ name)
          end
        | None, s :: args =>
          match value_Set old s with
          | Some v => flag_Parse (<[name := v]> vs) args
          | None => BadFlag ("invalid value for flag -" +:+ name)
          end
        | None, [] => BadFlag ("flag needs an argument: -" +:+ name)
        end
      end
    end
  end.

(** The value of a flag of each kind. *)
Definition bool_flag (vs : flag_values) (name : string) : bool :=
  match vs !! name with Some (FBool b) => b | _ => false end.
Definition int_flag (vs : flag_values) (name : string) : Z :=
  match vs !! name with Some (FInt z) => z | _ => 0%Z end.
Definition string_flag (vs : flag_values) (name : string) : string :=
  match vs !! name with Some (FString s) => s | _ => "" end.
Definition duration_flag (vs : flag_values) (name : string) : Duration :=
  match vs !! name with Some (FDuration d) => d | _ => 0%Z end.

(** * Values read back *)

Example ParseInt_ex :
  ParseInt <$> ["0"; "-5"; "+16_777_216"; "0x10"; "010"; "0b101"; "1_"; "9223372036854775807";
    "9223372036854775808"; ""; "x"; "0x"; "08"]
  = [Some 0; Some (-5); Some 16777216; Some 16; Some 8; Some 5; None; Some (2 ^ 63 - 1);
     None; None; None; None; None]%Z.
Proof. by vm_compute. Qed.

Example ParseDuration_ex :
  ParseDuration <$> ["0"; "10m0s"; "1.5h"; "-2ms"; "2h45m30.25s"; "1"; "s"; ".s"; "1d"; ".5s";
    "2562047h47m16.854775807s"; "2562047h47m16.854775808s"]
  = [Some 0; Some (10 * Minute); Some (90 * Minute); Some (-2 * Millisecond);
     Some (165 * Minute + 30250 * Millisecond); None; None; None; None; Some (500 * Millisecond);
     Some (2 ^ 63 - 1); None]%Z.
Proof. by vm_compute. Qed.
