(* ===== verification/ChunkBuilder.v ===== *)
(** [types.BuildChunks] (src/src/types/chunk.go): how the sorted file list is cut into
    chunks, and the layout it promises: the ranges of every file tile it, in order. *)
From S2P Require Import Prelude Types.

(** * The interface of sort.Slice

    [sort.Slice(files, less by Name)] promises a sorted permutation and nothing about
    the order of equal elements. *)

Definition name_le (f g : FileEntry) : Prop :=
  String.le (FileEntry_Name f) (FileEntry_Name g).

#[export] Instance name_le_dec : RelDecision name_le.
Proof. intros f g. unfold name_le. apply _. Defined.
#[export] Instance name_le_trans : Transitive name_le.
Proof. intros f g h. unfold name_le. by intros; etrans. Qed.
#[export] Instance name_le_total : Total name_le.
Proof. intros f g. unfold name_le. apply (total String.le). Qed.

Class SliceSort := {
  sort_Slice : list FileEntry → list FileEntry;
  sort_Slice_perm l : sort_Slice l ≡ₚ l;
  sort_Slice_sorted l : StronglySorted name_le (sort_Slice l)
}.

(** A sort that keeps the promise: stdpp's merge sort. *)
Definition merge_SliceSort : SliceSort := {|
  sort_Slice := merge_sort name_le;
  sort_Slice_perm := merge_sort_Permutation name_le;
  sort_Slice_sorted l := StronglySorted_merge_sort name_le l
|}.

(** * Operations *)

(** [chunkList], [chunk.FileRanges] and [currentChunkSize]. *)
Record builder := mkBuilder
  { bd_chunkList : list Chunk; bd_chunk : list FileRange; bd_currentChunkSize : Z }.

Definition builder_init : builder := mkBuilder [] [] 0.

Definition newChunk (b : builder) : builder :=
  mkBuilder (bd_chunkList b ++ [Chunk_copy (mkChunk (bd_chunk b) ChunkStatusPending time_zero)])
    (FileRanges Chunk_zero) 0.

Definition addToChunk (index : nat) (startOffset endOffset : Z) (b : builder) : builder :=
  mkBuilder (bd_chunkList b)
    (bd_chunk b ++ [mkFileRange index startOffset endOffset])
    (bd_currentChunkSize b +i64 (endOffset -i64 startOffset))%go.

Section BuildChunks.
Context (chunkSize : Z) (maxFileCountPerChunk : Z).

(** The loop [for remainFilesize > 0]; [None] is running out of fuel. The file is
    returned with its counter incremented once per iteration. *)
Fixpoint split_file (fuel : nat) (index : nat) (startOffset remainFilesize : Z)
    (file : FileEntry) (b : builder) : option (FileEntry * builder) :=
  if (0 <? remainFilesize)%Z then
    match fuel with
    | O => None
    | S fuel =>
      let file := (IncrementRemainingChunkCount file).1 in
      if (bd_currentChunkSize b +i64 remainFilesize <? chunkSize)%go%Z then
        let b := addToChunk index startOffset (FileEntry_Size file) b in
        let b := if (Z.of_nat (length (bd_chunk b)) =? maxFileCountPerChunk)%Z
                 then newChunk b else b in
        Some (file, b)
      else
        let size := (chunkSize -i64 bd_currentChunkSize b)%go in
        let b := newChunk (addToChunk index startOffset (startOffset +i64 size)%go b) in
        split_file fuel index (startOffset +i64 size)%go (remainFilesize -i64 size)%go file b
    end
  else Some (file, b).

(** Iterations that are enough for a file of this size. *)
Definition split_fuel (size : Z) : nat := Z.to_nat (size / chunkSize) + 2.

(** The loop [for index := range files]. *)
Fixpoint build_files (index : nat) (files : list FileEntry) (b : builder) :
    option (list FileEntry * builder) :=
  match files with
  | [] => Some ([], b)
  | file :: files =>
    '(file, b) ← split_file (split_fuel (FileEntry_Size file)) index 0
                   (FileEntry_Size file) file b;
    '(files, b) ← build_files (S index) files b;
    Some (file :: files, b)
  end.

(** The file list is sorted and counted in place, so it is returned as well. *)
Definition BuildChunks `{SliceSort} (files : list FileEntry) :
    option (list FileEntry * list Chunk) :=
  if decide (files = []) then Some (files, [])
  else
    let files := sort_Slice files in
    '(files, b) ← build_files 0 files builder_init;
    Some (files,
      if decide (0 < length (bd_chunk b)) then
        bd_chunkList b ++ [Chunk_copy (mkChunk (bd_chunk b) ChunkStatusPending time_zero)]
      else bd_chunkList b).
End BuildChunks.

(** * Specification *)

(** [tiles from to l]: the ranges of [l] are non-empty, follow each other and cover
    exactly the bytes from [from] to [to]. *)
Fixpoint tiles (from to : Z) (l : list FileRange) : Prop :=
  match l with
  | [] => from = to
  | r :: l => StartOffset r = from ∧ (from < EndOffset r)%Z ∧ tiles (EndOffset r) to l
  end.

(** [layout i files l]: the ranges of [l], taken in order, tile the files [i], [i+1], ... *)
Inductive layout : nat → list FileEntry → list FileRange → Prop :=
| layout_nil i : layout i [] []
| layout_cons i f files l rest :
    Forall (λ r, FileIndex r = i) l →
    tiles 0 (Z.max 0 (FileEntry_Size f)) l →
    layout (S i) files rest →
    layout i (f :: files) (l ++ rest).

Definition all_ranges (chunks : list Chunk) : list FileRange := chunks ≫= FileRanges.

(** How often a file occurs in a list of ranges: the number of times [WriteChunk] will
    decrement its counter. *)
Definition range_count (i : nat) (l : list FileRange) : nat :=
  length (filter (λ r, FileIndex r = i) l).

(** The bounds of a chunk. *)
Definition chunk_bounded (chunkSize maxFileCountPerChunk : Z) (c : Chunk) : Prop :=
  FileRanges c ≠ [] ∧
  (ranges_len (FileRanges c) ≤ chunkSize)%Z ∧
  (0 < maxFileCountPerChunk → Z.of_nat (length (FileRanges c)) ≤ maxFileCountPerChunk)%Z.

(** A chunk is closed early only because it is full. *)
Definition chunk_full (chunkSize maxFileCountPerChunk : Z) (c : Chunk) : Prop :=
  ranges_len (FileRanges c) = chunkSize ∨
  Z.of_nat (length (FileRanges c)) = maxFileCountPerChunk.

(** The inputs for which int64 arithmetic in the splitter does not overflow. *)
Definition sizes_ok (chunkSize : Z) (files : list FileEntry) : Prop :=
  Forall (λ f, FileEntry_Size f + chunkSize < 2 ^ 63)%Z files.

(** * Lemmas *)

Lemma tiles_app from mid to l k :
  tiles from mid l → tiles mid to k → tiles from to (l ++ k).
Proof. revert from. induction l as [|r l IH]; simpl; [by intros ? ->|naive_solver]. Qed.

Lemma tiles_snoc from mid to i l :
  tiles from mid l → (mid < to)%Z → tiles from to (l ++ [mkFileRange i mid to]).
Proof. intros H1 H2. apply (tiles_app _ mid); simpl; auto. Qed.

Lemma tiles_le from to l : tiles from to l → (from ≤ to)%Z.
Proof.
  revert from. induction l as [|r l IH]; simpl; [lia|].
  intros from (<- & ? & ?%IH). lia.
Qed.

Lemma tiles_len from to l : tiles from to l → ranges_len l = (to - from)%Z.
Proof.
  revert from. induction l as [|r l IH]; intros from; simpl.
  - intros ->. unfold ranges_len. simpl. lia.
  - intros (<- & ? & ->%IH%(λ H, eq_trans (ranges_len_cons r l) (f_equal _ H))).
    unfold range_len. lia.
Qed.

(** Every range of a tiling is non-empty and lies inside it. *)
Lemma tiles_inside from to l r :
  tiles from to l → r ∈ l → (from ≤ StartOffset r < EndOffset r ∧ EndOffset r ≤ to)%Z.
Proof.
  revert from. induction l as [|r' l IH]; intros from; [by intros _ ?%elem_of_nil|].
  simpl. intros (<- & Hlt & Ht) [->|Hin]%elem_of_cons.
  - apply tiles_le in Ht. lia.
  - destruct (IH _ Ht Hin). lia.
Qed.

Lemma all_ranges_app c1 c2 : all_ranges (c1 ++ c2) = all_ranges c1 ++ all_ranges c2.
Proof. apply bind_app. Qed.

Lemma all_ranges_singleton c : all_ranges [c] = FileRanges c.
Proof. unfold all_ranges. simpl. apply app_nil_r. Qed.

#[export] Hint Rewrite all_ranges_app all_ranges_singleton : go.

Definition bd_ranges (b : builder) : list FileRange :=
  all_ranges (bd_chunkList b) ++ bd_chunk b.

Lemma bd_ranges_addToChunk i s e b :
  bd_ranges (addToChunk i s e b) = bd_ranges b ++ [mkFileRange i s e].
Proof. unfold bd_ranges. simpl. by rewrite (assoc_L (++)). Qed.

Lemma bd_ranges_newChunk b : bd_ranges (newChunk b) = bd_ranges b.
Proof. unfold bd_ranges. simpl. autorewrite with go. simpl. by rewrite app_nil_r. Qed.

#[export] Hint Rewrite bd_ranges_addToChunk bd_ranges_newChunk : go.

Section invariant.
Context (chunkSize maxFileCountPerChunk : Z).
Hypothesis HchunkSize : (0 < chunkSize)%Z.

Local Abbreviation split_file := (split_file chunkSize maxFileCountPerChunk).
Local Abbreviation chunk_bounded := (chunk_bounded chunkSize maxFileCountPerChunk).
Local Abbreviation chunk_full := (chunk_full chunkSize maxFileCountPerChunk).

(** What is true of every chunk the splitter hands over. *)
Definition fresh_chunk (c : Chunk) : Prop :=
  chunk_bounded c ∧ NoDup (FileIndex <$> FileRanges c) ∧ c = Chunk_copy c.

(** The invariant of the splitter between two files: [index] is the next file. *)
Record builder_inv (index : nat) (b : builder) : Prop := {
  bi_closed : Forall (λ c, fresh_chunk c ∧ chunk_full c) (bd_chunkList b);
  bi_size : bd_currentChunkSize b = ranges_len (bd_chunk b);
  bi_pos : Forall (λ r, 0 ≤ range_len r)%Z (bd_chunk b);
  bi_small : (ranges_len (bd_chunk b) < chunkSize)%Z;
  bi_count : (0 < maxFileCountPerChunk →
              Z.of_nat (length (bd_chunk b)) < maxFileCountPerChunk)%Z;
  bi_index : Forall (λ r, FileIndex r < index) (bd_chunk b);
  bi_nodup : NoDup (FileIndex <$> bd_chunk b);
}.

Lemma builder_inv_init : builder_inv 0 builder_init.
Proof.
  constructor; simpl; try constructor; unfold ranges_len; simpl; lia.
Qed.

Lemma builder_inv_weaken i b : builder_inv i b → builder_inv (S i) b.
Proof.
  intros []. constructor; try done.
  eapply Forall_impl; [done|]. simpl. lia.
Qed.

Lemma builder_size_range i b :
  builder_inv i b → (0 ≤ bd_currentChunkSize b < chunkSize)%Z.
Proof. intros []. rewrite bi_size0. split; [by apply ranges_len_nonneg|done]. Qed.

(** Adding a non-empty range that fits makes a chunk that can be closed. *)
Lemma addToChunk_fresh i s e b :
  builder_inv i b → (0 ≤ s < e)%Z → (bd_currentChunkSize b + (e - s) ≤ chunkSize)%Z →
  fresh_chunk (Chunk_copy (mkChunk (bd_chunk (addToChunk i s e b)) ChunkStatusPending
    time_zero)).
Proof.
  intros [] Hse Hfit. unfold fresh_chunk, chunk_bounded. simpl. split_and!; try done.
  - intros ?%app_eq_nil. naive_solver.
  - rewrite ranges_len_app. unfold ranges_len at 2, range_len. simpl. lia.
  - rewrite length_app. simpl. lia.
  - rewrite fmap_app. apply NoDup_app. split; [done|]. split; [|apply NoDup_singleton].
    intros x (r & -> & Hr)%list_elem_of_fmap.
    rewrite Forall_forall in bi_index0. specialize (bi_index0 _ Hr).
    csimpl. rewrite list_elem_of_singleton. lia.
Qed.

(** Closing a chunk that is full. *)
Lemma newChunk_inv i b :
  Forall (λ c, fresh_chunk c ∧ chunk_full c) (bd_chunkList b) →
  fresh_chunk (Chunk_copy (mkChunk (bd_chunk b) ChunkStatusPending time_zero)) →
  chunk_full (Chunk_copy (mkChunk (bd_chunk b) ChunkStatusPending time_zero)) →
  builder_inv i (newChunk b).
Proof.
  intros Hc Hf Hfull. constructor; simpl; try constructor; try (unfold ranges_len; simpl; lia).
  apply Forall_app. split; [done|]. constructor; [done|constructor].
Qed.

(** Adding a range that leaves the chunk with room keeps it open. *)
Lemma addToChunk_inv i s e b :
  builder_inv i b → (0 ≤ s < e)%Z → (bd_currentChunkSize b + (e - s) < chunkSize)%Z →
  (chunkSize < 2 ^ 63)%Z →
  Z.of_nat (length (bd_chunk (addToChunk i s e b))) ≠ maxFileCountPerChunk →
  builder_inv (S i) (addToChunk i s e b).
Proof.
  intros Hb Hse Hfit Hcs Hlen.
  pose proof (builder_size_range _ _ Hb).
  destruct (addToChunk_fresh i s e b Hb Hse ltac:(lia)) as (_ & Hnd & _).
  destruct Hb. simpl in Hlen. rewrite length_app in Hlen. simpl in Hlen.
  constructor; simpl; try done.
  - wrap_simpl. rewrite ranges_len_app. unfold ranges_len at 2, range_len. simpl. lia.
  - apply Forall_app. split; [done|]. constructor; [|constructor].
    unfold range_len. simpl. lia.
  - rewrite ranges_len_app. unfold ranges_len at 2, range_len. simpl. lia.
  - rewrite length_app. simpl. lia.
  - apply Forall_app. split; [eapply Forall_impl; [done|]; simpl; lia|].
    constructor; [|constructor]. simpl. lia.
Qed.

(** The inner loop: with enough fuel it returns, keeps the invariant, and appends
    ranges of file [i] that tile the rest of the file. *)
Lemma split_file_spec fuel i start remain file b :
  builder_inv i b → (0 ≤ start)%Z → (0 ≤ remain)%Z →
  FileEntry_Size file = (start + remain)%Z →
  (FileEntry_Size file + chunkSize < 2 ^ 63)%Z →
  int32_range (FileEntry_remainingChunkCount file) →
  (bd_currentChunkSize b + remain ≤ Z.of_nat fuel * chunkSize)%Z →
  ∃ file' b' l,
    split_file fuel i start remain file b = Some (file', b') ∧
    builder_inv (S i) b' ∧
    bd_ranges b' = bd_ranges b ++ l ∧
    Forall (λ r, FileIndex r = i) l ∧
    tiles start (start + remain) l ∧
    file' = set_remainingChunkCount
      (wrap 32 (FileEntry_remainingChunkCount file + Z.of_nat (length l))) file.
Proof.
  revert start remain file b.
  induction fuel as [|fuel IH];
    intros start remain file b Hb Hs Hr Hsize Hov Hcnt Hfuel;
    pose proof (builder_size_range _ _ Hb); cbn [ChunkBuilder.split_file];
    destruct (Z.ltb_spec 0 remain) as [Hlt|Hge]; try lia.
  1, 3: exists file, b, []; split_and!;
    [done|by apply builder_inv_weaken|by rewrite app_nil_r|constructor|simpl; lia|].
  1, 2: destruct file; unfold set_remainingChunkCount, int32_range in *; simpl in *;
    f_equal; wrap_simpl; lia.
  wrap_simpl. destruct (Z.ltb_spec (bd_currentChunkSize b + remain) chunkSize) as [Hfit|Hsplit].
  - (* the rest fits *)
    set (b1 := addToChunk i start (FileEntry_Size _) b).
    eexists _, _, [mkFileRange i start (start + remain)]. split; [done|].
    assert (bd_ranges b1 = bd_ranges b ++ [mkFileRange i start (start + remain)]) as Hrs.
    { unfold b1. rewrite bd_ranges_addToChunk. simpl. by rewrite Hsize. }
    split_and!; [| |by constructor|simpl; lia|done].
    + destruct (Z.eqb_spec (Z.of_nat (length (bd_chunk b1))) maxFileCountPerChunk).
      * apply newChunk_inv; [by apply Hb| |by right].
        unfold b1. simpl. rewrite Hsize. apply (addToChunk_fresh _ _ _ _ Hb); lia.
      * unfold b1 in *. simpl in *. rewrite Hsize in *.
        apply addToChunk_inv; simpl; try done; lia.
    + destruct (Z.eqb _ _); [by rewrite bd_ranges_newChunk|done].
  - (* the chunk is filled *)
    set (size := (chunkSize - bd_currentChunkSize b)%Z) in *.
    assert (0 < size ≤ remain)%Z by lia. wrap_simpl.
    set (b1 := addToChunk i start (start + size) b).
    assert (builder_inv i (newChunk b1)) as Hb1.
    { apply newChunk_inv; [by apply Hb|apply (addToChunk_fresh _ _ _ _ Hb); lia|].
      left. simpl. rewrite ranges_len_app. unfold ranges_len at 2, range_len. simpl.
      destruct Hb. unfold size. lia. }
    edestruct (IH (start + size)%Z (remain - size)%Z) as
      (file' & b' & l & -> & Hinv & Hrs' & Hidx & Ht & Hf);
      [exact Hb1|lia|lia| | | | |].
    5: { exists file', b', (mkFileRange i start (start + size) :: l). split_and!; try done.
      - rewrite Hrs', bd_ranges_newChunk. unfold b1. rewrite bd_ranges_addToChunk.
        by rewrite <- (assoc_L (++)).
      - by constructor.
      - simpl. split_and!; [done|lia|]. by replace (start + remain)%Z with
          (start + size + (remain - size))%Z by lia.
      - rewrite Hf. unfold set_remainingChunkCount. simpl. f_equal.
        rewrite wrap_add_l by done. f_equal. lia. }
    all: simpl; try lia.
    apply (wrap_range 32). done.
Qed.

Lemma split_fuel_enough size b i :
  builder_inv i b → (0 ≤ size)%Z →
  (bd_currentChunkSize b + size ≤ Z.of_nat (split_fuel chunkSize size) * chunkSize)%Z.
Proof.
  intros Hb Hs. pose proof (builder_size_range _ _ Hb). unfold split_fuel.
  pose proof (Z.div_mod size chunkSize ltac:(lia)).
  pose proof (Z.mod_pos_bound size chunkSize ltac:(lia)).
  pose proof (Z.div_pos size chunkSize ltac:(lia) ltac:(lia)). nia.
Qed.

(** One file of the outer loop, whatever its size. *)
Lemma split_file_total i file b :
  builder_inv i b →
  (FileEntry_Size file + chunkSize < 2 ^ 63)%Z →
  int32_range (FileEntry_remainingChunkCount file) →
  ∃ b' l,
    split_file (split_fuel chunkSize (FileEntry_Size file)) i 0 (FileEntry_Size file) file b
      = Some (set_remainingChunkCount
          (wrap 32 (FileEntry_remainingChunkCount file + Z.of_nat (length l))) file, b') ∧
    builder_inv (S i) b' ∧ bd_ranges b' = bd_ranges b ++ l ∧
    Forall (λ r, FileIndex r = i) l ∧
    tiles 0 (Z.max 0 (FileEntry_Size file)) l.
Proof.
  intros Hb Hov Hcnt. destruct (decide (0 ≤ FileEntry_Size file)%Z) as [Hs|Hs].
  - destruct (split_file_spec (split_fuel chunkSize (FileEntry_Size file)) i 0
      (FileEntry_Size file) file b) as (f' & b' & l & -> & ? & ? & ? & ? & ->);
      try done; [by eapply split_fuel_enough|].
    exists b', l. rewrite Z.max_r by lia. naive_solver.
  - exists b, []. destruct (split_fuel _ _) eqn:E; [unfold split_fuel in E; lia|].
    cbn [ChunkBuilder.split_file]. destruct (Z.ltb_spec 0 (FileEntry_Size file)); [lia|].
    split_and!; [|by apply builder_inv_weaken|by rewrite app_nil_r|done|simpl; lia].
    do 2 f_equal. destruct file. unfold set_remainingChunkCount, int32_range in *.
    simpl in *. f_equal. wrap_simpl. lia.
Qed.
End invariant.

Lemma layout_indices i files l :
  layout i files l → Forall (λ r, i ≤ FileIndex r < i + length files) l.
Proof.
  induction 1 as [|i f files l rest Hl Ht Hr IH]; [constructor|].
  apply Forall_app; split; (eapply Forall_impl; [eassumption|]); simpl; lia.
Qed.

Lemma range_count_app i l k : range_count i (l ++ k) = range_count i l + range_count i k.
Proof. unfold range_count. by rewrite filter_app, length_app. Qed.

Lemma range_count_all i l : Forall (λ r, FileIndex r = i) l → range_count i l = length l.
Proof. intros H. unfold range_count. by rewrite list_filter_all. Qed.

Lemma range_count_none i l : Forall (λ r, FileIndex r ≠ i) l → range_count i l = 0.
Proof. intros H. unfold range_count. by rewrite list_filter_none. Qed.

(** The files with the counters the splitter leaves. *)
Definition counted (i : nat) (l : list FileRange) (files : list FileEntry) : list FileEntry :=
  imap (λ k f, set_remainingChunkCount
    (wrap 32 (FileEntry_remainingChunkCount f + Z.of_nat (range_count (i + k) l))) f) files.

Lemma counted_ext i l l' files :
  (∀ k, i ≤ k → range_count k l = range_count k l') → counted i l files = counted i l' files.
Proof.
  intros H. unfold counted. apply imap_ext. intros k f _. by rewrite H by lia.
Qed.

Lemma counted_cons i l f files :
  counted i l (f :: files) =
  set_remainingChunkCount
    (wrap 32 (FileEntry_remainingChunkCount f + Z.of_nat (range_count i l))) f
  :: counted (S i) l files.
Proof.
  unfold counted. simpl. rewrite Nat.add_0_r. f_equal. apply imap_ext. intros k g _. simpl.
  by rewrite Nat.add_succ_r.
Qed.

Lemma build_files_spec cs mf i files b :
  (0 < cs)%Z → builder_inv cs mf i b → sizes_ok cs files →
  Forall (λ f, int32_range (FileEntry_remainingChunkCount f)) files →
  ∃ b' l,
    build_files cs mf i files b = Some (counted i l files, b') ∧
    builder_inv cs mf (i + length files) b' ∧ bd_ranges b' = bd_ranges b ++ l ∧
    layout i files l.
Proof.
  intros Hcs. revert i b. induction files as [|f files IH]; intros i b Hb Hs Hc.
  { exists b, []. rewrite Nat.add_0_r, app_nil_r. split_and!; done || constructor. }
  apply Forall_cons in Hs as [Hs0 Hs]. apply Forall_cons in Hc as [Hc0 Hc].
  destruct (split_file_total cs mf Hcs i f b) as (b1 & l1 & Hsplit & Hb1 & Hr1 & Hi1 & Ht1);
    [done..|].
  destruct (IH (S i) b1) as (b2 & l2 & Hrest & Hb2 & Hr2 & Hl2); [done..|].
  exists b2, (l1 ++ l2). split_and!.
  - simpl. rewrite Hsplit. simpl. rewrite Hrest. simpl. do 2 f_equal.
    rewrite counted_cons. f_equal.
    + rewrite range_count_app, range_count_all by done.
      rewrite range_count_none, Nat.add_0_r; [done|].
      eapply Forall_impl; [by eapply layout_indices|]. simpl. lia.
    + apply counted_ext. intros k Hk. rewrite range_count_app, (range_count_none k l1); [done|].
      eapply Forall_impl; [done|]. simpl. lia.
  - simpl. by rewrite Nat.add_succ_r.
  - by rewrite Hr2, Hr1, (assoc_L (++)).
  - by constructor.
Qed.

Lemma sort_Slice_nil `{SliceSort} : sort_Slice [] = [].
Proof. apply Permutation_nil_r, sort_Slice_perm. Qed.

Lemma counted_Copy i l files : FileEntry_Copy <$> counted i l files = FileEntry_Copy <$> files.
Proof.
  revert i. induction files as [|f files IH]; intros i; [done|].
  rewrite counted_cons, !fmap_cons, IH. done.
Qed.

Lemma layout_counted i j l files k : layout i files k → layout i (counted j l files) k.
Proof.
  intros H. revert j. induction H as [|i f files k rest]; intros j; [constructor|].
  rewrite counted_cons. by constructor.
Qed.

Lemma layout_file i files l k f :
  layout i files l → files !! k = Some f →
  tiles 0 (Z.max 0 (FileEntry_Size f)) (filter (λ r, FileIndex r = i + k) l).
Proof.
  intros H. revert k. induction H as [|i f' files l rest Hl Ht Hr IH]; intros k; [done|].
  pose proof (layout_indices _ _ _ Hr) as Hrest. rewrite filter_app.
  destruct k as [|k]; simpl.
  - intros [= ->]. rewrite Nat.add_0_r, (list_filter_all _ l), (list_filter_none _ rest).
    + by rewrite app_nil_r.
    + eapply Forall_impl; [done|]. simpl. lia.
    + done.
  - intros Hk. rewrite Nat.add_succ_r, (list_filter_none _ l).
    + by apply IH.
    + eapply Forall_impl; [done|]. simpl. lia.
Qed.

(** Everything the splitter guarantees, from its loop invariant. *)
Lemma BuildChunks_spec `{SliceSort} cs mf files :
  (0 < cs)%Z → sizes_ok cs files →
  Forall (λ f, int32_range (FileEntry_remainingChunkCount f)) files →
  ∃ chunks,
    BuildChunks cs mf files
      = Some (counted 0 (all_ranges chunks) (sort_Slice files), chunks) ∧
    layout 0 (sort_Slice files) (all_ranges chunks) ∧
    Forall (fresh_chunk cs mf) chunks ∧
    ∀ k c, chunks !! k = Some c → S k < length chunks → chunk_full cs mf c.
Proof.
  intros Hcs Hs Hc. unfold BuildChunks. destruct (decide (files = [])) as [->|_].
  { exists []. rewrite sort_Slice_nil. simpl. split_and!; done || constructor. }
  assert (sizes_ok cs (sort_Slice files)) as Hs' by (unfold sizes_ok; by rewrite sort_Slice_perm).
  rewrite <- (sort_Slice_perm files) in Hc.
  destruct (build_files_spec cs mf 0 (sort_Slice files) builder_init Hcs
    (builder_inv_init cs mf Hcs) Hs' Hc) as (b & l & -> & Hb & Hr & Hl). simpl.
  simpl in Hr. change (bd_ranges builder_init) with (@nil FileRange) in Hr. simpl in Hr. subst l.
  destruct Hb as [Hclosed Hsz Hpos Hsmall Hcnt _ Hnd].
  unfold bd_ranges in Hl |- *. destruct (decide _) as [Hlen|Hlen].
  - exists (bd_chunkList b ++
      [Chunk_copy (mkChunk (bd_chunk b) ChunkStatusPending time_zero)]).
    autorewrite with go. split; [done|]. split; [done|]. split.
    + apply Forall_app. split; [eapply Forall_impl; [done|]; by intros ? []|].
      constructor; [|constructor]. unfold fresh_chunk, chunk_bounded. simpl.
      split_and!; try done; [|lia|lia].
      intros E. rewrite E in Hlen. simpl in Hlen. lia.
    + intros k c Hk. rewrite length_app. simpl. intros Hlt.
      rewrite lookup_app_l in Hk by lia.
      rewrite Forall_lookup in Hclosed. by eapply Hclosed.
  - assert (bd_chunk b = []) as Hnil by (destruct (bd_chunk b); simpl in *; done || lia).
    rewrite Hnil, app_nil_r in *. exists (bd_chunkList b). split_and!; [done|done| |].
    + eapply Forall_impl; [done|]. by intros ? [].
    + intros k c Hk _. rewrite Forall_lookup in Hclosed. by eapply Hclosed.
Qed.

Lemma layout_range i files l r :
  layout i files l → r ∈ l →
  ∃ k f, FileIndex r = i + k ∧ files !! k = Some f ∧
    (0 ≤ StartOffset r < EndOffset r ∧ EndOffset r ≤ FileEntry_Size f)%Z.
Proof.
  induction 1 as [|i f files l rest Hl Ht Hr IH]; [by intros ?%elem_of_nil|].
  intros [Hin|Hin]%elem_of_app.
  - exists 0, f. rewrite Forall_forall in Hl. destruct (tiles_inside _ _ _ _ Ht Hin).
    split_and!; [rewrite (Hl r Hin); lia|done|lia..].
  - destruct (IH Hin) as (k & g & Hk & Hg & Hb). exists (S k), g.
    split_and!; [lia|done|lia..].
Qed.

Lemma elem_of_all_ranges c r chunks : c ∈ chunks → r ∈ FileRanges c → r ∈ all_ranges chunks.
Proof. intros. unfold all_ranges. rewrite list_elem_of_bind. eauto. Qed.

Lemma counted_lookup i l files k f :
  counted i l files !! k = Some f →
  ∃ f0, files !! k = Some f0 ∧ f = set_remainingChunkCount
    (wrap 32 (FileEntry_remainingChunkCount f0 + Z.of_nat (range_count (i + k) l))) f0.
Proof.
  unfold counted. rewrite list_lookup_imap. destruct (files !! k) as [f0|]; [|done].
  intros [= <-]. eauto.
Qed.

Lemma counted_sorted i l files :
  StronglySorted name_le files → StronglySorted name_le (counted i l files).
Proof.
  intros Hs. revert i. induction Hs as [|f files Hs IH Hf]; intros i; [constructor|].
  rewrite counted_cons. constructor; [apply IH|].
  apply Forall_lookup. intros k g (g0 & Hg & ->)%counted_lookup.
  rewrite Forall_lookup in Hf. exact (Hf k _ Hg).
Qed.

(** * Properties *)

Section properties.
Context `{SliceSort} (cs mf : Z) (files : list FileEntry).

(** C21: [BuildChunks] returns for every positive chunk size and every list of files
    whose size plus the chunk size fits in an int64; the files come back sorted, with
    their names, sizes and permissions unchanged, and the ranges of the chunks, read in
    order, tile file 0, then file 1, and so on: no byte is lost, repeated or reordered. *)
Theorem BuildChunks_layout :
  (0 < cs)%Z → sizes_ok cs files →
  Forall (λ f, int32_range (FileEntry_remainingChunkCount f)) files →
  ∃ files' chunks,
    BuildChunks cs mf files = Some (files', chunks) ∧
    layout 0 files' (all_ranges chunks) ∧
    FileEntry_Copy <$> files' ≡ₚ FileEntry_Copy <$> files ∧
    StronglySorted name_le files'.
Proof.
  intros Hcs Hs Hc. destruct (BuildChunks_spec cs mf files Hcs Hs Hc) as (chunks & -> & Hl & _).
  do 2 eexists. split_and!; [done|by apply layout_counted| |].
  - by rewrite counted_Copy, sort_Slice_perm.
  - apply counted_sorted, sort_Slice_sorted.
Qed.

(** C22: every chunk is non-empty and at most [chunkSize] bytes, holds at most
    [maxFileCountPerChunk] ranges when that limit is positive, no file twice, and starts
    out Pending; every chunk but the last has exactly [chunkSize] bytes or exactly
    [maxFileCountPerChunk] ranges. *)
Theorem BuildChunks_bounds files' chunks :
  (0 < cs < 2 ^ 63)%Z → sizes_ok cs files →
  Forall (λ f, int32_range (FileEntry_remainingChunkCount f)) files →
  BuildChunks cs mf files = Some (files', chunks) →
  ∀ k c, chunks !! k = Some c →
    (0 < Chunk_Size c ≤ cs)%Z ∧
    (0 < mf → Z.of_nat (length (FileRanges c)) ≤ mf)%Z ∧
    NoDup (FileIndex <$> FileRanges c) ∧
    GetStatus c = ChunkStatusPending ∧
    (S k < length chunks →
      Chunk_Size c = cs ∨ Z.of_nat (length (FileRanges c)) = mf).
Proof.
  intros Hcs Hs Hc Hbuild k c Hk.
  destruct (BuildChunks_spec cs mf files ltac:(lia) Hs Hc)
    as (chunks0 & Hb & Hl & Hfresh & Hfull).
  rewrite Hb in Hbuild. injection Hbuild as <- <-.
  destruct (proj1 (Forall_lookup _ _) Hfresh _ _ Hk) as ((Hne & Hlen & Hcnt) & Hnd & Hcopy).
  assert (Forall (λ r, 0 < range_len r)%Z (FileRanges c)) as Hpos.
  { apply Forall_forall. intros r Hr. unfold range_len.
    destruct (layout_range _ _ _ r Hl) as (? & ? & _ & _ & ?); [|lia].
    eapply elem_of_all_ranges; [by eapply list_elem_of_lookup_2|done]. }
  assert (Chunk_Size c = ranges_len (FileRanges c)) as Hsize.
  { apply Chunk_Size_exact; [|lia]. eapply Forall_impl; [done|]. simpl. lia. }
  rewrite Hsize. split_and!; try done.
  - destruct (FileRanges c) as [|r l]; [done|].
    apply Forall_cons in Hpos as [Hr Hpos]. rewrite ranges_len_cons.
    enough (0 ≤ ranges_len l)%Z by lia.
    apply ranges_len_nonneg. eapply Forall_impl; [done|]. simpl. lia.
  - by rewrite Hcopy.
  - intros Hlt. by apply (Hfull k).
Qed.

(** The counter of every file is the number of its ranges over all chunks. Completion.v shows
    when it reaches zero. *)
Lemma BuildChunks_counts files' chunks :
  (0 < cs)%Z → sizes_ok cs files →
  Forall (λ f, FileEntry_remainingChunkCount f = 0%Z) files →
  BuildChunks cs mf files = Some (files', chunks) →
  ∀ i f, files' !! i = Some f →
    (Z.of_nat (range_count i (all_ranges chunks)) < 2 ^ 31)%Z →
    FileEntry_remainingChunkCount f = Z.of_nat (range_count i (all_ranges chunks)).
Proof.
  intros Hcs Hs Hc Hbuild i f Hf Hlt.
  destruct (BuildChunks_spec cs mf files Hcs Hs) as (chunks0 & Hb & _).
  { eapply Forall_impl; [done|]. simpl. unfold int32_range. lia. }
  rewrite Hb in Hbuild. injection Hbuild as <- <-.
  apply counted_lookup in Hf as (f0 & Hf0 & ->). simpl.
  assert (FileEntry_remainingChunkCount f0 = 0%Z) as ->.
  { rewrite <- (sort_Slice_perm files), Forall_lookup in Hc. by eapply Hc. }
  wrap_simpl. lia.
Qed.
End properties.

Lemma BuildChunks_same (S1 S2 : SliceSort) cs mf files1 files2 :
  files1 ≡ₚ files2 → NoDup (FileEntry_Name <$> files1) →
  @BuildChunks cs mf S1 files1 = @BuildChunks cs mf S2 files2.
Proof.
  intros Hp Hnd. unfold BuildChunks.
  assert (@sort_Slice S1 files1 = @sort_Slice S2 files2) as Hs.
  { apply (StronglySorted_perm_eq name_le);
      [|apply sort_Slice_sorted..|by rewrite !sort_Slice_perm].
    intros x y Hx Hy Hxy Hyx. rewrite sort_Slice_perm in Hx, Hy.
    eapply NoDup_fmap_elem; [done..|]. by apply (anti_symm String.le). }
  rewrite Hs. destruct (decide (files1 = [])) as [->|H1], (decide (files2 = [])) as [->|H2];
    try done.
  - by apply Permutation_nil_l in Hp.
  - by apply Permutation_nil_r in Hp.
Qed.

(** [Init] must reject a zero chunk size: with it the splitter never returns, whatever
    the number of iterations it is given. *)
Theorem split_file_zero_diverges mf fuel i start remain file b :
  (0 < remain < 2 ^ 63)%Z → int64_range start → bd_currentChunkSize b = 0%Z →
  split_file 0 mf fuel i start remain file b = None.
Proof.
  intros Hr Hs. revert file b. induction fuel as [|fuel IH]; intros file b Hb; simpl;
    (destruct (Z.ltb_spec 0 remain); [|lia]); [done|].
  unfold int64_range in *. rewrite Hb. wrap_simpl.
  destruct (Z.ltb_spec (0 + remain) 0); [lia|].
  replace (remain - (0 - 0))%Z with remain by lia. replace (start + (0 - 0))%Z with start by lia.
  by apply IH.
Qed.

(** * Examples *)

(** Two files of 5 and 3 bytes, cut every 4 bytes with at most 2 ranges per chunk. *)
Definition example_files : list FileEntry :=
  [mkFileEntry "b" 3 420 0; mkFileEntry "a" 5 384 0].
Definition example_sorted : list FileEntry :=
  [mkFileEntry "a" 5 384 2; mkFileEntry "b" 3 420 1].
Definition example_chunks : list Chunk :=
  [mkChunk [mkFileRange 0 0 4] ChunkStatusPending 0;
   mkChunk [mkFileRange 0 4 5; mkFileRange 1 0 3] ChunkStatusPending 0].

Lemma BuildChunks_example :
  @BuildChunks 4 2 merge_SliceSort example_files = Some (example_sorted, example_chunks).
Proof. by vm_compute. Qed.

Lemma BuildChunks_layout_witness :
  ∃ files' chunks,
    @BuildChunks 4 2 merge_SliceSort example_files = Some (files', chunks) ∧
    layout 0 files' (all_ranges chunks) ∧
    FileEntry_Copy <$> files' ≡ₚ FileEntry_Copy <$> example_files ∧
    StronglySorted name_le files'.
Proof.
  apply (BuildChunks_layout 4 2 example_files); [lia|forall_lia..].
Defined.

Lemma BuildChunks_bounds_witness :
  (0 < Chunk_Size (mkChunk [mkFileRange 0 0 4] ChunkStatusPending 0) ≤ 4)%Z.
Proof.
  apply (@BuildChunks_bounds merge_SliceSort 4 2 example_files example_sorted example_chunks)
    with (k := 0); [lia|forall_lia..|apply BuildChunks_example|done].
Defined.

Lemma split_file_zero_diverges_witness :
  split_file 0 2 100 0 0 5 (mkFileEntry "a" 5 384 0) builder_init = None.
Proof. apply split_file_zero_diverges; by vm_compute. Defined.
