(* ===== verification/ChunkQueue.v ===== *)
(** [transfer.ChunkQueue] (src/src/transfer/chunk_queue.go). Every method holds the lock
    from its first line to its return, so a method is one atomic step; a run of the queue
    is a sequence of such steps.

    The random numbers are parameters: [choice i] is the draw of step [i] of
    [rand.Shuffle], [r] the value of [rand.Int()]. *)
From S2P Require Import Prelude.

(** [s[i], s[j] = s[j], s[i]] *)
Definition swap (i j : nat) (l : list nat) : list nat :=
  match l !! i, l !! j with
  | Some a, Some b => <[j := a]> (<[i := b]> l)
  | _, _ => l
  end.

(** [rand.Shuffle(n, swap)]: for i from n-1 down to 1, swap i with a draw below i+1. *)
Fixpoint rand_Shuffle (choice : nat → nat) (i : nat) (l : list nat) : list nat :=
  match i with
  | O => l
  | S i' => rand_Shuffle choice i' (swap i (choice i `mod` S i) l)
  end.

Definition NewChunkQueue : list nat := [].

Definition PushBack (index : nat) (queue : list nat) : list nat := queue ++ [index].

Definition PushShuffledList (choice : nat → nat) (indices queue : list nat) : list nat :=
  queue ++ rand_Shuffle choice (length indices - 1) indices.

Definition PushShuffle (r : nat) (index : nat) (queue : list nat) : list nat :=
  let queue := queue ++ [index] in
  let lenQueue := length queue in
  let indexInsert := r `mod` lenQueue in
  swap indexInsert (lenQueue - 1) queue.

Definition Pop (queue : list nat) : (nat * bool) * list nat :=
  if decide (length queue ≠ 0) then
    match queue with
    | index :: queue => ((index, true), queue)
    | [] => ((0, false), [])
    end
  else ((0, false), queue).

(** * Lemmas *)

Lemma swap_perm i j l : swap i j l ≡ₚ l.
Proof.
  unfold swap. destruct (l !! i) as [a|] eqn:Hi, (l !! j) as [b|] eqn:Hj; try done.
  destruct (decide (i = j)) as [->|Hne].
  { rewrite list_insert_insert_eq. simplify_eq. by rewrite list_insert_id. }
  apply Permutation_inj. split; [by rewrite !length_insert|].
  exists (λ k, if decide (k = i) then j else if decide (k = j) then i else k). split.
  - intros x y. repeat case_decide; subst; congruence.
  - intros k. pose proof (lookup_lt_Some _ _ _ Hi). pose proof (lookup_lt_Some _ _ _ Hj).
    repeat case_decide; subst.
    + by rewrite list_lookup_insert_ne, list_lookup_insert_eq.
    + by rewrite list_lookup_insert_eq by (by rewrite length_insert).
    + by rewrite !list_lookup_insert_ne.
Qed.

Lemma rand_Shuffle_perm choice i l : rand_Shuffle choice i l ≡ₚ l.
Proof.
  revert l. induction i as [|i IH]; intros l; simpl; [done|]. by rewrite IH, swap_perm.
Qed.
#[export] Hint Resolve swap_perm rand_Shuffle_perm : go.

Lemma PushShuffledList_perm choice indices queue :
  PushShuffledList choice indices queue ≡ₚ queue ++ indices.
Proof. unfold PushShuffledList. by rewrite rand_Shuffle_perm. Qed.

Lemma PushBack_perm index queue : PushBack index queue ≡ₚ index :: queue.
Proof. unfold PushBack. by rewrite Permutation_app_comm. Qed.

Lemma PushShuffle_perm r index queue : PushShuffle r index queue ≡ₚ index :: queue.
Proof. unfold PushShuffle. by rewrite swap_perm, Permutation_app_comm. Qed.

Lemma Pop_cons i queue : Pop (i :: queue) = ((i, true), queue).
Proof. done. Qed.

Lemma Pop_spec queue :
  match Pop queue with
  | ((i, true), queue') => queue = i :: queue'
  | ((i, false), queue') => queue = [] ∧ queue' = [] ∧ i = 0
  end.
Proof. by destruct queue. Qed.

(** * Runs *)

Inductive queue_op :=
| OpPushBack (index : nat)
| OpPushShuffledList (choice : nat → nat) (indices : list nat)
| OpPushShuffle (r index : nat)
| OpPop.

(** The queue after an operation, what it put in and what it handed out. *)
Definition queue_step (op : queue_op) (q : list nat) : list nat * list nat * list nat :=
  match op with
  | OpPushBack i => (PushBack i q, [i], [])
  | OpPushShuffledList c l => (PushShuffledList c l q, l, [])
  | OpPushShuffle r i => (PushShuffle r i q, [i], [])
  | OpPop => let '((i, ok), q') := Pop q in (q', [], if ok then [i] else [])
  end.

Fixpoint queue_run (ops : list queue_op) (q : list nat) : list nat * list nat * list nat :=
  match ops with
  | [] => (q, [], [])
  | op :: ops =>
    let '(q, ins, outs) := queue_step op q in
    let '(q, ins', outs') := queue_run ops q in
    (q, ins ++ ins', outs ++ outs')
  end.

Lemma queue_step_conserves op q :
  let '(q', ins, outs) := queue_step op q in q ++ ins ≡ₚ outs ++ q'.
Proof.
  destruct op as [i|c l|r i|]; simpl.
  - done.
  - by rewrite PushShuffledList_perm.
  - by rewrite PushShuffle_perm, Permutation_app_comm.
  - pose proof (Pop_spec q) as Hp. destruct (Pop q) as [[i []] q'].
    + subst q. by rewrite app_nil_r.
    + by destruct Hp as (-> & -> & _).
Qed.

(** C29: no chunk index is lost or duplicated by the queue: after any sequence of
    operations, with any random draws, what was in the queue together with everything
    pushed is what was popped together with what is left, as multisets. *)
Theorem queue_conservation ops q :
  let '(q', pushed, popped) := queue_run ops q in q ++ pushed ≡ₚ popped ++ q'.
Proof.
  revert q. induction ops as [|op ops IH]; intros q; simpl; [by rewrite app_nil_r|].
  pose proof (queue_step_conserves op q) as Hs.
  destruct (queue_step op q) as [[q1 ins] outs]. specialize (IH q1).
  destruct (queue_run ops q1) as [[q2 ins'] outs'].
  rewrite (assoc_L (++)), Hs, <- (assoc_L (++)), IH. by rewrite (assoc_L (++)).
Qed.

(** The operations the downloaders use keep the order of what is already queued;
    [PushShuffle], which nothing but its tests calls, does not. *)
Definition appends (op : queue_op) : Prop :=
  match op with OpPushShuffle _ _ => False | _ => True end.

Fixpoint pops (ops : list queue_op) : nat :=
  match ops with
  | [] => 0
  | OpPop :: ops => S (pops ops)
  | _ :: ops => pops ops
  end.

(** C30: no chunk index starves in a queue: an index with [k] others ahead of it is the
    answer of the [k+1]-st [Pop], whatever [PushBack] and [PushShuffledList] calls come
    in between. *)
Theorem queue_fifo ops q1 i q2 :
  Forall appends ops → length q1 < pops ops →
  let '(_, _, popped) := queue_run ops (q1 ++ i :: q2) in popped !! length q1 = Some i.
Proof.
  revert q1 q2. induction ops as [|op ops IH]; intros q1 q2 Hops Hk; [by apply Nat.nlt_0_r in Hk|].
  apply Forall_cons in Hops as [Hop Hops].
  destruct op as [j|c l|r j|]; [| |done|]; simpl in Hk |- *.
  - unfold PushBack. rewrite <- (assoc_L (++)). simpl.
    specialize (IH q1 (q2 ++ [j]) Hops Hk). by destruct (queue_run ops _) as [[??]?].
  - unfold PushShuffledList. rewrite <- (assoc_L (++)). simpl.
    specialize (IH q1 (q2 ++ rand_Shuffle c (length l - 1) l) Hops Hk).
    by destruct (queue_run ops _) as [[??]?].
  - destruct q1 as [|j q1]; simpl.
    + by destruct (queue_run ops _) as [[??]?].
    + simpl in Hk. specialize (IH q1 q2 Hops ltac:(lia)).
      by destruct (queue_run ops _) as [[??]?].
Qed.

(** Three chunks in the queue, and a fourth pushed back while they are popped. *)
Lemma queue_fifo_witness :
  (queue_run [OpPop; OpPushBack 9; OpPushShuffledList (λ _, 0) [7; 8]; OpPop; OpPop; OpPop]
     ([4; 5] ++ 6 :: [])).2 !! 2 = Some 6.
Proof.
  exact (queue_fifo [OpPop; OpPushBack 9; OpPushShuffledList (λ _, 0) [7; 8]; OpPop; OpPop; OpPop]
    [4; 5] 6 [] ltac:(repeat constructor) ltac:(simpl; lia)).
Defined.
