(* ===== verification/Storage.v ===== *)
(** The storage interface of src/src/storage/storage.go, and the contract its clients
    rely on. LocalStorage.v implements both. *)
From S2P Require Import Prelude Bytes Types.

(** * The interface

    The methods of the Go interface. [Walk] threads the variables its callback captures
    and hands them back even when it fails. [Write] returns the number of bytes written
    and the reader it consumed from. *)
Record Storage (W : Type) := mkStorage {
  GetBaseDirectory : string;
  Walk : ∀ A : Type, string → (A → Entry → A * option error) → A →
         W → result (A * option error) * W;
  Prepare : io W unit;
  PrepareEntry : Entry → io W unit;
  CommitEntry : Entry → io W unit;
  Write : string → Z → Z → reader → io W (Z * reader);
  GetReader : string → Z → Z → io W reader
}.
Arguments mkStorage {W}.
Arguments GetBaseDirectory {W}.
Arguments Walk {W} _ {A}.
Arguments Prepare {W}.
Arguments PrepareEntry {W}.
Arguments CommitEntry {W}.
Arguments Write {W}.
Arguments GetReader {W}.

(** * The contract

    A name denotes a file ([st_inode]); two names may denote the same one. A [Write]
    changes only the file it names, and only bytes of its range: a prefix of the data that
    was read, all [size] bytes of it when the call succeeds, whatever fails. A reader
    delivers the range it was opened on, or a prefix of it and an error. *)
Class StorageSpec {W} (st : Storage W) := {
  st_inode : W → string → option positive;
  st_data : W → positive → bytes;
  Write_spec w name i off size rd :
    st_inode w name = Some i → (0 ≤ off)%Z → (0 ≤ size)%Z →
    post (Write st name off size rd) w (λ r w',
      (∀ n, st_inode w' n = st_inode w n) ∧
      ∃ k, k ≤ Z.to_nat size ∧ k ≤ length (rd_data rd) ∧
        (∀ j, st_data w' j =
          if decide (j = i) then write_at off (take k (rd_data rd)) (st_data w j)
          else st_data w j) ∧
        match r with
        | Ok (n, rd') => n = size ∧ k = Z.to_nat size ∧
            rd_data rd' = drop k (rd_data rd) ∧ rd_err rd' = rd_err rd
        | Err _ => True
        | Panic _ => False
        end);
  GetReader_spec w name off size :
    (0 ≤ off)%Z → (0 ≤ size)%Z →
    post (GetReader st name off size) w (λ r w',
      (∀ n, st_inode w' n = st_inode w n) ∧ (∀ j, st_data w' j = st_data w j) ∧
      match r with
      | Ok rd => ∃ i, st_inode w name = Some i ∧
          rd_data rd `prefix_of` read_at off size (st_data w i) ∧
          (rd_err rd = None → rd_data rd = read_at off size (st_data w i)) ∧
          rd_err rd ≠ Some io_EOF
      | Err e => e ≠ io_EOF
      | Panic _ => False
      end)
}.
Arguments st_inode {W} st {_}.
Arguments st_data {W} st {_}.

(** What a walk finds does not depend on what its callback does with it: a callback that
    never fails is called on the entries of [st_walk], in order. *)
Class StorageWalk {W} (st : Storage W) := {
  st_walk : string → W → result (list Entry * option error) * W;
  Walk_law A (fn : A → Entry → A) path a w :
    Walk st path (λ a e, (fn a e, None)) a w =
      let '(r, w') := st_walk path w in
      (match r with
       | Ok (entries, err) => Ok (foldl fn a entries, err)
       | Err e => Err e
       | Panic s => Panic s
       end, w')
}.
Arguments st_walk {W} st {_}.

(** Two worlds that a client of the storage cannot tell apart by reading. *)
Definition same_view {W} (st : Storage W) `{!StorageSpec st} (w w' : W) : Prop :=
  (∀ n, st_inode st w' n = st_inode st w n) ∧ (∀ j, st_data st w' j = st_data st w j).

#[export] Instance same_view_equiv {W} (st : Storage W) `{!StorageSpec st} :
  Equivalence (same_view st).
Proof.
  split.
  - done.
  - intros w w' [H1 H2]. split; intros; by rewrite ?H1, ?H2.
  - intros w1 w2 w3 [H1 H2] [H3 H4]. split; intros; by rewrite ?H3, ?H4, ?H1, ?H2.
Qed.

(** The content of the file a name denotes. *)
Definition content {W} (st : Storage W) `{!StorageSpec st} (w : W) (name : string) :
    option bytes :=
  st_data st w <$> st_inode st w name.

#[export] Instance content_proper {W} (st : Storage W) `{!StorageSpec st} :
  Proper (same_view st ==> (=) ==> (=)) (content st).
Proof.
  intros w w' [H1 H2] n ? <-. unfold content. rewrite H1.
  destruct (st_inode st w n); simpl; by rewrite ?H2.
Qed.

(** What preparing and committing entries promises beyond that: no call panics; preparing a
    file leaves it with its size, unlinks and redirects no name, and touches no other file;
    committing changes no content. *)
Class StoragePrepare {W} (st : Storage W) `{!StorageSpec st} := {
  Prepare_no_panic w : post (Prepare st) w (λ r _, ∀ msg, r ≠ Panic msg);
  PrepareEntry_no_panic e w : post (PrepareEntry st e) w (λ r _, ∀ msg, r ≠ Panic msg);
  PrepareEntry_file f w :
    (0 ≤ FileEntry_Size f)%Z →
    post (PrepareEntry st (EFile f)) w (λ r w',
      match r with
      | Ok _ => (∀ n i, st_inode st w n = Some i → st_inode st w' n = Some i) ∧
          ∃ ino, st_inode st w' (FileEntry_Name f) = Some ino ∧
            Z.of_nat (length (st_data st w' ino)) = FileEntry_Size f ∧
            ∀ j, j ≠ ino → st_data st w' j = st_data st w j
      | _ => True
      end);
  CommitEntry_same e w :
    post (CommitEntry st e) w (λ r w', same_view st w w' ∧ ∀ msg, r ≠ Panic msg)
}.

(** A walk reads only. *)
Class StorageWalkSame {W} (st : Storage W) `{!StorageSpec st, !StorageWalk st} := {
  st_walk_same path w :
    same_view st w (st_walk st path w).2 ∧ ∀ msg, (st_walk st path w).1 ≠ Panic msg
}.

(** A destination that works: as long as it is healthy, a write succeeds when its reader has
    enough bytes, and leaves it healthy whatever the reader does. *)
Class StorageHealthy {W} (st : Storage W) `{!StorageSpec st} := {
  st_healthy : W → Prop;
  Write_healthy w name i off size rd :
    st_healthy w → st_inode st w name = Some i → (0 ≤ off)%Z → (0 ≤ size)%Z →
    post (Write st name off size rd) w (λ r w',
      st_healthy w' ∧ (Z.to_nat size ≤ length (rd_data rd) → is_ok r = true))
}.
Arguments st_healthy {W} st {_ _}.

(** A storage that can be read: a file that exists is read to the end of its range, and the
    storage stays readable. *)
Class StorageReadable {W} (st : Storage W) `{!StorageSpec st} := {
  st_readable : W → Prop;
  GetReader_readable w name off size :
    st_readable w → is_Some (st_inode st w name) → (0 ≤ off)%Z → (0 ≤ size)%Z →
    post (GetReader st name off size) w (λ r w',
      st_readable w' ∧ ∃ rd, r = Ok rd ∧ rd_err rd = None)
}.
Arguments st_readable {W} st {_ _}.
