(* ===== verification/LocalStorage.v ===== *)
(** [storage.LocalStorage] (src/src/storage/local_storage.go) over the operating system's
    file calls, and the proof that it keeps the contract of Storage.v. *)
From S2P Require Import Prelude Bytes GoStrings Types Storage.

(** * The operating system

    The file calls of packages [os] and [syscall] that the storage makes. A [File] is an
    open descriptor with its offset. *)

Inductive FileKind := KindDir | KindSymlink | KindRegular | KindOther.

Record FileInfo := mkFileInfo { fi_kind : FileKind; fi_perm : Z; fi_size : Z }.

Record OpenFlags := mkOpenFlags { fl_write : bool; fl_create : bool; fl_trunc : bool }.
Definition O_RDONLY : OpenFlags := mkOpenFlags false false false.
Definition O_WRONLY : OpenFlags := mkOpenFlags true false false.
Definition O_CREATE_TRUNC : OpenFlags := mkOpenFlags false true true.
Definition O_CREATE_RDWR : OpenFlags := mkOpenFlags true true false.

Definition ModePerm : Z := 511.  (* 0777 *)

Class OS (W : Type) := {
  File : Type;
  os_Stat : string → io W FileInfo;
  os_IsNotExist : error → bool;
  os_MkdirAll : string → Z → io W unit;
  os_Chmod : string → Z → io W unit;
  os_Remove : string → io W unit;
  os_Symlink : string → string → io W unit;
  os_Readlink : string → io W string;
  os_ReadDir : string → io W (list string);
  os_Lstat : string → io W FileInfo;
  os_OpenFile : string → OpenFlags → Z → io W File;
  File_Seek : File → Z → io W File;
  File_Write : File → bytes → W → (nat * option error) * W;
  File_reader : File → W → reader;
  File_Close : File → io W unit;
  syscall_Ftruncate : File → Z → io W unit
}.

Section local_storage.
Context {W : Type} `{OS W}.

(** The struct has one field, [BaseDir]. *)
Definition newLocalStorage (path : string) : result string :=
  if decide (path = "") then Err (fmt_Errorf "path cannot be empty" []) else Ok path.

Definition LocalStorage_Prepare (BaseDir : string) : io W unit :=
  info ← io_try (os_Stat BaseDir);
  match info with
  | Ok info =>
    match fi_kind info with
    | KindDir =>
      if (Z.land (fi_perm info) 448 =? 448)%Z then mret ()
      else io_fail (fmt_Errorf
        "destination path requires read, write and execute permissions: %s" [AStr BaseDir])
    | _ => io_fail (fmt_Errorf "destination path is not a directory: %s" [AStr BaseDir])
    end
  | Err e => if negb (os_IsNotExist e) then io_fail e else os_MkdirAll BaseDir ModePerm
  | Panic s => io_panic s
  end.

(** The deferred [Close]: its error counts only when there is no other. *)
Definition close_after {A} (f : File) (body : io W A) : io W A :=
  r ← io_try body;
  c ← io_try (File_Close f);
  match r, c with
  | Ok a, Err e => io_fail (fmt_Errorf "close error: %w" [AErr e])
  | r, _ => io_lift r
  end.

Definition LocalStorage_PrepareEntry (BaseDir : string) (entry : Entry) : io W unit :=
  let fullPath := filepath_Join BaseDir (GetName entry) in
  match entry with
  | EDir e =>
    _ ← io_ignore (os_Chmod fullPath 448);
    os_MkdirAll fullPath ModePerm
  | ESymlink e =>
    _ ← io_ignore (os_Remove fullPath);
    os_Symlink (SymlinkEntry_SymlinkTo e) fullPath
  | EEmptyFile e =>
    _ ← io_ignore (os_Chmod fullPath 384);
    f ← os_OpenFile fullPath O_CREATE_TRUNC ModePerm;
    File_Close f
  | EFile e =>
    _ ← io_ignore (os_Chmod fullPath 384);
    f ← os_OpenFile fullPath O_CREATE_RDWR ModePerm;
    close_after f (syscall_Ftruncate f (FileEntry_Size e))
  end.

Definition LocalStorage_CommitEntry (BaseDir : string) (entry : Entry) : io W unit :=
  let fullPath := filepath_Join BaseDir (GetName entry) in
  let chmod msg perm : io W unit :=
    r ← io_try (os_Chmod fullPath perm);
    match r with
    | Err e => io_fail (fmt_Errorf msg [AStr (GetName entry); AErr e])
    | r => io_lift r
    end in
  match entry with
  | EDir e => chmod "failed to change directory permissions (%s): %s" (DirEntry_Perm e)
  | EEmptyFile e =>
    chmod "failed to change empty file permissions (%s): %s" (EmptyFileEntry_Perm e)
  | EFile e => chmod "failed to change file permissions (%s): %s" (FileEntry_Perm e)
  | ESymlink _ => mret ()
  end.

(** [io.CopyN(f, rd, n)]: what it returns, and the reader after it. *)
Definition io_CopyN (f : File) (rd : reader) (n : Z) (w : W) :
    ((Z * option error) * reader) * W :=
  let lim := io_LimitReader n rd in
  let '((k, werr), w) := File_Write f (rd_data lim) w in
  let written := Z.of_nat k in
  let err := match werr with Some e => Some e | None => rd_err lim end in
  let err := if (written =? n)%Z then None
             else match err with
                  | None => if (written <? n)%Z then Some io_EOF else None
                  | Some e => Some e
                  end in
  (((written, err), mkReader (drop k (rd_data rd)) [] (rd_err rd)), w).

Definition copy_into (f : File) (rd : reader) (n : Z) : io W (Z * reader) := λ w,
  let '(((n, err), rd), w) := io_CopyN f rd n w in
  (match err with Some e => Err e | None => Ok (n, rd) end, w).

(** The number of bytes is returned only without an error: the caller drops it
    otherwise. *)
Definition LocalStorage_Write (BaseDir : string) (name : string) (offset size : Z)
    (rd : reader) : io W (Z * reader) :=
  f ← os_OpenFile (filepath_Join BaseDir name) O_WRONLY ModePerm;
  close_after f (f ← File_Seek f offset; copy_into f rd size).

Definition LocalStorage_GetReader (BaseDir : string) (name : string) (offset size : Z) :
    io W reader :=
  f ← os_OpenFile (filepath_Join BaseDir name) O_RDONLY 0;
  r ← io_try (File_Seek f offset);
  match r with
  | Ok f => (λ w, (Ok (io_LimitReader size (File_reader f w)), w)) : io W reader
  | Err e => _ ← io_ignore (File_Close f); io_fail e
  | Panic s => io_panic s
  end.

(** ** Walk

    [fn] folds over the entries; it is called on a directory after its contents. [fuel]
    bounds the depth of the tree: a path of more than 4096 bytes cannot be opened, so
    4096 levels are enough. *)
Section walk.
Context {A : Type} (fn : A → Entry → A * option error) (dirSrc : string).

(** The entry [scanLocalDirectory] reports for something that is not a directory. *)
Definition file_entry (name : string) (info : FileInfo) : io W (option Entry) :=
  match fi_kind info with
  | KindSymlink =>
    symlinkTo ← os_Readlink (filepath_Join dirSrc name);
    mret (Some (ESymlink (mkSymlinkEntry name symlinkTo)))
  | KindRegular =>
    mret (Some (if (fi_size info =? 0)%Z
                then EEmptyFile (mkEmptyFileEntry name (fi_perm info))
                else EFile (mkFileEntry name (fi_size info) (fi_perm info) 0)))
  | _ => mret None
  end.

(** The accumulator survives an error, as captured variables do. *)
Definition walk_result : Type := W → result (A * option error) * W.

Definition report (a : A) (e : Entry) (next : A → walk_result) : walk_result := λ w,
  let '(a, err) := fn a e in
  match err with Some err => (Ok (a, Some err), w) | None => next a w end.

Definition on_error {B} (a : A) (m : io W B) (next : B → walk_result) : walk_result :=
  λ w, let '(r, w) := m w in
  match r with
  | Ok b => next b w
  | Err e => (Ok (a, Some e), w)
  | Panic s => (Panic s, w)
  end.

Fixpoint walk_entries (walk : string → A → walk_result) (subDir : string)
    (localFiles : list string) (a : A) : walk_result :=
  match localFiles with
  | [] => λ w, (Ok (a, None), w)
  | localFile :: localFiles =>
    let name := filepath_Join subDir localFile in
    on_error a (os_Lstat (filepath_Join dirSrc name)) (λ info,
      match fi_kind info with
      | KindDir => λ w,
        let '(r, w) := walk name a w in
        match r with
        | Ok (a, None) =>
          report a (EDir (mkDirEntry name (fi_perm info)))
            (walk_entries walk subDir localFiles) w
        | r => (r, w)
        end
      | _ =>
        on_error a (file_entry name info) (λ e,
          match e with
          | Some e => report a e (walk_entries walk subDir localFiles)
          | None => walk_entries walk subDir localFiles a
          end)
      end)
  end.

Fixpoint scanLocalDirectory (fuel : nat) (subDir : string) (a : A) : walk_result :=
  match fuel with
  | O => λ w, (Ok (a, Some (errors_New "file name too long")), w)
  | S fuel =>
    on_error a (os_ReadDir (filepath_Join dirSrc subDir)) (λ localFiles,
      walk_entries (scanLocalDirectory fuel) subDir localFiles a)
  end.
End walk.

Definition LocalStorage_Walk (BaseDir : string) (A : Type) (path : string)
    (fn : A → Entry → A * option error) (a : A) : W → result (A * option error) * W :=
  scanLocalDirectory fn (filepath_Join BaseDir path) (Z.to_nat 4096) "" a.

Definition LocalStorage_GetBaseDirectory (BaseDir : string) : string := BaseDir.

(** The interface value. *)
Definition LocalStorage (BaseDir : string) : Storage W := {|
  GetBaseDirectory := LocalStorage_GetBaseDirectory BaseDir;
  Walk := LocalStorage_Walk BaseDir;
  Prepare := LocalStorage_Prepare BaseDir;
  PrepareEntry := LocalStorage_PrepareEntry BaseDir;
  CommitEntry := LocalStorage_CommitEntry BaseDir;
  Write := LocalStorage_Write BaseDir;
  GetReader := LocalStorage_GetReader BaseDir
|}.
End local_storage.

(** * What the operating system promises

    A path resolves to a file ([os_inode], through links and mounts), and a descriptor
    keeps the file it was opened on. Calls that neither create nor truncate change no
    file; a write changes its file only, by a prefix of the data at the offset. *)
Class OSLaws (W : Type) `{OS W} := {
  os_inode : W → string → option positive;
  os_data : W → positive → bytes;
  File_inode : File → positive;
  File_offset : File → Z;
  os_OpenFile_law p fl perm w :
    fl_create fl = false → fl_trunc fl = false →
    post (os_OpenFile p fl perm) w (λ r w',
      (∀ q, os_inode w' q = os_inode w q) ∧ (∀ j, os_data w' j = os_data w j) ∧
      match r with
      | Ok f => os_inode w p = Some (File_inode f) ∧ File_offset f = 0%Z
      | Err e => e ≠ io_EOF
      | Panic _ => False
      end);
  File_Seek_law f off w :
    post (File_Seek f off) w (λ r w',
      (∀ q, os_inode w' q = os_inode w q) ∧ (∀ j, os_data w' j = os_data w j) ∧
      match r with
      | Ok f' => File_inode f' = File_inode f ∧ File_offset f' = off
      | Err e => e ≠ io_EOF
      | Panic _ => False
      end);
  File_Close_law f w :
    post (File_Close f) w (λ r w',
      (∀ q, os_inode w' q = os_inode w q) ∧ (∀ j, os_data w' j = os_data w j) ∧
      match r with Panic _ => False | _ => True end);
  File_Write_law f data w :
    let '((k, err), w') := File_Write f data w in
    k ≤ length data ∧ (err = None → k = length data) ∧
    (∀ q, os_inode w' q = os_inode w q) ∧
    (∀ j, os_data w' j = if decide (j = File_inode f)
                         then write_at (File_offset f) (take k data) (os_data w j)
                         else os_data w j);
  File_reader_law f w :
    let rest := drop (Z.to_nat (File_offset f)) (os_data w (File_inode f)) in
    rd_data (File_reader f w) `prefix_of` rest ∧
    (rd_err (File_reader f w) = None → rd_data (File_reader f w) = rest) ∧
    rd_err (File_reader f w) ≠ Some io_EOF
}.

Section contract.
Context {W : Type} `{OSLaws W} (BaseDir : string).

Local Definition ls_inode (w : W) (name : string) : option positive :=
  os_inode w (filepath_Join BaseDir name).
Definition os_same (w w' : W) : Prop :=
  (∀ q, os_inode w' q = os_inode w q) ∧ (∀ j, os_data w' j = os_data w j).

(** A call whose only effect on the files is [Q], followed by a [Close]. *)
Lemma post_close_after {A} f (body : io W A) w (Q : result A → W → Prop) :
  (∀ r w' w'', os_same w' w'' → Q r w' → Q r w'') →
  (∀ a e w', Q (Ok a) w' → Q (Err e) w') →
  (∀ s w', ¬ Q (Panic s) w') →
  post body w Q → post (close_after f body) w Q.
Proof.
  intros Hsame Herr Hpanic Hbody. unfold close_after, post, io_try in *.
  unfold mbind, io_mbind, io_bind_def. destruct (body w) as [r w1]. cbn [fst snd] in Hbody.
  destruct r as [a|e|s]; [| |by destruct (Hpanic _ _ Hbody)].
  all: pose proof (File_Close_law f w1) as (Hq & Hj & Hc);
    destruct (File_Close f w1) as [[?|?|?] w2]; cbn [fst snd] in *; try done.
  all: try (eapply Hsame; [split; done|]; by eauto).
  eapply Herr, Hsame; [split; done|done].
Qed.

Lemma copy_into_spec f rd size w :
  (0 ≤ size)%Z →
  post (copy_into f rd size) w (λ r w',
    (∀ q, os_inode w' q = os_inode w q) ∧
    ∃ k, k ≤ Z.to_nat size ∧ k ≤ length (rd_data rd) ∧
      (∀ j, os_data w' j = if decide (j = File_inode f)
        then write_at (File_offset f) (take k (rd_data rd)) (os_data w j)
        else os_data w j) ∧
      match r with
      | Ok (n, rd') => n = size ∧ k = Z.to_nat size ∧
          rd_data rd' = drop k (rd_data rd) ∧ rd_err rd' = rd_err rd
      | Err _ => True
      | Panic _ => False
      end).
Proof.
  intros Hsize. unfold post, copy_into, io_CopyN.
  pose proof (File_Write_law f (rd_data (io_LimitReader size rd)) w) as Hw.
  destruct (File_Write f _ w) as [[k werr] w1]. destruct Hw as (Hk & Hfull & Hi & Hd).
  simpl rd_data in Hk, Hfull, Hd. rewrite length_take in Hk, Hfull.
  split; [by destruct (Z.of_nat k =? size)%Z; simpl; destruct werr; repeat case_match|].
  exists k. split; [lia|]. split; [lia|]. rewrite take_take, Nat.min_l in Hd by lia.
  split; [by destruct (Z.of_nat k =? size)%Z; simpl; destruct werr; repeat case_match|].
  destruct (Z.eqb_spec (Z.of_nat k) size) as [Heq|Hne]; simpl; [split_and!; lia || done|].
  destruct werr as [e|]; [done|]. specialize (Hfull eq_refl). case_decide; simpl.
  - destruct (Z.ltb_spec (Z.of_nat k) size); simpl; [done|lia].
  - destruct (rd_err rd); [done|]. destruct (Z.ltb_spec (Z.of_nat k) size); simpl; [done|lia].
Qed.

Lemma LocalStorage_Write_spec w name i off size rd :
  ls_inode w name = Some i → (0 ≤ off)%Z → (0 ≤ size)%Z →
  post (LocalStorage_Write BaseDir name off size rd) w (λ r w',
    (∀ n, ls_inode w' n = ls_inode w n) ∧
    ∃ k, k ≤ Z.to_nat size ∧ k ≤ length (rd_data rd) ∧
      (∀ j, os_data w' j =
        if decide (j = i) then write_at off (take k (rd_data rd)) (os_data w j)
        else os_data w j) ∧
      match r with
      | Ok (n, rd') => n = size ∧ k = Z.to_nat size ∧
          rd_data rd' = drop k (rd_data rd) ∧ rd_err rd' = rd_err rd
      | Err _ => True
      | Panic _ => False
      end).
Proof.
  intros Hino Hoff Hsize. unfold LocalStorage_Write, ls_inode in *.
  apply post_bind. eapply post_mono; [by apply os_OpenFile_law|].
  assert (∀ (w1 : W) (e : error), os_same w w1 →
    (∀ n, os_inode w1 (filepath_Join BaseDir n) = os_inode w (filepath_Join BaseDir n)) ∧
    ∃ k, k ≤ Z.to_nat size ∧ k ≤ length (rd_data rd) ∧
      (∀ j, os_data w1 j =
        if decide (j = i) then write_at off (take k (rd_data rd)) (os_data w j)
        else os_data w j) ∧ True) as Hnone.
  { intros w1 e [Hq Hj]. split; [done|]. exists 0. rewrite take_0.
    split_and!; [lia|lia| |done]. intros j. rewrite Hj. by case_decide. }
  intros [f|e|s] w1 (Hq & Hj & Hf); [|by apply (Hnone w1 e)|done].
  destruct Hf as [Hfi _]. assert (File_inode f = i) as Hi by congruence.
  apply post_close_after.
  - intros r w' w'' [Hq' Hj'] [Hn (k & ? & ? & Hd & Hr)].
    split; [intros n; by rewrite Hq', Hn|].
    exists k. split_and!; try done. intros j. by rewrite Hj', Hd.
  - intros a e w' [Hn (k & ? & ? & Hd & Hr)]. split; [done|]. exists k. done.
  - intros s w' [_ (k & _ & _ & _ & [])].
  - apply post_bind. eapply post_mono; [apply File_Seek_law|].
    intros [f'|e|s] w2 (Hq2 & Hj2 & Hf2); [| |done].
    + destruct Hf2 as [Hfi2 Hfo2]. eapply post_mono; [by apply copy_into_spec|].
      intros r w' [Hq3 (k & Hk1 & Hk2 & Hd & Hr)].
      split; [intros n; by rewrite Hq3, Hq2, Hq|]. exists k. split_and!; try done.
      intros j. rewrite Hd, Hj2, Hj, Hfo2, Hfi2, Hi. done.
    + apply (Hnone w2 e). split; intros; [by rewrite Hq2, Hq|by rewrite Hj2, Hj].
Qed.

Lemma LocalStorage_GetReader_spec w name off size :
  (0 ≤ off)%Z → (0 ≤ size)%Z →
  post (LocalStorage_GetReader BaseDir name off size) w (λ r w',
    (∀ n, ls_inode w' n = ls_inode w n) ∧ (∀ j, os_data w' j = os_data w j) ∧
    match r with
    | Ok rd => ∃ i, ls_inode w name = Some i ∧
        rd_data rd `prefix_of` read_at off size (os_data w i) ∧
        (rd_err rd = None → rd_data rd = read_at off size (os_data w i)) ∧
        rd_err rd ≠ Some io_EOF
    | Err e => e ≠ io_EOF
    | Panic _ => False
    end).
Proof.
  intros Hoff Hsize. unfold LocalStorage_GetReader, ls_inode.
  apply post_bind. eapply post_mono; [by apply os_OpenFile_law|].
  intros [f|e|s] w1 (Hq & Hj & Hf); [|by split_and!|done].
  destruct Hf as [Hfi _]. unfold post, io_ignore, io_try.
  unfold mbind, io_mbind, io_bind_def.
  pose proof (File_Seek_law f off w1) as Hseek. unfold post in Hseek.
  destruct (File_Seek f off w1) as [[f'|e|s] w2]; cbn [fst snd] in Hseek |- *;
    destruct Hseek as (Hq2 & Hj2 & Hf2); [| |done].
  - destruct Hf2 as [Hi2 Ho2]. split_and!; [intros; by rewrite Hq2, Hq|intros; by rewrite Hj2, Hj|].
    exists (File_inode f). split; [done|].
    pose proof (File_reader_law f' w2) as (Hpre & Hall & Heof).
    rewrite Ho2, Hi2, Hj2, Hj in Hpre, Hall. unfold read_at, io_LimitReader. simpl.
    destruct (File_reader f' w2) as [d fr err]. simpl in *.
    destruct Hpre as [tl Htl]. split_and!.
    + rewrite Htl. rewrite take_app. by eexists.
    + case_decide as Hle; intros Herr; [|by rewrite Hall].
      rewrite Htl. by rewrite take_app_le.
    + by case_decide.
  - pose proof (File_Close_law f w2) as Hc. unfold post in Hc.
    destruct (File_Close f w2) as [[?|?|?] w3]; cbn [fst snd] in Hc |- *;
      destruct Hc as (Hq3 & Hj3 & Hc); try done;
      (split_and!; [intros; by rewrite Hq3, Hq2, Hq|intros; by rewrite Hj3, Hj2, Hj|done]).
Qed.

(** The local storage keeps the contract of the interface. *)
#[export] Instance LocalStorage_spec : StorageSpec (LocalStorage BaseDir) :=
  Build_StorageSpec W (LocalStorage BaseDir) ls_inode os_data
    LocalStorage_Write_spec LocalStorage_GetReader_spec.
End contract.

(** An operating system whose calls on files that exist succeed: no disk is full, no limit of
    descriptors is reached. [f] is open on a file that has a path. *)
Class OSHealthy (W : Type) `{OSLaws W} := {
  os_healthy : W → Prop;
  os_OpenFile_healthy p fl perm w :
    os_healthy w → fl_create fl = false → fl_trunc fl = false → is_Some (os_inode w p) →
    post (os_OpenFile p fl perm) w (λ r w', os_healthy w' ∧ is_ok r = true);
  File_Seek_healthy f off w :
    os_healthy w → (0 ≤ off)%Z →
    post (File_Seek f off) w (λ r w', os_healthy w' ∧ is_ok r = true);
  File_Close_healthy f w :
    os_healthy w → post (File_Close f) w (λ r w', os_healthy w' ∧ is_ok r = true);
  File_Write_healthy f data w p :
    os_healthy w → os_inode w p = Some (File_inode f) →
    os_healthy (File_Write f data w).2 ∧ (File_Write f data w).1.2 = None;
  File_reader_healthy f w p :
    os_healthy w → os_inode w p = Some (File_inode f) → rd_err (File_reader f w) = None
}.

(** On such a system the local storage is healthy. *)
Section healthy.
Context {W : Type} `{OSHealthy W} (BaseDir : string).

Lemma copy_into_healthy f rd size w p :
  (0 ≤ size)%Z → os_healthy w → os_inode w p = Some (File_inode f) →
  post (copy_into f rd size) w (λ r w', os_healthy w' ∧
    (Z.to_nat size ≤ length (rd_data rd) → is_ok r = true)).
Proof.
  intros Hsize Hw Hp. unfold post, copy_into, io_CopyN.
  destruct (File_Write_healthy f (rd_data (io_LimitReader size rd)) w p Hw Hp) as [Hw' Herr].
  pose proof (File_Write_law f (rd_data (io_LimitReader size rd)) w) as Hlaw.
  destruct (File_Write f _ w) as [[k werr] w1]. cbn [fst snd] in *. subst werr.
  destruct Hlaw as (_ & Hk & _). specialize (Hk eq_refl). simpl in Hk. rewrite length_take in Hk.
  split; [by repeat case_match|]. intros Hlen.
  destruct (Z.eqb_spec (Z.of_nat k) size); [done|lia].
Qed.

Lemma LocalStorage_Write_healthy w name i off size rd :
  os_healthy w → st_inode (LocalStorage BaseDir) w name = Some i → (0 ≤ off)%Z → (0 ≤ size)%Z →
  post (LocalStorage_Write BaseDir name off size rd) w (λ r w', os_healthy w' ∧
    (Z.to_nat size ≤ length (rd_data rd) → is_ok r = true)).
Proof.
  intros Hw Hi Hoff Hsize. change (os_inode w (filepath_Join BaseDir name) = Some i) in Hi.
  unfold LocalStorage_Write. apply post_bind. unfold post.
  pose proof (os_OpenFile_law (filepath_Join BaseDir name) O_WRONLY ModePerm w eq_refl eq_refl)
    as (Hq1 & _ & Hf1).
  destruct (os_OpenFile_healthy (filepath_Join BaseDir name) O_WRONLY ModePerm w) as [Hw1 Ho1];
    [done|done|done|by eexists|].
  destruct (os_OpenFile _ _ _ w) as [[f|?|?] w1]; cbn [fst snd] in *; try done.
  unfold close_after, io_try, mbind, io_mbind, io_bind_def.
  pose proof (File_Seek_law f off w1) as (Hq2 & _ & Hf2).
  destruct (File_Seek_healthy f off w1) as [Hw2 Ho2]; [done|done|].
  destruct (File_Seek f off w1) as [[f'|?|?] w2]; cbn [fst snd] in *; try done.
  pose proof (copy_into_healthy f' rd size w2 (filepath_Join BaseDir name) Hsize Hw2) as Hc.
  unfold post in Hc. destruct Hc as [Hw3 Ho3].
  { rewrite Hq2, Hq1. destruct Hf1 as [-> _]. by destruct Hf2 as [-> _]. }
  destruct (copy_into f' rd size w2) as [r w3]. cbn [fst snd] in *.
  destruct (File_Close_healthy f w3 Hw3) as [Hw4 Ho4].
  destruct r as [a|?|?]; destruct (File_Close f w3) as [[?|?|?] w4]; cbn [fst snd] in *; done.
Qed.

#[export] Instance LocalStorage_healthy : StorageHealthy (LocalStorage BaseDir) :=
  Build_StorageHealthy W (LocalStorage BaseDir) _ os_healthy LocalStorage_Write_healthy.

Lemma LocalStorage_GetReader_readable w name off size :
  os_healthy w → is_Some (st_inode (LocalStorage BaseDir) w name) → (0 ≤ off)%Z → (0 ≤ size)%Z →
  post (LocalStorage_GetReader BaseDir name off size) w (λ r w',
    os_healthy w' ∧ ∃ rd, r = Ok rd ∧ rd_err rd = None).
Proof.
  intros Hw [i Hi] Hoff _. change (os_inode w (filepath_Join BaseDir name) = Some i) in Hi.
  unfold LocalStorage_GetReader. apply post_bind. unfold post.
  pose proof (os_OpenFile_law (filepath_Join BaseDir name) O_RDONLY 0 w eq_refl eq_refl)
    as (Hq1 & _ & Hf1).
  destruct (os_OpenFile_healthy (filepath_Join BaseDir name) O_RDONLY 0 w) as [Hw1 Ho1];
    [done|done|done|by eexists|].
  destruct (os_OpenFile _ _ _ w) as [[f|?|?] w1]; cbn [fst snd] in *; try done.
  unfold io_try, mbind, io_mbind, io_bind_def.
  pose proof (File_Seek_law f off w1) as (Hq2 & _ & Hf2).
  destruct (File_Seek_healthy f off w1) as [Hw2 Ho2]; [done|done|].
  destruct (File_Seek f off w1) as [[f'|?|?] w2]; cbn [fst snd] in *; try done.
  split; [done|]. eexists. split; [done|]. simpl. case_decide; [done|].
  apply (File_reader_healthy f' w2 (filepath_Join BaseDir name)); [done|].
  rewrite Hq2, Hq1. destruct Hf1 as [-> _]. by destruct Hf2 as [-> _].
Qed.

#[export] Instance LocalStorage_readable : StorageReadable (LocalStorage BaseDir) :=
  Build_StorageReadable W (LocalStorage BaseDir) _ os_healthy LocalStorage_GetReader_readable.
End healthy.

(** * The walk and its callback *)

Section walk_callback.
Context {W : Type} `{OS W} {A : Type} (fn : A → Entry → A) (dirSrc : string).

(** The run with [fn] goes like the run that collects the entries. *)
Definition collects (l : list Entry) (a : A) (r : result (list Entry * option error) * W)
    (r' : result (A * option error) * W) : Prop :=
  match r with
  | (Ok (l', err), w) => ∃ es, l' = l ++ es ∧ r' = (Ok (foldl fn a es, err), w)
  | (Err e, w) => r' = (Err e, w)
  | (Panic s, w) => r' = (Panic s, w)
  end.

Definition snoc (l : list Entry) (e : Entry) : list Entry * option error := (l ++ [e], None).
Definition no_error (a : A) (e : Entry) : A * option error := (fn a e, None).

Lemma collects_snoc l a e r r' : collects (l ++ [e]) (fn a e) r r' → collects l a r r'.
Proof.
  destruct r as [[[l' err]|?|?] w]; [|done..]. intros (es & -> & ->).
  exists (e :: es). by rewrite <- (assoc_L (++)).
Qed.

Lemma collects_app l a es r r' :
  collects (l ++ es) (foldl fn a es) r r' → collects l a r r'.
Proof.
  destruct r as [[[l' err]|?|?] w]; [|done..]. intros (es' & -> & ->).
  exists (es ++ es'). by rewrite foldl_app, <- (assoc_L (++)).
Qed.

Lemma collects_on_error {B} l a (m : io W B) next next' w :
  (∀ b w, collects l a (next b w) (next' b w)) →
  collects l a (on_error l m next w) (on_error a m next' w).
Proof.
  intros Hn. unfold on_error. destruct (m w) as [[b|e|s] w1]; [by apply Hn| |done].
  exists []. by rewrite app_nil_r.
Qed.

Lemma walk_entries_collects walk walk' subDir localFiles l a w :
  (∀ name l a w, collects l a (walk name l w) (walk' name a w)) →
  collects l a (walk_entries snoc dirSrc walk subDir localFiles l w)
    (walk_entries no_error dirSrc walk' subDir localFiles a w).
Proof.
  intros Hwalk. revert l a w. induction localFiles as [|localFile localFiles IH]; intros l a w.
  { exists []. by rewrite app_nil_r. }
  cbn [walk_entries]. apply collects_on_error. intros info w1. destruct (fi_kind info).
  - specialize (Hwalk (filepath_Join subDir localFile) l a w1).
    destruct (walk _ l w1) as [[[l1 [err|]]|e|s] w2]; cbn in Hwalk; try by rewrite Hwalk.
    + destruct Hwalk as (es & -> & ->). by exists es.
    + destruct Hwalk as (es & -> & ->). apply (collects_app l a es).
      unfold report, snoc at 1, no_error at 1. eapply collects_snoc, IH.
  - apply collects_on_error. intros [e|] w2; [|apply IH].
    unfold report, snoc at 1, no_error at 1. eapply collects_snoc, IH.
  - apply collects_on_error. intros [e|] w2; [|apply IH].
    unfold report, snoc at 1, no_error at 1. eapply collects_snoc, IH.
  - apply collects_on_error. intros [e|] w2; [|apply IH].
    unfold report, snoc at 1, no_error at 1. eapply collects_snoc, IH.
Qed.

Lemma scan_collects fuel subDir l a w :
  collects l a (scanLocalDirectory snoc dirSrc fuel subDir l w)
    (scanLocalDirectory no_error dirSrc fuel subDir a w).
Proof.
  revert subDir l a w. induction fuel as [|fuel IH]; intros subDir l a w.
  { exists []. by rewrite app_nil_r. }
  cbn [scanLocalDirectory]. apply collects_on_error. intros localFiles w1.
  apply walk_entries_collects. intros. apply IH.
Qed.
End walk_callback.

#[export] Instance LocalStorage_walk {W} `{OS W} (BaseDir : string) :
  StorageWalk (LocalStorage BaseDir).
Proof.
  refine {| st_walk path w := Walk (LocalStorage BaseDir) path snoc [] w |}.
  intros A fn path a w. cbn [Walk LocalStorage]. unfold LocalStorage_Walk.
  pose proof (scan_collects fn (filepath_Join BaseDir path) (Z.to_nat 4096) "" [] a w) as Hc.
  change (λ (a : A) (e : Entry), (fn a e, None)) with (no_error fn).
  destruct (scanLocalDirectory snoc _ _ _ [] w) as [[[l err]|e|s] w']; cbn in Hc; [|done..].
  by destruct Hc as (es & -> & ->).
Defined.

(** * Preparing and committing *)

(** What the operating system promises about the calls that look at files, create them or
    change them: none panics, looking changes nothing, [Chmod] changes no content, creating unlinks no name and leaves the other files
    alone, and [Ftruncate] sets the size of its file only. *)
Class OSPrepareLaws (W : Type) `{OSLaws W} := {
  os_ReadDir_law p w : post (os_ReadDir p) w (λ r w', os_same w w' ∧ calm r);
  os_Lstat_law p w : post (os_Lstat p) w (λ r w', os_same w w' ∧ calm r);
  os_Readlink_law p w : post (os_Readlink p) w (λ r w', os_same w w' ∧ calm r);
  os_Stat_no_panic p w : post (os_Stat p) w (λ r _, ∀ msg, r ≠ Panic msg);
  os_MkdirAll_no_panic p perm w : post (os_MkdirAll p perm) w (λ r _, ∀ msg, r ≠ Panic msg);
  os_Remove_no_panic p w : post (os_Remove p) w (λ r _, ∀ msg, r ≠ Panic msg);
  os_Symlink_no_panic t p w : post (os_Symlink t p) w (λ r _, ∀ msg, r ≠ Panic msg);
  os_OpenFile_no_panic p fl perm w : post (os_OpenFile p fl perm) w (λ r _, ∀ msg, r ≠ Panic msg);
  os_Chmod_law p perm w :
    post (os_Chmod p perm) w (λ r w',
      (∀ q, os_inode w' q = os_inode w q) ∧ (∀ j, os_data w' j = os_data w j) ∧
      ∀ msg, r ≠ Panic msg);
  os_OpenFile_create_law p fl perm w :
    fl_create fl = true → fl_trunc fl = false →
    post (os_OpenFile p fl perm) w (λ r w',
      match r with
      | Ok f => (∀ q i, os_inode w q = Some i → os_inode w' q = Some i) ∧
          os_inode w' p = Some (File_inode f) ∧
          ∀ j, j ≠ File_inode f → os_data w' j = os_data w j
      | _ => True
      end);
  syscall_Ftruncate_law f size w :
    post (syscall_Ftruncate f size) w (λ r w',
      (∀ q, os_inode w' q = os_inode w q) ∧ (∀ msg, r ≠ Panic msg) ∧
      (∀ j, j ≠ File_inode f → os_data w' j = os_data w j) ∧
      (r = Ok () → os_data w' (File_inode f) = truncate_to size (os_data w (File_inode f))))
}.

Section preparation.
Context {W : Type} `{OSPrepareLaws W} (BaseDir : string).

Lemma File_Close_calm f w : post (File_Close f) w (λ r _, calm r).
Proof. eapply post_mono; [apply File_Close_law|]. intros [] w' (_ & _ & Hr); try done. Qed.

Lemma os_Chmod_calm p perm w : post (os_Chmod p perm) w (λ r _, calm r).
Proof. eapply post_mono; [apply os_Chmod_law|]. by intros r w' (_ & _ & Hr). Qed.

Lemma Ftruncate_calm f size w : post (syscall_Ftruncate f size) w (λ r _, calm r).
Proof. eapply post_mono; [apply syscall_Ftruncate_law|]. by intros r w' (_ & Hr & _). Qed.

Lemma close_after_calm {A} f (body : io W A) w :
  post body w (λ r _, calm r) → post (close_after f body) w (λ r _, calm r).
Proof.
  intros Hb. apply (post_close_after f body w (λ r _, calm r)); [done|done| |exact Hb].
  intros s w' Hs. by destruct (Hs s).
Qed.

Lemma LocalStorage_Prepare_calm w : post (LocalStorage_Prepare BaseDir) w (λ r _, calm r).
Proof.
  apply calm_try_bind; [apply os_Stat_no_panic|]. intros [info|e|msg] w1 Hc.
  - destruct (fi_kind info); try done. by case_match.
  - case_match; [done|apply os_MkdirAll_no_panic].
  - by destruct (Hc msg).
Qed.

Lemma LocalStorage_PrepareEntry_calm e w :
  post (LocalStorage_PrepareEntry BaseDir e) w (λ r _, calm r).
Proof.
  destruct e; cbn [LocalStorage_PrepareEntry]; apply calm_bind.
  - apply calm_ignore, os_Chmod_calm.
  - intros _ w1. apply os_MkdirAll_no_panic.
  - apply calm_ignore, os_Remove_no_panic.
  - intros _ w1. apply os_Symlink_no_panic.
  - apply calm_ignore, os_Chmod_calm.
  - intros _ w1. apply calm_bind; [apply os_OpenFile_no_panic|]. intros f w2. apply File_Close_calm.
  - apply calm_ignore, os_Chmod_calm.
  - intros _ w1. apply calm_bind; [apply os_OpenFile_no_panic|]. intros f w2.
    apply close_after_calm, Ftruncate_calm.
Qed.

(** A change of permissions whose error is dropped. *)
Lemma Chmod_ignored p perm w :
  post (io_ignore (os_Chmod p perm)) w (λ r w', os_same w w' ∧ r = Ok ()).
Proof.
  pose proof (os_Chmod_law p perm w) as Hl. unfold post, io_ignore in *.
  change (io_bind_def (λ _, io_ret ()) (io_try (os_Chmod p perm)))
    with (io_try (os_Chmod p perm) ≫= λ _, io_ret ()).
  rewrite io_bind_unfold. unfold io_try.
  destruct (os_Chmod p perm w) as [[a|e|msg] w']; destruct Hl as (Hq & Hd & Hc);
    [by repeat split..|by destruct (Hc msg)].
Qed.

(** The file is there with its size, and nothing else was touched. *)
Definition file_prepared (f : FileEntry) (w w' : W) : Prop :=
  (∀ n i, ls_inode BaseDir w n = Some i → ls_inode BaseDir w' n = Some i) ∧
  ∃ ino, ls_inode BaseDir w' (FileEntry_Name f) = Some ino ∧
    Z.of_nat (length (os_data w' ino)) = FileEntry_Size f ∧
    ∀ j, j ≠ ino → os_data w' j = os_data w j.

Lemma file_prepared_same f w w1 w2 : os_same w1 w2 → file_prepared f w w1 → file_prepared f w w2.
Proof.
  intros [Hq Hd] (Hn & ino & Hi & Hl & Hj). unfold file_prepared, ls_inode in *.
  split; [intros n i Hn'; rewrite Hq; by apply Hn|]. exists ino. rewrite Hq, Hd.
  split_and!; [done..|]. intros j Hne. rewrite Hd. by apply Hj.
Qed.

Lemma LocalStorage_PrepareEntry_file f w :
  (0 ≤ FileEntry_Size f)%Z →
  post (LocalStorage_PrepareEntry BaseDir (EFile f)) w (λ r w',
    match r with Ok _ => file_prepared f w w' | Err _ => True | Panic _ => False end).
Proof.
  intros Hs. cbn [LocalStorage_PrepareEntry GetName]. apply post_bind.
  eapply post_mono; [apply Chmod_ignored|]. intros r w1 [[Hq1 Hd1] ->]. apply post_bind.
  eapply post_mono.
  { apply post_and; [by apply os_OpenFile_create_law|apply os_OpenFile_no_panic]. }
  intros [fd|e|msg] w2; [|done|intros [_ Hc]; by destruct (Hc msg)].
  intros [(Hq2 & Hino & Hd2) _]. apply post_close_after; [|done|intros s w3 []|].
  - intros [[]|e|msg] w3 w4; [apply file_prepared_same|done..].
  - eapply post_mono; [apply syscall_Ftruncate_law|]. intros [[]|e|msg] w3 (Hq3 & Hc & Hd3 & Ht);
      [|done|by destruct (Hc msg)].
    unfold file_prepared, ls_inode. split.
    + intros n i Hn. rewrite Hq3. apply Hq2. by rewrite Hq1.
    + exists (File_inode fd). rewrite Hq3, Ht by done. rewrite length_truncate_to.
      split_and!; [done|lia|]. intros j Hne. by rewrite Hd3, Hd2, Hd1.
Qed.

Lemma LocalStorage_CommitEntry_same e w :
  post (LocalStorage_CommitEntry BaseDir e) w (λ r w', os_same w w' ∧ calm r).
Proof.
  assert (∀ (msg : string) p perm (msg_of : error → error), post (r ← io_try (os_Chmod p perm);
    match r with Err e => io_fail (msg_of e) | r => io_lift r end) w
      (λ r w', os_same w w' ∧ calm r)) as Hchmod.
  { intros msg p perm msg_of. pose proof (os_Chmod_law p perm w) as Hl. unfold post in *.
    rewrite io_bind_unfold. unfold io_try.
    destruct (os_Chmod p perm w) as [[a|e1|msg1] w']; destruct Hl as (Hq & Hd & Hc);
      [by repeat split..|by destruct (Hc msg1)]. }
  destruct e; cbn [LocalStorage_CommitEntry]; [| |apply Hchmod; exact ""..].
  - apply Hchmod. exact "".
  - by repeat split.
Qed.

#[export] Instance LocalStorage_prepare : StoragePrepare (LocalStorage BaseDir).
Proof.
  split.
  - apply LocalStorage_Prepare_calm.
  - apply LocalStorage_PrepareEntry_calm.
  - intros f w Hs. eapply post_mono; [by apply LocalStorage_PrepareEntry_file|].
    by intros [] w'.
  - intros e w. eapply post_mono; [apply LocalStorage_CommitEntry_same|].
    intros r w' [[Hq Hd] Hc]. split; [|done]. split; intros; [apply Hq|apply Hd].
Qed.
End preparation.

(** ** The walk *)

Section walk_same.
Context {W : Type} `{OSPrepareLaws W} (dirSrc : string).

Definition reads_only (r : result (list Entry * option error) * W) (w : W) : Prop :=
  os_same w r.2 ∧ calm r.1.

Lemma os_same_trans w1 w2 w3 : os_same w1 w2 → os_same w2 w3 → os_same w1 w3.
Proof. intros [H2 H3] [H4 H5]. split; intros; by rewrite ?H4, ?H5, ?H2, ?H3. Qed.

Lemma reads_only_on_error {B} l (m : io W B) next w :
  post m w (λ r w', os_same w w' ∧ calm r) →
  (∀ b w, reads_only (next b w) w) → reads_only (on_error l m next w) w.
Proof.
  unfold post, on_error, reads_only. intros Hm Hn.
  destruct (m w) as [[b|e|msg] w1]; destruct Hm as [Hs Hc]; cbn in *;
    [|done|by destruct (Hc msg)].
  destruct (Hn b w1) as [Hs1 Hc1]. split; [by eapply os_same_trans|done].
Qed.

Lemma walk_entries_reads_only walk subDir localFiles l w :
  (∀ name l w, reads_only (walk name l w) w) →
  reads_only (walk_entries snoc dirSrc walk subDir localFiles l w) w.
Proof.
  intros Hwalk. revert l w. induction localFiles as [|localFile localFiles IH]; intros l w; [done|].
  cbn [walk_entries]. apply reads_only_on_error; [apply os_Lstat_law|]. intros info w1.
  assert (∀ w2, reads_only (on_error l (file_entry dirSrc (filepath_Join subDir localFile) info)
    (λ e, match e with
          | Some e => report snoc l e (walk_entries snoc dirSrc walk subDir localFiles)
          | None => walk_entries snoc dirSrc walk subDir localFiles l
          end) w2) w2) as Hfile.
  { intros w2. apply reads_only_on_error.
    - unfold file_entry. destruct (fi_kind info); [done| |done..]. apply post_bind.
      eapply post_mono; [apply os_Readlink_law|].
      intros [t|e|msg] w3 [Hs Hc]; [done|done|by destruct (Hc msg)].
    - intros [e|] w3; apply IH. }
  destruct (fi_kind info); [|apply Hfile..].
  specialize (Hwalk (filepath_Join subDir localFile) l w1). unfold reads_only in Hwalk |- *.
  destruct (walk _ l w1) as [[[l1 [err|]]|e|msg] w2]; destruct Hwalk as [Hs Hc]; [done| |done|done].
  cbn [report snoc]. destruct (IH (l1 ++ [EDir (mkDirEntry (filepath_Join subDir localFile)
    (fi_perm info))]) w2) as [Hs2 Hc2]. split; [by eapply os_same_trans|done].
Qed.

Lemma scan_reads_only fuel subDir l w :
  reads_only (scanLocalDirectory snoc dirSrc fuel subDir l w) w.
Proof.
  revert subDir l w. induction fuel as [|fuel IH]; intros subDir l w; [done|].
  cbn [scanLocalDirectory]. apply reads_only_on_error; [apply os_ReadDir_law|].
  intros localFiles w1. apply walk_entries_reads_only. intros. apply IH.
Qed.
End walk_same.

#[export] Instance LocalStorage_walk_same {W} `{OSPrepareLaws W} (BaseDir : string) :
  StorageWalkSame (LocalStorage BaseDir).
Proof.
  split. intros path w. destruct (scan_reads_only (filepath_Join BaseDir path) (Z.to_nat 4096) "" [] w)
    as [[Hq Hd] Hc]. split; [|exact Hc]. split; intros; [apply Hq|apply Hd].
Qed.
