(* ===== verification/ChunkManager.v ===== *)
(** [transfer.ChunkManager] (src/src/transfer/chunk_manager.go) and the chunk reader
    (src/src/transfer/chunk_reader.go): reading a chunk out of a storage, writing one into
    it, its checksum cache and its status. *)
From S2P Require Import Prelude Bytes GoStrings Types Storage ChunkBuilder.

Record ChunkManager := mkChunkManager {
  manifest : Manifest;
  manifestJson : bytes;
  chunks : list Chunk;
  chunkChecksums : list Z
}.

Definition set_manifest (m : Manifest) (cm : ChunkManager) : ChunkManager :=
  mkChunkManager m (manifestJson cm) (chunks cm) (chunkChecksums cm).
Definition set_chunks (l : list Chunk) (cm : ChunkManager) : ChunkManager :=
  mkChunkManager (manifest cm) (manifestJson cm) l (chunkChecksums cm).
Definition set_chunkChecksums (l : list Z) (cm : ChunkManager) : ChunkManager :=
  mkChunkManager (manifest cm) (manifestJson cm) (chunks cm) l.

Definition cm_files (cm : ChunkManager) : list FileEntry := Files (manifest cm).

(** * Accessors and status *)

Definition GetManifestJson (cm : ChunkManager) : bytes := manifestJson cm.
Definition GetManifestChecksum (cm : ChunkManager) : Z := ChunkChecksum (manifest cm).
Definition GetFileCount (cm : ChunkManager) : nat := length (cm_files cm).
Definition GetChunkCount (cm : ChunkManager) : nat := length (chunks cm).

Definition GetChunkChecksum (chunkIndex : nat) (cm : ChunkManager) : result Z :=
  index_slice (chunkChecksums cm) chunkIndex.

Definition SetChunkChecksum (chunkIndex : nat) (checksum : Z) (cm : ChunkManager) :
    result ChunkManager :=
  _ ← index_slice (chunkChecksums cm) chunkIndex;
  Ok (set_chunkChecksums (<[chunkIndex := checksum]> (chunkChecksums cm)) cm).

Definition GetStatusDoneChunks (updatedSince : Time) (cm : ChunkManager) : list nat :=
  omap (λ '(index, c),
    if bool_decide (GetStatus c = ChunkStatusDone) && After (GetUpdatedAt c) updatedSince
    then Some index else None) (imap pair (chunks cm)).

Definition GetChunkSize (chunkIndex : nat) (cm : ChunkManager) : result Z :=
  c ← index_slice (chunks cm) chunkIndex; Ok (Chunk_Size c).

Definition GetChunkStatus (chunkIndex : nat) (cm : ChunkManager) : result ChunkStatus :=
  c ← index_slice (chunks cm) chunkIndex; Ok (GetStatus c).

(** [SetChunkStatusDone] is two atomic stores, first the status, then the time. *)
Definition SetChunkStatusDone_status (chunkIndex : nat) (cm : ChunkManager) :
    result ChunkManager :=
  c ← index_slice (chunks cm) chunkIndex;
  Ok (set_chunks (<[chunkIndex := SetStatus ChunkStatusDone c]> (chunks cm)) cm).
Definition SetChunkStatusDone_time (chunkIndex : nat) (updatedAt : Time) (cm : ChunkManager) :
    result ChunkManager :=
  c ← index_slice (chunks cm) chunkIndex;
  Ok (set_chunks (<[chunkIndex := SetUpdatedAt updatedAt c]> (chunks cm)) cm).
Definition SetChunkStatusDone (chunkIndex : nat) (updatedAt : Time) (cm : ChunkManager) :
    result ChunkManager :=
  cm ← SetChunkStatusDone_status chunkIndex cm;
  SetChunkStatusDone_time chunkIndex updatedAt cm.

Definition SetChunkStatusPending (chunkIndex : nat) (cm : ChunkManager) :
    result ChunkManager :=
  c ← index_slice (chunks cm) chunkIndex;
  Ok (set_chunks (<[chunkIndex := SetStatus ChunkStatusPending c]> (chunks cm)) cm).

Definition UpdateChunkStatus (chunkIndex : nat) (old new : ChunkStatus) (cm : ChunkManager) :
    result (bool * ChunkManager) :=
  c ← index_slice (chunks cm) chunkIndex;
  let '(c, swapped) := UpdateStatus old new c in
  Ok (swapped, set_chunks (<[chunkIndex := c]> (chunks cm)) cm).

(** * The chunk reader *)

Record chunkReadCloser := mkChunkReadCloser
  { crc_chunkIndex : nat; crc_fileRangeIndex : nat; crc_readCloser : option reader }.

Definition newChunkReadCloser (chunkIndex : nat) : chunkReadCloser :=
  mkChunkReadCloser chunkIndex 0 None.

Definition GetChunkReader (chunkIndex : nat) : chunkReadCloser := newChunkReadCloser chunkIndex.

(** [reader.Close()]: closing a snapshot cannot fail. *)
Definition chunkClose (r : chunkReadCloser) : chunkReadCloser :=
  mkChunkReadCloser (crc_chunkIndex r) (crc_fileRangeIndex r) None.

Section chunk_reader.
Context {W : Type} (st : Storage W) (cm : ChunkManager).

(** The first half of [Read]: the reader of the current range, opened if there is none;
    [inl] is an early return. *)
Definition open_range (r : chunkReadCloser) :
    io W ((bytes * option error) + reader) :=
  match crc_readCloser r with
  | Some rd => mret (inr rd)
  | None =>
    c ← io_lift (index_slice (chunks cm) (crc_chunkIndex r));
    match FileRanges c !! crc_fileRangeIndex r with
    | None => mret (inl ([], Some io_EOF))
    | Some fileRange =>
      file ← io_lift (index_slice (cm_files cm) (FileIndex fileRange));
      rd ← io_try (GetReader st (FileEntry_Name file) (StartOffset fileRange)
             (EndOffset fileRange -i64 StartOffset fileRange)%go);
      match rd with
      | Ok rd => mret (inr rd)
      | Err e => mret (inl ([], Some e))
      | Panic s => io_panic s
      end
    end
  end.

(** [reader.Read(p)] with [len(p) = n]: what it returns, and the reader after it. The end
    of one range is not the end of the chunk, so [io.EOF] is swallowed there. *)
Definition chunkRead (n : nat) (r : chunkReadCloser) :
    io W ((bytes * option error) * chunkReadCloser) :=
  o ← open_range r;
  match o with
  | inl res => mret (res, r)
  | inr rd =>
    let '((data, err), rd') := Read n rd in
    match err with
    | None => mret ((data, None),
        mkChunkReadCloser (crc_chunkIndex r) (crc_fileRangeIndex r) (Some rd'))
    | Some io_EOF => mret ((data, None),
        mkChunkReadCloser (crc_chunkIndex r) (S (crc_fileRangeIndex r)) None)
    | Some e => mret ((data, Some e),
        mkChunkReadCloser (crc_chunkIndex r) (crc_fileRangeIndex r) (Some rd'))
    end
  end.

(** [io.Copy(dst, reader)] for a [dst] that takes everything: read with a 32 KiB buffer
    until an error, which is dropped when it is [io.EOF]. [None] is out of fuel. *)
Fixpoint io_Copy_chunk (fuel : nat) (r : chunkReadCloser) (dst : bytes) :
    io W (option (bytes * option error)) :=
  match fuel with
  | O => mret None
  | S fuel =>
    '((data, err), r) ← chunkRead (Z.to_nat 32768) r;
    match err with
    | None => io_Copy_chunk fuel r (dst ++ data)
    | Some io_EOF => mret (Some (dst ++ data, None))
    | Some e => mret (Some (dst ++ data, Some e))
    end
  end.

(** Reads that are enough for a chunk: one per byte, one per range, and the last. *)
Definition copy_fuel (c : Chunk) : nat :=
  foldr (λ r n, Z.to_nat (range_len r) + 1 + n) 1 (FileRanges c).
End chunk_reader.

(** * Writing a chunk *)

Section write_chunk.
Context {W : Type} (st : Storage W).
(** The streaming hash of github.com/zeebo/xxh3: [Sum64] of the bytes written to it. *)
Context (xxh3 : bytes → Z).
(** The callback [onFileComplete(path, size)]. *)
Context (onFileComplete : string → Z → io W unit).

(** The methods that touch the manager and the storage run in the product world. *)
Definition lift_storage {A} (m : io W A) : io (ChunkManager * W) A := λ '(cm, w),
  let '(r, w) := m w in (r, (cm, w)).
Definition get_manager : io (ChunkManager * W) ChunkManager := λ '(cm, w), (Ok cm, (cm, w)).
Definition put_manager (cm : ChunkManager) : io (ChunkManager * W) unit :=
  λ '(_, w), (Ok (), (cm, w)).

(** [file.DecrementRemainingChunkCount()] on the [i]-th file of the manifest. *)
Definition decrement_file (i : nat) (file : FileEntry) (cm : ChunkManager) :
    ChunkManager * Z :=
  let '(file, n) := DecrementRemainingChunkCount file in
  (set_manifest (set_Files (<[i := file]> (cm_files cm)) (manifest cm)) cm, n).

(** The body of the loop over the ranges of the chunk. *)
Definition write_range (fileChunk : FileRange) (rd : reader) :
    io (ChunkManager * W) (Z * reader) :=
  cm ← get_manager;
  file ← io_lift (index_slice (cm_files cm) (FileIndex fileChunk));
  '(n, rd) ← lift_storage (Write st (FileEntry_Name file) (StartOffset fileChunk)
               (EndOffset fileChunk -i64 StartOffset fileChunk)%go rd);
  let '(cm, remaining) := decrement_file (FileIndex fileChunk) file cm in
  _ ← put_manager cm;
  _ ← (if (remaining =? 0)%Z then
         lift_storage (onFileComplete
           (filepath_Join (GetBaseDirectory st) (FileEntry_Name file)) (FileEntry_Size file))
       else mret ());
  mret (n, rd).

Fixpoint write_ranges (l : list FileRange) (rd : reader) (length : Z) :
    io (ChunkManager * W) (Z * reader) :=
  match l with
  | [] => mret (length, rd)
  | fileChunk :: l =>
    '(n, rd) ← write_range fileChunk rd;
    write_ranges l rd (length +i64 n)%go
  end.

(** The bytes that went through the [TeeReader] into the hash. *)
Definition consumed (before after : reader) : bytes :=
  take (length (rd_data before) - length (rd_data after)) (rd_data before).

Definition WriteChunk (chunkIndex : nat) (rd : reader) (expectedChecksum : Z) :
    io (ChunkManager * W) Z :=
  cm ← get_manager;
  c ← io_lift (index_slice (chunks cm) chunkIndex);
  '(length, rd') ← write_ranges (FileRanges c) rd 0;
  if negb (expectedChecksum =? 0)%Z && negb (xxh3 (consumed rd rd') =? expectedChecksum)%Z
  then io_fail (fmt_Errorf "checksum mismatch" [])
  else mret length.

(** [ComputeChunkChecksum]. [Do] is golang.org/x/sync/singleflight's [Group.Do] on the
    manager's group. *)
Context (Do : string → io (ChunkManager * W) Z → io (ChunkManager * W) Z).

Definition compute_chunk_checksum (chunkIndex : nat) : io (ChunkManager * W) Z :=
  cm ← get_manager;
  checksum ← io_lift (GetChunkChecksum chunkIndex cm);
  if negb (checksum =? 0)%Z then mret checksum
  else
    let fuel := match chunks cm !! chunkIndex with Some c => copy_fuel c | None => 1 end in
    o ← lift_storage (io_Copy_chunk st cm fuel (GetChunkReader chunkIndex) []);
    match o with
    | Some (data, None) =>
      let checksum := xxh3 data in
      cm ← get_manager;
      cm ← io_lift (SetChunkChecksum chunkIndex checksum cm);
      _ ← put_manager cm;
      mret checksum
    | Some (_, Some e) => io_fail e
    | None => io_panic "out of fuel"
    end.

Definition ComputeChunkChecksum (chunkIndex : nat) : io (ChunkManager * W) Z :=
  cm ← get_manager;
  checksum ← io_lift (GetChunkChecksum chunkIndex cm);
  if negb (checksum =? 0)%Z then mret checksum
  else Do (FormatInt (Z.of_nat chunkIndex)) (compute_chunk_checksum chunkIndex).
End write_chunk.
