(* ===== verification/ChunkTransfer.v ===== *)
(** What reading and writing a chunk does to the bytes of the files: a chunk reader
    delivers exactly the bytes of its ranges, [WriteChunk] puts them back and touches
    nothing else, and the chunks of a file list cover it. *)
From S2P Require Import Prelude Bytes GoStrings Types Storage ChunkBuilder ChunkManager.

(** * The bytes of a chunk in a storage *)

Section chunk_bytes.
Context {W : Type} (st : Storage W) `{!StorageSpec st}.

Definition range_bytes (w : W) (files : list FileEntry) (r : FileRange) : option bytes :=
  f ← files !! FileIndex r;
  c ← content st w (FileEntry_Name f);
  Some (read_at (StartOffset r) (range_len r) c).

Fixpoint chunk_bytes (w : W) (files : list FileEntry) (l : list FileRange) : option bytes :=
  match l with
  | [] => Some []
  | r :: l => b ← range_bytes w files r; bs ← chunk_bytes w files l; Some (b ++ bs)
  end.

#[export] Instance range_bytes_proper :
  Proper (same_view st ==> (=) ==> (=) ==> (=)) range_bytes.
Proof.
  intros w w' Hw f ? <- r ? <-. unfold range_bytes. destruct (f !! FileIndex r); [|done].
  simpl. by rewrite Hw.
Qed.

#[export] Instance chunk_bytes_proper :
  Proper (same_view st ==> (=) ==> (=) ==> (=)) chunk_bytes.
Proof.
  intros w w' Hw f ? <- l ? <-. induction l as [|r l IH]; simpl; [done|].
  by rewrite Hw, IH.
Qed.

Lemma chunk_bytes_app w files l k :
  chunk_bytes w files (l ++ k) =
    (b ← chunk_bytes w files l; bs ← chunk_bytes w files k; Some (b ++ bs)).
Proof.
  induction l as [|r l IH]; simpl; [by destruct (chunk_bytes w files k)|].
  rewrite IH. destruct (range_bytes w files r), (chunk_bytes w files l),
    (chunk_bytes w files k); simpl; try done. by rewrite (assoc_L (++)).
Qed.
End chunk_bytes.

(** Ranges that make sense for a file list: what the splitter produces. *)
Definition range_ok (files : list FileEntry) (r : FileRange) : Prop :=
  FileIndex r < length files ∧ (0 ≤ StartOffset r ≤ EndOffset r)%Z ∧
  (EndOffset r < 2 ^ 63)%Z.

(** * Reading a chunk *)

Section reading.
Context {W : Type} (st : Storage W) `{!StorageSpec st} (cm : ChunkManager).

Lemma Read_spec n rd :
  (0 < n) →
  match Read n rd with
  | ((data, None), rd') =>
      data ++ rd_data rd' = rd_data rd ∧ length (rd_data rd') < length (rd_data rd) ∧
      rd_err rd' = rd_err rd
  | ((data, Some e), rd') =>
      rd_data rd = [] ∧ data = [] ∧ e = default io_EOF (rd_err rd) ∧ rd' = rd
  end.
Proof.
  intros Hn. unfold Read. destruct (rd_data rd) as [|b l] eqn:E; [done|].
  set (k := match rd_frags rd with [] => _ | _ => _ end).
  assert (0 < k) by (unfold k; destruct (rd_frags rd); lia).
  cbn [rd_data rd_err]. split_and!; [by rewrite take_drop| |done].
  rewrite length_drop. simpl. lia.
Qed.

(** What is still to come of a chunk whose reader stands at range [k]. *)
Definition rest_bytes (w : W) (l : list FileRange) (k : nat) (o : option reader) :
    option bytes :=
  match o with
  | None => chunk_bytes st w (cm_files cm) (drop k l)
  | Some rd =>
    match rd_err rd with
    | None => app (rd_data rd) <$> chunk_bytes st w (cm_files cm) (drop (S k) l)
    | Some _ => None
    end
  end.
Definition ranges_cost (l : list FileRange) : nat :=
  foldr (λ r n, Z.to_nat (range_len r) + 1 + n) 1 l.
Lemma ranges_cost_cons r l :
  ranges_cost (r :: l) = Z.to_nat (range_len r) + 1 + ranges_cost l.
Proof. done. Qed.
Definition rest_cost (l : list FileRange) (k : nat) (o : option reader) : nat :=
  match o with
  | None => ranges_cost (drop k l)
  | Some rd => length (rd_data rd) + 1 + ranges_cost (drop (S k) l)
  end.

(** The outcome of a copy: everything, or an error of the storage. *)
Definition copy_post (w : W) (dst : bytes) (rest : option bytes)
    (res : result (option (bytes * option error))) (w' : W) : Prop :=
  same_view st w w' ∧
  match res with
  | Ok (Some (d, None)) => ∃ b, rest = Some b ∧ d = dst ++ b
  | Ok (Some (_, Some _)) => True
  | _ => False
  end.

(** [Read] on an open range. *)
Lemma chunkRead_opened n i k rd w :
  chunkRead st cm n (mkChunkReadCloser i k (Some rd)) w =
  (Ok (match Read n rd with
       | ((data, None), rd') => ((data, None), mkChunkReadCloser i k (Some rd'))
       | ((data, Some io_EOF), _) => ((data, None), mkChunkReadCloser i (S k) None)
       | ((data, Some e), rd') => ((data, Some e), mkChunkReadCloser i k (Some rd'))
       end), w).
Proof.
  unfold chunkRead, open_range. cbn [crc_readCloser crc_chunkIndex crc_fileRangeIndex].
  rewrite (io_bind_ok _ _ w (inr rd) w) by done.
  by destruct (Read n rd) as [[data [[]|]] rd'].
Qed.

(** One step of the copy on an open range, given what the later steps do. *)
Lemma io_Copy_opened fuel i c k rd dst w :
  (∀ dst w, rest_cost (FileRanges c) (S k) None ≤ fuel →
    post (io_Copy_chunk st cm fuel (mkChunkReadCloser i (S k) None) dst) w
      (copy_post w dst (rest_bytes w (FileRanges c) (S k) None))) →
  (∀ rd' dst w, length (rd_data rd') < length (rd_data rd) → rd_err rd' = rd_err rd →
    post (io_Copy_chunk st cm fuel (mkChunkReadCloser i k (Some rd')) dst) w
      (copy_post w dst (rest_bytes w (FileRanges c) k (Some rd')))) →
  rd_err rd ≠ Some io_EOF →
  rest_cost (FileRanges c) k (Some rd) ≤ S fuel →
  post (io_Copy_chunk st cm (S fuel) (mkChunkReadCloser i k (Some rd)) dst) w
    (copy_post w dst (rest_bytes w (FileRanges c) k (Some rd))).
Proof.
  intros Hnext Hsame Herr Hcost. cbn [io_Copy_chunk].
  pose proof (Read_spec (Z.to_nat 32768) rd ltac:(lia)) as HR.
  eapply post_run; [apply chunkRead_opened|].
  destruct (Read (Z.to_nat 32768) rd) as [[data [e|]] rd'].
  - destruct HR as (Hnil & -> & He & ->).
    destruct (rd_err rd) as [e'|] eqn:E; simpl in He; subst e; [by destruct e'|].
    rewrite app_nil_r. eapply post_mono.
    { apply Hnext. simpl in Hcost |- *. lia. }
    unfold copy_post. intros res w' [Hv H]. split; [done|].
    destruct res as [[[d [?|]]|]|?|?]; try done. destruct H as (b & Hb & ->).
    cbn [rest_bytes] in Hb |- *. rewrite E, Hb, Hnil. by exists b.
  - destruct HR as (Hdata & Hlt & Herr'). eapply post_mono; [by apply Hsame|].
    unfold copy_post. intros res w' [Hv H]. split; [done|].
    destruct res as [[[d [?|]]|]|?|?]; try done. destruct H as (b & Hb & ->).
    cbn [rest_bytes] in Hb |- *. rewrite Herr' in Hb. destruct (rd_err rd); [done|].
    destruct (chunk_bytes st w (cm_files cm) _) as [bs|]; [|done].
    simpl in Hb |- *. simplify_eq. exists (rd_data rd ++ bs). split; [done|].
    rewrite <- Hdata. by rewrite <- !(assoc_L (++)).
Qed.

(** [Read] between two ranges opens the next one. *)
Lemma chunkRead_closed n i k w c r f :
  chunks cm !! i = Some c → FileRanges c !! k = Some r →
  cm_files cm !! FileIndex r = Some f → range_ok (cm_files cm) r →
  chunkRead st cm n (mkChunkReadCloser i k None) w =
  match GetReader st (FileEntry_Name f) (StartOffset r) (range_len r) w with
  | (Ok rd, w1) => chunkRead st cm n (mkChunkReadCloser i k (Some rd)) w1
  | (Err e, w1) => (Ok (([], Some e), mkChunkReadCloser i k None), w1)
  | (Panic s, w1) => (Panic s, w1)
  end.
Proof.
  intros Hc Hr Hf (_ & Ho & He). unfold chunkRead at 1, open_range.
  cbn [crc_readCloser crc_chunkIndex crc_fileRangeIndex].
  unfold io_lift, index_slice. rewrite Hc. unfold mbind, io_mbind, io_bind_def, io_try.
  rewrite Hr, Hf. unfold range_len. wrap_simpl.
  destruct (GetReader st _ _ _ w) as [[rd|e|s] w1]; [|done..].
  rewrite chunkRead_opened. unfold mret, io_mret, io_ret. cbv beta iota.
  by destruct (Read n rd) as [[data [[]|]] rd'].
Qed.

Lemma io_Copy_closed fuel i k dst w c r f :
  chunks cm !! i = Some c → FileRanges c !! k = Some r →
  cm_files cm !! FileIndex r = Some f → range_ok (cm_files cm) r →
  io_Copy_chunk st cm (S fuel) (mkChunkReadCloser i k None) dst w =
  match GetReader st (FileEntry_Name f) (StartOffset r) (range_len r) w with
  | (Ok rd, w1) => io_Copy_chunk st cm (S fuel) (mkChunkReadCloser i k (Some rd)) dst w1
  | (Err io_EOF, w1) => (Ok (Some (dst ++ [], None)), w1)
  | (Err e, w1) => (Ok (Some (dst ++ [], Some e)), w1)
  | (Panic s, w1) => (Panic s, w1)
  end.
Proof.
  intros Hc Hr Hf Hok. cbn [io_Copy_chunk]. rewrite io_bind_unfold.
  rewrite (chunkRead_closed _ _ _ _ _ _ _ Hc Hr Hf Hok).
  destruct (GetReader st _ _ _ w) as [[rd|e|s] w1]; [|by destruct e|done].
  by rewrite io_bind_unfold.
Qed.

(** Opening range [k] and copying the rest is copying from [k] on. *)
Lemma rest_bytes_open w w1 l k r f ino rd :
  same_view st w w1 → l !! k = Some r → cm_files cm !! FileIndex r = Some f →
  st_inode st w (FileEntry_Name f) = Some ino →
  (rd_err rd = None → rd_data rd = read_at (StartOffset r) (range_len r) (st_data st w ino)) →
  ∀ b, rest_bytes w1 l k (Some rd) = Some b → rest_bytes w l k None = Some b.
Proof.
  intros Hv Hr Hf Hino Hall b. cbn [rest_bytes]. destruct (rd_err rd); [done|].
  rewrite <- Hv, (drop_S _ _ _ Hr). cbn [chunk_bytes].
  unfold range_bytes, content. rewrite Hf. simpl. rewrite Hino. simpl.
  rewrite Hall by done. by destruct (chunk_bytes st w _ _).
Qed.

(** The whole copy: with enough fuel it ends; if it ends without an error it has
    delivered exactly the bytes of the ranges. *)
Lemma io_Copy_chunk_spec fuel i c k o dst w :
  chunks cm !! i = Some c → Forall (range_ok (cm_files cm)) (FileRanges c) →
  (∀ rd, o = Some rd → rd_err rd ≠ Some io_EOF) →
  rest_cost (FileRanges c) k o ≤ fuel →
  post (io_Copy_chunk st cm fuel (mkChunkReadCloser i k o) dst) w
    (copy_post w dst (rest_bytes w (FileRanges c) k o)).
Proof.
  intros Hc Hok. revert k o dst w. induction fuel as [|fuel IH]; intros k o dst w Herr Hcost.
  { destruct o; simpl in Hcost; [lia|]. destruct (drop k _); simpl in Hcost; lia. }
  assert (∀ k rd dst w, rd_err rd ≠ Some io_EOF →
    rest_cost (FileRanges c) k (Some rd) ≤ S fuel →
    post (io_Copy_chunk st cm (S fuel) (mkChunkReadCloser i k (Some rd)) dst) w
      (copy_post w dst (rest_bytes w (FileRanges c) k (Some rd)))) as Hopen.
  { clear k o dst w Herr Hcost. intros k rd dst w Herr Hcost.
    apply io_Copy_opened; try done; intros; apply IH; try done.
    - intros rd'' [= <-]. congruence.
    - simpl in Hcost |- *. lia. }
  destruct o as [rd|]; [by apply Hopen; [apply Herr|]|]. clear Herr.
  destruct (FileRanges c !! k) as [r|] eqn:Hr.
  - pose proof (proj1 (Forall_lookup _ _) Hok _ _ Hr) as Hrok.
    destruct (lookup_lt_is_Some_2 (cm_files cm) (FileIndex r)) as [f Hf]; [by apply Hrok|].
    pose proof Hrok as (_ & Ho & He).
    pose proof (GetReader_spec w (FileEntry_Name f) (StartOffset r) (range_len r)
      ltac:(lia) ltac:(unfold range_len; lia)) as Hg.
    unfold post in Hg |- *. rewrite (io_Copy_closed _ _ _ _ _ _ _ _ Hc Hr Hf Hrok).
    destruct (GetReader st _ _ _ w) as [[rd|e|s] w1];
      [|destruct e; simpl in *; unfold copy_post, same_view; naive_solver|naive_solver].
    destruct Hg as (Hi & Hd & ino & Hino & Hpre & Hall & Heof). cbn [fst snd] in *.
    assert (same_view st w w1) as Hv by done.
    eapply post_mono; [apply Hopen; [done|]|].
    + cbn [rest_cost] in Hcost |- *. rewrite (drop_S _ _ _ Hr), ranges_cost_cons in Hcost.
      apply prefix_length in Hpre. unfold read_at in Hpre. rewrite length_take in Hpre.
      lia.
    + intros res w' [Hv' H]. split; [by etrans|].
      destruct res as [[[d [?|]]|]|?|?]; try done. destruct H as (b & Hb & ->).
      exists b. split; [|done]. by eapply rest_bytes_open.
  - cbn [io_Copy_chunk]. unfold chunkRead, open_range.
    cbn [crc_readCloser crc_chunkIndex crc_fileRangeIndex].
    unfold post, io_lift, index_slice. rewrite Hc.
    unfold mbind, io_mbind, io_bind_def. rewrite Hr. simpl. split; [done|].
    exists []. rewrite app_nil_r. split; [|done].
    by rewrite drop_ge by (by apply lookup_ge_None).
Qed.

(** The bytes that should still come, whatever fails: the reader has a prefix of its range. *)
Definition still_to_come (w : W) (l : list FileRange) (k : nat) (o : option reader)
    (b : bytes) : Prop :=
  match o with
  | None => chunk_bytes st w (cm_files cm) (drop k l) = Some b
  | Some rd => ∃ d b', b = d ++ b' ∧ rd_data rd `prefix_of` d ∧
      (rd_err rd = None → rd_data rd = d) ∧ rd_err rd ≠ Some io_EOF ∧
      chunk_bytes st w (cm_files cm) (drop (S k) l) = Some b'
  end.

Definition copy_prefix (dst b : bytes) (res : result (option (bytes * option error))) : Prop :=
  match res with Ok (Some (d, _)) => d `prefix_of` dst ++ b | _ => True end.

Lemma copy_prefix_app dst d b res :
  copy_prefix (dst ++ d) b res → copy_prefix dst (d ++ b) res.
Proof. destruct res as [[[??]|]|?|?]; simpl; by rewrite <- ?(assoc_L (++)). Qed.

(** Opening range [k]: what the reader has, and what then is still to come. *)
Lemma still_to_come_open w w1 l k r f ino rd b :
  same_view st w w1 → l !! k = Some r → cm_files cm !! FileIndex r = Some f →
  st_inode st w (FileEntry_Name f) = Some ino →
  rd_data rd `prefix_of` read_at (StartOffset r) (range_len r) (st_data st w ino) →
  (rd_err rd = None → rd_data rd = read_at (StartOffset r) (range_len r) (st_data st w ino)) →
  rd_err rd ≠ Some io_EOF →
  still_to_come w l k None b → still_to_come w1 l k (Some rd) b.
Proof.
  intros Hv Hr Hf Hino Hpre Hall Heof. unfold still_to_come. rewrite (drop_S _ _ _ Hr).
  cbn [chunk_bytes]. unfold range_bytes at 1, content. rewrite Hf. simpl. rewrite Hino. simpl.
  destruct (chunk_bytes st w _ (drop (S k) l)) as [b'|] eqn:E; [|done]. intros [= <-].
  exists (read_at (StartOffset r) (range_len r) (st_data st w ino)), b'.
  split_and!; try done. by rewrite <- Hv.
Qed.

(** A copy never delivers anything but a prefix of the chunk, even when it fails. *)
Lemma io_Copy_chunk_prefix fuel i c k o dst w b :
  chunks cm !! i = Some c → Forall (range_ok (cm_files cm)) (FileRanges c) →
  still_to_come w (FileRanges c) k o b →
  copy_prefix dst b (io_Copy_chunk st cm fuel (mkChunkReadCloser i k o) dst w).1.
Proof.
  intros Hc Hok. revert k o dst w b. induction fuel as [|fuel IH]; intros k o dst w b; [done|].
  assert (∀ k rd dst w, still_to_come w (FileRanges c) k (Some rd) b →
    copy_prefix dst b (io_Copy_chunk st cm (S fuel) (mkChunkReadCloser i k (Some rd)) dst w).1)
    as Hopen.
  { clear k o dst w. intros k rd dst w (d & b' & -> & Hpre & Hall & Heof & Hb').
    pose proof (Read_spec (Z.to_nat 32768) rd ltac:(lia)) as HR. cbn [io_Copy_chunk].
    rewrite (io_bind_ok _ _ w _ _ (chunkRead_opened _ _ _ _ _)).
    destruct (Read (Z.to_nat 32768) rd) as [[data [e|]] rd'].
    - destruct HR as (Hnil & -> & -> & ->).
      destruct (rd_err rd) as [e|] eqn:E; simpl; rewrite ?app_nil_r.
      + destruct e; [| |done]; simpl; rewrite ?app_nil_r; by apply prefix_app_r.
      + rewrite <- Hall, Hnil by done. by apply IH.
    - destruct HR as (Hdata & _ & Herr). rewrite <- Hdata in Hpre, Hall.
      destruct Hpre as [t ->]. rewrite <- !(assoc_L (++)) in *. apply copy_prefix_app.
      apply IH. exists (rd_data rd' ++ t), b'. rewrite Herr.
      split_and!; [by rewrite (assoc_L (++))|by apply prefix_app_r| |done..].
      intros Hn. apply (app_inv_head data). by apply Hall. }
  destruct o as [rd|]; [by apply Hopen|]. intros Hcome.
  destruct (FileRanges c !! k) as [r|] eqn:Hr.
  - pose proof (proj1 (Forall_lookup _ _) Hok _ _ Hr) as Hrok.
    destruct (lookup_lt_is_Some_2 (cm_files cm) (FileIndex r)) as [f Hf]; [by apply Hrok|].
    pose proof Hrok as (_ & Ho & He).
    pose proof (GetReader_spec w (FileEntry_Name f) (StartOffset r) (range_len r)
      ltac:(lia) ltac:(unfold range_len; lia)) as Hg.
    unfold post in Hg. rewrite (io_Copy_closed _ _ _ _ _ _ _ _ Hc Hr Hf Hrok).
    destruct (GetReader st _ _ _ w) as [[rd|e|s] w1];
      [|destruct e; simpl; rewrite ?app_nil_r; by apply prefix_app_r|done].
    destruct Hg as (Hi & Hd & ino & Hino & Hpre & Hall & Heof). apply Hopen.
    by apply (still_to_come_open w w1 _ _ r f ino).
  - unfold still_to_come in Hcome. rewrite drop_ge in Hcome by (by apply lookup_ge_None).
    assert (b = []) as -> by (cbn in Hcome; congruence). cbn [io_Copy_chunk].
    unfold chunkRead, open_range.
    cbn [crc_readCloser crc_chunkIndex crc_fileRangeIndex].
    unfold io_lift, index_slice. rewrite Hc. unfold mbind, io_mbind, io_bind_def. rewrite Hr.
    simpl. by rewrite !app_nil_r.
Qed.
End reading.

(** * File lists that differ only in their counters *)

Definition same_files (f g : list FileEntry) : Prop := FileEntry_Copy <$> f = FileEntry_Copy <$> g.

#[export] Instance same_files_equiv : Equivalence same_files.
Proof. split; unfold same_files; congruence. Qed.

Lemma same_files_lookup f g i x :
  same_files f g → f !! i = Some x →
  ∃ y, g !! i = Some y ∧ FileEntry_Name x = FileEntry_Name y ∧
    FileEntry_Size x = FileEntry_Size y ∧ FileEntry_Perm x = FileEntry_Perm y.
Proof.
  intros H Hx. assert ((FileEntry_Copy <$> g) !! i = Some (FileEntry_Copy x)) as Hg
    by (by rewrite <- H, list_lookup_fmap, Hx).
  rewrite list_lookup_fmap in Hg. destruct (g !! i) as [y|]; [|done].
  exists y. destruct x, y. unfold FileEntry_Copy in Hg. simpl in *. naive_solver.
Qed.

Lemma same_files_length f g : same_files f g → length f = length g.
Proof. intros H. apply (f_equal length) in H. by rewrite !length_fmap in H. Qed.

Lemma same_files_insert files i f g :
  files !! i = Some f → FileEntry_Copy g = FileEntry_Copy f →
  same_files (<[i := g]> files) files.
Proof.
  intros Hf Hg. unfold same_files. rewrite list_fmap_insert, Hg.
  apply list_insert_id. by rewrite list_lookup_fmap, Hf.
Qed.

(** * Writing a chunk *)

(** Ranges that share no byte. *)
Definition ranges_disjoint (r r' : FileRange) : Prop :=
  FileIndex r = FileIndex r' → (EndOffset r ≤ StartOffset r' ∨ EndOffset r' ≤ StartOffset r)%Z.

#[export] Instance ranges_disjoint_sym : Symmetric ranges_disjoint.
Proof. intros r r' H E. destruct (H (eq_sym E)); auto. Qed.

Section writing.
Context {W : Type} (st : Storage W) `{!StorageSpec st}.

(** A destination on which [SetupTransfer] was run: every file exists, has its final
    size, and no two are the same file. *)
Definition prepared (w : W) (files : list FileEntry) : Prop :=
  (∀ i f, files !! i = Some f → ∃ ino,
    st_inode st w (FileEntry_Name f) = Some ino ∧
    Z.of_nat (length (st_data st w ino)) = FileEntry_Size f) ∧
  (∀ i j f g, files !! i = Some f → files !! j = Some g →
    st_inode st w (FileEntry_Name f) = st_inode st w (FileEntry_Name g) → i = j).

#[export] Instance range_bytes_files :
  Proper ((=) ==> same_files ==> (=) ==> (=)) (range_bytes st).
Proof.
  intros w ? <- f g Hfg r ? <-. unfold range_bytes.
  destruct (f !! FileIndex r) as [x|] eqn:Hx.
  - destruct (same_files_lookup _ _ _ _ Hfg Hx) as (y & -> & Hn & _). simpl. by rewrite Hn.
  - assert (g !! FileIndex r = None) as ->; [|done].
    apply lookup_ge_None. rewrite <- (same_files_length _ _ Hfg). by apply lookup_ge_None.
Qed.

#[export] Instance chunk_bytes_files :
  Proper ((=) ==> same_files ==> (=) ==> (=)) (chunk_bytes st).
Proof.
  intros w ? <- f g Hfg l ? <-. induction l as [|r l IH]; simpl; [done|].
  by rewrite Hfg, IH.
Qed.

#[export] Instance prepared_files : Proper ((=) ==> same_files ==> iff) prepared.
Proof.
  intros w ? <-. assert (∀ f g, same_files f g → prepared w f → prepared w g) as H.
  { intros f g Hfg%symmetry [H1 H2]. split.
    - intros i y Hy. destruct (same_files_lookup _ _ _ _ Hfg Hy) as (x & Hx & -> & -> & _).
      by eapply H1.
    - intros i j x y Hx Hy.
      destruct (same_files_lookup _ _ _ _ Hfg Hx) as (x' & Hx' & -> & _).
      destruct (same_files_lookup _ _ _ _ Hfg Hy) as (y' & Hy' & -> & _). by eapply H2. }
  intros f g Hfg. split; by apply H.
Qed.

#[export] Instance prepared_view : Proper (same_view st ==> (=) ==> iff) prepared.
Proof.
  assert (∀ w w' f, same_view st w w' → prepared w f → prepared w' f) as H.
  { intros w w' f [Hv1 Hv2] [H1 H2]. split.
    - intros i x Hx. destruct (H1 i x Hx) as (ino & Hi & Hl). exists ino.
      by rewrite Hv1, Hv2.
    - intros i j x y. rewrite !Hv1. apply H2. }
  intros w w' Hw f ? <-. split; apply H; by symmetry in Hw || done.
Qed.

(** A range inside its file. *)
Definition range_in (files : list FileEntry) (r : FileRange) : Prop :=
  range_ok files r ∧
  ∀ f, files !! FileIndex r = Some f → (EndOffset r ≤ FileEntry_Size f)%Z.

Lemma ranges_len_range_in files l : Forall (range_in files) l → (0 ≤ ranges_len l)%Z.
Proof.
  intros Hl. apply ranges_len_nonneg. eapply Forall_impl; [exact Hl|].
  intros x [(_ & ? & _) _]. unfold range_len. lia.
Qed.

(** What a write of [k] bytes into range [r] does to the other ranges and, when it is
    complete, to [r] itself. *)
Lemma write_inside w w' files r f ino (data : bytes) :
  prepared w files → range_in files r → files !! FileIndex r = Some f →
  st_inode st w (FileEntry_Name f) = Some ino →
  (Z.of_nat (length data) ≤ range_len r)%Z →
  (∀ n, st_inode st w' n = st_inode st w n) →
  (∀ j, st_data st w' j =
    if decide (j = ino) then write_at (StartOffset r) data (st_data st w j)
    else st_data st w j) →
  prepared w' files ∧
  (∀ r', range_ok files r' → ranges_disjoint r r' →
    range_bytes st w' files r' = range_bytes st w files r') ∧
  (Z.of_nat (length data) = range_len r → range_bytes st w' files r = Some data).
Proof.
  intros [Hp1 Hp2] [(Hidx & Ho & He) Hin] Hf Hino Hlen Hi Hd.
  specialize (Hin _ Hf). destruct (Hp1 _ _ Hf) as (ino' & Hino' & Hsize). simplify_eq.
  unfold range_len in *. split_and!.
  - split; [|intros i j x y; rewrite !Hi; apply Hp2].
    intros i x Hx. destruct (Hp1 _ _ Hx) as (j & Hj & Hl). exists j. rewrite Hi, Hd.
    split; [done|]. case_decide as Hji; [subst j|done]. rewrite length_write_at; lia.
  - intros r' (Hidx' & Ho' & He') Hdis. unfold range_bytes, content.
    destruct (files !! FileIndex r') as [g|] eqn:Hg; [|done]. simpl. rewrite Hi.
    destruct (st_inode st w (FileEntry_Name g)) as [j|] eqn:Hj; [|done]. simpl.
    rewrite Hd. case_decide as Hji; [subst j|done].
    assert (FileIndex r = FileIndex r') as Heq by (eapply Hp2; [done..|congruence]).
    f_equal. unfold range_len. destruct (Hdis Heq); apply read_write_disjoint; lia.
  - intros Hfull. unfold range_bytes, content. rewrite Hf. simpl. rewrite Hi, Hino. simpl.
    rewrite Hd, decide_True by done. f_equal. unfold range_len. rewrite <- Hfull.
    apply read_write_same; lia.
Qed.
(** ** The loop of [WriteChunk] *)

Context (onFileComplete : string → Z → io W unit).
(** The callback queues a command: it returns, and leaves the files alone. *)
Hypothesis onFileComplete_ok : ∀ p s w,
  (onFileComplete p s w).1 = Ok () ∧ same_view st w (onFileComplete p s w).2.

(** What a (possibly failed) write into the ranges [l] keeps: the manager up to its
    counters, the prepared destination, and every range disjoint from [l]. *)
Record write_frame (l : list FileRange) (cm : ChunkManager) (w : W)
    (cm' : ChunkManager) (w' : W) : Prop := {
  wf_chunks : chunks cm' = chunks cm;
  wf_sums : chunkChecksums cm' = chunkChecksums cm;
  wf_files : same_files (cm_files cm') (cm_files cm);
  wf_prepared : prepared w' (cm_files cm);
  wf_others : ∀ r', range_ok (cm_files cm) r' → (∀ r, r ∈ l → ranges_disjoint r r') →
    range_bytes st w' (cm_files cm) r' = range_bytes st w (cm_files cm) r'
}.

Lemma write_frame_refl l cm w : prepared w (cm_files cm) → write_frame l cm w cm w.
Proof. by constructor. Qed.

Lemma range_ok_files f g r : same_files f g → range_ok f r → range_ok g r.
Proof. unfold range_ok. intros H. by rewrite (same_files_length _ _ H). Qed.

Lemma range_in_files f g r : same_files f g → range_in f r → range_in g r.
Proof.
  intros H [H1 H2]. split; [by eapply range_ok_files|]. intros x Hx. symmetry in H.
  destruct (same_files_lookup _ _ _ _ H Hx) as (y & Hy & _ & Hs & _). rewrite Hs. by apply H2.
Qed.

Lemma write_frame_trans l k cm1 w1 cm2 w2 cm3 w3 :
  write_frame l cm1 w1 cm2 w2 → write_frame k cm2 w2 cm3 w3 →
  write_frame (l ++ k) cm1 w1 cm3 w3.
Proof.
  intros [Hc Hs Hf Hp Ho] [Hc' Hs' Hf' Hp' Ho']. constructor; [congruence|congruence|by etrans|by rewrite <- Hf|].
  intros r' Hr' Hdis. rewrite <- Ho by set_solver. rewrite <- Hf.
  apply Ho'; [|set_solver]. by eapply range_ok_files; [symmetry|].
Qed.

Lemma decrement_file_files i f cm :
  cm_files cm !! i = Some f →
  let cm' := (decrement_file i f cm).1 in
  chunks cm' = chunks cm ∧ chunkChecksums cm' = chunkChecksums cm ∧
  same_files (cm_files cm') (cm_files cm).
Proof.
  intros Hf. simpl. split_and!; [done..|]. unfold cm_files. simpl.
  by apply (same_files_insert _ _ f).
Qed.

(** One range: the storage is called, then the counter and the callback. *)
Lemma write_range_spec r rd cm w :
  prepared w (cm_files cm) → range_in (cm_files cm) r →
  post (write_range st onFileComplete r rd) (cm, w) (λ res '(cm', w'),
    write_frame [r] cm w cm' w' ∧
    match res with
    | Ok (n, rd') => n = range_len r ∧
        range_bytes st w' (cm_files cm) r = Some (take (Z.to_nat n) (rd_data rd)) ∧
        rd_data rd' = drop (Z.to_nat n) (rd_data rd) ∧
        Z.to_nat n ≤ length (rd_data rd)
    | Err _ => True
    | Panic _ => False
    end).
Proof.
  intros Hp Hr. pose proof Hr as [(Hidx & Ho & He) _].
  destruct (lookup_lt_is_Some_2 _ _ Hidx) as [f Hf].
  destruct (proj1 Hp _ _ Hf) as (ino & Hino & Hsize).
  pose proof (Write_spec w (FileEntry_Name f) ino (StartOffset r) (range_len r) rd Hino
    ltac:(lia) ltac:(unfold range_len; lia)) as Hw.
  unfold post, write_range, get_manager, put_manager, lift_storage, io_lift, index_slice in *.
  unfold mbind, io_mbind, io_bind_def, mret, io_mret, io_ret. rewrite Hf.
  unfold range_len in Hw. wrap_simpl.
  destruct (Write st _ _ _ rd w) as [res w1]. cbn [fst snd] in Hw.
  destruct Hw as (Hi & k & Hk1 & Hk2 & Hd & Hres).
  edestruct (write_inside w w1 (cm_files cm) r f ino (take k (rd_data rd)))
    as (Hp1 & Hothers & Hfull); [done..| |done|done|].
  { unfold range_len. rewrite length_take. lia. }
  assert (write_frame [r] cm w cm w1) as Hframe.
  { constructor; try done. intros r' Hr' Hdis. apply Hothers; [done|]. apply Hdis. set_solver. }
  destruct res as [[n rd']|e|s]; [|by split|done].
  destruct Hres as (-> & -> & Hdata & Herr).
  destruct (decrement_file_files _ _ _ Hf) as (Hc & Hs & Hff).
  destruct (decrement_file (FileIndex r) f cm) as [cm' remaining] eqn:Hdec.
  cbn [fst] in Hc, Hs, Hff.
  assert (∀ w2, same_view st w1 w2 → write_frame [r] cm w cm' w2) as Hframe2.
  { intros w2 Hv. destruct Hframe. constructor; try congruence.
    - by rewrite <- Hv.
    - intros r' ? ?. rewrite <- Hv. by apply wf_others0. }
  assert (Z.to_nat (EndOffset r - StartOffset r) ≤ length (rd_data rd)) as Hlen by done.
  assert (range_bytes st w1 (cm_files cm) r
    = Some (take (Z.to_nat (EndOffset r - StartOffset r)) (rd_data rd))) as Hrb.
  { apply Hfull. unfold range_len. rewrite length_take. lia. }
  destruct (remaining =? 0)%Z.
  - destruct (onFileComplete_ok (filepath_Join (GetBaseDirectory st) (FileEntry_Name f))
      (FileEntry_Size f) w1) as [Hcb1 Hcb2].
    destruct (onFileComplete _ _ w1) as [cb w2]. cbn [fst snd] in Hcb1, Hcb2. subst cb.
    cbn [fst snd]. split; [by apply Hframe2|]. by rewrite <- Hcb2.
  - cbn [fst snd]. split; [by apply Hframe2|]. done.
Qed.
(** A failed or partial run touches only the ranges; a complete one has put the next
    bytes of the reader into them, in order. *)
Definition write_post (l : list FileRange) (rd : reader) (acc : Z) (cm : ChunkManager)
    (w : W) (res : result (Z * reader)) (s : ChunkManager * W) : Prop :=
  write_frame l cm w s.1 s.2 ∧
  match res with
  | Ok (n, rd') => n = (acc + ranges_len l)%Z ∧
      chunk_bytes st s.2 (cm_files cm) l
        = Some (take (Z.to_nat (ranges_len l)) (rd_data rd)) ∧
      rd_data rd' = drop (Z.to_nat (ranges_len l)) (rd_data rd) ∧
      Z.to_nat (ranges_len l) ≤ length (rd_data rd)
  | Err _ => True
  | Panic _ => False
  end.

Lemma write_ranges_spec l rd acc cm w :
  prepared w (cm_files cm) → Forall (range_in (cm_files cm)) l →
  ForallOrdPairs ranges_disjoint l → (0 ≤ acc)%Z → (acc + ranges_len l < 2 ^ 63)%Z →
  post (write_ranges st onFileComplete l rd acc) (cm, w) (write_post l rd acc cm w).
Proof.
  revert rd acc cm w. induction l as [|r l IH]; intros rd acc cm w Hp Hl Hdis Hacc Hlen.
  { split; [by apply write_frame_refl|]. unfold ranges_len. simpl.
    split_and!; [lia|done|done|lia]. }
  apply Forall_cons in Hl as [Hr Hl]. inversion_clear Hdis as [|? ? Hd1 Hd2].
  rewrite ranges_len_cons in Hlen. pose proof Hr as [(_ & Ho & _) _].
  pose proof (ranges_len_range_in _ _ Hl) as Hl0.
  cbn [write_ranges]. apply post_bind.
  eapply post_mono; [by apply write_range_spec|].
  intros res [cm1 w1]. unfold write_post. cbn [fst snd]. intros [Hf Hres].
  assert (∀ cm2 w2, write_frame l cm1 w1 cm2 w2 → write_frame (r :: l) cm w cm2 w2) as Htrans
    by (intros; by eapply (write_frame_trans [r])).
  destruct res as [[n rd1]|e|s]; [| |done].
  2: { split; [|done]. apply Htrans, write_frame_refl. rewrite (wf_files _ _ _ _ _ Hf).
       by eapply wf_prepared. }
  destruct Hres as (-> & Hrb & Hdata & Hn). pose proof (wf_files _ _ _ _ _ Hf) as Hff.
  assert (0 ≤ range_len r)%Z as Hr0 by (unfold range_len; lia). wrap_simpl.
  eapply post_mono.
  { apply IH; [rewrite Hff; by eapply wf_prepared| |done|lia|lia].
    eapply Forall_impl; [exact Hl|]. intros x. apply range_in_files. by symmetry. }
  intros res [cm2 w2] [Hf2 Hres]. cbn [fst snd] in *. split; [by apply Htrans|].
  destruct res as [[n rd2]|e|s]; [|done..]. destruct Hres as (-> & Hcb & Hdata2 & Hn2).
  rewrite Hff in Hcb. rewrite ranges_len_cons, Z2Nat.inj_add by lia.
  split_and!; [lia| | |].
  - cbn [chunk_bytes].
    assert (range_bytes st w2 (cm_files cm) r = range_bytes st w1 (cm_files cm) r) as ->.
    { rewrite <- Hff. apply Hf2.
      - eapply range_ok_files; [by symmetry|apply Hr].
      - intros x Hx. symmetry. rewrite List.Forall_forall in Hd1. apply Hd1.
        by apply list_elem_of_In. }
    rewrite Hrb, Hcb, Hdata. simpl. f_equal. by rewrite take_take_drop.
  - by rewrite Hdata2, Hdata, drop_drop.
  - rewrite Hdata, length_drop in Hn2. lia.
Qed.

(** ** [WriteChunk] *)

Context (xxh3 : bytes → Z).

Lemma consumed_take n rd rd' :
  rd_data rd' = drop n (rd_data rd) → n ≤ length (rd_data rd) →
  consumed rd rd' = take n (rd_data rd).
Proof. intros H Hn. unfold consumed. rewrite H, length_drop. f_equal. lia. Qed.

Lemma WriteChunk_spec i c rd expected cm w :
  chunks cm !! i = Some c → prepared w (cm_files cm) →
  Forall (range_in (cm_files cm)) (FileRanges c) →
  ForallOrdPairs ranges_disjoint (FileRanges c) →
  (ranges_len (FileRanges c) < 2 ^ 63)%Z →
  post (WriteChunk st xxh3 onFileComplete i rd expected) (cm, w) (λ res '(cm', w'),
    write_frame (FileRanges c) cm w cm' w' ∧
    match res with
    | Ok n => n = ranges_len (FileRanges c) ∧ ∃ b,
        b = take (Z.to_nat n) (rd_data rd) ∧ length b = Z.to_nat n ∧
        chunk_bytes st w' (cm_files cm) (FileRanges c) = Some b ∧
        (expected = 0%Z ∨ xxh3 b = expected)
    | Err _ => True
    | Panic _ => False
    end).
Proof.
  intros Hc Hp Hin Hdis Hlen. unfold WriteChunk.
  eapply post_run; [done|]. eapply post_run; [unfold io_lift, index_slice; by rewrite Hc|].
  apply post_bind. eapply post_mono; [by apply write_ranges_spec|].
  intros res [cm1 w1] [Hf Hres]. cbn [fst snd] in *.
  destruct res as [[n rd1]|e|s]; [|done..]. destruct Hres as (-> & Hcb & Hdata & Hn).
  rewrite (consumed_take _ _ _ Hdata Hn). rewrite Z.add_0_l in *.
  set (b := take _ (rd_data rd)) in *.
  assert (length b = Z.to_nat (ranges_len (FileRanges c))) as Hb
    by (unfold b; by rewrite length_take, Nat.min_l).
  destruct (Z.eqb_spec expected 0) as [He0|He0], (Z.eqb_spec (xxh3 b) expected); simpl;
    unfold post; simpl; (split; [done|]); try done; (split; [done|]); exists b; auto.
Qed.
End writing.

(** * Properties *)

Section properties.
Context {W : Type} (st : Storage W) `{!StorageSpec st} (cm : ChunkManager).

Lemma copy_fuel_cost c : copy_fuel c = rest_cost (FileRanges c) 0 None.
Proof. done. Qed.

(** C24: a chunk reader, read to its end through [io.Copy] with any fragmentation of the
    underlying reads, always ends (the fuel is enough), never panics, leaves every file
    as it was, and, unless the storage reports an error, delivers exactly the bytes of
    the chunk's ranges in order: the end of one file is not mistaken for the end of the
    chunk. *)
Theorem GetChunkReader_exact i c w :
  chunks cm !! i = Some c → Forall (range_ok (cm_files cm)) (FileRanges c) →
  post (io_Copy_chunk st cm (copy_fuel c) (GetChunkReader i) []) w (λ r w',
    same_view st w w' ∧ ∃ data err, r = Ok (Some (data, err)) ∧
      (err = None → chunk_bytes st w (cm_files cm) (FileRanges c) = Some data)).
Proof.
  intros Hc Hok. eapply post_mono.
  { eapply (io_Copy_chunk_spec st cm _ i c 0 None); [done|done|done|].
    by rewrite copy_fuel_cost. }
  intros r w' [Hv Hr]. split; [done|]. destruct r as [[[d err]|]|?|?]; try done.
  exists d, err. split; [done|]. intros ->. by destruct Hr as (b & Hb & ->).
Qed.

(** C23: [WriteChunk] into a prepared destination never panics and, failed or not, changes
    no byte outside the chunk's own ranges, no file size, no status and no cached
    checksum; when it succeeds it reports the size of the chunk, the ranges hold the next
    bytes of the stream in order, and those bytes have the expected checksum unless none
    was asked for. *)
Theorem WriteChunk_exact xxh3 onFileComplete i c rd expected w :
  (∀ p s w, (onFileComplete p s w).1 = Ok () ∧ same_view st w (onFileComplete p s w).2) →
  chunks cm !! i = Some c → prepared st w (cm_files cm) →
  Forall (range_in (cm_files cm)) (FileRanges c) →
  ForallOrdPairs ranges_disjoint (FileRanges c) →
  (ranges_len (FileRanges c) < 2 ^ 63)%Z →
  post (WriteChunk st xxh3 onFileComplete i rd expected) (cm, w) (λ res '(cm', w'),
    chunks cm' = chunks cm ∧ chunkChecksums cm' = chunkChecksums cm ∧
    prepared st w' (cm_files cm) ∧
    (∀ r, range_ok (cm_files cm) r → (∀ r', r' ∈ FileRanges c → ranges_disjoint r' r) →
      range_bytes st w' (cm_files cm) r = range_bytes st w (cm_files cm) r) ∧
    match res with
    | Ok n => n = Chunk_Size c ∧ ∃ b, b = take (Z.to_nat n) (rd_data rd) ∧
        chunk_bytes st w' (cm_files cm) (FileRanges c) = Some b ∧
        (expected = 0%Z ∨ xxh3 b = expected)
    | Err _ => True
    | Panic _ => False
    end).
Proof.
  intros Hcb Hc Hp Hin Hd Hlen. eapply post_mono; [by apply WriteChunk_spec|].
  intros res [cm' w'] [[H1 H2 _ H4 H5] Hres]. split_and!; [done..|].
  destruct res as [n|?|?]; [|done..]. destruct Hres as (-> & b & -> & _ & ? & ?).
  split; [|by exists (take (Z.to_nat (ranges_len (FileRanges c))) (rd_data rd))].
  symmetry. apply Chunk_Size_exact; [|done]. eapply Forall_impl; [exact Hin|].
  intros x [(_ & ? & _) _]. unfold range_len. lia.
Qed.
End properties.

(** ** The checksum cache *)

Section checksum.
Context {W : Type} (st : Storage W) `{!StorageSpec st} (xxh3 : bytes → Z).
Context (Do : string → io (ChunkManager * W) Z → io (ChunkManager * W) Z).
(** A call that no other call for the same key overlaps runs its function. *)
Hypothesis Do_alone : ∀ key m s, Do key m s = m s.

(** For the chunks in [P], a cached checksum is the hash of the chunk as it is on disk. (A
    chunk that is still being downloaded may have the checksum its source announced.) *)
Definition checksums_ok (P : nat → Prop) (cm : ChunkManager) (w : W) : Prop :=
  length (chunkChecksums cm) = length (chunks cm) ∧
  ∀ i c x, P i → chunks cm !! i = Some c → chunkChecksums cm !! i = Some x → x ≠ 0%Z →
    ∃ b, chunk_bytes st w (cm_files cm) (FileRanges c) = Some b ∧ xxh3 b = x.

Lemma index_slice_lookup {A} (l : list A) i x : l !! i = Some x → index_slice l i = Ok x.
Proof. unfold index_slice. by intros ->. Qed.

Lemma compute_chunk_checksum_spec P i c cm w :
  chunks cm !! i = Some c → Forall (range_ok (cm_files cm)) (FileRanges c) →
  checksums_ok P cm w → chunkChecksums cm !! i = Some 0%Z →
  post (compute_chunk_checksum st xxh3 i) (cm, w) (λ res '(cm', w'),
    same_view st w w' ∧ checksums_ok P cm' w' ∧
    match res with
    | Ok x => chunkChecksums cm' !! i = Some x ∧
        ∃ b, chunk_bytes st w (cm_files cm) (FileRanges c) = Some b ∧ x = xxh3 b
    | Err _ => cm' = cm
    | Panic _ => False
    end).
Proof.
  intros Hc Hok [Hlen Hsums] H0. unfold compute_chunk_checksum.
  eapply post_run; [done|].
  eapply post_run; [unfold io_lift, GetChunkChecksum; by rewrite (index_slice_lookup _ _ _ H0)|].
  rewrite Hc. cbn [negb Z.eqb]. cbv zeta.
  pose proof (io_Copy_chunk_spec st cm (copy_fuel c) i c 0 None [] w Hc Hok
    ltac:(done) ltac:(done)) as Hcopy. unfold post in Hcopy.
  unfold post, lift_storage. rewrite io_bind_unfold.
  change (GetChunkReader i) with (mkChunkReadCloser i 0 None).
  destruct (io_Copy_chunk st cm (copy_fuel c) _ [] w) as [r w1]. cbn [fst snd] in *.
  destruct Hcopy as [Hv Hr].
  assert (checksums_ok P cm w1) as Hok1.
  { split; [done|]. intros j c' x ????. destruct (Hsums j c' x) as (b & Hb & ?); [done..|].
    exists b. by rewrite <- Hv. }
  destruct r as [[[d [e|]]|]|?|?]; try done.
  destruct Hr as (b & Hb & ->). simpl in Hb. rewrite io_bind_unfold. cbn [get_manager fst snd].
  rewrite io_bind_unfold. unfold io_lift, SetChunkChecksum.
  rewrite (index_slice_lookup _ _ _ H0).
  match goal with |- context [fst ?x] =>
    change x with (Ok (xxh3 b),
      (set_chunkChecksums (<[i := xxh3 b]> (chunkChecksums cm)) cm, w1)) end.
  cbn [fst snd].
  split; [done|]. split; [|split].
  - split; [cbn; by rewrite length_insert|]. cbn [chunks set_chunkChecksums chunkChecksums]. intros j c' x Hj0 Hj Hx Hnz.
    destruct (decide (i = j)) as [<-|Hne].
    + rewrite list_lookup_insert_eq in Hx by (by eapply lookup_lt_Some). simplify_eq.
      exists b. by rewrite <- Hv.
    + rewrite list_lookup_insert_ne in Hx by done. by apply (proj2 Hok1 j c').
  - apply list_lookup_insert_eq. by eapply lookup_lt_Some.
  - by exists b.
Qed.

Lemma ComputeChunkChecksum_spec P i c cm w :
  P i →
  chunks cm !! i = Some c → Forall (range_ok (cm_files cm)) (FileRanges c) →
  checksums_ok P cm w →
  post (ComputeChunkChecksum st xxh3 Do i) (cm, w) (λ res '(cm', w'),
    same_view st w w' ∧ checksums_ok P cm' w' ∧
    match res with
    | Ok x =>
        (∃ b, chunk_bytes st w (cm_files cm) (FileRanges c) = Some b ∧ x = xxh3 b) ∧
        (x ≠ 0%Z → ComputeChunkChecksum st xxh3 Do i (cm', w') = (Ok x, (cm', w')))
    | Err _ => cm' = cm
    | Panic _ => False
    end).
Proof.
  intros HPi Hc Hok Hsums. pose proof Hsums as [Hlen Hall].
  assert (∀ x cm w, chunkChecksums cm !! i = Some x → x ≠ 0%Z →
    ComputeChunkChecksum st xxh3 Do i (cm, w) = (Ok x, (cm, w))) as Hhit.
  { clear. intros x cm w Hx Hnz. unfold ComputeChunkChecksum.
    rewrite io_bind_unfold. cbn [get_manager fst snd]. rewrite io_bind_unfold.
    unfold io_lift, GetChunkChecksum. rewrite (index_slice_lookup _ _ _ Hx). cbn [fst snd].
    by destruct (Z.eqb_spec x 0). }
  destruct (lookup_lt_is_Some_2 (chunkChecksums cm) i) as [x Hx].
  { rewrite Hlen. by eapply lookup_lt_Some. }
  destruct (decide (x = 0%Z)) as [->|Hnz].
  - unfold ComputeChunkChecksum. eapply post_run; [done|].
    eapply post_run; [unfold io_lift, GetChunkChecksum; by rewrite (index_slice_lookup _ _ _ Hx)|].
    cbn [negb Z.eqb]. unfold post. rewrite Do_alone.
    eapply post_mono; [by eapply compute_chunk_checksum_spec|].
    intros res [cm' w'] (Hv & Hs & Hres). split_and!; [done..|].
    destruct res as [x|?|?]; [|done..]. destruct Hres as [Hx' Hb]. split; [done|].
    intros. by apply Hhit.
  - unfold post. rewrite (Hhit x) by done. cbn [fst snd]. split_and!; [done..| |].
    + destruct (Hall i c x) as (b & ? & ?); [done..|]. by exists b.
    + intros _. by apply Hhit.
Qed.

(** C25: [ComputeChunkChecksum] returns the hash of the chunk's bytes on disk (or the
    storage's error), stores it, keeps the cached checksums true that were, changes no file, and
    answers the next call from the cache without touching the storage. *)
Theorem ComputeChunkChecksum_correct P i c cm w :
  P i →
  chunks cm !! i = Some c → Forall (range_ok (cm_files cm)) (FileRanges c) →
  checksums_ok P cm w →
  post (ComputeChunkChecksum st xxh3 Do i) (cm, w) (λ res '(cm', w'),
    same_view st w w' ∧ checksums_ok P cm' w' ∧
    match res with
    | Ok x =>
        (∃ b, chunk_bytes st w (cm_files cm) (FileRanges c) = Some b ∧ x = xxh3 b) ∧
        (x ≠ 0%Z → ComputeChunkChecksum st xxh3 Do i (cm', w') = (Ok x, (cm', w')))
    | Err _ => cm' = cm
    | Panic _ => False
    end).
Proof. apply ComputeChunkChecksum_spec. Qed.

#[export] Instance checksums_ok_view :
  Proper ((=) ==> (=) ==> same_view st ==> iff) checksums_ok.
Proof.
  assert (∀ P cm w w', same_view st w w' → checksums_ok P cm w → checksums_ok P cm w') as Himp.
  { intros P cm w w' Hv [Hl Hall]. split; [done|]. intros i c x ????.
    destruct (Hall i c x) as (b & Hb & ?); [done..|]. exists b. by rewrite <- Hv. }
  intros P ? <- cm ? <- w w' Hv. split; apply Himp; [done|by symmetry].
Qed.

(** Only the cache changes, at one index. *)
Lemma compute_chunk_checksum_frame i cm w :
  post (compute_chunk_checksum st xxh3 i) (cm, w) (λ _ '(cm', _),
    chunks cm' = chunks cm ∧ manifest cm' = manifest cm ∧
    ∀ j, j ≠ i → chunkChecksums cm' !! j = chunkChecksums cm !! j).
Proof.
  unfold compute_chunk_checksum. eapply post_run; [done|].
  apply post_bind. unfold post at 1, io_lift at 1. cbn [fst snd].
  destruct (GetChunkChecksum i cm) as [x|e|s]; [|done..].
  destruct (negb (x =? 0)%Z); [done|]. cbv zeta.
  apply post_bind. unfold post at 1, lift_storage, io_lift. cbn [fst snd].
  set (r := io_Copy_chunk _ _ _ _ _ w). destruct r as [[[[d [e|]]|]|e|s] w1]; try done. cbn [fst snd].
  eapply post_run; [done|]. apply post_bind. unfold post at 1, io_lift. cbn [fst snd].
  unfold SetChunkChecksum. destruct (index_slice (chunkChecksums cm) i); [|done..].
  split_and!; [done..|]. intros j Hj. by apply list_lookup_insert_ne.
Qed.

Lemma ComputeChunkChecksum_frame i cm w :
  post (ComputeChunkChecksum st xxh3 Do i) (cm, w) (λ _ '(cm', _),
    chunks cm' = chunks cm ∧ manifest cm' = manifest cm ∧
    ∀ j, j ≠ i → chunkChecksums cm' !! j = chunkChecksums cm !! j).
Proof.
  unfold ComputeChunkChecksum. eapply post_run; [done|].
  apply post_bind. unfold post at 1, io_lift at 1. cbn [fst snd].
  destruct (GetChunkChecksum i cm) as [x|e|s]; [|done..].
  destruct (negb (x =? 0)%Z); [done|]. unfold post. rewrite Do_alone.
  apply compute_chunk_checksum_frame.
Qed.
End checksum.
