(* ===== verification/Availability.v ===== *)
(** The two downloaders and what they know of their source: src/src/available_list.go,
    src/src/local_downloader.go and the bookkeeping of src/src/peer_downloader.go. The HTTP
    side of the peer downloader is in PeerDownloader.v. *)
From S2P Require Import Prelude Types ChunkManager ChunkQueue.

(** [x[i]] for a signed index. *)
Definition index_slice_int {A} (l : list A) (i : Z) : result A :=
  if (i <? 0)%Z then Panic "index out of range" else index_slice l (Z.to_nat i).

Lemma index_slice_int_ok {A} (l : list A) i a :
  index_slice_int l i = Ok a ↔ (0 ≤ i)%Z ∧ l !! Z.to_nat i = Some a.
Proof.
  unfold index_slice_int. rewrite <- index_slice_ok.
  destruct (Z.ltb_spec i 0); naive_solver lia.
Qed.

(** * available_list.go *)

(** The indices come from the network: any integers. *)
Record AvailableList := mkAvailableList
  { Timestamp : Time; IsCompleted : bool; TransferChunkIndexList : list Z }.

(** [now] is [time.Now()]. *)
Definition NewAvailableList (now : Time) : AvailableList := mkAvailableList now false [].

(** * The peer downloader's list *)

Definition AvailableChunkNotReady : Z := 0.
Definition AvailableChunkReady : Z := 1.

(** [updating]: [updateCtx] is not cancelled, so the update goroutine still runs. *)
Record PeerDownloader := mkPeerDownloader {
  pd_Queue : list nat;
  pd_UUID : string;
  pd_Host : string;
  AvailableChunkList : list Z;
  AvailableChunkCount : Z;
  pd_LastUpdatedAt : Time;
  IsSelf : bool;
  updating : bool
}.

Definition NewPeerDownloader (cm : ChunkManager) (uuid host : string) : PeerDownloader :=
  mkPeerDownloader NewChunkQueue uuid host (replicate (GetChunkCount cm) AvailableChunkNotReady)
    0 time_zero false true.

Definition set_pd_Queue (q : list nat) (d : PeerDownloader) : PeerDownloader :=
  mkPeerDownloader q (pd_UUID d) (pd_Host d) (AvailableChunkList d) (AvailableChunkCount d)
    (pd_LastUpdatedAt d) (IsSelf d) (updating d).
Definition set_available (l : list Z) (n : Z) (d : PeerDownloader) : PeerDownloader :=
  mkPeerDownloader (pd_Queue d) (pd_UUID d) (pd_Host d) l n (pd_LastUpdatedAt d) (IsSelf d)
    (updating d).
Definition set_pd_LastUpdatedAt (t : Time) (d : PeerDownloader) : PeerDownloader :=
  mkPeerDownloader (pd_Queue d) (pd_UUID d) (pd_Host d) (AvailableChunkList d)
    (AvailableChunkCount d) t (IsSelf d) (updating d).
Definition set_IsSelf (b : bool) (d : PeerDownloader) : PeerDownloader :=
  mkPeerDownloader (pd_Queue d) (pd_UUID d) (pd_Host d) (AvailableChunkList d)
    (AvailableChunkCount d) (pd_LastUpdatedAt d) b (updating d).
Definition cancelUpdate (d : PeerDownloader) : PeerDownloader :=
  mkPeerDownloader (pd_Queue d) (pd_UUID d) (pd_Host d) (AvailableChunkList d)
    (AvailableChunkCount d) (pd_LastUpdatedAt d) (IsSelf d) false.

Definition markChunkAsReady (chunkIndex : Z) (d : PeerDownloader) :
    result (bool * PeerDownloader) :=
  available ← index_slice_int (AvailableChunkList d) chunkIndex;
  if (available =? AvailableChunkNotReady)%Z then
    Ok (true, set_available
      (<[Z.to_nat chunkIndex := AvailableChunkReady]> (AvailableChunkList d))
      (AvailableChunkCount d +i64 1)%go d)
  else Ok (false, d).

(** [for _, chunkIndex := range l { if markChunkAsReady(chunkIndex) { append } }] *)
Fixpoint mark_chunks (l : list Z) (d : PeerDownloader) (indexList : list Z) :
    result (list Z * PeerDownloader) :=
  match l with
  | [] => Ok (indexList, d)
  | chunkIndex :: l =>
    match markChunkAsReady chunkIndex d with
    | Ok (ready, d) =>
      mark_chunks l d (if ready then indexList ++ [chunkIndex] else indexList)
    | Err e => Err e
    | Panic s => Panic s
    end
  end.

(** The second half of [UpdatePeerAvailableList], from the list the peer sent; [choice] are
    the random draws of the shuffle. *)
Definition receiveAvailableList (choice : nat → nat) (cm : ChunkManager) (al : AvailableList)
    (d : PeerDownloader) : result PeerDownloader :=
  let d := set_pd_LastUpdatedAt (Timestamp al) d in
  '(indexList, d) ← mark_chunks
    (if IsCompleted al then Z.of_nat <$> seq 0 (GetChunkCount cm) else TransferChunkIndexList al)
    d [];
  Ok (set_pd_Queue (PushShuffledList choice (Z.to_nat <$> indexList) (pd_Queue d)) d).

(** * The local downloader *)

Record LocalDownloader := mkLocalDownloader { ld_queue : list nat }.

Definition NewLocalDownloader (choice : nat → nat) (cm : ChunkManager) : LocalDownloader :=
  mkLocalDownloader (PushShuffledList choice (seq 0 (GetChunkCount cm)) NewChunkQueue).

(** * The Downloader interface of downloader.go *)

Inductive Downloader := DPeer (d : PeerDownloader) | DLocal (d : LocalDownloader).

Definition Downloader_Name (d : Downloader) : string :=
  match d with DPeer d => "Peer:" +:+ pd_Host d | DLocal _ => "Local" end.
Definition GetQueue (d : Downloader) : list nat :=
  match d with DPeer d => pd_Queue d | DLocal d => ld_queue d end.
Definition set_Queue (q : list nat) (d : Downloader) : Downloader :=
  match d with
  | DPeer d => DPeer (set_pd_Queue q d)
  | DLocal d => DLocal (mkLocalDownloader q)
  end.
Definition IsValid (d : Downloader) : bool :=
  match d with DPeer d => negb (IsSelf d) | DLocal _ => true end.
(** [Fin] stops the update goroutine, waits for it, and invalidates the downloader. *)
Definition Fin (d : Downloader) : Downloader :=
  match d with DPeer d => DPeer (set_IsSelf true (cancelUpdate d)) | DLocal d => DLocal d end.

(** * Facts *)

Lemma GetQueue_set_Queue q d : GetQueue (set_Queue q d) = q.
Proof. by destruct d. Qed.
Lemma IsValid_set_Queue q d : IsValid (set_Queue q d) = IsValid d.
Proof. by destruct d. Qed.
#[export] Hint Rewrite GetQueue_set_Queue IsValid_set_Queue : go.

(** The indices a downloader has learnt of; [n] is the number of chunks. *)
Definition announced (n : nat) (d : Downloader) (i : nat) : bool :=
  match d with
  | DPeer d => bool_decide (AvailableChunkList d !! i = Some AvailableChunkReady)
  | DLocal _ => bool_decide (i < n)
  end.

(** Marking learns each index once and hands out exactly the new ones. *)
Lemma mark_chunks_spec l d acc res d' :
  mark_chunks l d acc = Ok (res, d') →
  ∃ new, res = acc ++ (Z.of_nat <$> new) ∧
    length (AvailableChunkList d') = length (AvailableChunkList d) ∧
    pd_Queue d' = pd_Queue d ∧ pd_UUID d' = pd_UUID d ∧ pd_Host d' = pd_Host d ∧
    pd_LastUpdatedAt d' = pd_LastUpdatedAt d ∧ IsSelf d' = IsSelf d ∧ updating d' = updating d ∧
    NoDup new ∧
    ∀ i, (i ∈ new ↔ announced 0 (DPeer d) i = false ∧ announced 0 (DPeer d') i = true) ∧
         (announced 0 (DPeer d) i = true → announced 0 (DPeer d') i = true).
Proof.
  revert d acc. induction l as [|z l IH]; intros d acc.
  { intros [= <- <-]. exists []. rewrite app_nil_r. split_and!; try done; [constructor|].
    intros i. split; [|done]. split; [by intros ?%elem_of_nil|]. intros [??]. congruence. }
  cbn [mark_chunks]. intros Hrest. destruct (markChunkAsReady z d) as [[ready d1]|?|?] eqn:Hm; [|done..].
  apply bind_ok in Hm as (a & Ha%index_slice_int_ok & Hm). destruct Ha as [Hz Ha].
  destruct (Z.eqb_spec a AvailableChunkNotReady) as [->|Hne].
  - injection Hm as <- Hd1. symmetry in Hd1.
    apply IH in Hrest as (new & -> & Hl & Hq & Hu & Hh & Ht & Hs & Hup & Hnd & Hi).
    assert (∀ i, announced 0 (DPeer d1) i = true ↔
      i = Z.to_nat z ∨ announced 0 (DPeer d) i = true) as Hann.
    { intros i. subst d1. simpl. rewrite !bool_decide_eq_true.
      destruct (decide (i = Z.to_nat z)) as [->|Hne].
      - rewrite list_lookup_insert_eq by (by eapply lookup_lt_Some). naive_solver.
      - rewrite list_lookup_insert_ne by done. naive_solver. }
    assert (announced 0 (DPeer d) (Z.to_nat z) = false) as Hz0.
    { simpl. rewrite Ha. by apply bool_decide_eq_false. }
    exists (Z.to_nat z :: new).
    split_and!; [|rewrite Hl; subst d1; simpl; by rewrite length_insert|by subst d1..| |].
    + rewrite fmap_cons, Z2Nat.id, <- (assoc_L (++)) by done. done.
    + constructor; [|done]. intros [Hin _]%Hi.
      apply not_true_iff_false in Hin. apply Hin, Hann. by left.
    + intros i. rewrite elem_of_cons. destruct (Hi i) as [Hnew Hmono]. split.
      * rewrite Hnew, <- !not_true_iff_false, Hann. split.
        -- intros [->|[H1 H2]]; [|naive_solver]. split; [by rewrite Hz0|].
           apply (Hi (Z.to_nat z)), Hann. by left.
        -- intros [H1 H2]. destruct (decide (i = Z.to_nat z)); [by left|right]. naive_solver.
      * intros H. apply Hmono, Hann. by right.
  - injection Hm as <- <-. by apply IH.
Qed.

(** A list whose indices are chunks never makes the receiver panic. *)
Lemma mark_chunks_total l d acc :
  Forall (λ z, 0 ≤ z < Z.of_nat (length (AvailableChunkList d)))%Z l →
  ∃ res, mark_chunks l d acc = Ok res.
Proof.
  intros Hl. remember (length (AvailableChunkList d)) as n eqn:Hn. revert d acc Hn.
  induction Hl as [|z l Hz Hl IH]; intros d acc Hn; [by eexists|].
  destruct (lookup_lt_is_Some_2 (AvailableChunkList d) (Z.to_nat z)) as [a Ha]; [lia|].
  assert (index_slice_int (AvailableChunkList d) z = Ok a) as Hs
    by (apply index_slice_int_ok; split; [lia|done]).
  cbn [mark_chunks]. unfold markChunkAsReady. rewrite Hs. simpl.
  destruct (a =? AvailableChunkNotReady)%Z; simpl; apply IH; [|done].
  simpl. by rewrite length_insert.
Qed.

(** What is announced afterwards: what was before, and the list. *)
Lemma mark_chunks_announced l d acc res d' i :
  mark_chunks l d acc = Ok (res, d') →
  announced 0 (DPeer d') i = true ↔ announced 0 (DPeer d) i = true ∨
    Z.of_nat i ∈ l ∧ AvailableChunkList d !! i = Some AvailableChunkNotReady.
Proof.
  revert d acc. induction l as [|z l IH]; intros d acc.
  { intros [= <- <-]. rewrite elem_of_nil. naive_solver. }
  cbn [mark_chunks]. intros Hrest. destruct (markChunkAsReady z d) as [[ready d1]|?|?] eqn:Hm; [|done..].
  apply bind_ok in Hm as (a & Ha%index_slice_int_ok & Hm). destruct Ha as [Hz Ha].
  apply IH in Hrest. rewrite Hrest, elem_of_cons. clear Hrest IH.
  destruct (Z.eqb_spec a AvailableChunkNotReady) as [->|Hne]; injection Hm as <- <-.
  - simpl. rewrite !bool_decide_eq_true. destruct (decide (i = Z.to_nat z)) as [->|Hi].
    + rewrite list_lookup_insert_eq by (by eapply lookup_lt_Some).
      rewrite Z2Nat.id by done. naive_solver.
    + rewrite list_lookup_insert_ne by done. assert (Z.of_nat i ≠ z) by lia. naive_solver.
  - simpl. rewrite !bool_decide_eq_true. split; [naive_solver|].
    intros [?|[[<-|?] Hi]]; [by left| |by right]. rewrite Nat2Z.id in Ha. congruence.
Qed.

(** A downloader that follows a peer with as many chunks. *)
Definition pd_ok (cm : ChunkManager) (d : PeerDownloader) : Prop :=
  length (AvailableChunkList d) = GetChunkCount cm ∧
  ∀ i, i < GetChunkCount cm → AvailableChunkList d !! i = Some AvailableChunkNotReady ∨
    AvailableChunkList d !! i = Some AvailableChunkReady.

Definition al_indices (cm : ChunkManager) (al : AvailableList) : list Z :=
  if IsCompleted al then Z.of_nat <$> seq 0 (GetChunkCount cm) else TransferChunkIndexList al.

(** Receiving a list of chunks of the manifest: it never fails, exactly the chunks that were
    not known before enter the queue, each once, and those that were stay known. *)
Lemma receiveAvailableList_spec choice cm al d :
  pd_ok cm d → Forall (λ z, 0 ≤ z < Z.of_nat (GetChunkCount cm))%Z (al_indices cm al) →
  ∃ d' new, receiveAvailableList choice cm al d = Ok d' ∧
    pd_Queue d' ≡ₚ pd_Queue d ++ new ∧ NoDup new ∧
    (∀ i, i ∈ new ↔ announced 0 (DPeer d) i = false ∧ announced 0 (DPeer d') i = true) ∧
    (∀ i, announced 0 (DPeer d') i = true ↔
       announced 0 (DPeer d) i = true ∨ Z.of_nat i ∈ al_indices cm al) ∧
    pd_LastUpdatedAt d' = Timestamp al ∧ IsSelf d' = IsSelf d ∧ updating d' = updating d.
Proof.
  intros [Hlen Hcells] Hal. unfold receiveAvailableList. fold (al_indices cm al).
  set (d1 := set_pd_LastUpdatedAt (Timestamp al) d).
  destruct (mark_chunks_total (al_indices cm al) d1 []) as [[res d2] Hm]; [by simpl; rewrite Hlen|].
  rewrite Hm. pose proof (λ i, mark_chunks_announced _ _ _ _ _ i Hm) as Hann.
  apply mark_chunks_spec in Hm as (new & -> & _ & Hq & _ & _ & Ht & Hs & Hu & Hnd & Hnew).
  cbn [mbind result_bind app].
  assert (Z.to_nat <$> (Z.of_nat <$> new) = new) as ->.
  { clear. induction new as [|i new IH]; [done|]. by rewrite !fmap_cons, IH, Nat2Z.id. }
  eexists _, new. split; [done|]. split_and!; [|done|apply Hnew| |done..].
  - cbn [pd_Queue set_pd_Queue]. by rewrite PushShuffledList_perm, Hq.
  - intros i. change (announced 0 (DPeer (set_pd_Queue ?q d2)) i) with (announced 0 (DPeer d2) i).
    rewrite Hann. change (announced 0 (DPeer d1) i) with (announced 0 (DPeer d) i).
    split; [naive_solver|]. intros [?|Hi]; [by left|].
    rewrite Forall_forall in Hal. pose proof (Hal _ Hi).
    destruct (Hcells i) as [?|Hr]; [lia|by right|left].
    simpl. by apply bool_decide_eq_true.
Qed.
