(* ===== verification/Delivery.v ===== *)
(** End to end: the chunks of a file list, written in any order, with failures and
    retries, rebuild the files. The splitter (ChunkBuilder.v) and the chunk writer
    (ChunkTransfer.v) meet here. *)
From S2P Require Import Prelude Bytes GoStrings Types Storage ChunkBuilder ChunkManager ChunkTransfer.

(** * The layout as ranges that are in bounds, disjoint, and cover the files *)

Lemma FOP_app {A} (R : relation A) l k :
  ForallOrdPairs R (l ++ k) ↔
  ForallOrdPairs R l ∧ ForallOrdPairs R k ∧ ∀ x y, x ∈ l → y ∈ k → R x y.
Proof.
  induction l as [|a l IH]; simpl.
  - split; [|naive_solver]. intros H. split_and!; [constructor|done|]. set_solver.
  - split.
    + intros H. inversion_clear H as [|? ? H1 H2]. apply IH in H2 as (Hl & Hk & Hlk).
      apply Forall_app in H1 as [H1 H3]. split_and!; [by constructor|done|].
      intros x y [->|Hx]%elem_of_cons Hy; [|by apply Hlk].
      rewrite Forall_forall in H3. by apply H3.
    + intros (H & Hk & Hlk). inversion_clear H as [|? ? H1 H2]. constructor.
      * apply Forall_app. split; [done|]. apply Forall_forall. set_solver.
      * apply IH. set_solver.
Qed.

Lemma tiles_disjoint from to l : tiles from to l → ForallOrdPairs ranges_disjoint l.
Proof.
  revert from. induction l as [|r l IH]; intros from; [constructor|].
  simpl. intros (<- & Hlt & Ht). constructor; [|by eapply IH].
  apply Forall_forall. intros r' Hr'. destruct (tiles_inside _ _ _ _ Ht Hr').
  unfold ranges_disjoint. lia.
Qed.

Lemma layout_disjoint i files l : layout i files l → ForallOrdPairs ranges_disjoint l.
Proof.
  induction 1 as [|i f files l rest Hl Ht Hr IH]; [constructor|].
  apply FOP_app. split_and!; [by eapply tiles_disjoint|done|].
  intros x y Hx Hy Heq. apply layout_indices in Hr.
  rewrite Forall_forall in Hl, Hr. rewrite (Hl x Hx) in Heq. specialize (Hr y Hy). simpl in Hr.
  lia.
Qed.

Lemma layout_range_in files l :
  layout 0 files l → Forall (λ f, FileEntry_Size f < 2 ^ 63)%Z files →
  Forall (range_in files) l.
Proof.
  intros Hl Hs. apply Forall_forall. intros r Hr.
  destruct (layout_range _ _ _ _ Hl Hr) as (k & f & Hk & Hf & Hb1 & Hb2).
  pose proof (proj1 (Forall_lookup _ _) Hs _ _ Hf). simpl in *. rewrite <- Hk in Hf.
  split; [split_and!; [by eapply lookup_lt_Some|lia..]|].
  intros g Hg. by simplify_eq.
Qed.

Section coverage.
Context {W : Type} (st : Storage W) `{!StorageSpec st}.

(** Every file of the list is there with its size. *)
Definition sized (w : W) (files : list FileEntry) : Prop :=
  ∀ i f, files !! i = Some f → ∃ ino,
    st_inode st w (FileEntry_Name f) = Some ino ∧
    Z.of_nat (length (st_data st w ino)) = FileEntry_Size f.

Lemma prepared_sized w files : prepared st w files → sized w files.
Proof. by intros []. Qed.

Lemma sized_content w files i f :
  sized w files → files !! i = Some f →
  ∃ c, content st w (FileEntry_Name f) = Some c ∧ Z.of_nat (length c) = FileEntry_Size f.
Proof.
  intros H Hf. destruct (H _ _ Hf) as (ino & Hi & Hl). unfold content. rewrite Hi. simpl.
  eauto.
Qed.

Lemma range_bytes_sized w files r :
  sized w files → range_in files r →
  ∃ b, range_bytes st w files r = Some b ∧ length b = Z.to_nat (range_len r).
Proof.
  intros Hs [(Hidx & Ho & He) Hin]. destruct (lookup_lt_is_Some_2 _ _ Hidx) as [f Hf].
  destruct (sized_content _ _ _ _ Hs Hf) as (c & Hc & Hl). specialize (Hin _ Hf).
  unfold range_bytes. rewrite Hf. simpl. rewrite Hc. simpl. eexists. split; [done|].
  unfold range_len. apply length_read_at; lia.
Qed.

Lemma chunk_bytes_sized w files l :
  sized w files → Forall (range_in files) l →
  ∃ b, chunk_bytes st w files l = Some b ∧ length b = Z.to_nat (ranges_len l).
Proof.
  intros Hs. induction 1 as [|r l Hr Hl IH]; [by exists []|].
  destruct (range_bytes_sized _ _ _ Hs Hr) as (b & Hb & Hbl).
  destruct IH as (bs & Hbs & Hbsl). cbn [chunk_bytes]. rewrite Hb, Hbs. simpl.
  eexists. split; [done|]. rewrite length_app, Hbl, Hbsl, ranges_len_cons.
  rewrite Z2Nat.inj_add; [done| |].
  - destruct Hr as [(_ & ? & _) _]. unfold range_len. lia.
  - by eapply ranges_len_range_in.
Qed.

(** A tiling of a whole file, read range by range, is the file. *)
Lemma tiles_bytes w files f c i from to l :
  files !! i = Some f → content st w (FileEntry_Name f) = Some c →
  (0 ≤ from)%Z → tiles from to l → Forall (λ r, FileIndex r = i) l →
  chunk_bytes st w files l = Some (read_at from (to - from) c).
Proof.
  intros Hf Hc. revert from. induction l as [|r l IH]; intros from Hfrom Ht Hi; simpl in Ht.
  - subst to. rewrite Z.sub_diag. done.
  - destruct Ht as (<- & Hlt & Ht). apply Forall_cons in Hi as [Hir Hi].
    cbn [chunk_bytes]. rewrite (IH (EndOffset r)) by (done || lia).
    unfold range_bytes. rewrite Hir, Hf. simpl. rewrite Hc. simpl. f_equal.
    pose proof (tiles_le _ _ _ Ht). unfold range_len.
    pose proof (read_at_app (StartOffset r) (EndOffset r - StartOffset r)
      (to - EndOffset r) c ltac:(lia) ltac:(lia) ltac:(lia)) as Happ.
    replace (StartOffset r + (EndOffset r - StartOffset r))%Z with (EndOffset r) in Happ by lia.
    replace (EndOffset r - StartOffset r + (to - EndOffset r))%Z
      with (to - StartOffset r)%Z in Happ by lia.
    by rewrite <- Happ.
Qed.

Lemma layout_content w files l i f :
  layout 0 files l → sized w files → files !! i = Some f →
  chunk_bytes st w files (filter (λ r, FileIndex r = i) l) = content st w (FileEntry_Name f).
Proof.
  intros Hl Hs Hf. destruct (sized_content _ _ _ _ Hs Hf) as (c & Hc & Hlen).
  pose proof (layout_file _ _ _ _ _ Hl Hf) as Ht. simpl in Ht.
  rewrite (tiles_bytes _ _ _ _ i 0 _ _ Hf Hc (Z.le_refl 0) Ht).
  - rewrite Hc. f_equal. apply read_at_all. lia.
  - apply Forall_forall. intros r [Hr _]%list_elem_of_filter. done.
Qed.
End coverage.

(** * A manager whose chunks are those of its files *)

Definition manager_ok (cm0 : ChunkManager) : Prop :=
  layout 0 (cm_files cm0) (all_ranges (chunks cm0)) ∧
  Forall (λ f, FileEntry_Size f < 2 ^ 63)%Z (cm_files cm0) ∧
  Forall (λ c, ranges_len (FileRanges c) < 2 ^ 63)%Z (chunks cm0).

Lemma manager_chunk cm0 i c :
  manager_ok cm0 → chunks cm0 !! i = Some c →
  Forall (range_in (cm_files cm0)) (FileRanges c) ∧
  ForallOrdPairs ranges_disjoint (FileRanges c) ∧
  (ranges_len (FileRanges c) < 2 ^ 63)%Z.
Proof.
  intros (Hl & Hs & Hc) Hi. pose proof (layout_range_in _ _ Hl Hs) as Hin.
  pose proof (layout_disjoint _ _ _ Hl) as Hd.
  rewrite <- (take_drop_middle _ _ _ Hi) in Hin, Hd.
  rewrite all_ranges_app in Hin, Hd.
  change (c :: drop (S i) (chunks cm0)) with ([c] ++ drop (S i) (chunks cm0)) in Hin, Hd.
  rewrite all_ranges_app, all_ranges_singleton in Hin, Hd.
  rewrite !Forall_app in Hin. rewrite !FOP_app in Hd.
  split_and!; [naive_solver..|]. by apply (proj1 (Forall_lookup _ _) Hc i c).
Qed.

Lemma all_ranges_lookup (l : list Chunk) i j c c' r r' :
  i ≠ j → l !! i = Some c → l !! j = Some c' → r ∈ FileRanges c → r' ∈ FileRanges c' →
  ForallOrdPairs ranges_disjoint (all_ranges l) → ranges_disjoint r r'.
Proof.
  intros Hij Hi Hj Hr Hr' Hd. assert (∀ i j c c' r r', i < j → l !! i = Some c →
    l !! j = Some c' → r ∈ FileRanges c → r' ∈ FileRanges c' → ranges_disjoint r r') as H.
  { clear -Hd. intros i j c c' r r' Hij Hi Hj Hr Hr'.
    rewrite <- (take_drop_middle _ _ _ Hj), all_ranges_app in Hd.
    apply FOP_app in Hd as (_ & _ & Hd). apply Hd.
    - eapply (elem_of_all_ranges c); [|done].
      apply (list_elem_of_lookup_2 _ i). by rewrite lookup_take_lt.
    - eapply (elem_of_all_ranges c'); [|done]. set_solver. }
  destruct (decide (i < j)); [by eapply (H i j)|].
  symmetry. eapply (H j i); [lia|done..].
Qed.

(** Ranges that are the same one by one make the same chunk. *)
Lemma chunk_bytes_ext {W1 W2} (s1 : Storage W1) `{!StorageSpec s1} (s2 : Storage W2)
    `{!StorageSpec s2} w1 w2 files l :
  (∀ r, r ∈ l → range_bytes s1 w1 files r = range_bytes s2 w2 files r) →
  chunk_bytes s1 w1 files l = chunk_bytes s2 w2 files l.
Proof.
  induction l as [|r l IH]; intros H; [done|]. cbn [chunk_bytes].
  rewrite H by set_solver. by rewrite IH by set_solver.
Qed.

(** And a chunk that is the same has the same ranges, their lengths being known. *)
Lemma chunk_bytes_inj {W1 W2} (s1 : Storage W1) `{!StorageSpec s1} (s2 : Storage W2)
    `{!StorageSpec s2} w1 w2 files l :
  Forall (range_in files) l → sized s1 w1 files → sized s2 w2 files →
  chunk_bytes s1 w1 files l = chunk_bytes s2 w2 files l →
  ∀ r, r ∈ l → range_bytes s1 w1 files r = range_bytes s2 w2 files r.
Proof.
  intros Hl Hs1 Hs2. induction Hl as [|x l Hx Hl IH]; [by intros _ r ?%elem_of_nil|].
  destruct (range_bytes_sized s1 _ _ _ Hs1 Hx) as (b1 & Hb1 & Hl1).
  destruct (range_bytes_sized s2 _ _ _ Hs2 Hx) as (b2 & Hb2 & Hl2).
  destruct (chunk_bytes_sized s1 _ _ _ Hs1 Hl) as (c1 & Hc1 & _).
  destruct (chunk_bytes_sized s2 _ _ _ Hs2 Hl) as (c2 & Hc2 & _).
  cbn [chunk_bytes]. rewrite Hb1, Hb2, Hc1, Hc2 in *. simpl. intros [= Heq].
  apply app_inj_1 in Heq as [-> ->]; [|congruence].
  intros r [->|Hr]%elem_of_cons; [congruence|by apply IH].
Qed.

(** * Any sequence of attempts *)

(** A call of [WriteChunk] by some download worker. *)
Record attempt := mkAttempt { at_chunk : nat; at_reader : reader; at_checksum : Z }.

Section delivery.
Context {W : Type} (dst : Storage W) `{!StorageSpec dst}.
Context {V : Type} (src : Storage V) `{!StorageSpec src} (v : V).
Context (xxh3 : bytes → Z) (onFileComplete : string → Z → io W unit).
Hypothesis onFileComplete_ok : ∀ p s w,
  (onFileComplete p s w).1 = Ok () ∧ same_view dst w (onFileComplete p s w).2.

(** The calls in order; [delivered] are the chunks whose last call succeeded. *)
Fixpoint run_attempts (l : list attempt) (s : ChunkManager * W) (delivered : gset nat) :
    (ChunkManager * W) * gset nat :=
  match l with
  | [] => (s, delivered)
  | a :: l =>
    let '(res, s) := WriteChunk dst xxh3 onFileComplete (at_chunk a) (at_reader a)
                       (at_checksum a) s in
    run_attempts l s
      (if is_ok res then {[at_chunk a]} ∪ delivered else delivered ∖ {[at_chunk a]})
  end.

(** The bytes of a chunk at the source. *)
Definition source_bytes (files : list FileEntry) (chunks : list Chunk) (i : nat) :
    option bytes :=
  c ← chunks !! i; chunk_bytes src v files (FileRanges c).

(** What came over the wire: the source's bytes, possibly cut short; or anything at all,
    if the call verifies it against the source's checksum and nothing else of that
    length has that checksum. *)
Definition good_attempt (files : list FileEntry) (chunks : list Chunk) (a : attempt) : Prop :=
  ∃ b, source_bytes files chunks (at_chunk a) = Some b ∧
    (take (length b) (rd_data (at_reader a)) `prefix_of` b ∨
     at_checksum a ≠ 0%Z ∧ at_checksum a = xxh3 b ∧
     ∀ b', length b' = length b → xxh3 b' = xxh3 b → b' = b).

(** Every delivered chunk holds the source's bytes. *)
Definition delivered_inv (cm0 cm : ChunkManager) (w : W) (delivered : gset nat) : Prop :=
  chunks cm = chunks cm0 ∧ same_files (cm_files cm) (cm_files cm0) ∧
  prepared dst w (cm_files cm0) ∧
  ∀ i c, i ∈ delivered → chunks cm0 !! i = Some c →
    chunk_bytes dst w (cm_files cm0) (FileRanges c)
    = chunk_bytes src v (cm_files cm0) (FileRanges c).

Lemma delivered_step cm0 cm w delivered a :
  manager_ok cm0 → sized src v (cm_files cm0) →
  good_attempt (cm_files cm0) (chunks cm0) a →
  delivered_inv cm0 cm w delivered →
  post (WriteChunk dst xxh3 onFileComplete (at_chunk a) (at_reader a) (at_checksum a)) (cm, w)
    (λ res '(cm', w'), delivered_inv cm0 cm' w'
      (if is_ok res then {[at_chunk a]} ∪ delivered else delivered ∖ {[at_chunk a]})).
Proof.
  intros Hok Hsrc (b & Hb & Hgood) (Hch & Hff & Hp & Hdel).
  unfold source_bytes in Hb. destruct (chunks cm0 !! at_chunk a) as [c|] eqn:Hc; [|done].
  simpl in Hb. destruct (manager_chunk _ _ _ Hok Hc) as (Hin & Hd & Hlen).
  destruct (chunk_bytes_sized src _ _ _ Hsrc Hin) as (b0 & Hb0 & Hbl). simplify_eq.
  eapply post_mono.
  { eapply WriteChunk_spec; [done|by rewrite Hch|by rewrite Hff| |done|done].
    eapply Forall_impl; [exact Hin|]. intros r. by apply range_in_files. }
  intros res [cm' w'] [[Hch' _ Hff' Hp' Ho] Hres].
  assert (∀ i c', i ≠ at_chunk a → i ∈ delivered → chunks cm0 !! i = Some c' →
    chunk_bytes dst w' (cm_files cm0) (FileRanges c')
    = chunk_bytes src v (cm_files cm0) (FileRanges c')) as Hothers.
  { intros i c' Hi Hid Hc'. rewrite <- (Hdel i c') by done. apply chunk_bytes_ext.
    intros r' Hr'. rewrite <- Hff.
    destruct (manager_chunk _ _ _ Hok Hc') as (Hin' & _ & _). rewrite Forall_forall in Hin'.
    apply Ho; [eapply range_ok_files; [symmetry; exact Hff|by apply Hin']|].
    intros r Hr. destruct Hok as (Hl & _).
    eapply (all_ranges_lookup (chunks cm0) (at_chunk a) i c c');
      [done..|by eapply layout_disjoint]. }
  split_and!; [congruence|by etrans|by rewrite <- Hff|].
  intros i c' Hi Hc'. destruct res as [n|e|s]; simpl in Hi; [|apply (Hothers i); set_solver..].
  destruct (decide (i = at_chunk a)) as [->|]; [|apply (Hothers i); set_solver].
  destruct Hres as (-> & b' & -> & Hbl' & Hcb & Hsum). simplify_eq.
  rewrite <- Hff at 1. rewrite Hcb, Hb. f_equal.
  destruct Hgood as [Hpre|(Hnz & Heq & Hinj)].
  - rewrite Hbl in Hpre. by apply prefix_length_eq; [|lia].
  - apply Hinj; [by rewrite Hbl|]. destruct Hsum; congruence.
Qed.

Lemma run_attempts_inv cm0 l cm w delivered :
  manager_ok cm0 → sized src v (cm_files cm0) →
  Forall (good_attempt (cm_files cm0) (chunks cm0)) l →
  delivered_inv cm0 cm w delivered →
  let '((cm', w'), delivered') := run_attempts l (cm, w) delivered in
  delivered_inv cm0 cm' w' delivered'.
Proof.
  intros Hok Hsrc Hl. revert cm w delivered.
  induction Hl as [|a l Ha Hl IH]; intros cm w delivered Hinv; [done|].
  cbn [run_attempts]. pose proof (delivered_step _ _ _ _ _ Hok Hsrc Ha Hinv) as Hstep.
  unfold post in Hstep. destruct (WriteChunk _ _ _ _ _ _ _) as [res [cm1 w1]].
  by apply IH.
Qed.

(** A file all of whose chunks are delivered is the source's. *)
Lemma delivered_file cm0 cm w delivered i f :
  manager_ok cm0 → sized src v (cm_files cm0) → delivered_inv cm0 cm w delivered →
  cm_files cm0 !! i = Some f →
  (∀ j c r, chunks cm0 !! j = Some c → r ∈ FileRanges c → FileIndex r = i → j ∈ delivered) →
  content dst w (FileEntry_Name f) = content src v (FileEntry_Name f) ∧
  is_Some (content dst w (FileEntry_Name f)).
Proof.
  intros Hok Hsrc (_ & _ & Hp & Hdel) Hf Hall.
  pose proof Hok as (Hl & Hs & _). apply prepared_sized in Hp.
  split; [|destruct (sized_content dst _ _ _ _ Hp Hf) as (? & -> & _); done].
  rewrite <- (layout_content dst _ _ _ _ _ Hl Hp Hf).
  rewrite <- (layout_content src _ _ _ _ _ Hl Hsrc Hf).
  apply chunk_bytes_ext. intros r [Hri Hr]%list_elem_of_filter.
  apply list_elem_of_bind in Hr as (c & Hr & (j & Hj)%list_elem_of_lookup).
  destruct (manager_chunk _ _ _ Hok Hj) as (Hin & _ & _).
  eapply chunk_bytes_inj; [exact Hin|exact Hp|exact Hsrc| |done].
  apply (Hdel j); [|done]. by eapply Hall.
Qed.

(** All chunks delivered: every file is the source's. *)
Lemma delivered_all cm0 cm w delivered :
  manager_ok cm0 → sized src v (cm_files cm0) → delivered_inv cm0 cm w delivered →
  (∀ i, i < length (chunks cm0) → i ∈ delivered) →
  ∀ f, f ∈ cm_files cm0 →
    content dst w (FileEntry_Name f) = content src v (FileEntry_Name f) ∧
    is_Some (content dst w (FileEntry_Name f)).
Proof.
  intros Hok Hsrc Hinv Hall f (i & Hf)%list_elem_of_lookup.
  eapply delivered_file; [done..|]. intros j c r Hj _ _. apply Hall. by eapply lookup_lt_Some.
Qed.
End delivery.

(** ** The splitter's output *)

Lemma BuildChunks_files `{SliceSort} cs mf files0 files chunkList :
  (0 < cs < 2 ^ 63)%Z → sizes_ok cs files0 →
  Forall (λ f, int32_range (FileEntry_remainingChunkCount f)) files0 →
  BuildChunks cs mf files0 = Some (files, chunkList) →
  FileEntry_Copy <$> files ≡ₚ FileEntry_Copy <$> files0.
Proof.
  intros Hcs Hs Hc Hb.
  destruct (BuildChunks_spec cs mf files0 ltac:(lia) Hs Hc) as (chunks0 & Hb' & _).
  rewrite Hb' in Hb. injection Hb as <- <-. by rewrite counted_Copy, sort_Slice_perm.
Qed.

Lemma BuildChunks_manager_ok `{SliceSort} cs mf files0 cm :
  (0 < cs < 2 ^ 63)%Z → sizes_ok cs files0 →
  Forall (λ f, int32_range (FileEntry_remainingChunkCount f)) files0 →
  BuildChunks cs mf files0 = Some (cm_files cm, chunks cm) →
  manager_ok cm ∧ Forall (λ c, GetStatus c = ChunkStatusPending) (chunks cm).
Proof.
  intros Hcs Hs Hc Hb. pose proof (BuildChunks_files _ _ _ _ _ Hcs Hs Hc Hb) as Hperm.
  destruct (BuildChunks_spec cs mf files0 ltac:(lia) Hs Hc) as (chunks0 & Hb' & Hl & Hch & _).
  rewrite Hb' in Hb. injection Hb as Hfiles Hchunks. rewrite Hchunks in *. split.
  - split_and!.
    + rewrite <- Hfiles. by apply layout_counted.
    + apply Forall_forall. intros g Hg.
      assert (FileEntry_Copy g ∈ FileEntry_Copy <$> files0) as Hg'
        by (rewrite <- Hperm; by apply list_elem_of_fmap_2).
      apply list_elem_of_fmap in Hg' as (f & Heq & Hf).
      apply (f_equal FileEntry_Size) in Heq. simpl in Heq. rewrite Heq.
      unfold sizes_ok in Hs. rewrite Forall_forall in Hs. specialize (Hs f Hf). simpl in Hs. lia.
    + eapply Forall_impl; [exact Hch|]. intros c ((_ & ? & _) & _). simpl. lia.
  - eapply Forall_impl; [exact Hch|]. intros c (_ & _ & Hcopy). by rewrite Hcopy.
Qed.

Lemma BuildChunks_names `{SliceSort} cs mf files0 files chunkList f :
  (0 < cs < 2 ^ 63)%Z → sizes_ok cs files0 →
  Forall (λ f, int32_range (FileEntry_remainingChunkCount f)) files0 →
  BuildChunks cs mf files0 = Some (files, chunkList) → f ∈ files0 →
  ∃ g, g ∈ files ∧ FileEntry_Name g = FileEntry_Name f.
Proof.
  intros Hcs Hs Hc Hb Hf. pose proof (BuildChunks_files _ _ _ _ _ Hcs Hs Hc Hb) as Hperm.
  assert (FileEntry_Copy f ∈ FileEntry_Copy <$> files) as Hf'
    by (rewrite Hperm; by apply list_elem_of_fmap_2).
  apply list_elem_of_fmap in Hf' as (g & Heq & Hg). exists g. split; [done|].
  by apply (f_equal FileEntry_Name) in Heq.
Qed.

(** * The transfer *)

Section transfer.
Context {W : Type} (dst : Storage W) `{!StorageSpec dst}.
Context {V : Type} (src : Storage V) `{!StorageSpec src} (v : V).
Context (xxh3 : bytes → Z) (onFileComplete : string → Z → io W unit).
Hypothesis onFileComplete_ok : ∀ p s w,
  (onFileComplete p s w).1 = Ok () ∧ same_view dst w (onFileComplete p s w).2.

(** A transfer rebuilds the files, without the machine. Cut any file list into chunks; take a source that
    holds the files and a destination that was prepared for them; call [WriteChunk] any
    number of times, in any order, for any chunks, with streams that may break off, and
    whose bytes are the source's or are checked against the source's checksum. As soon as
    the last call for every chunk has succeeded, every file of the destination is, byte
    for byte, the source's. *)
Theorem transfer_rebuilds_files `{SliceSort} cs mf files0 files chunkList cm w attempts :
  (0 < cs < 2 ^ 63)%Z → sizes_ok cs files0 →
  Forall (λ f, int32_range (FileEntry_remainingChunkCount f)) files0 →
  BuildChunks cs mf files0 = Some (files, chunkList) →
  cm_files cm = files → chunks cm = chunkList →
  sized src v files → prepared dst w files →
  Forall (good_attempt src v xxh3 files chunkList) attempts →
  let '((_, w'), delivered) :=
    run_attempts dst xxh3 onFileComplete attempts (cm, w) ∅ in
  (∀ i, i < length chunkList → i ∈ delivered) →
  ∀ f, f ∈ files0 →
    content dst w' (FileEntry_Name f) = content src v (FileEntry_Name f) ∧
    is_Some (content dst w' (FileEntry_Name f)).
Proof.
  intros Hcs Hs Hc Hb <- <- Hsrc Hdst Hatt.
  destruct (BuildChunks_manager_ok _ _ _ _ Hcs Hs Hc Hb) as [Hok _].
  pose proof (run_attempts_inv dst src v xxh3 onFileComplete onFileComplete_ok cm attempts cm w ∅
    Hok Hsrc Hatt) as Hinv.
  destruct (run_attempts _ _ _ _ _ _) as [[cm' w'] delivered].
  intros Hall f Hf.
  destruct (BuildChunks_names _ _ _ _ _ f Hcs Hs Hc Hb Hf) as (g & Hg & <-).
  eapply delivered_all; try done. apply Hinv.
  split_and!; [done|done|done|]. set_solver.
Qed.
End transfer.
