(* ===== verification/Completion.v ===== *)
(** When a file is complete: the counters of remaining chunks, which [WriteChunk] brings to
    zero, and the callback it then calls ([-execute-on-each-file-complete]). *)
From S2P Require Import Prelude Bytes GoStrings Types Storage ChunkBuilder ChunkManager ChunkTransfer Delivery.

(** * Counting ranges *)

Lemma range_count_perm i l k : l ≡ₚ k → range_count i l = range_count i k.
Proof. intros H. unfold range_count. by rewrite H. Qed.

Lemma range_count_submseteq i l k : l ⊆+ k → range_count i l ≤ range_count i k.
Proof.
  intros [rest H]%submseteq_Permutation. rewrite (range_count_perm _ _ _ H), range_count_app.
  lia.
Qed.

Lemma range_count_cons i r l :
  range_count i (r :: l) = (if decide (FileIndex r = i) then 1 else 0) + range_count i l.
Proof. unfold range_count. rewrite filter_cons. by case_decide. Qed.

Lemma range_count_snoc i l r :
  range_count i (l ++ [r]) = range_count i l + if decide (FileIndex r = i) then 1 else 0.
Proof. rewrite range_count_app, range_count_cons. cbn. lia. Qed.

Lemma range_count_zero i l : range_count i l = 0 ↔ ∀ r, r ∈ l → FileIndex r ≠ i.
Proof.
  split.
  - intros H r Hr Hi. unfold range_count in H. apply nil_length_inv in H.
    assert (r ∈ filter (λ r, FileIndex r = i) l) as Hx by (by apply list_elem_of_filter).
    rewrite H in Hx. by apply elem_of_nil in Hx.
  - intros H. apply range_count_none, Forall_forall. exact H.
Qed.

(** The ranges of the chunk with an index. *)
Definition ranges_at (l : list Chunk) (j : nat) : list FileRange :=
  default [] (FileRanges <$> l !! j).

Lemma ranges_at_lookup l j c : l !! j = Some c → ranges_at l j = FileRanges c.
Proof. unfold ranges_at. by intros ->. Qed.

Lemma bind_ext_in {A B} (f g : A → list B) l :
  (∀ x, x ∈ l → f x = g x) → l ≫= f = l ≫= g.
Proof.
  induction l as [|x l IH]; intros H; [done|]. rewrite !bind_cons.
  rewrite (H x) by set_solver. by rewrite IH by set_solver.
Qed.

Lemma all_ranges_seq l : all_ranges l = seq 0 (length l) ≫= ranges_at l.
Proof.
  induction l as [|c l IH] using rev_ind; [done|].
  rewrite all_ranges_app, all_ranges_singleton, length_app, Nat.add_1_r, seq_S, bind_app, IH.
  cbn [mbind list_bind Nat.add]. rewrite app_nil_r. f_equal.
  - apply bind_ext_in. intros j Hj%elem_of_seq. unfold ranges_at.
    by rewrite lookup_app_l by lia.
  - symmetry. apply ranges_at_lookup, list_lookup_middle. done.
Qed.

(** Some chunks, without repetition, and the others. *)
Lemma all_ranges_split l idxs :
  NoDup idxs → Forall (λ j, j < length l) idxs →
  ∃ rest, all_ranges l ≡ₚ (idxs ≫= ranges_at l) ++ (rest ≫= ranges_at l) ∧
    ∀ j, j ∈ rest ↔ j < length l ∧ j ∉ idxs.
Proof.
  intros Hnd Hlt. assert (idxs ⊆+ seq 0 (length l)) as (rest & Hp)%submseteq_Permutation.
  { apply NoDup_submseteq; [done|]. intros j Hj. rewrite Forall_forall in Hlt.
    specialize (Hlt j Hj). apply elem_of_seq. simpl in Hlt. lia. }
  exists rest. split.
  - by rewrite all_ranges_seq, Hp, bind_app.
  - assert (NoDup (idxs ++ rest)) as (_ & Hdis & _)%NoDup_app
      by (rewrite <- Hp; apply NoDup_seq).
    intros j. assert (j ∈ seq 0 (length l) ↔ j ∈ idxs ++ rest) as Hj by (by rewrite Hp).
    rewrite elem_of_seq, elem_of_app in Hj. split; [|intros [? ?]; naive_solver lia].
    intros H. split; [naive_solver lia|]. intros H'. by apply (Hdis j).
Qed.

(** All ranges of file [i] are in these chunks. *)
Lemma all_written l idxs i :
  NoDup idxs → Forall (λ j, j < length l) idxs →
  range_count i (idxs ≫= ranges_at l) = range_count i (all_ranges l) ↔
  ∀ j c r, l !! j = Some c → r ∈ FileRanges c → FileIndex r = i → j ∈ idxs.
Proof.
  intros Hnd Hlt. destruct (all_ranges_split _ _ Hnd Hlt) as (rest & Hp & Hrest).
  rewrite (range_count_perm _ _ _ Hp), range_count_app. split.
  - intros Heq j c r Hj Hr Hi. destruct (decide (j ∈ idxs)) as [|Hn]; [done|]. exfalso.
    assert (range_count i (rest ≫= ranges_at l) = 0) as H0 by lia.
    rewrite range_count_zero in H0. apply (H0 r); [|done]. apply list_elem_of_bind.
    exists j. rewrite (ranges_at_lookup _ _ _ Hj). split; [done|]. apply Hrest.
    split; [by eapply lookup_lt_Some|done].
  - intros H. enough (range_count i (rest ≫= ranges_at l) = 0) by lia.
    apply range_count_zero. intros r (j & Hr & Hj)%list_elem_of_bind Hi.
    apply Hrest in Hj as [Hj Hn]. apply lookup_lt_is_Some_2 in Hj as [c Hc].
    rewrite (ranges_at_lookup _ _ _ Hc) in Hr. by eapply Hn, H.
Qed.

(** * The counters, and what has been reported *)

Section completion.
Context {W : Type} (dst : Storage W) `{!StorageSpec dst}.
Context (xxh3 : bytes → Z) (onFileComplete : string → Z → io W unit).
(** The calls of the callback so far. *)
Context (log : W → list (string * Z)).
Hypothesis Write_log : ∀ name off size rd w, log (Write dst name off size rd w).2 = log w.
Hypothesis onFileComplete_log : ∀ p s w,
  (onFileComplete p s w).1 = Ok () ∧ same_view dst w (onFileComplete p s w).2 ∧
  log (onFileComplete p s w).2 = log w ++ [(p, s)].

Definition report (f : FileEntry) : string * Z :=
  (filepath_Join (GetBaseDirectory dst) (FileEntry_Name f), FileEntry_Size f).

(** The files that were reported, in order: those whose [all] ranges are in [written]. *)
Definition reported (all : list FileRange) (files : list FileEntry)
    (written : list FileRange) (calls : list (string * Z)) (complete : list nat) : Prop :=
  NoDup complete ∧ Forall2 (λ i e, report <$> files !! i = Some e) complete calls ∧
  ∀ i, i ∈ complete ↔
    i < length files ∧ 0 < range_count i all ∧ range_count i written = range_count i all.

Definition counters_inv (all : list FileRange) (files : list FileEntry)
    (written : list FileRange) (cm : ChunkManager) (w : W) : Prop :=
  same_files (cm_files cm) files ∧
  (∀ i f, cm_files cm !! i = Some f → FileEntry_remainingChunkCount f
    = (Z.of_nat (range_count i all) - Z.of_nat (range_count i written))%Z) ∧
  ∃ complete, reported all files written (log w) complete.

(** One more range of file [i], not its last or its last. *)
Lemma reported_next all files written calls complete r f :
  reported all files written calls complete → written ++ [r] ⊆+ all →
  files !! FileIndex r = Some f →
  ∃ complete', reported all files (written ++ [r])
    (if decide (range_count (FileIndex r) (written ++ [r]) = range_count (FileIndex r) all)
     then calls ++ [report f] else calls) complete'.
Proof.
  intros (Hnd & Hcalls & Hiff) Hsub Hf.
  pose proof (range_count_submseteq (FileIndex r) _ _ Hsub) as Hle.
  rewrite range_count_snoc, decide_True in Hle by done. pose proof (lookup_lt_Some _ _ _ Hf) as Hlt.
  case_decide as Hlast; rewrite range_count_snoc, decide_True in Hlast by done.
  - exists (complete ++ [FileIndex r]). split_and!.
    + apply NoDup_app. split_and!; [done| |apply NoDup_singleton].
      intros i Hi ->%list_elem_of_singleton. apply Hiff in Hi. lia.
    + apply Forall2_app; [done|]. constructor; [|constructor]. by rewrite Hf.
    + intros i. rewrite elem_of_app, list_elem_of_singleton, Hiff, range_count_snoc. case_decide.
      * subst i. lia.
      * rewrite Nat.add_0_r. naive_solver.
  - exists complete. split_and!; [done..|]. intros i. rewrite Hiff, range_count_snoc. case_decide.
    + subst i. lia.
    + by rewrite Nat.add_0_r.
Qed.

Lemma write_range_counters all files written r rd cm w :
  (Z.of_nat (length all) < 2 ^ 31)%Z → written ++ [r] ⊆+ all →
  counters_inv all files written cm w →
  post (write_range dst onFileComplete r rd) (cm, w) (λ res s,
    match res with Ok _ => counters_inv all files (written ++ [r]) s.1 s.2 | _ => True end).
Proof.
  intros Hall Hsub (Hff & Hcnt & complete & Hrep).
  unfold post, write_range, get_manager, put_manager, lift_storage, io_lift, index_slice.
  unfold mbind, io_mbind, io_bind_def, mret, io_mret, io_ret.
  destruct (cm_files cm !! FileIndex r) as [f|] eqn:Hf; [|done].
  destruct (same_files_lookup _ _ _ _ Hff Hf) as (g & Hg & Hname & Hsize & _).
  assert (report f = report g) as Hreport by (unfold report; by rewrite Hname, Hsize).
  pose proof (Write_log (FileEntry_Name f) (StartOffset r)
    (EndOffset r -i64 StartOffset r)%go rd w) as Hlog.
  destruct (Write dst _ _ _ rd w) as [[[n rd']|e|s] w1]; [|done..]. cbn [snd] in Hlog.
  pose proof (reported_next _ _ _ _ _ _ _ Hrep Hsub Hg) as Hnext.
  pose proof (range_count_submseteq (FileIndex r) _ _ Hsub) as Hle.
  assert (range_count (FileIndex r) all ≤ length all) as Hb by apply length_filter.
  rewrite range_count_snoc, decide_True in Hle by done.
  pose proof (Hcnt _ _ Hf) as Hf_cnt.
  unfold decrement_file, DecrementRemainingChunkCount.
  assert ((FileEntry_remainingChunkCount f +i32 -1)%go
    = (FileEntry_remainingChunkCount f - 1)%Z) as -> by (wrap_simpl; lia).
  set (left := (FileEntry_remainingChunkCount f - 1)%Z).
  set (cm' := set_manifest _ cm).
  assert (same_files (cm_files cm') files ∧ ∀ i g, cm_files cm' !! i = Some g →
    FileEntry_remainingChunkCount g
    = (Z.of_nat (range_count i all) - Z.of_nat (range_count i (written ++ [r])))%Z)
    as (Hff' & Hcnt').
  { unfold cm', cm_files. cbn. split.
    - etrans; [by apply (same_files_insert _ _ f)|done].
    - intros i x Hx. rewrite range_count_snoc. destruct (decide (FileIndex r = i)) as [<-|Hi].
      + rewrite list_lookup_insert_eq in Hx by (by eapply lookup_lt_Some).
        injection Hx as <-. cbn. unfold left. lia.
      + rewrite list_lookup_insert_ne in Hx by done. rewrite (Hcnt _ _ Hx). lia. }
  cbn [fst snd].
  rewrite range_count_snoc, (decide_True (P := FileIndex r = FileIndex r)) in Hnext by done.
  destruct (Z.eqb_spec left 0) as [Hn|Hn].
  - rewrite decide_True in Hnext by (unfold left in *; lia).
    destruct (onFileComplete_log (report f).1 (report f).2 w1) as (Hok & _ & Hcb).
    cbn [report fst snd] in Hok, Hcb. fold (report f) in Hcb.
    destruct (onFileComplete _ _ w1) as [cb w2]. cbn [fst snd] in Hok, Hcb. subst cb.
    cbn [fst snd]. split_and!; [done..|]. by rewrite Hcb, Hlog, Hreport.
  - rewrite decide_False in Hnext by (unfold left in *; lia).
    cbn [fst snd]. split_and!; [done..|]. by rewrite Hlog.
Qed.

Lemma write_ranges_counters all files written l rd n cm w :
  (Z.of_nat (length all) < 2 ^ 31)%Z → written ++ l ⊆+ all →
  counters_inv all files written cm w →
  post (write_ranges dst onFileComplete l rd n) (cm, w) (λ res s,
    match res with Ok _ => counters_inv all files (written ++ l) s.1 s.2 | _ => True end).
Proof.
  intros Hall. revert written rd n cm w. induction l as [|r l IH]; intros written rd n cm w.
  { by rewrite app_nil_r. }
  intros Hsub Hinv. cbn [write_ranges]. apply post_bind. eapply post_mono.
  { eapply (write_range_counters all files written); [done| |done].
    etrans; [|exact Hsub]. apply submseteq_app; [done|]. apply submseteq_skip, submseteq_nil_l. }
  intros [[k rd']| |] [cm' w'] H; [|done..]. cbn [fst snd] in H.
  change (r :: l) with ([r] ++ l) in Hsub |- *. rewrite (assoc_L (++)) in Hsub |- *.
  by apply IH.
Qed.

Lemma WriteChunk_counters all files written i rd expected cm w :
  (Z.of_nat (length all) < 2 ^ 31)%Z → written ++ ranges_at (chunks cm) i ⊆+ all →
  counters_inv all files written cm w →
  post (WriteChunk dst xxh3 onFileComplete i rd expected) (cm, w) (λ res s,
    match res with
    | Ok _ => counters_inv all files (written ++ ranges_at (chunks cm) i) s.1 s.2
    | _ => True
    end).
Proof.
  intros Hall Hsub Hinv. unfold WriteChunk. eapply post_run; [done|].
  destruct (chunks cm !! i) as [c|] eqn:Hc.
  2: { unfold post, io_lift, index_slice. rewrite io_bind_unfold, Hc. done. }
  eapply post_run; [unfold io_lift, index_slice; by rewrite Hc|].
  rewrite (ranges_at_lookup _ _ _ Hc) in *. apply post_bind. eapply post_mono.
  { by eapply write_ranges_counters. }
  intros [[n rd']| |] [cm' w'] H; [|done..]. by case_match.
Qed.

(** * Attempts *)

Context {V : Type} (src : Storage V) `{!StorageSpec src} (v : V).

Abbreviation run := (run_attempts dst xxh3 onFileComplete).

Lemma callback_ok p s w :
  (onFileComplete p s w).1 = Ok () ∧ same_view dst w (onFileComplete p s w).2.
Proof. by destruct (onFileComplete_log p s w) as (? & ? & _). Qed.

Lemma run_attempts_others l s delivered i :
  i ∉ at_chunk <$> l → i ∈ (run l s delivered).2 ↔ i ∈ delivered.
Proof.
  revert s delivered. induction l as [|a l IH]; intros s delivered Hi; [done|].
  rewrite fmap_cons, not_elem_of_cons in Hi. destruct Hi as [Hne Hi]. cbn [run_attempts].
  destruct (WriteChunk _ _ _ _ _ _ s) as [res s']. rewrite (IH s' _ Hi).
  destruct (is_ok res); set_solver.
Qed.

Lemma good_attempt_bound files chunkList a :
  good_attempt src v xxh3 files chunkList a → at_chunk a < length chunkList.
Proof.
  intros (b & Hb & _). unfold source_bytes in Hb.
  destruct (chunkList !! at_chunk a) eqn:Hc; [by eapply lookup_lt_Some|done].
Qed.

(** Successful calls for different chunks: their ranges are written, and no other. *)
Lemma run_attempts_counters cm0 l prior cm w delivered :
  manager_ok cm0 → sized src v (cm_files cm0) →
  (Z.of_nat (length (all_ranges (chunks cm0))) < 2 ^ 31)%Z →
  Forall (good_attempt src v xxh3 (cm_files cm0) (chunks cm0)) l →
  NoDup (prior ++ (at_chunk <$> l)) → Forall (λ j, j < length (chunks cm0)) prior →
  delivered_inv dst src v cm0 cm w delivered →
  counters_inv (all_ranges (chunks cm0)) (cm_files cm0) (prior ≫= ranges_at (chunks cm0)) cm w →
  let '((cm', w'), delivered') := run l (cm, w) delivered in
  (∀ a, a ∈ l → at_chunk a ∈ delivered') →
  counters_inv (all_ranges (chunks cm0)) (cm_files cm0)
    ((prior ++ (at_chunk <$> l)) ≫= ranges_at (chunks cm0)) cm' w'.
Proof.
  intros Hok Hsrc Hall Hl. revert prior cm w delivered.
  induction Hl as [|a l Ha Hl IH]; intros prior cm w delivered Hnd Hprior Hdel Hinv.
  { intros _. by rewrite app_nil_r. }
  rewrite fmap_cons in *. pose proof (good_attempt_bound _ _ _ Ha) as Hlt.
  change (at_chunk a :: (at_chunk <$> l)) with ([at_chunk a] ++ (at_chunk <$> l)) in *.
  rewrite (assoc_L (++)) in Hnd |- *. pose proof Hnd as (Hnd1 & Hnd2 & _)%NoDup_app.
  assert (Forall (λ j, j < length (chunks cm0)) (prior ++ [at_chunk a])) as Hprior'
    by (by apply Forall_app; split; [|repeat constructor]).
  assert ((prior ++ [at_chunk a]) ≫= ranges_at (chunks cm0)
    = (prior ≫= ranges_at (chunks cm0)) ++ ranges_at (chunks cm0) (at_chunk a)) as Hbind
    by (rewrite bind_app; cbn [mbind list_bind]; by rewrite app_nil_r).
  destruct (all_ranges_split _ _ Hnd1 Hprior') as (rest & Hrest & _). rewrite Hbind in Hrest.
  pose proof (delivered_step dst src v xxh3 onFileComplete callback_ok cm0 cm w delivered a
    Hok Hsrc Ha Hdel) as Hstep.
  assert (chunks cm = chunks cm0) as Hch by apply Hdel.
  pose proof (WriteChunk_counters (all_ranges (chunks cm0)) (cm_files cm0) _ (at_chunk a)
    (at_reader a) (at_checksum a) cm w Hall
    ltac:(rewrite Hch, Hrest; by apply submseteq_inserts_r) Hinv) as Hcount.
  rewrite Hch, <- Hbind in Hcount. unfold post in Hstep, Hcount. cbn [run_attempts].
  destruct (WriteChunk _ _ _ _ _ _ (cm, w)) as [res [cm1 w1]]. cbn [fst snd] in Hstep, Hcount.
  specialize (IH (prior ++ [at_chunk a]) cm1 w1 _ Hnd Hprior' Hstep).
  pose proof (run_attempts_others l (cm1, w1) (if is_ok res then {[at_chunk a]} ∪ delivered
    else delivered ∖ {[at_chunk a]}) (at_chunk a)
    ltac:(apply Hnd2, elem_of_app; right; by apply list_elem_of_singleton)) as Hself.
  destruct (run l (cm1, w1) _) as [[cm2 w2] delivered2]. cbn [snd] in Hself. intros Hin.
  destruct res as [n|e|s]; [|set_solver..]. apply IH; [done|]. set_solver.
Qed.

(** The counters as [BuildChunks] leaves them. *)
Lemma counters_inv_start `{SliceSort} cs mf files0 cm w :
  (0 < cs < 2 ^ 63)%Z → sizes_ok cs files0 →
  Forall (λ f, FileEntry_remainingChunkCount f = 0%Z) files0 →
  BuildChunks cs mf files0 = Some (cm_files cm, chunks cm) →
  (Z.of_nat (length (all_ranges (chunks cm))) < 2 ^ 31)%Z → log w = [] →
  counters_inv (all_ranges (chunks cm)) (cm_files cm) [] cm w.
Proof.
  intros Hcs Hs Hc Hb Hall Hlog. split_and!; [done| |].
  - intros i f Hf. rewrite (range_count_none i []), Z.sub_0_r by constructor.
    eapply BuildChunks_counts; [|done..|]; [lia|].
    assert (range_count i (all_ranges (chunks cm)) ≤ length (all_ranges (chunks cm)))
      by apply length_filter. lia.
  - exists []. rewrite Hlog. split_and!; [constructor..|]. intros i.
    rewrite (range_count_none i []) by constructor. split; [by intros ?%elem_of_nil|lia].
Qed.

(** A file with bytes has ranges. *)
Lemma layout_count files l i f :
  layout 0 files l → files !! i = Some f → 0 < range_count i l ↔ (0 < FileEntry_Size f)%Z.
Proof.
  intros Hl Hf. pose proof (layout_file _ _ _ _ _ Hl Hf) as Ht. cbn [Nat.add] in Ht.
  unfold range_count. destruct (filter _ l) as [|r k]; cbn [tiles length] in *; [lia|].
  destruct Ht as (Hs & Hlt & Ht). pose proof (tiles_le _ _ _ Ht). lia.
Qed.

(** C11: each file is reported when it is complete, and once. As long as every call of
    [WriteChunk] succeeds and no chunk is written twice, the files [onFileComplete] was
    called for are, each once, those with at least a byte all of whose chunks are written;
    and a file that was reported is, byte for byte, the source's. (A file without bytes is in
    no chunk and is never reported; after a failed attempt the reports can be wrong, see
    [reported_too_early].) *)
Theorem reported_when_complete `{SliceSort} cs mf files0 files chunkList cm w attempts :
  (0 < cs < 2 ^ 63)%Z → sizes_ok cs files0 →
  Forall (λ f, FileEntry_remainingChunkCount f = 0%Z) files0 →
  BuildChunks cs mf files0 = Some (files, chunkList) →
  (Z.of_nat (length (all_ranges chunkList)) < 2 ^ 31)%Z →
  cm_files cm = files → chunks cm = chunkList →
  sized src v files → prepared dst w files → log w = [] →
  Forall (good_attempt src v xxh3 files chunkList) attempts →
  NoDup (at_chunk <$> attempts) →
  let '((_, w'), delivered) := run attempts (cm, w) ∅ in
  (∀ a, a ∈ attempts → at_chunk a ∈ delivered) →
  ∃ complete, NoDup complete ∧
    Forall2 (λ i e, report <$> files !! i = Some e) complete (log w') ∧
    ∀ i f, files !! i = Some f →
      (i ∈ complete ↔ (0 < FileEntry_Size f)%Z ∧ ∀ j c r, chunkList !! j = Some c →
         r ∈ FileRanges c → FileIndex r = i → j ∈ delivered) ∧
      (i ∈ complete → content dst w' (FileEntry_Name f) = content src v (FileEntry_Name f)).
Proof.
  intros Hcs Hs Hc Hb Hall <- <- Hsrc Hdst Hlog Hatt Hnd.
  assert (Forall (λ f, int32_range (FileEntry_remainingChunkCount f)) files0) as Hc32.
  { eapply Forall_impl; [exact Hc|]. simpl. unfold int32_range. lia. }
  destruct (BuildChunks_manager_ok _ _ _ _ Hcs Hs Hc32 Hb) as [Hok _].
  assert (delivered_inv dst src v cm cm w ∅) as Hdel by (split_and!; [done..|set_solver]).
  pose proof (run_attempts_inv dst src v xxh3 onFileComplete callback_ok cm attempts cm w ∅
    Hok Hsrc Hatt Hdel) as Hfinal.
  pose proof (run_attempts_counters cm attempts [] cm w ∅ Hok Hsrc Hall Hatt Hnd
    ltac:(constructor) Hdel) as Hcount.
  assert (∀ j, j ∈ (run attempts (cm, w) ∅).2 → j ∈ at_chunk <$> attempts) as Honly.
  { intros j Hj. destruct (decide (j ∈ at_chunk <$> attempts)) as [|Hn]; [done|].
    rewrite (run_attempts_others attempts (cm, w) ∅ j Hn) in Hj.
    by apply not_elem_of_empty in Hj. }
  destruct (run attempts (cm, w) ∅) as [[cm' w'] delivered]. cbn [snd] in Honly. intros Hin.
  destruct Hcount as (_ & _ & complete & Hcnd & Hcalls & Hiff); [|done|].
  { by eapply counters_inv_start. }
  assert (∀ j, j ∈ delivered ↔ j ∈ at_chunk <$> attempts) as Hsame.
  { intros j. split; [apply Honly|]. intros (a & -> & Ha)%list_elem_of_fmap. by apply Hin. }
  exists complete. split_and!; [done..|]. intros i f Hf.
  assert (i ∈ complete ↔ (0 < FileEntry_Size f)%Z ∧ ∀ j c r, chunks cm !! j = Some c →
    r ∈ FileRanges c → FileIndex r = i → j ∈ delivered) as Hcomplete.
  { rewrite Hiff, (layout_count _ _ _ _ (proj1 Hok) Hf). cbn [app].
    rewrite all_written; [|done|].
    - setoid_rewrite Hsame. pose proof (lookup_lt_Some _ _ _ Hf). tauto.
    - apply Forall_fmap. eapply Forall_impl; [exact Hatt|]. intros a. apply good_attempt_bound. }
  split; [done|]. intros [_ Hi]%Hcomplete.
  eapply (delivered_file dst src v cm cm' w' delivered i f); done.
Qed.

Lemma range_count_pos l j c k :
  l !! j = Some c → FileRanges c ≠ [] → Forall (λ r, FileIndex r = k) (FileRanges c) →
  0 < range_count k (all_ranges l).
Proof.
  intros Hc Hne Hk. destruct (FileRanges c) as [|r rs] eqn:E; [done|].
  destruct (decide (range_count k (all_ranges l) = 0)) as [H0|]; [exfalso|lia].
  rewrite range_count_zero in H0. apply (H0 r); [|by inversion Hk].
  eapply elem_of_all_ranges; [by eapply list_elem_of_lookup_2|]. rewrite E. apply list_elem_of_here.
Qed.

(** A call whose writes all succeed and whose checksum is wrong fails after it has written. *)
Lemma WriteChunk_mismatch i rd expected c (s1 s2 : ChunkManager * W) n rd' :
  chunks s1.1 !! i = Some c → write_ranges dst onFileComplete (FileRanges c) rd 0 s1 = (Ok (n, rd'), s2) →
  expected ≠ 0%Z → xxh3 (consumed rd rd') ≠ expected →
  WriteChunk dst xxh3 onFileComplete i rd expected s1
  = (Err (fmt_Errorf "checksum mismatch" []), s2).
Proof.
  destruct s1 as [cm1 w1]. set (s1 := (cm1, w1)). intros Hc Hw H0 Hx. unfold WriteChunk.
  erewrite (io_bind_ok _ _ s1); [|reflexivity].
  assert (io_lift (W := ChunkManager * W) (index_slice (chunks s1.1) i) s1 = (Ok c, s1)) as Hl
    by (unfold io_lift, index_slice; by rewrite Hc).
  rewrite (io_bind_ok _ _ _ _ _ Hl), (io_bind_ok _ _ _ _ _ Hw).
  by rewrite (proj2 (Z.eqb_neq _ _) H0), (proj2 (Z.eqb_neq _ _) Hx).
Qed.

(** What a full write of a chunk leaves, when it is not the source's bytes: some range of the
    chunk differs from the source's. *)
Lemma wrong_bytes_differ cm cm1 w1 delivered i c b rd n rd' :
  manager_ok cm → sized src v (cm_files cm) → delivered_inv dst src v cm cm1 w1 delivered →
  chunks cm !! i = Some c → source_bytes src v (cm_files cm) (chunks cm) i = Some b →
  post (write_ranges dst onFileComplete (FileRanges c) rd 0) (cm1, w1) (λ res s2,
    res = Ok (n, rd') → xxh3 (consumed rd rd') ≠ xxh3 b →
    chunk_bytes dst s2.2 (cm_files cm) (FileRanges c)
    ≠ chunk_bytes src v (cm_files cm) (FileRanges c)).
Proof.
  intros Hok Hsrc (Hch & Hff & Hp & _) Hc Hb.
  destruct (manager_chunk _ _ _ Hok Hc) as (Hin & Hd & Hlen).
  eapply post_mono.
  { apply (write_ranges_spec dst onFileComplete callback_ok); [by rewrite Hff| |done|lia|lia].
    eapply Forall_impl; [exact Hin|]. intros r. apply range_in_files. by symmetry. }
  intros res [cm2 w2] [_ Hres] -> Hne. cbn [fst snd] in *.
  destruct Hres as (-> & Hcb & Hdata & Hn). rewrite (consumed_take _ _ _ Hdata Hn) in Hne.
  rewrite Hff in Hcb. rewrite Hcb. unfold source_bytes in Hb. rewrite Hc in Hb. cbn in Hb.
  rewrite Hb. intros [= E]. by rewrite E in Hne.
Qed.

(** Calls from the start, all of which succeed. *)
Lemma run_attempts_start `{SliceSort} cs mf files0 cm w l :
  (0 < cs < 2 ^ 63)%Z → sizes_ok cs files0 →
  Forall (λ f, FileEntry_remainingChunkCount f = 0%Z) files0 →
  BuildChunks cs mf files0 = Some (cm_files cm, chunks cm) →
  (Z.of_nat (length (all_ranges (chunks cm))) < 2 ^ 31)%Z →
  sized src v (cm_files cm) → prepared dst w (cm_files cm) → log w = [] →
  Forall (good_attempt src v xxh3 (cm_files cm) (chunks cm)) l → NoDup (at_chunk <$> l) →
  manager_ok cm ∧
  let '((cm', w'), delivered) := run l (cm, w) ∅ in
  delivered_inv dst src v cm cm' w' delivered ∧
  ((∀ a, a ∈ l → at_chunk a ∈ delivered) →
    counters_inv (all_ranges (chunks cm)) (cm_files cm)
      ((at_chunk <$> l) ≫= ranges_at (chunks cm)) cm' w').
Proof.
  intros Hcs Hs Hc0 Hb Hall Hsrc Hdst Hlog Hatt Hnd.
  assert (Forall (λ f, int32_range (FileEntry_remainingChunkCount f)) files0) as Hc32.
  { eapply Forall_impl; [exact Hc0|]. simpl. unfold int32_range. lia. }
  destruct (BuildChunks_manager_ok _ _ _ _ Hcs Hs Hc32 Hb) as [Hok _]. split; [done|].
  assert (delivered_inv dst src v cm cm w ∅) as Hdel by (split_and!; [done..|set_solver]).
  pose proof (run_attempts_inv dst src v xxh3 onFileComplete callback_ok cm l cm w ∅
    Hok Hsrc Hatt Hdel) as Hinv.
  pose proof (run_attempts_counters cm l [] cm w ∅ Hok Hsrc Hall Hatt Hnd
    ltac:(constructor) Hdel) as Hcount.
  destruct (run l (cm, w) ∅) as [[cm1 w1] delivered]. split; [done|]. intros Hin.
  apply Hcount; [by eapply counters_inv_start|done].
Qed.

End completion.
