(* ===== verification/Http.v ===== *)
(** The HTTP client and the content encodings: src/src/http/option.go, encoder.go and
    client.go. *)
From S2P Require Import Prelude Bytes GoStrings Types.

(** * Headers, requests and responses

    A [http.Header] maps canonical names to lists of values. *)

Abbreviation Header := (gmap string (list string)) (only parsing).

Definition Header_Get (h : Header) (key : string) : string :=
  match h !! key with Some (v :: _) => v | _ => "" end.
Definition Header_Set (h : Header) (key value : string) : Header := <[key := [value]]> h.

Lemma Header_Get_Set h key value : Header_Get (Header_Set h key value) key = value.
Proof. unfold Header_Get, Header_Set. by rewrite lookup_insert_eq. Qed.
Lemma Header_Get_Set_ne h key key' value :
  key ≠ key' → Header_Get (Header_Set h key value) key' = Header_Get h key'.
Proof. intros. unfold Header_Get, Header_Set. by rewrite lookup_insert_ne. Qed.

Record Request := mkRequest
  { rq_Method : string; rq_URL : string; rq_Header : Header; rq_Body : option reader }.

(** [Body] delivers what the server sent, and ends with an error if the connection did. *)
Record Response := mkResponse
  { rs_StatusCode : Z; rs_Status : string; rs_Header : Header; rs_Body : reader }.

(** * option.go *)

Record config := mkConfig {
  cfg_method : string;
  cfg_body : option reader;
  cfg_contentType : string;
  cfg_expectedContentType : string;
  cfg_acceptEncodingType : string;
  cfg_wantDigest : string
}.

(** An [Option] is a function that changes the configuration. *)
Definition Option : Type := config → config.

Definition WithMethod (method : string) : Option := λ c,
  mkConfig method (cfg_body c) (cfg_contentType c) (cfg_expectedContentType c)
    (cfg_acceptEncodingType c) (cfg_wantDigest c).
Definition WithBody (body : reader) : Option := λ c,
  mkConfig (cfg_method c) (Some body) (cfg_contentType c) (cfg_expectedContentType c)
    (cfg_acceptEncodingType c) (cfg_wantDigest c).
Definition WithContentType (contentType : string) : Option := λ c,
  mkConfig (cfg_method c) (cfg_body c) contentType (cfg_expectedContentType c)
    (cfg_acceptEncodingType c) (cfg_wantDigest c).
Definition WithExpectedContentType (expectedContentType : string) : Option := λ c,
  mkConfig (cfg_method c) (cfg_body c) (cfg_contentType c) expectedContentType
    (cfg_acceptEncodingType c) (cfg_wantDigest c).
Definition WithAcceptEncodingType (encodingType : string) : Option := λ c,
  mkConfig (cfg_method c) (cfg_body c) (cfg_contentType c) (cfg_expectedContentType c)
    encodingType (cfg_wantDigest c).
Definition WithWantDigest (wantDigest : string) : Option := λ c,
  mkConfig (cfg_method c) (cfg_body c) (cfg_contentType c) (cfg_expectedContentType c)
    (cfg_acceptEncodingType c) wantDigest.

(** [for _, option := range options { option(&cfg) }] *)
Definition apply_options (options : list Option) (c : config) : config :=
  foldl (λ c option, option c) c options.

(** * encoder.go *)

Definition EncodingTypeNone : string := "none".
Definition EncodingTypeZstd : string := "zstd".

Definition EncodingPriorMap : gmap string Z :=
  {[EncodingTypeNone := 9%Z; EncodingTypeZstd := 1%Z]}.

(** One element of an Accept-Encoding header. *)
Definition prefer (encodingType vv : string) : string :=
  let vv := strings_TrimSpace vv in
  match EncodingPriorMap !! vv with
  | Some priority =>
    if (priority <? default 0 (EncodingPriorMap !! encodingType))%Z then vv else encodingType
  | None => encodingType
  end.

Definition GetPreferredEncodingType (acceptEncodingHeader : list string) : string :=
  foldl (λ encodingType v, foldl prefer encodingType (strings_Split "," v))
    EncodingTypeNone acceptEncodingHeader.

(** The string behind the pointer, after the call. *)
Definition IsAvailableEncoding (encodingType : option string) : bool * option string :=
  match encodingType with
  | None => (false, None)
  | Some e =>
    if decide (e = "") then (true, Some EncodingTypeNone)
    else (bool_decide (is_Some (EncodingPriorMap !! e)), Some e)
  end.

(** github.com/valyala/gozstd: one-shot compression, which may panic, streaming
    compression, and decompression of a stream. *)
Class Gozstd := {
  gozstd_CompressLevel : bytes → result bytes;
  gozstd_Writer : bytes → bytes;
  gozstd_Reader : reader → reader
}.

(** Its documented behaviour: what was compressed decompresses to itself, a stream that
    breaks off to a prefix, and an error of the source is passed on. *)
Class GozstdLaws `{Gozstd} := {
  gozstd_compress data dst :
    gozstd_CompressLevel data = Ok dst → (Z.of_nat (length dst) < 2 ^ 63)%Z ∧
    rd_data (gozstd_Reader (mkReader dst [] None)) = data ∧
    rd_err (gozstd_Reader (mkReader dst [] None)) = None;
  gozstd_stream data frags :
    rd_data (gozstd_Reader (mkReader (gozstd_Writer data) frags None)) = data ∧
    rd_err (gozstd_Reader (mkReader (gozstd_Writer data) frags None)) = None;
  gozstd_cut data k frags e :
    rd_data (gozstd_Reader (mkReader (take k (gozstd_Writer data)) frags (Some e)))
      `prefix_of` data;
  gozstd_error rd : rd_err rd ≠ None → rd_err (gozstd_Reader rd) ≠ None
}.

Section encoder.
Context `{Gozstd}.

Definition NewEncodingReadCloser (rd : reader) (encodingType : string) : reader :=
  if decide (encodingType = EncodingTypeZstd) then gozstd_Reader rd else rd.

(** The encoded bytes and their number; a panic of the library becomes an error. *)
Definition NewBufferEncodingReader (data : bytes) (encodingType : string) :
    result (bytes * Z) :=
  if decide (encodingType = EncodingTypeZstd) then
    match gozstd_CompressLevel data with
    | Ok dst => Ok (dst, Z.of_nat (length dst))
    | Err e => Err e
    | Panic msg => Err (fmt_Errorf "%v" [AStr msg])
    end
  else Ok (data, Z.of_nat (length data)).

(** What reaches the underlying writer when [data] is written and the writer closed. *)
Definition NewEncodingWriteCloser (encodingType : string) (data : bytes) : bytes :=
  if decide (encodingType = EncodingTypeZstd) then gozstd_Writer data else data.
End encoder.

(** * client.go *)

(** [for _, token := range tokens { if TrimSpace(token) == expected }] over all headers. *)
Definition contentType_matches (expected : string) (header : string) : bool :=
  existsb (λ token, String.eqb (strings_TrimSpace token) expected) (strings_Split ";" header).

Definition checkContentType (resp : Response) (expected : string) : result unit :=
  if decide (expected = "") then Ok ()
  else
    let contentTypeHeaders := default [] (rs_Header resp !! "Content-Type") in
    if decide (contentTypeHeaders = []) then Err (errors_New "Content-Type header not found")
    else if existsb (contentType_matches expected) contentTypeHeaders then Ok ()
    else Err (fmt_Errorf "no Content-Type matched (expected:%s, actual:%v)"
           (AStr expected :: (AStr <$> contentTypeHeaders))).

(** The transport under [http.Client.Do]: a request that cannot be built or sent is an
    error. [Body_Close] closes the body of a response. *)
Class HttpTransport (W : Type) := {
  http_Do : Request → io W Response;
  Body_Close : io W unit
}.

(** It keeps count of the bodies that are open. *)
Class HttpTransportLaws (W : Type) `{HttpTransport W} := {
  open_bodies : W → nat;
  http_Do_open rq w :
    post (http_Do rq) w (λ r w',
      match r with
      | Ok _ => open_bodies w' = S (open_bodies w)
      | Err _ => open_bodies w' = open_bodies w
      | Panic _ => False
      end);
  Body_Close_open w :
    post Body_Close w (λ r w', r = Ok () ∧ open_bodies w' = pred (open_bodies w))
}.

Section client.
Context {W : Type} `{HttpTransport W} `{Gozstd}.

Definition default_config : config := mkConfig "GET" None "" "" EncodingTypeNone "".

(** The request that the options describe. *)
Definition build_request (url : string) (cfg : config) : Request :=
  let h : Header := ∅ in
  let h := if decide (cfg_wantDigest cfg ≠ "") then Header_Set h "Want-Digest" (cfg_wantDigest cfg)
           else h in
  let h := if decide (cfg_contentType cfg ≠ "") then Header_Set h "Content-Type" (cfg_contentType cfg)
           else h in
  let h := if decide (cfg_acceptEncodingType cfg = EncodingTypeZstd)
           then Header_Set h "Accept-Encoding" EncodingTypeZstd else h in
  mkRequest (cfg_method cfg) url h (cfg_body cfg).

Definition request (url : string) (options : list Option) : io W (Header * reader) :=
  let cfg := apply_options options default_config in
  response ← http_Do (build_request url cfg);
  if (rs_StatusCode response <? 200)%Z || (300 <=? rs_StatusCode response)%Z then
    _ ← Body_Close;
    io_fail (fmt_Errorf "HTTP response status is not success (%s)" [AStr (rs_Status response)])
  else
    match checkContentType response (cfg_expectedContentType cfg) with
    | Ok _ =>
      let encodingType := strings_TrimSpace (Header_Get (rs_Header response) "Content-Encoding") in
      mret (rs_Header response, NewEncodingReadCloser (rs_Body response) encodingType)
    | Err e => _ ← Body_Close; io_fail e
    | Panic s => io_panic s
    end.

(** [io.ReadAll] *)
Definition io_ReadAll (rd : reader) : result bytes :=
  match rd_err rd with None => Ok (rd_data rd) | Some e => Err e end.

Definition RequestBodyWithContext (url : string) (options : list Option) : io W bytes :=
  '((_, rd) : Header * reader) ← request url options;
  _ ← Body_Close;
  io_lift (io_ReadAll rd).

(** The context's timeout shows as an error of the transport or of the body; that it is
    cancelled after the last use is in HttpClosers.v. *)
Definition HttpClient_Request (url : string) (options : list Option) : io W (Header * reader) :=
  request url options.
Definition RequestBody (url : string) (options : list Option) : io W bytes :=
  RequestBodyWithContext url options.
End client.

(** * Content negotiation *)

(** Some element of the headers, without white space, is zstd. *)
Definition offers_zstd (acceptEncodingHeader : list string) : bool :=
  existsb (λ v, existsb (λ vv, String.eqb (strings_TrimSpace vv) EncodingTypeZstd)
    (strings_Split "," v)) acceptEncodingHeader.

Lemma prefer_spec encodingType vv :
  encodingType = EncodingTypeNone ∨ encodingType = EncodingTypeZstd →
  prefer encodingType vv =
    if String.eqb (strings_TrimSpace vv) EncodingTypeZstd then EncodingTypeZstd else encodingType.
Proof.
  intros He. unfold prefer. set (v := strings_TrimSpace vv).
  destruct (String.eqb_spec v EncodingTypeZstd) as [->|Hz]; [by destruct He as [-> | ->]|].
  destruct (decide (v = EncodingTypeNone)) as [->|Hn]; [by destruct He as [-> | ->]|].
  assert (EncodingPriorMap !! v = None) as ->; [|done]. unfold EncodingPriorMap.
  rewrite lookup_insert_ne by congruence. apply lookup_singleton_ne. congruence.
Qed.

(** A fold that once it has met the preferred encoding stays there. *)
Lemma fold_prefer {A} (step : string → A → string) (wants : A → bool) l encodingType :
  (∀ e x, e = EncodingTypeNone ∨ e = EncodingTypeZstd →
    step e x = if wants x then EncodingTypeZstd else e) →
  encodingType = EncodingTypeNone ∨ encodingType = EncodingTypeZstd →
  foldl step encodingType l = if existsb wants l then EncodingTypeZstd else encodingType.
Proof.
  intros Hstep. revert encodingType. induction l as [|x l IH]; intros e He; simpl; [done|].
  rewrite Hstep by done. rewrite IH by (destruct (wants x); auto).
  by destruct (wants x), (existsb wants l).
Qed.

Lemma GetPreferredEncodingType_zstd acceptEncodingHeader :
  GetPreferredEncodingType acceptEncodingHeader =
    if offers_zstd acceptEncodingHeader then EncodingTypeZstd else EncodingTypeNone.
Proof.
  apply fold_prefer; [|by left]. intros e v He. apply fold_prefer; [|done].
  intros e' vv He'. by apply prefer_spec.
Qed.

(** * The client *)

Section client_facts.
Context {W : Type} `{HttpTransportLaws W} `{Gozstd}.

Lemma checkContentType_no_panic resp expected s : checkContentType resp expected ≠ Panic s.
Proof. unfold checkContentType. by repeat case_decide; [..|destruct (existsb _ _)]. Qed.

Lemma request_spec url options w :
  post (request url options) w (λ r w',
    match r with
    | Ok (header, rd) => open_bodies w' = S (open_bodies w) ∧
        ∃ rq resp w1, http_Do rq w = (Ok resp, w1) ∧
          rq = build_request url (apply_options options default_config) ∧
          header = rs_Header resp ∧ (200 ≤ rs_StatusCode resp < 300)%Z ∧
          checkContentType resp (cfg_expectedContentType (apply_options options default_config))
            = Ok () ∧
          rd = NewEncodingReadCloser (rs_Body resp)
                 (strings_TrimSpace (Header_Get (rs_Header resp) "Content-Encoding"))
    | Err _ => open_bodies w' = open_bodies w
    | Panic _ => False
    end).
Proof.
  unfold request. set (cfg := apply_options _ _). set (rq := build_request _ _).
  pose proof (http_Do_open rq w) as Hdo. unfold post in Hdo |- *. rewrite io_bind_unfold.
  destruct (http_Do rq w) as [[resp|e|s] w1] eqn:E; cbn [fst snd] in *; [|done..].
  pose proof (Body_Close_open w1) as Hcl. unfold post in Hcl. destruct Hcl as [Hcl1 Hcl2].
  destruct ((rs_StatusCode resp <? 200)%Z || (300 <=? rs_StatusCode resp)%Z) eqn:Hst.
  { rewrite io_bind_unfold, Hcl1. simpl. rewrite Hcl2, Hdo. done. }
  apply orb_false_iff in Hst as [Hlo%Z.ltb_ge Hhi%Z.leb_gt].
  destruct (checkContentType _ _) as [[]|e|s] eqn:Hct.
  - simpl. split; [done|]. exists rq, resp, w1. split_and!; done.
  - rewrite io_bind_unfold, Hcl1. simpl. rewrite Hcl2, Hdo. done.
  - by apply checkContentType_no_panic in Hct.
Qed.

Lemma RequestBody_spec url options w :
  post (RequestBody url options) w (λ r w',
    open_bodies w' = open_bodies w ∧ ∀ s, r ≠ Panic s).
Proof.
  unfold RequestBody, RequestBodyWithContext. apply post_bind.
  eapply post_mono; [apply request_spec|]. intros [[header rd]|e|s] w1; [|done|done].
  intros (Ho & _). pose proof (Body_Close_open w1) as Hcl. unfold post in Hcl |- *.
  destruct Hcl as [Hcl1 Hcl2]. rewrite io_bind_unfold, Hcl1. simpl.
  split; [by rewrite Hcl2, Ho|]. unfold io_ReadAll. by destruct (rd_err rd).
Qed.

End client_facts.
