(* ===== verification/HttpClosers.v ===== *)
(** What a request holds until it is closed: the response body, the context with its timer,
    and, when the response is compressed, a decompressor. Http.v has the exchange itself; here
    are the closers of http/encoder.go and http/client.go that are wrapped around its result,
    and who calls them. *)
From S2P Require Import Prelude Bytes GoStrings Http.

(** [context.WithTimeout] with its cancel function, and gozstd's [NewReader] and [Release]. *)
Class RequestResources (W : Type) := {
  context_WithTimeout : io W unit;
  cancel : io W unit;
  gozstd_NewReader : io W unit;
  gozstd_Release : io W unit
}.

(** What is held. *)
Record held := mkHeld { held_bodies : nat; held_contexts : nat; held_readers : nat }.
Definition held_add (h k : held) : held :=
  mkHeld (held_bodies h + held_bodies k) (held_contexts h + held_contexts k)
    (held_readers h + held_readers k).

Lemma held_eq h k :
  held_bodies h = held_bodies k → held_contexts h = held_contexts k →
  held_readers h = held_readers k → h = k.
Proof. destruct h, k. simpl. congruence. Qed.

Lemma held_add_0_r h : held_add h (mkHeld 0 0 0) = h.
Proof. destruct h. unfold held_add. simpl. by rewrite !Nat.add_0_r. Qed.

Lemma held_add_assoc a b c : held_add a (held_add b c) = held_add (held_add a b) c.
Proof. unfold held_add. simpl. by rewrite !Nat.add_assoc. Qed.

(** Each resource is counted on its own; closing a body may report an error, and closes it all
    the same. *)
Class RequestResourcesLaws (W : Type) `{HttpTransport W, RequestResources W} := {
  holds : W → held;
  http_Do_holds rq w :
    post (http_Do rq) w (λ r w', holds w' = held_add (holds w)
      match r with Ok _ => mkHeld 1 0 0 | _ => mkHeld 0 0 0 end ∧ ∀ s, r ≠ Panic s);
  Body_Close_holds w h :
    holds w = held_add h (mkHeld 1 0 0) →
    post Body_Close w (λ r w', holds w' = h ∧ ∀ s, r ≠ Panic s);
  context_WithTimeout_holds w :
    post context_WithTimeout w (λ r w', r = Ok () ∧ holds w' = held_add (holds w) (mkHeld 0 1 0));
  cancel_holds w h :
    holds w = held_add h (mkHeld 0 1 0) → post cancel w (λ r w', r = Ok () ∧ holds w' = h);
  gozstd_NewReader_holds w :
    post gozstd_NewReader w (λ r w', r = Ok () ∧ holds w' = held_add (holds w) (mkHeld 0 0 1));
  gozstd_Release_holds w h :
    holds w = held_add h (mkHeld 0 0 1) → post gozstd_Release w (λ r w', r = Ok () ∧ holds w' = h)
}.

(** * The closers *)

Section closers.
Context {W : Type} `{HttpTransport W, RequestResources W} `{Gozstd}.

(** The interface: what is read, and the method [Close]. *)
Record ReadCloser := mkReadCloser { rc_reader : reader; rc_Close : io W unit }.

(** [resp.Body] *)
Definition response_body (rd : reader) : ReadCloser := mkReadCloser rd Body_Close.

Definition WrapCloser (close : io W unit) : io W unit := close.

(** [gozstd.NewReader] and the [EncodingReadCloser] around it, or the reader itself. *)
Definition EncodingReadCloser (rc : ReadCloser) (encodingType : string) : io W ReadCloser :=
  if decide (encodingType = EncodingTypeZstd) then
    _ ← gozstd_NewReader;
    mret (mkReadCloser (NewEncodingReadCloser (rc_reader rc) encodingType)
      (WrapCloser (_ ← gozstd_Release; rc_Close rc)))
  else mret rc.

Definition NewContextReadCloser (rc : ReadCloser) (cancel : io W unit) : ReadCloser :=
  mkReadCloser (rc_reader rc) (err ← io_try (rc_Close rc); _ ← cancel; io_lift err).

(** ** The client, with what it holds *)

(** [request]; the options that build the request are those of Http.v. *)
Definition request_closer (url : string) (options : list Option) : io W (Header * ReadCloser) :=
  let cfg := apply_options options default_config in
  response ← http_Do (build_request url cfg);
  if (rs_StatusCode response <? 200)%Z || (300 <=? rs_StatusCode response)%Z then
    _ ← io_ignore Body_Close;
    io_fail (fmt_Errorf "HTTP response status is not success (%s)" [AStr (rs_Status response)])
  else
    match checkContentType response (cfg_expectedContentType cfg) with
    | Ok _ =>
      let encodingType := strings_TrimSpace (Header_Get (rs_Header response) "Content-Encoding") in
      rc ← EncodingReadCloser (response_body (rs_Body response)) encodingType;
      mret (rs_Header response, rc)
    | Err e => _ ← io_ignore Body_Close; io_fail e
    | Panic s => io_panic s
    end.

Definition RequestWithContext (url : string) (options : list Option) :
    io W (Header * ReadCloser) :=
  request_closer url options.

(** The deferred [Close] and [cancel] run however the function ends. *)
Definition RequestBodyWithContext_closer (url : string) (options : list Option) : io W bytes :=
  '((_, rc) : Header * ReadCloser) ← request_closer url options;
  _ ← io_ignore (rc_Close rc);
  io_lift (io_ReadAll (rc_reader rc)).

Definition Request_closer (url : string) (options : list Option) : io W (Header * ReadCloser) :=
  _ ← context_WithTimeout;
  r ← io_try (request_closer url options);
  match r with
  | Ok (header, rc) => mret (header, NewContextReadCloser rc cancel)
  | Err e => _ ← cancel; io_fail e
  | Panic s => io_panic s
  end.

Definition RequestBody_closer (url : string) (options : list Option) : io W bytes :=
  _ ← context_WithTimeout;
  r ← io_try (RequestBodyWithContext_closer url options);
  _ ← cancel;
  io_lift r.
End closers.
Arguments ReadCloser : clear implicits.

(** * Facts *)

Ltac held_lia :=
  repeat match goal with h : held |- _ => destruct h end;
  repeat match goal with H : holds _ = _ |- _ => rewrite H end;
  apply held_eq; simpl; lia.

Section facts.
Context {W : Type} `{RequestResourcesLaws W} `{Gozstd}.

(** Closing [rc] releases [h], and nothing else. *)
Definition releases (rc : ReadCloser W) (h : held) : Prop :=
  ∀ w g, holds w = held_add g h →
    post (rc_Close rc) w (λ r w', holds w' = g ∧ ∀ s, r ≠ Panic s).

Lemma response_body_releases rd : releases (response_body rd) (mkHeld 1 0 0).
Proof. intros w g Hw. by apply Body_Close_holds. Qed.

Lemma EncodingReadCloser_releases rc encodingType h w :
  releases rc h →
  post (EncodingReadCloser rc encodingType) w (λ r w', ∃ rc' k, r = Ok rc' ∧ k ≤ 1 ∧
    rc_reader rc' = NewEncodingReadCloser (rc_reader rc) encodingType ∧
    holds w' = held_add (holds w) (mkHeld 0 0 k) ∧ releases rc' (held_add h (mkHeld 0 0 k))).
Proof.
  intros Hrc. unfold EncodingReadCloser. case_decide as E.
  - apply post_bind. eapply post_mono; [apply gozstd_NewReader_holds|]. intros r w1 [-> Hw1].
    apply post_ret. eexists _, 1. split_and!; [done|lia|done|done|].
    intros w2 g Hw2. unfold WrapCloser. simpl. apply post_bind. eapply post_mono.
    { apply (gozstd_Release_holds w2 (held_add g h)). held_lia. }
    intros r w3 [-> Hw3]. by apply Hrc.
  - apply post_ret. exists rc, 0. split_and!; [done|lia| |by rewrite held_add_0_r|by rewrite held_add_0_r].
    unfold NewEncodingReadCloser. by rewrite decide_False.
Qed.

Lemma NewContextReadCloser_releases rc h :
  releases rc h → releases (NewContextReadCloser rc cancel) (held_add h (mkHeld 0 1 0)).
Proof.
  intros Hrc w g Hw. unfold NewContextReadCloser. simpl. unfold post.
  destruct (Hrc w (held_add g (mkHeld 0 1 0))) as [Hcl1 Hcl2]; [held_lia|].
  rewrite io_bind_unfold. unfold io_try. destruct (rc_Close rc w) as [r w1]. cbn [fst snd] in *.
  assert (post (_ ← cancel; io_lift r) w1 (λ r' w', r' = r ∧ holds w' = g)) as Hc.
  { apply post_bind. eapply post_mono; [by apply cancel_holds|]. by intros r' w2 [-> Hw2]. }
  unfold post in Hc. destruct r as [[]|e|s]; cbn [fst snd]; [| |by destruct (Hcl2 s)].
  all: destruct Hc as [-> Hc]; split; done.
Qed.

(** An error branch closes the body it got. *)
Lemma close_and_fail {A} e w g :
  holds w = held_add g (mkHeld 1 0 0) →
  post (_ ← io_ignore Body_Close; io_fail e : io W A) w (λ r w', r = Err e ∧ holds w' = g).
Proof.
  intros Hw. destruct (Body_Close_holds w g Hw) as [Hc1 Hc2]. unfold post, io_ignore.
  rewrite !io_bind_unfold. unfold io_bind_def, io_try, io_ret.
  destruct (Body_Close w) as [[[]|e'|s] w1]; cbn [fst snd] in *; [done..|by destruct (Hc2 s)].
Qed.

Lemma request_closer_spec url options w :
  post (request_closer url options) w (λ r w',
    match r with
    | Ok (header, rc) => ∃ k, k ≤ 1 ∧ holds w' = held_add (holds w) (mkHeld 1 0 k) ∧
        releases rc (mkHeld 1 0 k) ∧
        ∃ resp w1, http_Do (build_request url (apply_options options default_config)) w = (Ok resp, w1) ∧
          header = rs_Header resp ∧ (200 ≤ rs_StatusCode resp < 300)%Z ∧
          checkContentType resp (cfg_expectedContentType (apply_options options default_config)) = Ok () ∧
          rc_reader rc = NewEncodingReadCloser (rs_Body resp)
            (strings_TrimSpace (Header_Get (rs_Header resp) "Content-Encoding"))
    | Err _ => holds w' = holds w
    | Panic _ => False
    end).
Proof.
  unfold request_closer. set (cfg := apply_options _ _). apply post_bind.
  pose proof (http_Do_holds (build_request url cfg) w) as Hdo. unfold post in Hdo |- *.
  destruct (http_Do _ w) as [[resp|e|s] w1] eqn:E; cbn [fst snd] in *; destruct Hdo as [Hw1 Hp].
  2: by rewrite Hw1, held_add_0_r.
  2: by destruct (Hp s).
  destruct ((rs_StatusCode resp <? 200)%Z || (300 <=? rs_StatusCode resp)%Z) eqn:Hst.
  { eapply post_mono; [by apply close_and_fail|]. by intros r w2 [-> Hw2]. }
  apply orb_false_iff in Hst as [Hlo%Z.ltb_ge Hhi%Z.leb_gt].
  destruct (checkContentType _ _) as [[]|e|s] eqn:Hct.
  - apply post_bind. eapply post_mono; [apply EncodingReadCloser_releases, response_body_releases|].
    intros r w2 (rc' & k & -> & Hk & Hrd & Hw2 & Hrel). apply post_ret. exists k.
    split_and!; [done|rewrite Hw2, Hw1, <- held_add_assoc; done|done|].
    exists resp, w1. split_and!; done.
  - eapply post_mono; [by apply close_and_fail|]. by intros r w2 [-> Hw2].
  - by apply checkContentType_no_panic in Hct.
Qed.

Lemma RequestBodyWithContext_releases url options w :
  post (RequestBodyWithContext_closer url options) w (λ r w', holds w' = holds w ∧ ∀ s, r ≠ Panic s).
Proof.
  unfold RequestBodyWithContext_closer. apply post_bind.
  eapply post_mono; [apply request_closer_spec|]. intros [[header rc]|e|s] w1; [|done|done].
  intros (k & _ & Hw1 & Hrel & _). destruct (Hrel w1 _ Hw1) as [Hc1 Hc2].
  unfold post, io_ignore. rewrite !io_bind_unfold. unfold io_bind_def, io_try, io_ret, io_ReadAll.
  destruct (rc_Close rc w1) as [[[]|e|s] w2]; cbn [fst snd] in *; [| |by destruct (Hc2 s)];
    (split; [done|]; by destruct (rd_err (rc_reader rc))).
Qed.

(** C26: the client leaks nothing and accepts no bad response. A request that fails, in the
    transport, by its status or by its content type, holds nothing any more. One that succeeds
    has a 2xx status and the expected content type, and holds one body, one context and, if the
    response is compressed, one decompressor; closing what it returned, at any later time,
    releases exactly these, even when closing the body reports an error. A request for a whole
    body holds nothing when it returns. *)
Theorem Request_releases url options w :
  post (Request_closer url options) w (λ r w',
    match r with
    | Ok (header, rc) => ∃ k, k ≤ 1 ∧ holds w' = held_add (holds w) (mkHeld 1 1 k) ∧
        (∀ w1 g, holds w1 = held_add g (mkHeld 1 1 k) →
          post (rc_Close rc) w1 (λ r w2, holds w2 = g ∧ ∀ s, r ≠ Panic s)) ∧
        ∃ w1 resp w2, http_Do (build_request url (apply_options options default_config)) w1
            = (Ok resp, w2) ∧ header = rs_Header resp ∧
          (200 ≤ rs_StatusCode resp < 300)%Z ∧
          checkContentType resp (cfg_expectedContentType (apply_options options default_config))
            = Ok ()
    | Err _ => holds w' = holds w
    | Panic _ => False
    end) ∧
  post (RequestBody_closer url options) w (λ r w', holds w' = holds w ∧ ∀ s, r ≠ Panic s).
Proof.
  split.
  - unfold Request_closer. apply post_bind. eapply post_mono; [apply context_WithTimeout_holds|].
    intros r w1 [-> Hw1]. pose proof (request_closer_spec url options w1) as Hr.
    unfold post in Hr |- *. rewrite io_bind_unfold. unfold io_try.
    destruct (request_closer url options w1) as [[[header rc]|e|s] w2]; cbn [fst snd] in *; [| |done].
    + destruct Hr as (k & Hk & Hw2 & Hrel & resp & w3 & Hdo & Hh & Hst & Hct & _).
      exists k. unfold mret, io_mret, io_ret. cbn [fst snd].
      split_and!; [done|held_lia| |by exists w1, resp, w3].
      intros w4 g Hw4. apply (NewContextReadCloser_releases _ _ Hrel). held_lia.
    + pose proof (cancel_holds w2 (holds w) (eq_trans Hr Hw1)) as Hc. unfold post in Hc.
      rewrite io_bind_unfold. destruct (cancel w2) as [c w3]. cbn [fst snd] in *.
      by destruct Hc as [-> Hc].
  - unfold RequestBody_closer. apply post_bind. eapply post_mono; [apply context_WithTimeout_holds|].
    intros r w1 [-> Hw1]. pose proof (RequestBodyWithContext_releases url options w1) as Hr.
    unfold post in Hr |- *. rewrite io_bind_unfold. unfold io_try.
    destruct (RequestBodyWithContext_closer url options w1) as [r w2]. cbn [fst snd] in *.
    destruct Hr as [Hw2 Hp]. pose proof (cancel_holds w2 (holds w) (eq_trans Hw2 Hw1)) as Hc.
    unfold post in Hc. destruct r as [b|e|s]; cbn [fst snd]; [| |by destruct (Hp s)];
      rewrite io_bind_unfold; destruct (cancel w2) as [c w3]; cbn [fst snd] in *;
      by destruct Hc as [-> Hc].
Qed.
End facts.
