(* ===== verification/HttpServer.v ===== *)
(** The HTTP server of src/src/http_server.go: the handlers, as functions on the server's
    state and a response writer. *)
From S2P Require Import Prelude Bytes GoStrings Types Storage ChunkBuilder ChunkManager ChunkTransfer Statistics Availability Http.

Definition StatusOK : Z := 200.
Definition StatusBadRequest : Z := 400.
Definition StatusForbidden : Z := 403.
Definition StatusNotFound : Z := 404.
Definition StatusInternalServerError : Z := 500.

(** * http.ResponseWriter

    Headers set before the status line is sent go out with it; the first write sends a 200.
    [rw_written] counts the bytes the handler tried to write, [rw_body] are those that were
    sent, and [rw_room] is how many more the connection takes before it fails. *)
Record ResponseWriter := mkResponseWriter {
  rw_Header : gmap string (list string);
  rw_sent : option (Z * gmap string (list string));
  rw_written : Z;
  rw_body : bytes;
  rw_room : option nat
}.

Definition new_writer (room : option nat) : ResponseWriter := mkResponseWriter ∅ None 0 [] room.

Definition rw_Set (key value : string) (w : ResponseWriter) : ResponseWriter :=
  mkResponseWriter (Header_Set (rw_Header w) key value) (rw_sent w) (rw_written w) (rw_body w)
    (rw_room w).

Definition WriteHeader (status : Z) (w : ResponseWriter) : ResponseWriter :=
  match rw_sent w with
  | Some _ => w
  | None => mkResponseWriter (rw_Header w) (Some (status, rw_Header w)) (rw_written w) (rw_body w)
              (rw_room w)
  end.

(** The declared length: a decimal, non-negative Content-Length that was sent. *)
Definition rw_contentLength (w : ResponseWriter) : option Z :=
  '(_, header) ← rw_sent w;
  match Atoi (Header_Get header "Content-Length") with
  | Ok n => if (0 <=? n)%Z then Some n else None
  | _ => None
  end.

Definition write_error : error := errors_New "write: broken pipe".
Definition ErrContentLength : error :=
  errors_New "http: wrote more than the declared Content-Length".

(** [w.Write(data)]: the number of bytes taken, and an error if that is not all. A write that
    exceeds the declared length is refused. *)
Definition rw_Write (data : bytes) (w : ResponseWriter) : (nat * option error) * ResponseWriter :=
  let w := WriteHeader StatusOK w in
  if decide (data = []) then ((0, None), w)
  else
    let written := (rw_written w + Z.of_nat (length data))%Z in
    if match rw_contentLength w with Some n => (n <? written)%Z | None => false end then
      ((0, Some ErrContentLength),
       mkResponseWriter (rw_Header w) (rw_sent w) written (rw_body w) (rw_room w))
    else
      match rw_room w with
      | None =>
        ((length data, None),
         mkResponseWriter (rw_Header w) (rw_sent w) written (rw_body w ++ data) None)
      | Some room =>
        ((min (length data) room, if decide (length data ≤ room) then None else Some write_error),
         mkResponseWriter (rw_Header w) (rw_sent w) written (rw_body w ++ take room data)
           (Some (room - length data)))
      end.

Definition ErrUnexpectedEOF : error := errors_New "unexpected EOF".

(** What the client sees when the handler has returned: the body breaks off when fewer bytes
    arrived than were declared, or, with nothing declared, than were written. *)
Definition rw_response (w : ResponseWriter) : Response :=
  let w := WriteHeader StatusOK w in
  let '(status, header) := default (StatusOK, ∅) (rw_sent w) in
  mkResponse status (FormatUint status) header
    (mkReader (rw_body w) []
      (if decide (Z.of_nat (length (rw_body w)) = default (rw_written w) (rw_contentLength w))
       then None else Some ErrUnexpectedEOF)).

(** * Requests

    [hr_onlyUpdatedSince] are the values of the query parameter [only_updated_since]. *)
Record HttpRequest := mkHttpRequest {
  hr_Path : string;
  hr_Header : gmap string (list string);
  hr_onlyUpdatedSince : list string
}.

(** * Encodings of the standard library

    [time.Format] and [time.Parse] with [time.RFC3339Nano], and package encoding/json on
    an available list. *)
Class ListCodec := {
  time_Format : Time → string;
  time_Parse : string → result Time;
  json_Marshal : AvailableList → result bytes;
  json_Unmarshal : bytes → result AvailableList
}.

(** Years 1 to 9999, which RFC 3339 can write. *)
Definition time_valid (t : Time) : Prop := (0 ≤ t < 315537897600 * Second)%Z.

(** Their documented behaviour: both are round trips on valid times. *)
Class ListCodecLaws `{ListCodec} := {
  time_roundtrip t : time_valid t → time_Format t ≠ "" ∧ time_Parse (time_Format t) = Ok t;
  json_roundtrip al b : time_valid (Timestamp al) → json_Marshal al = Ok b →
    (Z.of_nat (length b) < 2 ^ 63)%Z ∧ json_Unmarshal b = Ok al;
  json_no_panic b msg : json_Unmarshal b ≠ Panic msg;
  json_Marshal_no_panic al msg : json_Marshal al ≠ Panic msg
}.

(** * State

    The parts of [MainContext] that the handlers use; [sv_world] is the world of the
    storage that is served. *)
Record server (W : Type) := mkServer {
  sv_ChunkManager : ChunkManager;
  sv_world : W;
  sv_Statistics : Statistics;
  sv_Completed : bool;
  sv_UUID : string;
  sv_LastSentAt : Time
}.
Arguments mkServer {W}.
Arguments sv_ChunkManager {W}.
Arguments sv_world {W}.
Arguments sv_Statistics {W}.
Arguments sv_Completed {W}.
Arguments sv_UUID {W}.
Arguments sv_LastSentAt {W}.

(** [mainContext.Statistics.AddBytesTransmittedTotal(n)] *)
Definition sv_add {W} (n : Z) (s : server W) : server W :=
  mkServer (sv_ChunkManager s) (sv_world s) (AddBytesTransmittedTotal n (sv_Statistics s))
    (sv_Completed s) (sv_UUID s) (sv_LastSentAt s).

Section handlers.
Context {W : Type} `{Gozstd} (storage : Storage W) (xxh3 : bytes → Z).
Context (Do : string → io (ChunkManager * W) Z → io (ChunkManager * W) Z).
Context `{ListCodec}.
Context (version : Version).
(** [mainContext.ServeOnly] *)
Context (ServeOnly : bool).

(** A handler changes the server and the response writer. *)
Definition handler : Type := server W → ResponseWriter → server W * ResponseWriter.

Definition textResponse (content : string) (status : Z) : handler := λ s w,
  let w := rw_Set "Content-Type" "text/plain; charset=utf-8" w in
  let w := rw_Set "Content-Length" (FormatUint (Z.of_nat (String.length content))) w in
  let w := WriteHeader status w in
  let '((written, err), w) := rw_Write (string_bytes content) w in
  (sv_add (Z.of_nat written) s, w).

(** [err.Error()] *)
Context (error_String : error → string).
Definition errorResponse (status : Z) (err : error) : handler :=
  textResponse (error_String err) status.

Definition setEncodingType (r : HttpRequest) (w : ResponseWriter) : string * ResponseWriter :=
  let encodingType := GetPreferredEncodingType (default [] (hr_Header r !! "Accept-Encoding")) in
  (encodingType,
   if decide (encodingType ≠ EncodingTypeNone) then rw_Set "Content-Encoding" encodingType w else w).

Definition getWantDigest (r : HttpRequest) : bool :=
  match default [] (hr_Header r !! "Want-Digest") with
  | [] => false
  | v :: _ => String.eqb (strings_TrimSpace v) DefaultDigest
  end.

Definition setDigest (checksum : Z) (w : ResponseWriter) : ResponseWriter :=
  rw_Set "Digest" (DefaultDigest +:+ String "=" (FormatUint checksum)) w.

Definition getOnlyUpdatedSince (r : HttpRequest) : result Time :=
  match hr_onlyUpdatedSince r with
  | v :: _ => if decide (v ≠ "") then time_Parse v else Ok time_zero
  | [] => Ok time_zero
  end.

(** [io.Copy(w, reader)] of bytes that are all there: [bytes.Buffer] writes them at once,
    and nothing when there are none. *)
Definition copy_buffer (data : bytes) (w : ResponseWriter) : (nat * option error) * ResponseWriter :=
  if decide (data = []) then ((0, None), w) else rw_Write data w.

(** The common part of the two JSON responses. *)
Definition jsonResponse (r : HttpRequest) (jsonData : bytes) : handler := λ s w,
  let '(encodingType, w) := setEncodingType r w in
  match NewBufferEncodingReader jsonData encodingType with
  | Ok (data, length) =>
    let w := rw_Set "Content-Type" "application/json; charset=utf-8" w in
    let w := rw_Set "Content-Length" (FormatInt length) w in
    let '((written, err), w) := copy_buffer data w in
    let s := sv_add (Z.of_nat written) s in
    match err with
    | Some err => errorResponse StatusInternalServerError err s w
    | None => (s, w)
    end
  | Err err => errorResponse StatusInternalServerError err s w
  | Panic _ => (s, w)
  end.

Definition availableListResponse (r : HttpRequest) (availableList : AvailableList) : handler :=
  match json_Marshal availableList with
  | Ok jsonData => jsonResponse r jsonData
  | Err err => errorResponse StatusInternalServerError err
  | Panic _ => λ s w, (s, w)
  end.

(** ** The handlers *)

Definition handle_completed : handler := λ s,
  if negb (sv_Completed s) then textResponse "Downloading" StatusNotFound s
  else textResponse "OK" StatusOK s.

Definition handle_uuid : handler := λ s, textResponse (sv_UUID s) StatusOK s.

Definition handle_version : handler := textResponse (GetVersion version) StatusOK.

Definition handle_manifest (r : HttpRequest) : handler := λ s,
  jsonResponse r (GetManifestJson (sv_ChunkManager s)) s.

Definition handle_manifest_checksum : handler := λ s,
  textResponse (FormatUint (GetManifestChecksum (sv_ChunkManager s))) StatusOK s.

(** [now] is the clock when the list is created. *)
Definition handle_chunk_list (now : Time) (r : HttpRequest) : handler := λ s w,
  let availableList := NewAvailableList now in
  if sv_Completed s then
    availableListResponse r (mkAvailableList (Timestamp availableList) true
      (TransferChunkIndexList availableList)) s w
  else
    match getOnlyUpdatedSince r with
    | Ok onlyUpdatedSince =>
      availableListResponse r (mkAvailableList (Timestamp availableList) (IsCompleted availableList)
        (Z.of_nat <$> GetStatusDoneChunks onlyUpdatedSince (sv_ChunkManager s))) s w
    | Err err => errorResponse StatusBadRequest err s w
    | Panic _ => (s, w)
    end.

Definition servePointFile : string := "/chunk/".

(** The closure [GetChunkStatus]. *)
Definition serve_GetChunkStatus (s : server W) (chunkIndex : nat) : result ChunkStatus :=
  if ServeOnly then Ok ChunkStatusDone
  else if sv_Completed s then Ok ChunkStatusDone
  else GetChunkStatus chunkIndex (sv_ChunkManager s).

(** [io.Copy(writer, readCloser)] and the deferred [writer.Close()]: what was read goes
    through the encoder to the client. The number of bytes is counted before encoding; that
    a client which hangs up also ends the reading is not modelled, since reading changes no
    file. *)
Definition send_chunk (chunkIndex : nat) (encodingType : string) : handler := λ s w,
  let fuel := match chunks (sv_ChunkManager s) !! chunkIndex with
              | Some c => copy_fuel c | None => 1 end in
  let '(res, world) := io_Copy_chunk storage (sv_ChunkManager s) fuel (GetChunkReader chunkIndex) []
                         (sv_world s) in
  let s := mkServer (sv_ChunkManager s) world (sv_Statistics s) (sv_Completed s) (sv_UUID s)
             (sv_LastSentAt s) in
  match res with
  | Ok (Some (data, err)) =>
    let '((written, werr), w) := copy_buffer (NewEncodingWriteCloser encodingType data) w in
    (sv_add (Z.of_nat (if decide (encodingType = EncodingTypeNone) then written
                       else length data)) s, w)
  | _ => (s, w)
  end.

Definition handle_chunk (r : HttpRequest) : handler := λ s w,
  let path := strings_TrimPrefix (hr_Path r) servePointFile in
  match Atoi path with
  | Err _ | Panic _ =>
    errorResponse StatusForbidden (errors_New "chunk index is not an integer") s w
  | Ok chunkIndex =>
    if (chunkIndex <? 0)%Z || (Z.of_nat (GetChunkCount (sv_ChunkManager s)) <=? chunkIndex)%Z then
      errorResponse StatusForbidden (errors_New "chunk index out of range") s w
    else
      let chunkIndex := Z.to_nat chunkIndex in
      match serve_GetChunkStatus s chunkIndex with
      | Ok ChunkStatusDone =>
        let '(encodingType, w) := setEncodingType r w in
        let w := rw_Set "Content-Type" "application/octet-stream" w in
        let w := if decide (encodingType = EncodingTypeNone) then
                   match GetChunkSize chunkIndex (sv_ChunkManager s) with
                   | Ok length => rw_Set "Content-Length" (FormatInt length) w
                   | _ => w
                   end
                 else w in
        if getWantDigest r then
          let '(res, (cm, world)) := ComputeChunkChecksum storage xxh3 Do chunkIndex
                                       (sv_ChunkManager s, sv_world s) in
          let s := mkServer cm world (sv_Statistics s) (sv_Completed s) (sv_UUID s)
                     (sv_LastSentAt s) in
          match res with
          | Ok checksum => send_chunk chunkIndex encodingType s (setDigest checksum w)
          | Err err =>
            let '(s, w) := errorResponse StatusInternalServerError err s w in
            (s, (copy_buffer (NewEncodingWriteCloser encodingType []) w).2)
          | Panic _ => (s, w)
          end
        else send_chunk chunkIndex encodingType s w
      | _ => errorResponse StatusForbidden (errors_New "chunk not ready") s w
      end
  end.

(** The mux: the longest pattern wins, and [muxWrapping] notes the time afterwards. *)
Definition serve (now finished : Time) (r : HttpRequest) : handler := λ s w,
  let path := hr_Path r in
  let touch '(s, w) := (mkServer (sv_ChunkManager s) (sv_world s) (sv_Statistics s)
                          (sv_Completed s) (sv_UUID s) finished, w) in
  if String.eqb path "/completed" then touch (handle_completed s w)
  else if String.eqb path "/uuid" then touch (handle_uuid s w)
  else if String.eqb path "/version" then touch (handle_version s w)
  else if String.eqb path "/manifest" then touch (handle_manifest r s w)
  else if String.eqb path "/manifest/checksum" then touch (handle_manifest_checksum s w)
  else if String.eqb path "/chunk" then touch (handle_chunk_list now r s w)
  else if strings_HasPrefix servePointFile path then touch (handle_chunk r s w)
  else (s, WriteHeader StatusNotFound w).
End handlers.

(** ** The client's side of the digest *)

Definition ParseDigest (header : gmap string (list string)) : result Z :=
  let array := strings_Split "=" (Header_Get header "Digest") in
  match array with
  | [algorithm; value] =>
    if decide (algorithm ≠ "xxh3") then
      Err (fmt_Errorf "unsupported digest (%v)" (AStr <$> array))
    else
      match ParseUint value with
      | Ok checksum => Ok checksum
      | _ => Err (fmt_Errorf "failed to parse digest (%s)" [AStr value])
      end
  | _ => Err (fmt_Errorf "failed to get digest (%v)" (AStr <$> array))
  end.
