(* ===== verification/HttpServing.v ===== *)
(** What the HTTP server of HttpServer.v serves: every branch of the chunk handler, and the
    round trips between what the handlers send and what the clients parse. *)
From S2P Require Import Prelude Bytes GoStrings Types Storage ChunkBuilder ChunkManager ChunkTransfer Statistics Availability Http HttpServer.

(** * The response writer *)

(** Nothing was sent yet. *)
Definition fresh (w : ResponseWriter) : Prop :=
  rw_sent w = None ∧ rw_written w = 0%Z ∧ rw_body w = [].

Lemma new_writer_fresh room : fresh (new_writer room).
Proof. done. Qed.
Lemma rw_Set_fresh key value w : fresh w → fresh (rw_Set key value w).
Proof. done. Qed.
#[export] Hint Resolve new_writer_fresh rw_Set_fresh : go.

(** The bytes that fit into a connection. *)
Definition take_room {A} (room : option nat) (data : list A) : list A :=
  match room with None => data | Some n => take n data end.

Lemma take_room_prefix {A} room (data : list A) : take_room room data `prefix_of` data.
Proof. destruct room; [|done]. apply prefix_take. Qed.

(** The length a fresh writer declares. *)
Definition declared (w : ResponseWriter) : option Z :=
  match Atoi (Header_Get (rw_Header w) "Content-Length") with
  | Ok n => if (0 <=? n)%Z then Some n else None
  | _ => None
  end.

Lemma contentLength_WriteHeader status w :
  fresh w → rw_contentLength (WriteHeader status w) = declared w.
Proof. intros (Hs & _ & _). unfold WriteHeader, rw_contentLength. by rewrite Hs. Qed.

(** One write of a body that is not longer than declared, after any status line. *)
Lemma rw_Write_fresh status data w n err w' :
  fresh w → match declared w with Some n => (Z.of_nat (length data) ≤ n)%Z | None => True end →
  rw_Write data (WriteHeader status w) = ((n, err), w') →
  rw_response w' = mkResponse status (FormatUint status) (rw_Header w)
    (mkReader (take_room (rw_room w) data) []
      (if decide (Z.of_nat (length (take_room (rw_room w) data))
          = default (Z.of_nat (length data)) (declared w)) then None else Some ErrUnexpectedEOF)).
Proof.
  intros Hf Hlen. pose proof (contentLength_WriteHeader status _ Hf) as Hcl.
  destruct Hf as (Hs & Hw & Hb). unfold rw_Write. set (w1 := WriteHeader status w) in *.
  assert (WriteHeader StatusOK w1 = w1) as ->.
  { unfold w1, WriteHeader. by rewrite Hs. }
  assert (w1 = mkResponseWriter (rw_Header w) (Some (status, rw_Header w)) 0 [] (rw_room w)) as E.
  { unfold w1, WriteHeader. by rewrite Hs, Hw, Hb. }
  case_decide as Hd.
  { intros [= _ _ <-]. unfold rw_response. rewrite E. cbn. rewrite <- Hcl, Hd. rewrite E.
    unfold take_room. destruct (rw_room w); by rewrite ?take_nil. }
  rewrite Hcl. assert (rw_written w1 = 0%Z) as -> by (by rewrite E).
  assert (match declared w with
    | Some n0 => (n0 <? 0 + Z.of_nat (length data))%Z | None => false end = false) as ->.
  { destruct (declared w); [|done]. apply Z.ltb_ge. lia. }
  rewrite E. cbn. unfold take_room.
  destruct (rw_room w) as [room|]; intros [= _ _ <-]; unfold rw_response; cbn;
    by rewrite <- Hcl, E.
Qed.

Lemma WriteHeader_idem status status' w :
  WriteHeader status (WriteHeader status' w) = WriteHeader status' w.
Proof. unfold WriteHeader. destruct (rw_sent w) eqn:E; simpl; by rewrite ?E. Qed.

Lemma rw_response_WriteHeader w : rw_response (WriteHeader StatusOK w) = rw_response w.
Proof. unfold rw_response. by rewrite WriteHeader_idem. Qed.

Lemma copy_buffer_fresh data w n err w' :
  fresh w → match declared w with Some n => (Z.of_nat (length data) ≤ n)%Z | None => True end →
  copy_buffer data w = ((n, err), w') →
  rw_response w' = mkResponse StatusOK (FormatUint StatusOK) (rw_Header w)
    (mkReader (take_room (rw_room w) data) []
      (if decide (Z.of_nat (length (take_room (rw_room w) data))
          = default (Z.of_nat (length data)) (declared w)) then None else Some ErrUnexpectedEOF)).
Proof.
  intros Hf Hlen. unfold copy_buffer. case_decide as Hd.
  - intros [= _ _ <-]. rewrite <- rw_response_WriteHeader.
    eapply (rw_Write_fresh StatusOK); [done..|]. unfold rw_Write. rewrite Hd.
    by rewrite decide_True, WriteHeader_idem by done.
  - intros Hw. eapply rw_Write_fresh; [done..|].
    revert Hw. unfold rw_Write. by rewrite WriteHeader_idem.
Qed.

(** * The chunk handler *)

Section chunk_length.
Context {W : Type} (st : Storage W) `{!StorageSpec st}.

(** A file that is too short makes a chunk short, never longer. *)
Lemma chunk_bytes_le w files l b :
  Forall (range_ok files) l → chunk_bytes st w files l = Some b →
  (Z.of_nat (length b) ≤ ranges_len l)%Z.
Proof.
  intros Hl. revert b. induction Hl as [|r l (_ & Ho & _) Hl IH]; intros b; cbn [chunk_bytes].
  { intros [= <-]. done. }
  unfold range_bytes at 1. destruct (files !! FileIndex r); [|done]. simpl.
  destruct (content st w _); [|done]. simpl.
  destruct (chunk_bytes st w files l) as [b'|]; [|done]. intros [= <-].
  specialize (IH b' eq_refl). rewrite ranges_len_cons, length_app.
  unfold read_at. rewrite length_take. unfold range_len in *. lia.
Qed.
End chunk_length.

Section serving.
Context {W : Type} `{GozstdLaws} (st : Storage W) `{!StorageSpec st} (xxh3 : bytes → Z).
Context (Do : string → io (ChunkManager * W) Z → io (ChunkManager * W) Z).
Hypothesis Do_alone : ∀ key m s, Do key m s = m s.
Hypothesis xxh3_range : ∀ b, uint64_range (xxh3 b).
Context (ServeOnly : bool) (error_String : error → string).

Abbreviation sv_files s := (cm_files (sv_ChunkManager s)).

(** The client's view of a response: the decoded body. *)
Definition rs_decoded (resp : Response) : reader :=
  NewEncodingReadCloser (rs_Body resp)
    (strings_TrimSpace (Header_Get (rs_Header resp) "Content-Encoding")).

(** What was read of the chunk goes out, encoded, with the headers set before. *)
Lemma send_chunk_spec i c b encodingType s w :
  fresh w → declared w = (if decide (encodingType = EncodingTypeNone)
                          then Some (ranges_len (FileRanges c)) else None) →
  chunks (sv_ChunkManager s) !! i = Some c →
  Forall (range_ok (sv_files s)) (FileRanges c) →
  chunk_bytes st (sv_world s) (sv_files s) (FileRanges c) = Some b →
  let '(s', w') := send_chunk st i encodingType s w in
  same_view st (sv_world s) (sv_world s') ∧ sv_ChunkManager s' = sv_ChunkManager s ∧
  ∃ data, data `prefix_of` b ∧
    let sent := NewEncodingWriteCloser encodingType data in
    rw_response w' = mkResponse StatusOK (FormatUint StatusOK) (rw_Header w)
      (mkReader (take_room (rw_room w) sent) []
        (if decide (Z.of_nat (length (take_room (rw_room w) sent))
            = default (Z.of_nat (length sent)) (declared w))
         then None else Some ErrUnexpectedEOF)).
Proof.
  intros Hf Hdecl Hc Hok Hb. unfold send_chunk. rewrite Hc. cbv zeta.
  pose proof (io_Copy_chunk_spec st (sv_ChunkManager s) (copy_fuel c) i c 0 None []
    (sv_world s) Hc Hok ltac:(done) ltac:(done)) as Hcopy.
  pose proof (io_Copy_chunk_prefix st (sv_ChunkManager s) (copy_fuel c) i c 0 None []
    (sv_world s) b Hc Hok Hb) as Hpre. unfold post in Hcopy.
  change (GetChunkReader i) with (mkChunkReadCloser i 0 None).
  destruct (io_Copy_chunk st _ _ _ [] (sv_world s)) as [res w1]. cbn [fst snd] in *.
  destruct Hcopy as [Hv Hres]. destruct res as [[[data err]|]|?|?]; [|done..].
  cbn [copy_prefix] in Hpre.
  destruct (copy_buffer _ w) as [[written werr] w'] eqn:Hw. split_and!; [done..|].
  exists data. split; [done|]. eapply copy_buffer_fresh; [done| |exact Hw]. rewrite Hdecl.
  case_decide as He; [subst encodingType|done]. change (NewEncodingWriteCloser _ _) with data.
  apply prefix_length in Hpre. pose proof (chunk_bytes_le st _ _ _ _ Hok Hb). simpl in Hpre. lia.
Qed.

(** The client decodes with the encoding that the header says. *)
Lemma encoding_header encodingType w rd :
  encodingType = EncodingTypeNone ∨ encodingType = EncodingTypeZstd →
  Header_Get (rw_Header w) "Content-Encoding"
    = (if decide (encodingType = EncodingTypeNone) then "" else encodingType) →
  NewEncodingReadCloser rd (strings_TrimSpace (Header_Get (rw_Header w) "Content-Encoding"))
    = NewEncodingReadCloser rd encodingType.
Proof. by intros [-> | ->] ->. Qed.

(** What the client decodes of such a response. *)
Lemma sent_decoded encodingType data room b n :
  encodingType = EncodingTypeNone ∨ encodingType = EncodingTypeZstd →
  data `prefix_of` b → (Z.of_nat (length b) ≤ n)%Z →
  let sent := NewEncodingWriteCloser encodingType data in
  let rd := NewEncodingReadCloser
    (mkReader (take_room room sent) []
      (if decide (Z.of_nat (length (take_room room sent))
          = (if decide (encodingType = EncodingTypeNone) then n else Z.of_nat (length sent)))
       then None else Some ErrUnexpectedEOF)) encodingType in
  rd_data rd `prefix_of` b ∧
  (encodingType = EncodingTypeNone → rd_err rd = None → rd_data rd = b).
Proof.
  intros [-> | ->] Hpre Hn; cbv zeta; unfold NewEncodingWriteCloser, NewEncodingReadCloser.
  - rewrite !(decide_False (P := EncodingTypeNone = EncodingTypeZstd)) by done.
    rewrite (decide_True (P := EncodingTypeNone = EncodingTypeNone)) by done. cbn [rd_data rd_err].
    assert (take_room room data `prefix_of` b) as Hp by (etrans; [apply take_room_prefix|done]).
    split; [done|]. intros _. case_decide as Hl; [|done]. intros _.
    apply prefix_length_eq; [done|]. lia.
  - rewrite !(decide_True (P := EncodingTypeZstd = EncodingTypeZstd)) by done.
    rewrite (decide_False (P := EncodingTypeZstd = EncodingTypeNone)) by done.
    split; [|done]. case_decide as Hl.
    + assert (take_room room (gozstd_Writer data) = gozstd_Writer data) as ->.
      { apply prefix_length_eq; [apply take_room_prefix|]. lia. }
      by rewrite (proj1 (gozstd_stream data [])).
    + etrans; [|exact Hpre]. destruct room as [k|]; [by apply gozstd_cut|].
      unfold take_room in Hl. lia.
Qed.

(** ** Digests *)

Lemma ParseDigest_setDigest x w :
  uint64_range x → ParseDigest (rw_Header (setDigest x w)) = Ok x.
Proof.
  intros Hx. unfold ParseDigest, setDigest. cbn [rw_Header rw_Set].
  rewrite Header_Get_Set, (strings_Split_app "="), (strings_Split_fresh "=").
  - rewrite decide_False by (intros E; by apply E). by rewrite ParseUint_FormatUint.
  - apply FormatUint_digits. by right.
  - apply (bool_decide_unpack _). by vm_compute.
Qed.

(** The headers of a good chunk response. *)
Definition chunk_headers (encodingType : string) (n : Z) (digest : option Z)
    (w : ResponseWriter) : Prop :=
  Header_Get (rw_Header w) "Content-Encoding"
    = (if decide (encodingType = EncodingTypeNone) then "" else encodingType) ∧
  rw_Header w !! "Content-Type" = Some ["application/octet-stream"] ∧
  declared w = (if decide (encodingType = EncodingTypeNone) then Some n else None) ∧
  match digest with Some x => ParseDigest (rw_Header w) = Ok x | None => True end.

Lemma preferred_cases l :
  GetPreferredEncodingType l = EncodingTypeNone ∨ GetPreferredEncodingType l = EncodingTypeZstd.
Proof. rewrite GetPreferredEncodingType_zstd. destruct (offers_zstd l); auto. Qed.

(** The three header steps before the copy. *)
Definition prepare_chunk (r : HttpRequest) (c : Chunk) (room : option nat) :
    string * ResponseWriter :=
  let '(encodingType, w) := setEncodingType r (new_writer room) in
  let w := rw_Set "Content-Type" "application/octet-stream" w in
  (encodingType,
   if decide (encodingType = EncodingTypeNone)
   then rw_Set "Content-Length" (FormatInt (Chunk_Size c)) w else w).

Lemma prepare_chunk_spec r c room :
  (0 ≤ Chunk_Size c < 2 ^ 63)%Z →
  let '(encodingType, w) := prepare_chunk r c room in
  (encodingType = EncodingTypeNone ∨ encodingType = EncodingTypeZstd) ∧
  fresh w ∧ rw_room w = room ∧ chunk_headers encodingType (Chunk_Size c) None w ∧
  ∀ x, uint64_range x → chunk_headers encodingType (Chunk_Size c) (Some x) (setDigest x w).
Proof.
  intros Hn. unfold prepare_chunk, setEncodingType.
  destruct (preferred_cases (default [] (hr_Header r !! "Accept-Encoding"))) as [-> | ->].
  - rewrite (decide_False (P := EncodingTypeNone ≠ EncodingTypeNone)) by (intros E; by apply E).
    rewrite (decide_True (P := EncodingTypeNone = EncodingTypeNone)) by done.
    assert (∀ w, rw_Header w = <["Content-Length" := [FormatInt (Chunk_Size c)]]>
      (<["Content-Type" := ["application/octet-stream"]]> ∅) ∨ (∃ v, rw_Header w =
      <["Digest" := v]> (<["Content-Length" := [FormatInt (Chunk_Size c)]]>
      (<["Content-Type" := ["application/octet-stream"]]> ∅))) →
      chunk_headers EncodingTypeNone (Chunk_Size c) None w) as Hh.
    { intros w Hw. unfold chunk_headers, declared, Header_Get.
      rewrite !(decide_True (P := EncodingTypeNone = EncodingTypeNone)) by done.
      destruct Hw as [-> | [v ->]]; simplify_map_eq; rewrite Atoi_FormatInt by done;
        by rewrite (proj2 (Z.leb_le 0 _)) by lia. }
    split_and!; [by left|done|done|apply Hh; by left|].
    intros x Hx. destruct (Hh (setDigest x (rw_Set "Content-Length" (FormatInt (Chunk_Size c))
      (rw_Set "Content-Type" "application/octet-stream" (new_writer room))))) as (?&?&?&_);
      [right; by eexists|]. split_and!; [done..|by apply ParseDigest_setDigest].
  - rewrite (decide_True (P := EncodingTypeZstd ≠ EncodingTypeNone)) by done.
    rewrite (decide_False (P := EncodingTypeZstd = EncodingTypeNone)) by done.
    assert (∀ w, rw_Header w = <["Content-Type" := ["application/octet-stream"]]>
      (<["Content-Encoding" := [EncodingTypeZstd]]> ∅) ∨ (∃ v, rw_Header w =
      <["Digest" := v]> (<["Content-Type" := ["application/octet-stream"]]>
      (<["Content-Encoding" := [EncodingTypeZstd]]> ∅))) →
      chunk_headers EncodingTypeZstd (Chunk_Size c) None w) as Hh.
    { intros w Hw. unfold chunk_headers, declared, Header_Get.
      rewrite !(decide_False (P := EncodingTypeZstd = EncodingTypeNone)) by done.
      destruct Hw as [-> | [v ->]]; by simplify_map_eq. }
    split_and!; [by right|done|done|apply Hh; by left|].
    intros x Hx. destruct (Hh (setDigest x (rw_Set "Content-Type" "application/octet-stream"
      (rw_Set "Content-Encoding" EncodingTypeZstd (new_writer room))))) as (?&?&?&_);
      [right; by eexists|]. split_and!; [done..|by apply ParseDigest_setDigest].
Qed.

(** ** Errors *)

Lemma sent_Write data w : rw_sent w ≠ None → rw_sent (rw_Write data w).2 = rw_sent w.
Proof.
  intros Hs. unfold rw_Write.
  assert (WriteHeader StatusOK w = w) as -> by (unfold WriteHeader; by destruct (rw_sent w)).
  case_decide; [done|]. repeat case_match; done.
Qed.

Lemma sent_copy data w : rw_sent w ≠ None → rw_sent (copy_buffer data w).2 = rw_sent w.
Proof. intros. unfold copy_buffer. case_decide; [done|]. by apply sent_Write. Qed.

Lemma errorResponse_sent status e s w :
  fresh w → ∃ h, rw_sent (errorResponse (W := W) error_String status e s w).2 = Some (status, h).
Proof.
  intros (Hs & _ & _). unfold errorResponse, textResponse.
  set (w1 := WriteHeader status _).
  assert (∃ h, rw_sent w1 = Some (status, h)) as [h Hw1].
  { unfold w1, WriteHeader. cbn [rw_sent rw_Set]. rewrite Hs. by eexists. }
  pose proof (sent_Write (string_bytes (error_String e)) w1 ltac:(congruence)) as Hw.
  destruct (rw_Write _ w1) as [[??] w2]. exists h. cbn [fst snd] in *. congruence.
Qed.

Lemma errorResponse_state status e s w :
  let s' := (errorResponse (W := W) error_String status e s w).1 in
  sv_ChunkManager s' = sv_ChunkManager s ∧ sv_world s' = sv_world s ∧
  sv_Completed s' = sv_Completed s.
Proof. unfold errorResponse, textResponse. by destruct (rw_Write _ _) as [[??]?]. Qed.

Lemma rw_response_status w status h :
  rw_sent w = Some (status, h) → rs_StatusCode (rw_response w) = status.
Proof. intros Hs. unfold rw_response, WriteHeader. rewrite Hs. by rewrite Hs. Qed.

(** ** The handler *)

(** What a client of the chunk handler gets. *)
Definition chunk_response (b : bytes) (digest : bool) (resp : Response) : Prop :=
  rs_StatusCode resp = StatusOK ∧
  checkContentType resp "application/octet-stream" = Ok () ∧
  rd_data (rs_decoded resp) `prefix_of` b ∧
  (Header_Get (rs_Header resp) "Content-Encoding" = "" →
    rd_err (rs_decoded resp) = None → rd_data (rs_decoded resp) = b) ∧
  (digest = true → ParseDigest (rs_Header resp) = Ok (xxh3 b)).

Lemma send_chunk_response i c b encodingType digest s w :
  fresh w → encodingType = EncodingTypeNone ∨ encodingType = EncodingTypeZstd →
  chunk_headers encodingType (Chunk_Size c) (if digest : bool then Some (xxh3 b) else None) w →
  chunks (sv_ChunkManager s) !! i = Some c →
  Forall (range_ok (sv_files s)) (FileRanges c) → (ranges_len (FileRanges c) < 2 ^ 63)%Z →
  chunk_bytes st (sv_world s) (sv_files s) (FileRanges c) = Some b →
  let '(s', w') := send_chunk st i encodingType s w in
  same_view st (sv_world s) (sv_world s') ∧ sv_ChunkManager s' = sv_ChunkManager s ∧
  chunk_response b digest (rw_response w').
Proof.
  intros Hf Henc (He & Hct & Hdecl & Hdig) Hc Hok Hlen Hb.
  assert (Chunk_Size c = ranges_len (FileRanges c)) as Hsize.
  { apply Chunk_Size_exact; [|done]. eapply Forall_impl; [exact Hok|].
    intros x (_ & ? & _). unfold range_len. lia. }
  rewrite Hsize in Hdecl.
  pose proof (send_chunk_spec i c b encodingType s w Hf Hdecl Hc Hok Hb) as Hsend.
  destruct (send_chunk st i encodingType s w) as [s' w'].
  destruct Hsend as (Hv & Hcm & data & Hpre & ->). split_and!; [done..|].
  pose proof (sent_decoded encodingType data (rw_room w) b (ranges_len (FileRanges c)) Henc Hpre
    (chunk_bytes_le st _ _ _ _ Hok Hb)) as [Hd1 Hd2].
  assert (∀ sent : bytes, default (Z.of_nat (length sent)) (declared w)
    = if decide (encodingType = EncodingTypeNone) then ranges_len (FileRanges c)
      else Z.of_nat (length sent)) as Hdef by (intros; rewrite Hdecl; by repeat case_decide).
  pose proof (λ rd, encoding_header encodingType w rd Henc He) as Hdec.
  unfold chunk_response, rs_decoded. cbn [rs_StatusCode rs_Header rs_Body]. rewrite Hdec, Hdef.
  split_and!; [done| |done| |by intros ->].
  - unfold checkContentType. cbn [rs_Header]. rewrite Hct. by vm_compute.
  - intros He0. apply Hd2. rewrite He0 in He. by destruct Henc as [-> | ->].
Qed.

(** The handler behind its guards. *)
Lemma handle_chunk_done r s room i c :
  strings_TrimPrefix (hr_Path r) servePointFile = FormatInt (Z.of_nat i) →
  (Z.of_nat (GetChunkCount (sv_ChunkManager s)) < 2 ^ 63)%Z →
  serve_GetChunkStatus ServeOnly s i = Ok ChunkStatusDone →
  chunks (sv_ChunkManager s) !! i = Some c →
  handle_chunk st xxh3 Do ServeOnly error_String r s (new_writer room) =
    let '(encodingType, w) := prepare_chunk r c room in
    if getWantDigest r then
      let '(res, (cm, world)) := ComputeChunkChecksum st xxh3 Do i
                                   (sv_ChunkManager s, sv_world s) in
      let s := mkServer cm world (sv_Statistics s) (sv_Completed s) (sv_UUID s)
                 (sv_LastSentAt s) in
      match res with
      | Ok checksum => send_chunk st i encodingType s (setDigest checksum w)
      | Err err =>
        let '(s, w) := errorResponse error_String StatusInternalServerError err s w in
        (s, (copy_buffer (NewEncodingWriteCloser encodingType []) w).2)
      | Panic _ => (s, w)
      end
    else send_chunk st i encodingType s w.
Proof.
  intros Hpath Hsmall Hst Hc. pose proof (lookup_lt_Some _ _ _ Hc) as Hi.
  unfold GetChunkCount in Hsmall.
  unfold handle_chunk. rewrite Hpath, Atoi_FormatInt by lia. unfold GetChunkCount.
  rewrite (proj2 (Z.ltb_ge _ 0)), (proj2 (Z.leb_gt _ _)) by lia. cbn [orb].
  rewrite Nat2Z.id, Hst. unfold GetChunkSize. rewrite (index_slice_lookup _ _ _ Hc).
  unfold prepare_chunk. by destruct (setEncodingType r (new_writer room)) as [encodingType w0].
Qed.

(** What [/chunk/i] serves of a Done chunk. Whatever the storage does and however the
    connection breaks, the answer is either a 500, because the digest that was asked for
    could not be computed, or a 200 of the right content type whose decoded body is a prefix
    of the chunk's bytes, all of them when it arrives unencoded and unbroken, and whose
    digest, when asked for, parses to the hash of the whole chunk. Serving changes no file
    and keeps the checksum cache true. *)
Lemma handle_chunk_serves P r s room i c b :
  P i →
  strings_TrimPrefix (hr_Path r) servePointFile = FormatInt (Z.of_nat i) →
  (Z.of_nat (GetChunkCount (sv_ChunkManager s)) < 2 ^ 63)%Z →
  serve_GetChunkStatus ServeOnly s i = Ok ChunkStatusDone →
  chunks (sv_ChunkManager s) !! i = Some c →
  Forall (range_ok (sv_files s)) (FileRanges c) → (ranges_len (FileRanges c) < 2 ^ 63)%Z →
  chunk_bytes st (sv_world s) (sv_files s) (FileRanges c) = Some b →
  checksums_ok st xxh3 P (sv_ChunkManager s) (sv_world s) →
  let '(s', w') := handle_chunk st xxh3 Do ServeOnly error_String r s (new_writer room) in
  same_view st (sv_world s) (sv_world s') ∧
  chunks (sv_ChunkManager s') = chunks (sv_ChunkManager s) ∧
  manifest (sv_ChunkManager s') = manifest (sv_ChunkManager s) ∧
  (∀ j, j ≠ i → chunkChecksums (sv_ChunkManager s') !! j
    = chunkChecksums (sv_ChunkManager s) !! j) ∧
  checksums_ok st xxh3 P (sv_ChunkManager s') (sv_world s') ∧
  (chunk_response b (getWantDigest r) (rw_response w') ∨
   getWantDigest r = true ∧ rs_StatusCode (rw_response w') = StatusInternalServerError).
Proof.
  intros HPi Hpath Hsmall Hst Hc Hok Hlen Hb Hsums.
  assert (0 ≤ ranges_len (FileRanges c))%Z as Hlen0.
  { pose proof (chunk_bytes_le st _ _ _ _ Hok Hb). lia. }
  assert (Chunk_Size c = ranges_len (FileRanges c)) as Hsize.
  { apply Chunk_Size_exact; [|done]. eapply Forall_impl; [exact Hok|].
    intros x (_ & ? & _). unfold range_len. lia. }
  rewrite (handle_chunk_done r s room i c) by done.
  pose proof (prepare_chunk_spec r c room ltac:(lia)) as Hprep.
  destruct (prepare_chunk r c room) as [encodingType w].
  destruct Hprep as (Henc & Hf & _ & Hnone & Hdig).
  destruct (getWantDigest r) eqn:Hwant.
  - pose proof (ComputeChunkChecksum_spec st xxh3 Do Do_alone P i c (sv_ChunkManager s)
      (sv_world s) HPi Hc Hok Hsums) as Hcc.
    pose proof (ComputeChunkChecksum_frame st xxh3 Do Do_alone i (sv_ChunkManager s)
      (sv_world s)) as Hframe. unfold post in Hcc, Hframe.
    destruct (ComputeChunkChecksum st xxh3 Do i _) as [res [cm1 w1]]. cbn [fst snd] in *.
    destruct Hcc as (Hv1 & Hs1 & Hres), Hframe as (Hch & Hman & Hsum1).
    destruct res as [x|e|?]; [|clear Hres|done].
    + destruct Hres as [(b' & Hb' & ->) _]. simplify_eq.
      set (s1 := mkServer cm1 w1 _ _ _ _) in *.
      pose proof (send_chunk_response i c b encodingType true s1 (setDigest (xxh3 b) w)) as Hsend.
      destruct (send_chunk st i encodingType s1 _) as [s' w'].
      destruct Hsend as (Hv & Hcm & Hresp); try done; [by apply Hdig| |..].
      * unfold s1. cbn [sv_ChunkManager]. by rewrite Hch.
      * unfold s1, cm_files. cbn [sv_ChunkManager]. by rewrite Hman.
      * unfold s1, cm_files. cbn [sv_ChunkManager sv_world]. by rewrite Hman, <- Hv1.
      * rewrite Hcm. split_and!; [by etrans|done..| |by left]. by rewrite <- Hv.
    + set (s1 := mkServer cm1 w1 _ _ _ _) in *.
      pose proof (errorResponse_state StatusInternalServerError e s1 w) as (Hcm & Hw & _).
      destruct (errorResponse_sent StatusInternalServerError e s1 w Hf) as [h Hh].
      destruct (errorResponse error_String _ e s1 w) as [s' w']. cbn [fst snd] in *.
      rewrite Hcm, Hw. split_and!; [done..|]. right. split; [done|].
      apply (rw_response_status _ _ h). by rewrite sent_copy by congruence.
  - pose proof (send_chunk_response i c b encodingType false s w Hf Henc Hnone Hc Hok Hlen Hb)
      as Hsend. destruct (send_chunk st i encodingType s w) as [s' w'].
    destruct Hsend as (Hv & Hcm & Hresp). rewrite Hcm. split_and!; [done..| |by left].
    by rewrite <- Hv.
Qed.

Lemma rw_Write_body data w : rw_body (rw_Write data w).2 = rw_body w ++ [] ∨
  ∃ d, d `prefix_of` data ∧ rw_body (rw_Write data w).2 = rw_body w ++ d.
Proof.
  assert (rw_body (WriteHeader StatusOK w) = rw_body w) as Hw
    by (unfold WriteHeader; by destruct (rw_sent w)).
  unfold rw_Write. case_decide; [left; by rewrite app_nil_r|].
  destruct (match rw_contentLength _ with Some _ => _ | None => _ end);
    [left; cbn; by rewrite app_nil_r|].
  right. destruct (rw_room _) as [k|]; cbn; rewrite Hw.
  - exists (take k data). split; [apply prefix_take|done].
  - by exists data.
Qed.

Lemma errorResponse_body status e s room :
  rw_body (errorResponse (W := W) error_String status e s (new_writer room)).2
    `prefix_of` string_bytes (error_String e).
Proof.
  unfold errorResponse, textResponse.
  match goal with |- context [rw_Write ?d ?w] => pose proof (rw_Write_body d w) as Hb;
    destruct (rw_Write d w) as [[??] w2] end. cbn in Hb |- *.
  destruct Hb as [-> | (d & Hd & ->)]; [apply prefix_nil|done].
Qed.

(** A handler leaves the rest of the context alone. *)
Lemma send_chunk_context i encodingType s w :
  let s' := (send_chunk (W := W) st i encodingType s w).1 in
  sv_Completed s' = sv_Completed s ∧ sv_UUID s' = sv_UUID s.
Proof.
  unfold send_chunk. destruct (io_Copy_chunk _ _ _ _ _ _) as [[[[d e]|]|?|?] w1]; [|done..].
  by destruct (copy_buffer _ _) as [[??]?].
Qed.

Lemma errorResponse_context status e s w :
  let s' := (errorResponse (W := W) error_String status e s w).1 in
  sv_Completed s' = sv_Completed s ∧ sv_UUID s' = sv_UUID s.
Proof. unfold errorResponse, textResponse. by destruct (rw_Write _ _) as [[??]?]. Qed.

Lemma handle_chunk_context r s w :
  let s' := (handle_chunk st xxh3 Do ServeOnly error_String r s w).1 in
  sv_Completed s' = sv_Completed s ∧ sv_UUID s' = sv_UUID s.
Proof.
  unfold handle_chunk. destruct (Atoi _) as [i|?|?]; [|apply errorResponse_context..].
  destruct (_ || _); [apply errorResponse_context|].
  destruct (serve_GetChunkStatus _ _ _) as [[]|?|?]; try apply errorResponse_context.
  destruct (setEncodingType _ _) as [encodingType w1].
  destruct (getWantDigest r); [|apply send_chunk_context].
  destruct (ComputeChunkChecksum _ _ _ _ _) as [[x|e|?] [cm1 w2]]; [|clear|done].
  - match goal with |- context [send_chunk ?a ?b ?c ?d ?e] =>
      pose proof (send_chunk_context b c d e) as Hctx end. by destruct (send_chunk _ _ _ _ _).
  - match goal with |- context [errorResponse ?a ?b ?c ?d ?e] =>
      pose proof (errorResponse_context b c d e) as Hctx end. by destruct (errorResponse _ _ _ _ _).
Qed.

(** The reason to refuse a request, if there is one. *)
Definition chunk_refusal (r : HttpRequest) (s : server W) : option error :=
  match Atoi (strings_TrimPrefix (hr_Path r) servePointFile) with
  | Ok i =>
    if bool_decide (0 ≤ i < Z.of_nat (GetChunkCount (sv_ChunkManager s)))%Z then
      match serve_GetChunkStatus ServeOnly s (Z.to_nat i) with
      | Ok ChunkStatusDone => None
      | _ => Some (errors_New "chunk not ready")
      end
    else Some (errors_New "chunk index out of range")
  | _ => Some (errors_New "chunk index is not an integer")
  end.

Lemma handle_chunk_refused r s room e :
  chunk_refusal r s = Some e →
  let '(s', w') := handle_chunk st xxh3 Do ServeOnly error_String r s (new_writer room) in
  rs_StatusCode (rw_response w') = StatusForbidden ∧
  rd_data (rs_Body (rw_response w')) `prefix_of` string_bytes (error_String e) ∧
  sv_ChunkManager s' = sv_ChunkManager s ∧ sv_world s' = sv_world s.
Proof.
  intros He.
  assert (handle_chunk st xxh3 Do ServeOnly error_String r s (new_writer room)
    = errorResponse error_String StatusForbidden e s (new_writer room)) as ->.
  { revert He. unfold chunk_refusal, handle_chunk.
    destruct (Atoi _) as [i|?|?]; [|by intros [= <-]..]. case_bool_decide as Hi.
    - rewrite (proj2 (Z.ltb_ge i 0)), (proj2 (Z.leb_gt _ i)) by lia. cbn [orb].
      by destruct (serve_GetChunkStatus _ _ _) as [[]|?|?]; intros [= <-].
    - intros [= <-]. destruct (Z.ltb_spec i 0); [done|].
      by rewrite (proj2 (Z.leb_le _ i)) by lia. }
  pose proof (errorResponse_body StatusForbidden e s room) as Hb.
  destruct (errorResponse_sent StatusForbidden e s _ (new_writer_fresh room)) as [h Hh].
  destruct (errorResponse_state StatusForbidden e s (new_writer room)) as (H1 & H2 & _).
  destruct (errorResponse _ _ _ _ _) as [s' w']. cbn [fst snd] in *.
  rewrite (rw_response_status _ _ _ Hh). split_and!; [done| |done..].
  assert (rd_data (rs_Body (rw_response w')) = rw_body w') as ->; [|done].
  unfold rw_response, WriteHeader. rewrite Hh. by rewrite Hh.
Qed.

(** A chunk that is not Done, or no chunk at all, is never served: the answer is a 403
    with the reason for a body, and neither the storage nor the manager was touched. *)
Theorem handle_chunk_refuses r s room e :
  chunk_refusal r s = Some e →
  let '(s', w') := handle_chunk st xxh3 Do ServeOnly error_String r s (new_writer room) in
  rs_StatusCode (rw_response w') = StatusForbidden ∧
  rd_data (rs_Body (rw_response w')) `prefix_of` string_bytes (error_String e) ∧
  sv_ChunkManager s' = sv_ChunkManager s ∧ sv_world s' = sv_world s.
Proof. apply handle_chunk_refused. Qed.
End serving.

(** * The JSON responses *)

Section json.
Context {W : Type} `{GozstdLaws} (error_String : error → string).

(** A response that is complete, or has failed, takes no more. *)
Lemma errorResponse_after status e s w n :
  rw_sent w ≠ None → rw_contentLength w = Some n → (n ≤ rw_written w)%Z →
  rw_response (errorResponse (W := W) error_String status e s w).2 = rw_response w.
Proof.
  intros Hs Hcl Hn. unfold errorResponse, textResponse, rw_Write.
  assert (∀ w status, rw_sent w ≠ None → WriteHeader status w = w) as Hwh
    by (intros w1 st1 Hw1; unfold WriteHeader; by destruct (rw_sent w1)).
  rewrite (Hwh (rw_Set _ _ _) status), (Hwh (rw_Set _ _ _) StatusOK) by exact Hs.
  unfold rw_response. rewrite (Hwh w) by done.
  case_decide as Hd; cbn.
  { rewrite Hwh by done. unfold rw_contentLength in *. cbn. by destruct (rw_sent w). }
  unfold rw_contentLength in Hcl |- *. cbn. rewrite Hcl.
  rewrite (proj2 (Z.ltb_lt n _)) by (destruct (string_bytes _); [done|simpl; lia]). cbn.
  rewrite Hwh by done. cbn. destruct (rw_sent w) as [[??]|]; [|done]. by rewrite Hcl.
Qed.

(** A copy that failed had a declared length. *)
Lemma copy_buffer_written data w n err w' :
  fresh w → declared w = Some (Z.of_nat (length data)) →
  copy_buffer data w = ((n, Some err), w') →
  rw_sent w' ≠ None ∧ rw_contentLength w' = Some (Z.of_nat (length data)) ∧
  rw_written w' = Z.of_nat (length data).
Proof.
  intros Hf Hd. pose proof (contentLength_WriteHeader StatusOK w Hf) as Hcl.
  destruct Hf as (Hs & Hw & Hb). unfold copy_buffer, rw_Write.
  set (w1 := WriteHeader StatusOK w) in *.
  assert (rw_sent w1 ≠ None) as Hs1 by (unfold w1, WriteHeader; by rewrite Hs).
  assert (rw_written w1 = 0%Z) as -> by (unfold w1, WriteHeader; by rewrite Hs).
  case_decide; [done|]. rewrite Hcl, Hd, (proj2 (Z.ltb_ge _ _)) by lia.
  unfold rw_contentLength in Hcl |- *.
  destruct (rw_room w1); intros [= _ _ <-]; cbn; rewrite Hcl, Hd; split_and!; done || lia.
Qed.

Definition json_writer (encodingType : string) (n : Z) (room : option nat) : ResponseWriter :=
  rw_Set "Content-Length" (FormatInt n)
    (rw_Set "Content-Type" "application/json; charset=utf-8"
      (if decide (encodingType ≠ EncodingTypeNone)
       then rw_Set "Content-Encoding" encodingType (new_writer room) else new_writer room)).

(** Its headers. *)
Lemma json_writer_headers encodingType n room :
  encodingType = EncodingTypeNone ∨ encodingType = EncodingTypeZstd → (0 ≤ n < 2 ^ 63)%Z →
  let w0 := json_writer encodingType n room in
  fresh w0 ∧ rw_room w0 = room ∧ declared w0 = Some n ∧
  rw_Header w0 !! "Content-Type" = Some ["application/json; charset=utf-8"] ∧
  Header_Get (rw_Header w0) "Content-Encoding"
  = if decide (encodingType = EncodingTypeNone) then "" else encodingType.
Proof.
  intros Henc Hn. cbv zeta. split; [unfold json_writer; by case_decide|].
  split; [unfold json_writer; by case_decide|]. split.
  { unfold declared, json_writer. cbn [rw_Header rw_Set]. rewrite Header_Get_Set.
    rewrite Atoi_FormatInt by lia. by rewrite (proj2 (Z.leb_le 0 _)) by lia. }
  unfold json_writer, rw_Set, Header_Set, Header_Get. cbn [rw_Header].
  destruct Henc as [-> | ->].
  - rewrite !(decide_False (P := EncodingTypeNone ≠ EncodingTypeNone)) by (by intros []).
    cbn [rw_Header new_writer]. by simplify_map_eq.
  - rewrite !(decide_True (P := EncodingTypeZstd ≠ EncodingTypeNone)) by done.
    cbn [rw_Header new_writer]. by simplify_map_eq.
Qed.

(** A body that was encoded as a whole. *)
Lemma encoded_body encodingType body jsonData :
  encodingType = EncodingTypeNone ∨ encodingType = EncodingTypeZstd →
  NewBufferEncodingReader jsonData encodingType = Ok (body, Z.of_nat (length body)) →
  (Z.of_nat (length jsonData) < 2 ^ 63)%Z →
  (Z.of_nat (length body) < 2 ^ 63)%Z ∧
  let rd := NewEncodingReadCloser (mkReader body [] None) encodingType in
  rd_data rd = jsonData ∧ rd_err rd = None.
Proof.
  intros Henc. unfold NewBufferEncodingReader, NewEncodingReadCloser. destruct Henc as [-> | ->].
  - rewrite !(decide_False (P := EncodingTypeNone = EncodingTypeZstd)) by done. by intros [= <-].
  - rewrite !(decide_True (P := EncodingTypeZstd = EncodingTypeZstd)) by done.
    destruct (gozstd_CompressLevel jsonData) as [dst|?|?] eqn:E; [|done..]. intros [= <-] _.
    by destruct (gozstd_compress _ _ E) as (Hl & Hd & He).
Qed.

(** The copy of such a body. *)
Lemma json_copy_response encodingType body s room :
  encodingType = EncodingTypeNone ∨ encodingType = EncodingTypeZstd →
  (Z.of_nat (length body) < 2 ^ 63)%Z →
  let '((written, err), w) :=
    copy_buffer body (json_writer encodingType (Z.of_nat (length body)) room) in
  let resp := rw_response match err with
    | Some err => (errorResponse (W := W) error_String StatusInternalServerError err s w).2
    | None => w
    end in
  rs_StatusCode resp = StatusOK ∧ checkContentType resp "application/json" = Ok () ∧
  rs_decoded resp = NewEncodingReadCloser (mkReader (take_room room body) []
    (if decide (length (take_room room body) = length body) then None else Some ErrUnexpectedEOF))
    encodingType.
Proof.
  intros Henc Hl.
  destruct (json_writer_headers encodingType (Z.of_nat (length body)) room Henc ltac:(lia))
    as (Hf & Hroom & Hdecl & Hct & Hce).
  set (w0 := json_writer _ _ _) in *.
  destruct (copy_buffer body w0) as [[written err] w] eqn:Hcopy.
  assert (rw_response match err with
    | Some err => (errorResponse (W := W) error_String StatusInternalServerError err s w).2
    | None => w end = rw_response w) as ->.
  { destruct err as [err|]; [|done].
    destruct (copy_buffer_written _ _ _ _ _ Hf Hdecl Hcopy) as (Hs & Hcl & Hw).
    eapply errorResponse_after; [done..|lia]. }
  rewrite (copy_buffer_fresh _ _ _ _ _ Hf ltac:(by rewrite Hdecl) Hcopy), Hdecl, Hroom.
  split; [done|]. split.
  - unfold checkContentType. cbn [rs_Header]. rewrite Hct. by vm_compute.
  - unfold rs_decoded. cbn [rs_Body rs_Header]. rewrite (encoding_header _ _ _ Henc Hce).
    do 2 f_equal. cbn [default from_option]. unfold id. repeat case_decide; (done || lia).
Qed.

Lemma json_copy_client encodingType body jsonData s room :
  encodingType = EncodingTypeNone ∨ encodingType = EncodingTypeZstd →
  NewBufferEncodingReader jsonData encodingType = Ok (body, Z.of_nat (length body)) →
  (Z.of_nat (length jsonData) < 2 ^ 63)%Z →
  let '((written, err), w) :=
    copy_buffer body (json_writer encodingType (Z.of_nat (length body)) room) in
  let resp := rw_response match err with
    | Some err => (errorResponse (W := W) error_String StatusInternalServerError err s w).2
    | None => w
    end in
  checkContentType resp "application/json" = Ok () ∧
  ∀ d, io_ReadAll (rs_decoded resp) = Ok d → d = jsonData.
Proof.
  intros Henc Hbody Hlen. destruct (encoded_body _ _ _ Henc Hbody Hlen) as (Hl & Hd & He).
  pose proof (json_copy_response encodingType body s room Henc Hl) as Hresp.
  destruct (copy_buffer _ _) as [[written err] w]. cbv zeta in *. destruct Hresp as (_ & Hct & ->).
  split; [done|]. intros d. case_decide as Ht.
  - rewrite (prefix_length_eq _ _ (take_room_prefix room body)) by lia.
    unfold io_ReadAll. rewrite He. by intros [= <-].
  - set (rd := mkReader _ _ (Some _)).
    assert (rd_err (NewEncodingReadCloser rd encodingType) ≠ None) as Herr.
    { unfold NewEncodingReadCloser. case_decide; [|done]. by apply gozstd_error. }
    unfold io_ReadAll. by destruct (rd_err (NewEncodingReadCloser rd _)).
Qed.

(** What the client reads of a JSON response: exactly the document, or it notices. *)
Lemma jsonResponse_client r jsonData s room :
  (Z.of_nat (length jsonData) < 2 ^ 63)%Z →
  let '(s', w') := jsonResponse error_String r jsonData s (new_writer room) in
  let resp := rw_response w' in
  sv_ChunkManager s' = sv_ChunkManager (W := W) s ∧ sv_world s' = sv_world s ∧
  ((200 ≤ rs_StatusCode resp < 300)%Z →
    checkContentType resp "application/json" = Ok () ∧
    ∀ d, io_ReadAll (rs_decoded resp) = Ok d → d = jsonData).
Proof.
  intros Hlen. unfold jsonResponse, setEncodingType.
  set (encodingType := GetPreferredEncodingType _).
  pose proof (preferred_cases (default [] (hr_Header r !! "Accept-Encoding"))) as Henc.
  fold encodingType in Henc.
  pose proof (λ body, json_copy_client encodingType body jsonData) as Hcopy.
  destruct (NewBufferEncodingReader jsonData encodingType) as [[body n]|e|?] eqn:Hbody.
  - assert (n = Z.of_nat (length body)) as ->.
    { revert Hbody. unfold NewBufferEncodingReader. case_decide; [|by intros [= <- <-]].
      destruct (gozstd_CompressLevel jsonData); by try intros [= <- <-]. }
    specialize (λ s, Hcopy body s room Henc eq_refl Hlen). unfold json_writer in Hcopy.
    destruct (copy_buffer body _) as [[written [err|]] w].
    + pose proof (errorResponse_state error_String StatusInternalServerError err
        (sv_add (Z.of_nat written) s) w) as (H1 & H2 & _).
      specialize (Hcopy (sv_add (Z.of_nat written) s)).
      destruct (errorResponse _ _ err _ w) as [s' w']. cbn [fst snd] in *. split_and!; [done..|].
      by intros _.
    + specialize (Hcopy s). split_and!; [done..|]. by intros _.
  - set (w0 := if decide (encodingType ≠ EncodingTypeNone) then _ else _).
    assert (fresh w0) as Hf by (unfold w0; by case_decide).
    pose proof (errorResponse_state error_String StatusInternalServerError e s w0) as (H1 & H2 & _).
    destruct (errorResponse_sent error_String StatusInternalServerError e s w0 Hf) as [h Hh].
    destruct (errorResponse _ _ e _ w0) as [s' w']. cbn [fst snd] in *. split_and!; [done..|].
    rewrite (rw_response_status _ _ _ Hh). by intros [_ ?].
  - revert Hbody. unfold NewBufferEncodingReader. case_decide; [|done].
    by destruct (gozstd_CompressLevel jsonData).
Qed.
End json.

(** * The available list *)

Lemma GetStatusDoneChunks_spec since cm i :
  i ∈ GetStatusDoneChunks since cm ↔ ∃ c, chunks cm !! i = Some c ∧
    GetStatus c = ChunkStatusDone ∧ (since < GetUpdatedAt c)%Z.
Proof.
  unfold GetStatusDoneChunks. rewrite list_elem_of_omap. split.
  - intros ([j c] & (k & Hk)%list_elem_of_lookup & Hi).
    rewrite list_lookup_imap in Hk. destruct (chunks cm !! k) as [c'|] eqn:E; [|done].
    simplify_eq/=. case_match eqn:Hcond; [|done]. simplify_eq.
    apply andb_prop in Hcond as [Hd%bool_decide_eq_true Ht]. exists c. split_and!; [done..|].
    unfold After in Ht. lia.
  - intros (c & Hc & Hd & Ht). exists (i, c). split.
    + apply list_elem_of_lookup. exists i. by rewrite list_lookup_imap, Hc.
    + rewrite bool_decide_eq_true_2 by done. unfold After. by rewrite (proj2 (Z.ltb_lt _ _)).
Qed.

Lemma GetStatusDoneChunks_NoDup since cm : NoDup (GetStatusDoneChunks since cm).
Proof.
  unfold GetStatusDoneChunks. generalize (chunks cm) as l. intros l.
  assert (∀ k, NoDup (omap (λ '(index, c), if bool_decide (GetStatus c = ChunkStatusDone) &&
    After (GetUpdatedAt c) since then Some index else None) (imap (λ i, pair (k + i)) l)) ∧
    Forall (λ j, k ≤ j) (omap (λ '(index, c), if bool_decide (GetStatus c = ChunkStatusDone) &&
    After (GetUpdatedAt c) since then Some index else None) (imap (λ i, pair (k + i)) l)))
    as H; [|by apply (H 0)].
  induction l as [|c l IH]; intros k; [split; [apply NoDup_nil_2|done]|].
  rewrite imap_cons, Nat.add_0_r. cbn [omap list_omap].
  destruct (IH (S k)) as [Hnd Hge].
  assert (imap ((λ i, pair (k + i)) ∘ S) l = imap (λ i, pair (A := nat) (B := Chunk) (S k + i)) l) as ->.
  { apply imap_ext. intros i x _. simpl. do 2 f_equal. lia. }
  destruct (_ && _).
  - split; [constructor; [|done]|constructor; [done|]].
    + intros Hk. rewrite Forall_forall in Hge. apply Hge in Hk. lia.
    + eapply Forall_impl; [exact Hge|]. simpl. lia.
  - split; [done|]. eapply Forall_impl; [exact Hge|]. simpl. lia.
Qed.

(** The list a server in state [s] answers with. *)
Definition server_list {W} (now since : Time) (s : server W) : AvailableList :=
  if sv_Completed s then mkAvailableList now true []
  else mkAvailableList now false (Z.of_nat <$> GetStatusDoneChunks since (sv_ChunkManager s)).

Section available.
Context {W : Type} `{GozstdLaws} `{ListCodecLaws} (error_String : error → string).

(** What a client reads: exactly that list, or it notices. *)
Lemma handle_chunk_list_client now since r s room :
  time_valid now → getOnlyUpdatedSince r = Ok since →
  let '(s', w') := handle_chunk_list error_String now r s (new_writer room) in
  let resp := rw_response w' in
  sv_ChunkManager s' = sv_ChunkManager (W := W) s ∧ sv_world s' = sv_world s ∧
  ((200 ≤ rs_StatusCode resp < 300)%Z →
    checkContentType resp "application/json" = Ok () ∧
    ∀ d, io_ReadAll (rs_decoded resp) = Ok d → json_Unmarshal d = Ok (server_list now since s)).
Proof.
  intros Hnow Hsince.
  assert (handle_chunk_list error_String now r s (new_writer room)
    = availableListResponse error_String r (server_list now since s) s (new_writer room)) as ->.
  { unfold handle_chunk_list, NewAvailableList, server_list. rewrite Hsince.
    by destruct (sv_Completed s). }
  unfold availableListResponse.
  assert (time_valid (Timestamp (server_list now since s))) as Hts
    by (unfold server_list; destruct (sv_Completed s); exact Hnow).
  destruct (json_Marshal (server_list now since s)) as [b|e|msg] eqn:Hb.
  - destruct (json_roundtrip _ _ Hts Hb) as [Hl Hu]. pose proof (jsonResponse_client error_String r b s room Hl) as Hj.
    destruct (jsonResponse _ _ _ _ _) as [s' w']. destruct Hj as (Hcm & Hw & Hj).
    split_and!; [done..|]. intros Hst. destruct (Hj Hst) as [Hct Hd]. split; [done|].
    intros d Hrd. by rewrite (Hd _ Hrd).
  - pose proof (errorResponse_state error_String StatusInternalServerError e s (new_writer room))
      as (Hcm & Hw & _).
    destruct (errorResponse_sent error_String StatusInternalServerError e s _
      (new_writer_fresh room)) as [h Hh].
    destruct (errorResponse _ _ e s _) as [s' w']. cbn [fst snd] in *. split_and!; [done..|].
    rewrite (rw_response_status _ _ _ Hh). by intros [_ ?].
  - by apply json_Marshal_no_panic in Hb.
Qed.

Lemma handle_chunk_list_context now r s w :
  let s' := (handle_chunk_list (W := W) error_String now r s w).1 in
  sv_Completed s' = sv_Completed s ∧ sv_UUID s' = sv_UUID s.
Proof.
  assert (∀ al s w, let s' := (availableListResponse (W := W) error_String r al s w).1 in
    sv_Completed s' = sv_Completed s ∧ sv_UUID s' = sv_UUID s) as Hal.
  { clear s w. intros al s w. unfold availableListResponse.
    destruct (json_Marshal al) as [b|e|?]; [|apply errorResponse_context|done].
    unfold jsonResponse. destruct (setEncodingType r w) as [encodingType w1].
    destruct (NewBufferEncodingReader b encodingType) as [[d n]|e|?];
      [|apply errorResponse_context|done].
    destruct (copy_buffer _ _) as [[k [e|]] w2]; [|done].
    apply (errorResponse_context error_String StatusInternalServerError e (sv_add (Z.of_nat k) s)). }
  unfold handle_chunk_list. destruct (sv_Completed s) eqn:Hc; [rewrite <- Hc; apply Hal|].
  destruct (getOnlyUpdatedSince r); rewrite <- ?Hc; [apply Hal|apply errorResponse_context|done].
Qed.
End available.
