(* ===== verification/PeerDownloader.v ===== *)
(** The HTTP side of src/src/peer_downloader.go and the requests of
    src/src/local_downloader.go. *)
From S2P Require Import Prelude Bytes GoStrings Types Storage ChunkBuilder ChunkManager ChunkTransfer ChunkQueue Statistics Availability Http HttpServer.

(** * url.QueryEscape and url.QueryUnescape *)

Definition hex_digit (n : N) : ascii := ascii_of_N (if (n <? 10)%N then 48 + n else 55 + n)%N.
Definition unhex (c : ascii) : option N :=
  let n := N_of_ascii c in
  if (48 <=? n)%N && (n <=? 57)%N then Some (n - 48)%N
  else if (97 <=? n)%N && (n <=? 102)%N then Some (n - 87)%N
  else if (65 <=? n)%N && (n <=? 70)%N then Some (n - 55)%N
  else None.

Definition unreserved (c : ascii) : bool :=
  let n := N_of_ascii c in
  ((48 <=? n)%N && (n <=? 57)%N) || ((65 <=? n)%N && (n <=? 90)%N) ||
  ((97 <=? n)%N && (n <=? 122)%N) ||
  Ascii.eqb c "-" || Ascii.eqb c "_" || Ascii.eqb c "." || Ascii.eqb c "~".

Fixpoint url_QueryEscape (s : string) : string :=
  match s with
  | "" => ""
  | String c s =>
    if Ascii.eqb c " " then String "+" (url_QueryEscape s)
    else if unreserved c then String c (url_QueryEscape s)
    else String "%" (String (hex_digit (N_of_ascii c / 16)) (String (hex_digit (N_of_ascii c mod 16))
           (url_QueryEscape s)))
  end.

Fixpoint url_QueryUnescape (s : string) : option string :=
  match s with
  | "" => Some ""
  | String c s =>
    if Ascii.eqb c "%" then
      match s with
      | String x (String y s) =>
        hi ← unhex x; lo ← unhex y;
        String (ascii_of_N (hi * 16 + lo)) <$> url_QueryUnescape s
      | _ => None
      end
    else String (if Ascii.eqb c "+" then " " else c)%char <$> url_QueryUnescape s
  end.

Lemma url_QueryUnescape_Escape s : url_QueryUnescape (url_QueryEscape s) = Some s.
Proof.
  induction s as [|c s IH]; [done|]. cbn [url_QueryEscape].
  destruct (Ascii.eqb_spec c " ") as [->|Hspace]; [cbn; by rewrite IH|].
  destruct (unreserved c) eqn:Hc.
  - cbn [url_QueryUnescape]. rewrite IH.
    destruct (Ascii.eqb_spec c "%") as [->|_]; [done|].
    by destruct (Ascii.eqb_spec c "+") as [->|_].
  - cbn [url_QueryUnescape]. rewrite IH. change (Ascii.eqb "%" "%") with true. cbv beta iota.
    assert (unhex (hex_digit (N_of_ascii c / 16)) = Some (N_of_ascii c / 16)%N ∧
      unhex (hex_digit (N_of_ascii c mod 16)) = Some (N_of_ascii c mod 16)%N ∧
      ascii_of_N (N_of_ascii c / 16 * 16 + N_of_ascii c mod 16) = c) as (-> & -> & Hj).
    { clear. by destruct c as [[] [] [] [] [] [] [] []]; vm_compute. }
    cbn [mbind option_bind fmap option_fmap option_map]. by rewrite Hj.
Qed.

(** * Requests *)

Section peer.
Context {W : Type} `{HttpTransport W} `{Gozstd} `{ListCodec}.
(** [*flagCompressType] *)
Context (compressType : string).

Definition setIsSelf (d : PeerDownloader) : io W PeerDownloader :=
  content ← RequestBody ("http://" +:+ pd_Host d +:+ "/uuid") [WithExpectedContentType "text/plain"];
  let peerUUID := strings_TrimSpace (bytes_string content) in
  mret (set_IsSelf (String.eqb (pd_UUID d) peerUUID) d).

Definition verifyChecksum (cm : ChunkManager) (d : PeerDownloader) : io W bool :=
  content ← RequestBody ("http://" +:+ pd_Host d +:+ "/manifest/checksum")
    [WithExpectedContentType "text/plain"];
  checksum ← io_lift (ParseUint (bytes_string content));
  mret (GetManifestChecksum cm =? checksum)%Z.

(** When the digest does not parse the code returns the open body together with the error,
    and its caller drops both. *)
Definition RequestDownload (chunkIndex : nat) (withChecksum : bool) (d : PeerDownloader) :
    io W (Z * reader) :=
  let url := "http://" +:+ pd_Host d +:+ "/chunk/" +:+ FormatInt (Z.of_nat chunkIndex) in
  let options := [WithAcceptEncodingType compressType;
                  WithExpectedContentType "application/octet-stream"] in
  if withChecksum then
    '((header, rd) : gmap string (list string) * reader) ←
      HttpClient_Request url (options ++ [WithWantDigest DefaultDigest]);
    checksum ← io_lift (ParseDigest header);
    mret (checksum, rd)
  else
    '((_, rd) : gmap string (list string) * reader) ← HttpClient_Request url options;
    mret (0%Z, rd).

Definition available_url (d : PeerDownloader) : string :=
  "http://" +:+ pd_Host d +:+ "/chunk?only_updated_since=" +:+
    url_QueryEscape (time_Format (pd_LastUpdatedAt d)).

(** [choice] are the random draws of the shuffle. *)
Definition UpdatePeerAvailableList (choice : nat → nat) (cm : ChunkManager) (d : PeerDownloader) :
    io W PeerDownloader :=
  content ← RequestBody (available_url d)
    [WithAcceptEncodingType compressType; WithExpectedContentType "application/json"];
  availableList ← io_lift (json_Unmarshal content);
  io_lift (receiveAvailableList choice cm availableList d).

(** ** The update goroutine *)

(** Its local variables, and whether it stopped the whole download with exit code 1. *)
Record update_state := mkUpdateState {
  us_isSelfInit : bool;
  us_isValidInit : bool;
  us_downloader : PeerDownloader;
  us_failed : bool
}.

(** [if err != nil { ErrorPrintf(...); return }] *)
Definition or_return {A} (u : update_state) (m : io W A) (k : A → io W update_state) :
    io W update_state :=
  r ← io_try m;
  match r with
  | Ok a => k a
  | Err _ => mret u
  | Panic s => io_panic s
  end.

Definition update_list (choice : nat → nat) (cm : ChunkManager) (u : update_state) :
    io W update_state :=
  or_return u (UpdatePeerAvailableList choice cm (us_downloader u)) (λ d,
    mret (mkUpdateState (us_isSelfInit u) (us_isValidInit u)
      (if (AvailableChunkCount d =? Z.of_nat (GetChunkCount cm))%Z then cancelUpdate d else d)
      (us_failed u))).

Definition update_valid (choice : nat → nat) (cm : ChunkManager) (u : update_state) :
    io W update_state :=
  if us_isValidInit u then update_list choice cm u
  else
    or_return u (verifyChecksum cm (us_downloader u)) (λ isValid : bool,
      if negb isValid then
        mret (mkUpdateState (us_isSelfInit u) false (cancelUpdate (us_downloader u)) true)
      else update_list choice cm (mkUpdateState (us_isSelfInit u) true (us_downloader u) (us_failed u))).

(** One round: the body of the [for] loop. *)
Definition update_round (choice : nat → nat) (cm : ChunkManager) (u : update_state) :
    io W update_state :=
  if us_isSelfInit u then update_valid choice cm u
  else
    or_return u (setIsSelf (us_downloader u)) (λ d,
      if IsSelf d then
        mret (mkUpdateState false (us_isValidInit u) (cancelUpdate d) (us_failed u))
      else update_valid choice cm (mkUpdateState true (us_isValidInit u) d (us_failed u))).
End peer.

(** * The local downloader's requests *)

Section local.
Context {W : Type} (dirSrc : Storage W) (xxh3 : bytes → Z).
Context (Do : string → io (ChunkManager * W) Z → io (ChunkManager * W) Z).

Definition LocalDownloader_RequestDownload (chunkIndex : nat) (withChecksum : bool) :
    io (ChunkManager * W) (Z * chunkReadCloser) :=
  if withChecksum then
    checksum ← ComputeChunkChecksum dirSrc xxh3 Do chunkIndex;
    mret (checksum, GetChunkReader chunkIndex)
  else mret (0%Z, GetChunkReader chunkIndex).
End local.

(** * Response bodies *)

Section bodies.
Context {W : Type} `{HttpTransportLaws W} `{Gozstd}.

(** C27: the bodies a download attempt leaves open. A success leaves the one it returns, and
    an error of the request none; but a response without a usable digest is an error that
    leaves its body open, and nobody has the reader to close it. *)
Theorem RequestDownload_bodies compressType i (withChecksum : bool) d w :
  post (RequestDownload compressType i withChecksum d) w (λ r w',
    match r with
    | Ok _ => open_bodies w' = S (open_bodies w)
    | Err e => open_bodies w' = open_bodies w ∨
        withChecksum = true ∧ open_bodies w' = S (open_bodies w) ∧
        ∃ rq resp w1, http_Do rq w = (Ok resp, w1) ∧ ParseDigest (rs_Header resp) = Err e
    | Panic _ => False
    end).
Proof.
  unfold RequestDownload, HttpClient_Request. cbv zeta. destruct withChecksum; apply post_bind.
  - eapply post_mono; [apply request_spec|]. intros [[header rd]|e|s] w1; [|by left|done].
    intros (Ho & rq & resp & w2 & Hdo & _ & -> & _). apply post_bind.
    unfold post at 1, io_lift. cbn [fst snd].
    destruct (ParseDigest (rs_Header resp)) as [x|e|s] eqn:Hd; [by apply post_ret| |].
    + right. split_and!; [done..|]. by exists rq, resp, w2.
    + revert Hd. unfold ParseDigest. repeat case_match; done.
  - eapply post_mono; [apply request_spec|]. intros [[header rd]|e|s] w1; [|by left|done].
    intros (Ho & _). by apply post_ret.
Qed.
End bodies.

(** * The local source *)

Section local_facts.
Context {W : Type} (dirSrc : Storage W) `{!StorageSpec dirSrc} (xxh3 : bytes → Z).
Context (Do : string → io (ChunkManager * W) Z → io (ChunkManager * W) Z).
Hypothesis Do_alone : ∀ key m s, Do key m s = m s.

(** Reading chunk [i] of a manager that has it. *)
Lemma read_chunk i c b cm w :
  chunks cm !! i = Some c → Forall (range_ok (cm_files cm)) (FileRanges c) →
  chunk_bytes dirSrc w (cm_files cm) (FileRanges c) = Some b →
  ∃ data err, (io_Copy_chunk dirSrc cm (copy_fuel c) (GetChunkReader i) [] w).1
      = Ok (Some (data, err)) ∧
    same_view dirSrc w (io_Copy_chunk dirSrc cm (copy_fuel c) (GetChunkReader i) [] w).2 ∧
    data `prefix_of` b ∧ (err = None → data = b).
Proof.
  intros Hc Hok Hb.
  pose proof (io_Copy_chunk_spec dirSrc cm (copy_fuel c) i c 0 None [] w Hc Hok
    ltac:(done) ltac:(done)) as Hcopy.
  pose proof (io_Copy_chunk_prefix dirSrc cm (copy_fuel c) i c 0 None [] w b Hc Hok Hb) as Hp.
  unfold post in Hcopy. change (GetChunkReader i) with (mkChunkReadCloser i 0 None).
  destruct (io_Copy_chunk _ _ _ _ _ _) as [[[[data err]|]|?|?] w3]; destruct Hcopy as [Hv Hr];
    [|done..]. exists data, err. split_and!; [done..|]. intros ->.
  destruct Hr as (b' & Hb' & ->).
  change (chunk_bytes dirSrc w (cm_files cm) (FileRanges c) = Some b') in Hb'. by simplify_eq.
Qed.

(** What the local downloader's [RequestDownload] returns. It never panics and changes no
    file; if it succeeds, the reader, whenever it is read while the source stays as it is,
    delivers a prefix of the chunk's bytes, all of them unless the storage reports an error,
    and the checksum is the hash of all of them when it was asked for and 0 when not. *)
Lemma LocalDownloader_RequestDownload_spec P i c b cm w withChecksum :
  P i →
  chunks cm !! i = Some c → Forall (range_ok (cm_files cm)) (FileRanges c) →
  chunk_bytes dirSrc w (cm_files cm) (FileRanges c) = Some b →
  checksums_ok dirSrc xxh3 P cm w →
  post (LocalDownloader_RequestDownload dirSrc xxh3 Do i withChecksum) (cm, w) (λ r '(cm', w'),
    same_view dirSrc w w' ∧ checksums_ok dirSrc xxh3 P cm' w' ∧
    chunks cm' = chunks cm ∧ manifest cm' = manifest cm ∧
    match r with
    | Ok (checksum, rd) =>
        checksum = (if withChecksum then xxh3 b else 0%Z) ∧
        ∀ w2, same_view dirSrc w w2 → ∃ data err,
          (io_Copy_chunk dirSrc cm' (copy_fuel c) rd [] w2).1 = Ok (Some (data, err)) ∧
          same_view dirSrc w2 (io_Copy_chunk dirSrc cm' (copy_fuel c) rd [] w2).2 ∧
          data `prefix_of` b ∧ (err = None → data = b)
    | Err _ => True
    | Panic _ => False
    end).
Proof.
  intros HPi Hc Hok Hb Hs.
  assert (∀ cm' w2, chunks cm' = chunks cm → manifest cm' = manifest cm →
    same_view dirSrc w w2 → ∃ data err,
    (io_Copy_chunk dirSrc cm' (copy_fuel c) (GetChunkReader i) [] w2).1 = Ok (Some (data, err)) ∧
    same_view dirSrc w2 (io_Copy_chunk dirSrc cm' (copy_fuel c) (GetChunkReader i) [] w2).2 ∧
    data `prefix_of` b ∧ (err = None → data = b)) as Hread.
  { intros cm' w2 Hch Hman Hv. rewrite Hv in Hb.
    apply read_chunk; unfold cm_files; rewrite ?Hch, ?Hman; done. }
  unfold LocalDownloader_RequestDownload. destruct withChecksum.
  2: { apply post_ret. split_and!; [done..|]. intros w2. by apply Hread. }
  apply post_bind. eapply post_mono.
  { apply post_and; [by eapply (ComputeChunkChecksum_spec _ _ _ Do_alone P i c)|].
    by apply ComputeChunkChecksum_frame. }
  intros r [cm' w'] [(Hv & Hs' & Hr) (Hch & Hman & _)]. destruct r as [x|e|?]; [|done..].
  apply post_ret. destruct Hr as [(b' & Hb' & ->) _]. simplify_eq.
  split_and!; [done..|]. intros w2. by apply Hread.
Qed.
End local_facts.
