(* ===== verification/Network.v ===== *)
(** A peer's client and another peer's server together: the transport hands the request to
    [serve], and any request can be refused or its connection cut at any byte. *)
From S2P Require Import Prelude Bytes GoStrings Types Storage ChunkBuilder ChunkManager ChunkTransfer Statistics Availability Http HttpServer HttpServing PeerDownloader.

(** * URLs of the form http://host/path?query *)

Definition url_split (url : string) : option (string * string * string) :=
  match strings_SplitN2 "/" (strings_TrimPrefix url "http://") with
  | [host; rest] =>
    match strings_SplitN2 "?" rest with
    | [path; query] => Some (host, String "/" path, query)
    | _ => Some (host, String "/" rest, "")
    end
  | _ => None
  end.

(** [r.URL.Query()[key]] *)
Definition url_Query (key query : string) : list string :=
  omap (λ pair, match strings_SplitN2 "=" pair with
    | [k; v] => if decide (url_QueryUnescape k = Some key) then url_QueryUnescape v else None
    | _ => None
    end) (strings_Split "&" query).

Section urls.
Lemma TrimPrefix_app p s : strings_TrimPrefix (p +:+ s) p = s.
Proof.
  unfold strings_TrimPrefix, strings_HasPrefix.
  assert (String.prefix p (p +:+ s) = true ∧ string_drop (String.length p) (p +:+ s) = s)
    as [-> H]; [|done].
  induction p as [|c p [IH1 IH2]]; [by destruct s|]. split; [|done].
  change (String c p +:+ s) with (String c (p +:+ s)). cbn [String.prefix].
  by destruct (ascii_dec c c).
Qed.

Lemma url_split_path host path :
  "/"%char ∉ chars host → "?"%char ∉ chars path →
  url_split ("http://" +:+ host +:+ String "/" path) = Some (host, String "/" path, "").
Proof.
  intros Hh Hp. unfold url_split. rewrite TrimPrefix_app, strings_SplitN2_app by done.
  by rewrite strings_SplitN2_fresh.
Qed.

Lemma url_split_query host path query :
  "/"%char ∉ chars host → "?"%char ∉ chars path →
  url_split ("http://" +:+ host +:+ String "/" (path +:+ String "?" query))
    = Some (host, String "/" path, query).
Proof.
  intros Hh Hp. unfold url_split. rewrite TrimPrefix_app, strings_SplitN2_app by done.
  by rewrite strings_SplitN2_app.
Qed.

Lemma QueryEscape_fresh sep s :
  unreserved sep = false → sep ≠ "+"%char → sep ≠ "%"%char → sep ∉ chars (url_QueryEscape s).
Proof.
  intros Hu Hplus Hpct. induction s as [|c s IH]; [apply not_elem_of_nil|].
  cbn [url_QueryEscape]. destruct (Ascii.eqb c " ").
  - by apply not_elem_of_cons.
  - destruct (unreserved c) eqn:Hc.
    + apply not_elem_of_cons. split; [congruence|done].
    + assert (unreserved (hex_digit (N_of_ascii c / 16)) = true ∧
        unreserved (hex_digit (N_of_ascii c mod 16)) = true) as [H1 H2].
      { clear. by destruct c as [[] [] [] [] [] [] [] []]; vm_compute. }
      repeat (apply not_elem_of_cons; split; [congruence|]). done.
Qed.

Lemma url_Query_single key v :
  "="%char ∉ chars key → "&"%char ∉ chars key → url_QueryUnescape key = Some key →
  url_Query key (key +:+ String "=" (url_QueryEscape v)) = [v].
Proof.
  intros Heq Hamp Hkey. unfold url_Query. rewrite strings_Split_fresh.
  - cbn [omap list_omap]. rewrite strings_SplitN2_app by done.
    by rewrite decide_True, url_QueryUnescape_Escape by done.
  - rewrite chars_app. intros [H|H]%elem_of_app; [done|]. simpl in H.
    apply elem_of_cons in H as [H|H]; [done|]. by apply QueryEscape_fresh in H.
Qed.
End urls.

(** * What a download asks for *)

(** The options of [RequestDownload]. *)
Definition download_options (compressType : string) (withChecksum : bool) : list Http.Option :=
  let options := [WithAcceptEncodingType compressType;
                  WithExpectedContentType "application/octet-stream"] in
  if withChecksum then options ++ [WithWantDigest DefaultDigest] else options.

Lemma RequestDownload_unfold {W} `{HttpTransport W} `{Gozstd} compressType i withChecksum d :
  RequestDownload (W := W) compressType i withChecksum d =
    ('((header, rd) : gmap string (list string) * reader) ←
       request ("http://" +:+ pd_Host d +:+ String "/" ("chunk/" +:+ FormatInt (Z.of_nat i)))
         (download_options compressType withChecksum);
     if withChecksum then checksum ← io_lift (ParseDigest header); mret (checksum, rd)
     else mret (0%Z, rd)).
Proof. by destruct withChecksum. Qed.

Lemma chunk_path_plain i : "?"%char ∉ chars ("chunk/" +:+ FormatInt (Z.of_nat i)).
Proof.
  rewrite chars_app. unfold FormatInt. rewrite (proj2 (Z.ltb_ge _ 0)) by lia.
  assert ("?"%char ∉ chars "chunk/") by (apply (bool_decide_unpack _); by vm_compute).
  intros [Hin|Hin]%elem_of_app; [done|]. apply FormatUint_digits in Hin; [done|by right].
Qed.

(** * The network *)

Record network (V : Type) := mkNetwork
  { nw_server : server V; nw_open : nat; nw_requests : nat }.
Arguments mkNetwork {V}.
Arguments nw_server {V}.
Arguments nw_open {V}.
Arguments nw_requests {V}.

Section transport.
Context {V : Type} `{Gozstd} `{ListCodec} (storage : Storage V) (xxh3 : bytes → Z).
Context (Do : string → io (ChunkManager * V) Z → io (ChunkManager * V) Z).
Context (version : Version) (ServeOnly : bool) (error_String : error → string).
(** The peer's address, what happens to the [k]-th connection (refused, or cut after so many
    bytes), and the peer's clock. *)
Context (peer_host : string) (net : nat → option (option nat)) (clock : nat → Time).

(** The request as it arrives: the Go client offers gzip when nothing was asked for. *)
Definition arriving (rq : Request) (path query : string) : HttpRequest :=
  mkHttpRequest path
    match rq_Header rq !! "Accept-Encoding" with
    | Some _ => rq_Header rq
    | None => Header_Set (rq_Header rq) "Accept-Encoding" "gzip"
    end (url_Query "only_updated_since" query).

Definition peer_Do (rq : Request) : io (network V) Response := λ n,
  let k := nw_requests n in
  match net k, url_split (rq_URL rq) with
  | Some room, Some (host, path, query) =>
    if decide (host = peer_host) then
      let '(s, w) := serve storage xxh3 Do version ServeOnly error_String (clock (2 * k))
                       (clock (2 * k + 1)) (arriving rq path query) (nw_server n)
                       (new_writer room) in
      (Ok (rw_response w), mkNetwork s (S (nw_open n)) (S k))
    else (Err (errors_New "no such host"), mkNetwork (nw_server n) (nw_open n) (S k))
  | _, _ => (Err (errors_New "connection refused"), mkNetwork (nw_server n) (nw_open n) (S k))
  end.

Definition peer_transport : HttpTransport (network V) := {|
  http_Do := peer_Do;
  Body_Close n := (Ok (), mkNetwork (nw_server n) (pred (nw_open n)) (nw_requests n))
|}.

Program Definition peer_transport_laws : @HttpTransportLaws _ peer_transport :=
  @Build_HttpTransportLaws _ peer_transport nw_open _ _.
Next Obligation.
  intros rq n. unfold post. cbn [http_Do peer_transport]. unfold peer_Do.
  destruct (net _); [|done]. destruct (url_split _) as [[[host path] query]|]; [|done].
  case_decide; [|done]. by destruct (serve _ _ _ _ _ _ _ _ _ _ _).
Defined.
Next Obligation. done. Defined.
End transport.

(** * What the client of a peer gets *)

Section peer_client.
Context {V : Type} `{GozstdLaws} `{ListCodecLaws} (storage : Storage V) `{!StorageSpec storage}.
Context (xxh3 : bytes → Z) (Do : string → io (ChunkManager * V) Z → io (ChunkManager * V) Z).
Hypothesis Do_alone : ∀ key m s, Do key m s = m s.
Hypothesis xxh3_range : ∀ b, uint64_range (xxh3 b).
Context (version : Version) (ServeOnly : bool) (error_String : error → string).
Context (peer_host : string) (net : nat → option (option nat)) (clock : nat → Time).
Hypothesis host_plain : "/"%char ∉ chars peer_host.

Local Abbreviation serve := (serve storage xxh3 Do version ServeOnly error_String).
#[local] Instance transport : HttpTransport (network V) :=
  peer_transport storage xxh3 Do version ServeOnly error_String peer_host net clock.

(** A request to the peer: the server handled it, or was not reached. *)
Lemma peer_request_spec url options n path query :
  url_split url = Some (peer_host, path, query) →
  let rq := build_request url (apply_options options default_config) in
  post (request url options) n (λ r n',
    nw_server n' = nw_server n ∧ (∃ e, r = Err e) ∨
    ∃ room, let '(s, w) := serve (clock (2 * nw_requests n)) (clock (2 * nw_requests n + 1))
                             (arriving rq path query) (nw_server n) (new_writer room) in
      nw_server n' = s ∧
      match r with
      | Ok (header, rd) => header = rs_Header (rw_response w) ∧ rd = rs_decoded (rw_response w) ∧
          (200 ≤ rs_StatusCode (rw_response w) < 300)%Z
      | Err _ => True
      | Panic _ => False
      end).
Proof.
  intros Hurl. cbv zeta. unfold request, post. rewrite io_bind_unfold.
  set (rq := build_request _ _). assert (rq_URL rq = url) as Hrq by done.
  cbn [http_Do transport peer_transport]. unfold peer_Do. rewrite Hrq, Hurl. clear Hrq.
  destruct (net (nw_requests n)) as [room|]; [|left; split; [done|by eexists]].
  rewrite decide_True by done.
  right. exists room.
  destruct (serve _ _ _ (nw_server n) (new_writer room)) as [s w]. cbn [fst snd].
  set (resp := rw_response w). destruct (_ || _) eqn:Hst; [done|].
  apply orb_false_iff in Hst as [Hlo%Z.ltb_ge Hhi%Z.leb_gt].
  destruct (checkContentType resp _) as [[]|e|?] eqn:Hct; [done..|].
  by apply checkContentType_no_panic in Hct.
Qed.

(** ** Chunks *)

Lemma serve_chunk now finished r s w i :
  hr_Path r = String "/" ("chunk/" +:+ FormatInt i) →
  serve now finished r s w =
    let '(s, w) := handle_chunk storage xxh3 Do ServeOnly error_String r s w in
    (mkServer (sv_ChunkManager s) (sv_world s) (sv_Statistics s) (sv_Completed s) (sv_UUID s)
       finished, w).
Proof.
  intros Hp. unfold HttpServer.serve. rewrite Hp. cbn [String.eqb Ascii.eqb Bool.eqb].
  unfold strings_HasPrefix, servePointFile. cbn.
  by destruct (FormatInt i).
Qed.

(** A server whose files hold its chunks, and whose cached checksums are true for every chunk
    it can serve. *)
Record server_ok (s : server V) : Prop := {
  so_count : (Z.of_nat (GetChunkCount (sv_ChunkManager s)) < 2 ^ 63)%Z;
  so_chunks i c : chunks (sv_ChunkManager s) !! i = Some c →
    Forall (range_ok (cm_files (sv_ChunkManager s))) (FileRanges c) ∧
    (ranges_len (FileRanges c) < 2 ^ 63)%Z ∧
    is_Some (chunk_bytes storage (sv_world s) (cm_files (sv_ChunkManager s)) (FileRanges c));
  so_sums : checksums_ok storage xxh3 (λ i, serve_GetChunkStatus ServeOnly s i = Ok ChunkStatusDone)
    (sv_ChunkManager s) (sv_world s)
}.

(** What serving may change besides the statistics and the time of the last request: the
    files keep their bytes, and the cached checksums of chunks that can be served may be
    filled in. *)
Record served (s s' : server V) : Prop := {
  sd_chunks : chunks (sv_ChunkManager s') = chunks (sv_ChunkManager s);
  sd_manifest : manifest (sv_ChunkManager s') = manifest (sv_ChunkManager s);
  sd_completed : sv_Completed s' = sv_Completed s;
  sd_uuid : sv_UUID s' = sv_UUID s;
  sd_view : same_view storage (sv_world s) (sv_world s');
  sd_sums j : chunkChecksums (sv_ChunkManager s') !! j = chunkChecksums (sv_ChunkManager s) !! j ∨
    serve_GetChunkStatus ServeOnly s j = Ok ChunkStatusDone
}.

Lemma served_refl (s : server V) : served s s.
Proof. constructor; try done. by left. Qed.

Lemma served_status (s s' : server V) j :
  chunks (sv_ChunkManager s') = chunks (sv_ChunkManager s) → sv_Completed s' = sv_Completed s →
  serve_GetChunkStatus ServeOnly s' j = serve_GetChunkStatus ServeOnly s j.
Proof.
  intros Hch Hcd. unfold serve_GetChunkStatus, GetChunkStatus. by rewrite Hch, Hcd.
Qed.

Lemma server_ok_view (s s' : server V) :
  server_ok s → served s s' →
  checksums_ok storage xxh3 (λ i, serve_GetChunkStatus ServeOnly s i = Ok ChunkStatusDone)
    (sv_ChunkManager s') (sv_world s') → server_ok s'.
Proof.
  intros [Hn Hc _] [Hch Hman Hcd _ Hv _] Hs. unfold cm_files, GetChunkCount in *.
  constructor; unfold cm_files, GetChunkCount; rewrite ?Hch, ?Hman; [done| |].
  - intros i c Hi. destruct (Hc i c Hi) as (? & ? & ?). split_and!; [done..|]. by rewrite <- Hv.
  - destruct Hs as [Hl Hs]. split; [done|]. intros i c x Hst.
    rewrite (served_status s) in Hst by done.
    by apply Hs.
Qed.

(** What of them arrives. *)
Lemma download_want_digest compressType (withChecksum : bool) url path query :
  getWantDigest (arriving (build_request url (apply_options
    (download_options compressType withChecksum) default_config)) path query) = withChecksum.
Proof.
  unfold arriving, build_request, getWantDigest, Header_Set. destruct withChecksum; cbn;
    destruct (decide (compressType = EncodingTypeZstd)); simplify_map_eq; by vm_compute.
Qed.

Lemma handle_chunk_request r s room i :
  hr_Path r = String "/" ("chunk/" +:+ FormatInt (Z.of_nat i)) → (Z.of_nat i < 2 ^ 63)%Z →
  server_ok s →
  let '(s', w') := handle_chunk storage xxh3 Do ServeOnly error_String r s (new_writer room) in
  server_ok s' ∧ served s s' ∧
  ((200 ≤ rs_StatusCode (rw_response w') < 300)%Z →
    serve_GetChunkStatus ServeOnly s i = Ok ChunkStatusDone ∧
    ∃ c b, chunks (sv_ChunkManager s) !! i = Some c ∧
      chunk_bytes storage (sv_world s) (cm_files (sv_ChunkManager s)) (FileRanges c) = Some b ∧
      chunk_response xxh3 b (getWantDigest r) (rw_response w')).
Proof.
  intros Hp Hi Hok. pose proof Hok as [Hn Hc Hs].
  assert (strings_TrimPrefix (hr_Path r) servePointFile = FormatInt (Z.of_nat i)) as Hpath.
  { rewrite Hp. apply (TrimPrefix_app "/chunk/"). }
  pose proof (handle_chunk_context storage xxh3 Do ServeOnly error_String r s (new_writer room))
    as Hctx.
  destruct (chunk_refusal ServeOnly r s) as [e|] eqn:Href.
  - pose proof (handle_chunk_refused storage xxh3 Do ServeOnly error_String r s room e Href) as H'.
    destruct (handle_chunk _ _ _ _ _ _ _ _) as [s' w']. destruct H' as (Hst & _ & Hcm & Hw).
    destruct Hctx as [Hcd Huu]. cbn [fst] in Hcd, Huu.
    assert (served s s') as Hsd by (constructor; rewrite ?Hcm, ?Hw; by try left).
    split_and!; [|done|by rewrite Hst; intros []].
    eapply server_ok_view; [done..|]. by rewrite Hcm, Hw.
  - unfold chunk_refusal in Href. rewrite Hpath, Atoi_FormatInt in Href by lia.
    case_bool_decide as Hlt; [|done]. rewrite Nat2Z.id in Href.
    destruct (serve_GetChunkStatus ServeOnly s i) as [[]|?|?] eqn:Hst; try done.
    destruct (lookup_lt_is_Some_2 (chunks (sv_ChunkManager s)) i) as [c Hci].
    { unfold GetChunkCount in Hlt. lia. }
    destruct (Hc i c Hci) as (Hro & Hlen & b & Hb).
    pose proof (handle_chunk_serves storage xxh3 Do Do_alone xxh3_range ServeOnly error_String _ r s
      room i c b Hst Hpath Hn Hst Hci Hro Hlen Hb Hs) as H'.
    destruct (handle_chunk _ _ _ _ _ _ _ _) as [s' w'].
    destruct H' as (Hv & Hch & Hman & Hj & Hs' & Hresp), Hctx as [Hcd Huu].
    cbn [fst] in Hcd, Huu. assert (served s s') as Hsd.
    { constructor; try done. intros j. destruct (decide (j = i)) as [->|Hne]; [by right|left; auto]. }
    split_and!; [by eapply server_ok_view|done|]. intros Hcode. split; [done|].
    exists c, b. split_and!; [done..|]. destruct Hresp as [?|[_ H500]]; [done|].
    rewrite H500 in Hcode. by destruct Hcode.
Qed.

Lemma RequestDownload_spec compressType d n i withChecksum :
  pd_Host d = peer_host → (Z.of_nat i < 2 ^ 63)%Z → server_ok (nw_server n) →
  post (RequestDownload compressType i withChecksum d) n (λ r n',
    server_ok (nw_server n') ∧ served (nw_server n) (nw_server n') ∧
    match r with
    | Ok (checksum, rd) =>
        serve_GetChunkStatus ServeOnly (nw_server n) i = Ok ChunkStatusDone ∧
        ∃ c b, chunks (sv_ChunkManager (nw_server n)) !! i = Some c ∧
          chunk_bytes storage (sv_world (nw_server n))
            (cm_files (sv_ChunkManager (nw_server n))) (FileRanges c) = Some b ∧
          rd_data rd `prefix_of` b ∧ checksum = if withChecksum then xxh3 b else 0%Z
    | Err _ => True
    | Panic _ => False
    end).
Proof.
  intros Hhost Hi Hok.
  rewrite RequestDownload_unfold, Hhost. set (opts := download_options compressType withChecksum).
  set (url := "http://" +:+ peer_host +:+ String "/" ("chunk/" +:+ FormatInt (Z.of_nat i))).
  apply post_bind. eapply post_mono.
  { apply (peer_request_spec url opts n). by apply url_split_path, chunk_path_plain. }
  intros r n'. intros [[Hsv [e ->]]|(room & Hserve)].
  { rewrite Hsv. split_and!; [done|apply served_refl|done]. }
  rewrite serve_chunk with (i := Z.of_nat i) in Hserve by done.
  set (hr := arriving _ _ _) in *.
  pose proof (handle_chunk_request hr (nw_server n) room i eq_refl Hi Hok) as Hreq.
  destruct (handle_chunk _ _ _ _ _ hr _ _) as [s' w']. destruct Hserve as [Hsv Hr].
  destruct Hreq as (Hok' & Hv & Hresp).
  assert (server_ok (nw_server n')) as Hok'' by (rewrite Hsv; by destruct Hok').
  assert (served (nw_server n) (nw_server n')) as Hv' by (rewrite Hsv; by destruct Hv).
  destruct r as [[header rd]|e|?]; [|done..]. destruct Hr as (-> & -> & Hcode).
  destruct (Hresp Hcode) as (Hst & c & b & Hc & Hb & _ & _ & Hpre & _ & Hdig).
  unfold hr, opts in Hdig. rewrite download_want_digest in Hdig.
  destruct withChecksum.
  - rewrite (Hdig eq_refl). apply post_ret. split_and!; [done..|]. by exists c, b.
  - apply post_ret. split_and!; [done..|]. by exists c, b.
Qed.

(** C4: what a peer's [RequestDownload] returns, across the network and the peer's server.
    It never panics; the peer's files and chunks are as before, with at most a true checksum
    cached for a chunk it may serve; and if it succeeds, the chunk was Done at the peer, the stream carries a prefix of the peer's bytes of that chunk
    whatever the encoding and wherever the connection broke, and the checksum is the hash of
    all of them when it was asked for and 0 when not. *)
Theorem RequestDownload_correct compressType d n i withChecksum :
  pd_Host d = peer_host → (Z.of_nat i < 2 ^ 63)%Z → server_ok (nw_server n) →
  post (RequestDownload compressType i withChecksum d) n (λ r n',
    server_ok (nw_server n') ∧ served (nw_server n) (nw_server n') ∧
    match r with
    | Ok (checksum, rd) =>
        serve_GetChunkStatus ServeOnly (nw_server n) i = Ok ChunkStatusDone ∧
        ∃ c b, chunks (sv_ChunkManager (nw_server n)) !! i = Some c ∧
          chunk_bytes storage (sv_world (nw_server n))
            (cm_files (sv_ChunkManager (nw_server n))) (FileRanges c) = Some b ∧
          rd_data rd `prefix_of` b ∧ checksum = if withChecksum then xxh3 b else 0%Z
    | Err _ => True
    | Panic _ => False
    end).
Proof. apply RequestDownload_spec. Qed.

(** ** The available list *)

Lemma serve_chunk_list now finished r s w :
  hr_Path r = "/chunk" →
  serve now finished r s w =
    let '(s, w) := handle_chunk_list error_String now r s w in
    (mkServer (sv_ChunkManager s) (sv_world s) (sv_Statistics s) (sv_Completed s) (sv_UUID s)
       finished, w).
Proof. intros Hp. unfold HttpServer.serve. by rewrite Hp. Qed.

Lemma available_url_split d :
  pd_Host d = peer_host →
  url_split (available_url d) = Some (peer_host, "/chunk",
    "only_updated_since" +:+ String "=" (url_QueryEscape (time_Format (pd_LastUpdatedAt d)))).
Proof.
  intros Hh. unfold available_url. rewrite Hh.
  apply (url_split_query peer_host "chunk"); [done|]. apply (bool_decide_unpack _). by vm_compute.
Qed.

Lemma arriving_since rq d :
  time_valid (pd_LastUpdatedAt d) →
  getOnlyUpdatedSince (arriving rq "/chunk"
    ("only_updated_since" +:+ String "=" (url_QueryEscape (time_Format (pd_LastUpdatedAt d)))))
  = Ok (pd_LastUpdatedAt d).
Proof.
  intros [Hne Hp]%time_roundtrip. unfold getOnlyUpdatedSince, arriving. cbn [hr_onlyUpdatedSince].
  rewrite url_Query_single by (done || (apply (bool_decide_unpack _); by vm_compute)).
  by rewrite decide_True by done.
Qed.

(** The list the server sends, or an error. *)
Lemma request_available_list compressType choice cm d n :
  pd_Host d = peer_host → time_valid (pd_LastUpdatedAt d) →
  time_valid (clock (2 * nw_requests n)) →
  post (UpdatePeerAvailableList compressType choice cm d) n (λ r n',
    sv_ChunkManager (nw_server n') = sv_ChunkManager (nw_server n) ∧
    served (nw_server n) (nw_server n') ∧
    ((∃ e, r = Err e) ∨
     r = receiveAvailableList choice cm (server_list (clock (2 * nw_requests n))
           (pd_LastUpdatedAt d) (nw_server n)) d)).
Proof.
  intros Hh Hd Hnow. unfold UpdatePeerAvailableList, RequestBody, RequestBodyWithContext.
  apply post_bind. apply post_bind.
  eapply post_mono; [apply (peer_request_spec _ _ n _ _ (available_url_split d Hh))|].
  intros r n' [[Hsv [e ->]]|(room & Hserve)].
  { rewrite Hsv. split_and!; [done|apply served_refl|by eauto]. }
  rewrite serve_chunk_list in Hserve by done. set (hr := arriving _ _ _) in *.
  pose proof (handle_chunk_list_client error_String (clock (2 * nw_requests n)) _ hr (nw_server n)
    room Hnow (arriving_since _ d Hd)) as Hlist.
  pose proof (handle_chunk_list_context error_String (clock (2 * nw_requests n)) hr (nw_server n)
    (new_writer room)) as Hctx.
  destruct (handle_chunk_list _ _ hr _ _) as [s' w']. destruct Hserve as [Hsv Hr].
  destruct Hlist as (Hcm & Hw & Hlist), Hctx as [Hcd Huu]. cbn [fst] in Hcd, Huu.
  assert (served (nw_server n) (nw_server n')) as Hsd.
  { rewrite Hsv. constructor; cbn; rewrite ?Hcm, ?Hw; by try left. }
  destruct r as [[header rd]|e|?]; [|rewrite Hsv; split_and!; [done|by rewrite Hsv in Hsd|by eauto]|done].
  destruct Hr as (-> & -> & Hcode). destruct (Hlist Hcode) as [_ Hdoc].
  eapply post_run; [done|]. unfold post, io_lift. cbn [fst snd nw_server].
  assert (sv_ChunkManager (nw_server n') = sv_ChunkManager (nw_server n)) as Hcm'
    by (by rewrite Hsv).
  destruct (io_ReadAll _) as [content|e|?] eqn:Hread; [|by eauto 6|].
  - rewrite !io_bind_unfold. cbn [fst snd]. rewrite (Hdoc _ eq_refl). by eauto 6.
  - unfold io_ReadAll in Hread. by destruct (rd_err _).
Qed.

(** What a server announces beyond what was known at [since]. *)
Definition announces (s : server V) (since : Time) (i : nat) : Prop :=
  if sv_Completed s then i < GetChunkCount (sv_ChunkManager s)
  else ∃ c, chunks (sv_ChunkManager s) !! i = Some c ∧ GetStatus c = ChunkStatusDone ∧
         (since < GetUpdatedAt c)%Z.

Lemma server_list_indices cm now since s i :
  GetChunkCount (sv_ChunkManager s) = GetChunkCount cm →
  Z.of_nat i ∈ al_indices cm (server_list now since s) ↔ announces s since i.
Proof.
  intros Hn. unfold al_indices, server_list, announces. destruct (sv_Completed s).
  - cbn [IsCompleted]. rewrite list_elem_of_fmap. split.
    + intros (j & ->%Nat2Z.inj & Hj%elem_of_seq). lia.
    + intros Hi. exists i. split; [done|]. apply elem_of_seq. lia.
  - cbn [IsCompleted TransferChunkIndexList]. rewrite list_elem_of_fmap.
    rewrite <- GetStatusDoneChunks_spec. split; [by intros (j & ->%Nat2Z.inj & Hj)|eauto].
Qed.

Lemma server_list_range cm now since (s : server V) :
  GetChunkCount (sv_ChunkManager s) = GetChunkCount cm →
  Forall (λ z, 0 ≤ z < Z.of_nat (GetChunkCount cm))%Z (al_indices cm (server_list now since s)).
Proof.
  intros Hn. apply Forall_forall. intros z Hz.
  assert (∃ i, z = Z.of_nat i) as [i ->].
  { revert Hz. unfold al_indices, server_list. destruct (sv_Completed s); cbn;
      intros (j & -> & _)%list_elem_of_fmap; eauto. }
  apply (server_list_indices cm now since s i Hn) in Hz. unfold announces in Hz.
  destruct (sv_Completed s); [lia|]. destruct Hz as (c & Hc%lookup_lt_Some & _).
  unfold GetChunkCount in *. lia.
Qed.

(** C20: one round of following a peer that has the same manifest. The receiver never panics;
    if the round succeeds, whatever the encoding, the receiver knows exactly what it knew
    before and what the server announces: all chunks when the peer has completed, and
    otherwise the Done chunks stamped after the last round. The chunks that are new to it,
    each once, are what it appended to its queue. The server's state did not change. *)
Theorem UpdatePeerAvailableList_correct compressType choice cm d n :
  pd_Host d = peer_host → time_valid (pd_LastUpdatedAt d) →
  time_valid (clock (2 * nw_requests n)) →
  pd_ok cm d → GetChunkCount (sv_ChunkManager (nw_server n)) = GetChunkCount cm →
  post (UpdatePeerAvailableList compressType choice cm d) n (λ r n',
    sv_ChunkManager (nw_server n') = sv_ChunkManager (nw_server n) ∧
    match r with
    | Ok d' => pd_LastUpdatedAt d' = clock (2 * nw_requests n) ∧
        (∀ i, announced 0 (DPeer d') i = true ↔ announced 0 (DPeer d) i = true ∨
          announces (nw_server n) (pd_LastUpdatedAt d) i) ∧
        ∃ new, pd_Queue d' ≡ₚ pd_Queue d ++ new ∧ NoDup new ∧
          ∀ i, i ∈ new ↔ announced 0 (DPeer d) i = false ∧ announced 0 (DPeer d') i = true
    | Err _ => True
    | Panic _ => False
    end).
Proof.
  intros Hh Hd Hnow Hok Hcount.
  eapply post_mono; [by apply request_available_list|]. intros r n' (Hcm & _ & Hr). split; [done|].
  destruct Hr as [[e ->]| ->]; [done|].
  destruct (receiveAvailableList_spec choice cm (server_list (clock (2 * nw_requests n))
    (pd_LastUpdatedAt d) (nw_server n)) d Hok) as (d' & new & -> & Hq & Hnd & Hnew & Hann & Ht & _).
  { by apply server_list_range. }
  split_and!; [rewrite Ht; unfold server_list; by destruct (sv_Completed _)| |by exists new].
  intros i. rewrite Hann. by rewrite server_list_indices.
Qed.
End peer_client.
