(* ===== verification/Readable.v ===== *)
(** Requests that succeed: over a connection that holds, a server whose storage can be read
    sends the whole chunk, and one that has completed the whole list. *)
From S2P Require Import Prelude Bytes GoStrings Types Storage ChunkBuilder ChunkManager ChunkTransfer Statistics Availability Http HttpServer HttpServing PeerDownloader Network.

(** * Reading a chunk *)

Section reading.
Context {W : Type} (st : Storage W) `{!StorageSpec st, !StorageReadable st}.

(** The files of the ranges exist. *)
Lemma chunk_bytes_inode w files l r f b :
  chunk_bytes st w files l = Some b → r ∈ l → files !! FileIndex r = Some f →
  is_Some (st_inode st w (FileEntry_Name f)).
Proof.
  intros Hb Hr Hf. revert b Hb. induction l as [|r' l IH]; intros b; cbn [chunk_bytes].
  { by apply not_elem_of_nil in Hr. }
  apply elem_of_cons in Hr as [<-|Hr].
  - unfold range_bytes, content. rewrite Hf. simpl. by destruct (st_inode st w _).
  - destruct (range_bytes _ _ _ _); [|done]. simpl.
    destruct (chunk_bytes st w files l) as [b'|]; [|done]. intros _. by eapply IH.
Qed.

Lemma io_Copy_chunk_readable cm fuel i c k o dst w b :
  chunks cm !! i = Some c → Forall (range_ok (cm_files cm)) (FileRanges c) →
  chunk_bytes st w (cm_files cm) (FileRanges c) = Some b → st_readable st w →
  (∀ rd, o = Some rd → rd_err rd = None) →
  post (io_Copy_chunk st cm fuel (mkChunkReadCloser i k o) dst) w (λ r w',
    st_readable st w' ∧ ∀ d e, r ≠ Ok (Some (d, Some e))).
Proof.
  intros Hc Hok. revert k o dst w. induction fuel as [|fuel IH]; intros k o dst w Hb Hw Ho; [done|].
  assert (∀ k rd dst w, chunk_bytes st w (cm_files cm) (FileRanges c) = Some b →
    st_readable st w → rd_err rd = None →
    post (io_Copy_chunk st cm (S fuel) (mkChunkReadCloser i k (Some rd)) dst) w (λ r w',
      st_readable st w' ∧ ∀ d e, r ≠ Ok (Some (d, Some e)))) as Hopen.
  { clear k o dst w Hb Hw Ho. intros k rd dst w Hb Hw Hrd. cbn [io_Copy_chunk].
    pose proof (Read_spec (Z.to_nat 32768) rd ltac:(lia)) as HR.
    eapply post_run; [apply chunkRead_opened|].
    destruct (Read (Z.to_nat 32768) rd) as [[data [e|]] rd'].
    - destruct HR as (_ & -> & -> & ->). rewrite Hrd. by apply IH.
    - destruct HR as (_ & _ & Herr). apply IH; [done..|]. intros ? [= <-]. congruence. }
  destruct o as [rd|]; [by apply Hopen; [..|apply Ho]|].
  destruct (FileRanges c !! k) as [r|] eqn:Hr.
  - pose proof (proj1 (Forall_lookup _ _) Hok _ _ Hr) as Hrok.
    destruct (lookup_lt_is_Some_2 (cm_files cm) (FileIndex r)) as [f Hf]; [by apply Hrok|].
    pose proof Hrok as (_ & Hro & He).
    pose proof (GetReader_spec w (FileEntry_Name f) (StartOffset r) (range_len r)
      ltac:(lia) ltac:(unfold range_len; lia)) as Hg.
    pose proof (GetReader_readable w (FileEntry_Name f) (StartOffset r) (range_len r) Hw
      ltac:(eapply chunk_bytes_inode; [done|by eapply list_elem_of_lookup_2|done]) ltac:(lia)
      ltac:(unfold range_len; lia)) as Hg'.
    unfold post in Hg, Hg' |- *. rewrite (io_Copy_closed _ _ _ _ _ _ _ _ _ _ Hc Hr Hf Hrok).
    destruct (GetReader st _ _ _ w) as [res w1]. cbn [fst snd] in *.
    destruct Hg' as (Hw1 & rd & -> & Hrd). destruct Hg as (Hi & Hd & _).
    assert (same_view st w w1) as Hv by done. apply Hopen; [by rewrite <- Hv|done..].
  - cbn [io_Copy_chunk]. unfold chunkRead, open_range.
    cbn [crc_readCloser crc_chunkIndex crc_fileRangeIndex].
    unfold post, io_lift, index_slice. rewrite Hc.
    unfold mbind, io_mbind, io_bind_def. by rewrite Hr.
Qed.

(** From its beginning to its end. *)
Lemma read_chunk_readable cm i c w b :
  chunks cm !! i = Some c → Forall (range_ok (cm_files cm)) (FileRanges c) →
  chunk_bytes st w (cm_files cm) (FileRanges c) = Some b → st_readable st w →
  ∃ w', io_Copy_chunk st cm (copy_fuel c) (GetChunkReader i) [] w = (Ok (Some (b, None)), w') ∧
    same_view st w w' ∧ st_readable st w'.
Proof.
  intros Hc Hok Hb Hw. change (GetChunkReader i) with (mkChunkReadCloser i 0 None).
  pose proof (io_Copy_chunk_readable cm (copy_fuel c) i c 0 None [] w b Hc Hok Hb Hw ltac:(done))
    as Hread.
  pose proof (io_Copy_chunk_spec st cm (copy_fuel c) i c 0 None [] w Hc Hok ltac:(done) ltac:(done))
    as Hcopy.
  unfold post in Hread, Hcopy. destruct (io_Copy_chunk _ _ _ _ _ _) as [res w'].
  cbn [fst snd] in *. destruct Hread as [Hw' Hne], Hcopy as [Hv Hres]. exists w'.
  destruct res as [[[d [e|]]|]|?|?]; try done; [destruct (Hne d e eq_refl)|].
  destruct Hres as (b' & Hb' & ->).
  change (chunk_bytes st w (cm_files cm) (FileRanges c) = Some b') in Hb'. by simplify_eq.
Qed.
End reading.

(** * Checksums *)

Section checksum.
Context {W : Type} (st : Storage W) `{!StorageSpec st, !StorageReadable st} (xxh3 : bytes → Z).
Context (Do : string → io (ChunkManager * W) Z → io (ChunkManager * W) Z).
Hypothesis Do_alone : ∀ key m s, Do key m s = m s.

Lemma ComputeChunkChecksum_readable i c cm w b :
  chunks cm !! i = Some c → length (chunkChecksums cm) = length (chunks cm) →
  Forall (range_ok (cm_files cm)) (FileRanges c) →
  chunk_bytes st w (cm_files cm) (FileRanges c) = Some b → st_readable st w →
  post (ComputeChunkChecksum st xxh3 Do i) (cm, w) (λ res '(_, w'),
    is_ok res = true ∧ st_readable st w').
Proof.
  intros Hc Hlen Hok Hb Hw.
  destruct (lookup_lt_is_Some_2 (chunkChecksums cm) i) as [x Hx].
  { rewrite Hlen. by eapply lookup_lt_Some. }
  unfold ComputeChunkChecksum. eapply post_run; [done|].
  eapply post_run; [unfold io_lift, GetChunkChecksum; by rewrite (index_slice_lookup _ _ _ Hx)|].
  destruct (negb (x =? 0)%Z) eqn:Hnz; [done|]. unfold post. rewrite Do_alone.
  change (post (compute_chunk_checksum st xxh3 i) (cm, w) (λ res '(_, w'),
    is_ok res = true ∧ st_readable st w')). unfold compute_chunk_checksum.
  eapply post_run; [done|].
  eapply post_run; [unfold io_lift, GetChunkChecksum; by rewrite (index_slice_lookup _ _ _ Hx)|].
  rewrite Hnz, Hc. destruct (read_chunk_readable st cm i c w b Hc Hok Hb Hw) as (w' & Hread & _ & Hw').
  eapply post_run; [unfold lift_storage; by rewrite Hread|].
  eapply post_run; [done|].
  eapply post_run; [unfold io_lift, SetChunkChecksum; by rewrite (index_slice_lookup _ _ _ Hx)|].
  by eapply post_run.
Qed.

(** The local downloader, which leaves the reading to its caller. *)
Lemma LocalDownloader_RequestDownload_readable i c cm w b withChecksum :
  chunks cm !! i = Some c → checksums_ok st xxh3 (λ _, True) cm w →
  Forall (range_ok (cm_files cm)) (FileRanges c) →
  chunk_bytes st w (cm_files cm) (FileRanges c) = Some b → st_readable st w →
  ∃ checksum cm1 w1, LocalDownloader_RequestDownload st xxh3 Do i withChecksum (cm, w)
    = (Ok (checksum, GetChunkReader i), (cm1, w1)) ∧
    same_view st w w1 ∧ st_readable st w1 ∧ chunks cm1 = chunks cm ∧ manifest cm1 = manifest cm.
Proof.
  intros Hc Hsums Hro Hb Hw. unfold LocalDownloader_RequestDownload.
  destruct withChecksum; [|by eexists _, _, _].
  pose proof (ComputeChunkChecksum_readable i c cm w b Hc (proj1 Hsums) Hro Hb Hw) as Hread.
  pose proof (ComputeChunkChecksum_spec st xxh3 Do Do_alone (λ _, True) i c cm w I Hc Hro Hsums) as Hcc.
  pose proof (ComputeChunkChecksum_frame st xxh3 Do Do_alone i cm w) as Hframe.
  unfold post in Hread, Hcc, Hframe. rewrite io_bind_unfold.
  destruct (ComputeChunkChecksum st xxh3 Do i _) as [res [cm1 w1]]. cbn [fst snd] in *.
  destruct Hread as [Hres Hw1], Hcc as (Hv1 & _), Hframe as (Hch & Hman & _).
  destruct res as [x|?|?]; [|done..]. by exists x, cm1, w1.
Qed.
End checksum.

(** * The handler *)

Section handler.
Context {W : Type} `{GozstdLaws} (st : Storage W) `{!StorageSpec st, !StorageReadable st}.
Context (xxh3 : bytes → Z) (Do : string → io (ChunkManager * W) Z → io (ChunkManager * W) Z).
Hypothesis Do_alone : ∀ key m s, Do key m s = m s.
Hypothesis xxh3_range : ∀ b, uint64_range (xxh3 b).
Context (ServeOnly : bool) (error_String : error → string).
Abbreviation sv_files s := (cm_files (sv_ChunkManager s)).

(** A response that carries all of a chunk. *)
Definition whole_response (b : bytes) (resp : Response) : Prop :=
  rs_StatusCode resp = StatusOK ∧ checkContentType resp "application/octet-stream" = Ok () ∧
  rd_data (rs_decoded resp) = b.

Lemma send_chunk_readable i c b encodingType digest s w :
  fresh w → rw_room w = None →
  encodingType = EncodingTypeNone ∨ encodingType = EncodingTypeZstd →
  chunk_headers encodingType (Chunk_Size c) digest w →
  (ranges_len (FileRanges c) < 2 ^ 63)%Z →
  chunks (sv_ChunkManager s) !! i = Some c →
  Forall (range_ok (sv_files s)) (FileRanges c) →
  chunk_bytes st (sv_world s) (sv_files s) (FileRanges c) = Some b → st_readable st (sv_world s) →
  let '(s', w') := send_chunk st i encodingType s w in
  st_readable st (sv_world s') ∧ whole_response b (rw_response w').
Proof.
  intros Hf Hroom Henc (He & Hct & Hdecl & _) Hlen Hc Hok Hb Hw. unfold send_chunk. rewrite Hc.
  cbv zeta.
  destruct (read_chunk_readable st _ i c _ b Hc Hok Hb Hw) as (w1 & -> & _ & Hw1).
  assert (Chunk_Size c = ranges_len (FileRanges c)) as Hsize.
  { apply Chunk_Size_exact; [|done]. eapply Forall_impl; [exact Hok|].
    intros x (_ & ? & _). unfold range_len. lia. }
  destruct (copy_buffer _ w) as [[written werr] w'] eqn:Hcopy. split; [done|].
  eapply copy_buffer_fresh in Hcopy; [|done|].
  2: { rewrite Hdecl. case_decide as E; [|done]. rewrite E, Hsize. by eapply chunk_bytes_le. }
  rewrite Hcopy, Hroom, Hdecl. unfold whole_response, rs_decoded, checkContentType, take_room.
  cbn [rs_StatusCode rs_Header rs_Body].
  rewrite Hct, (encoding_header encodingType w _ Henc He). split; [done|].
  split; [by vm_compute|]. unfold NewEncodingWriteCloser, NewEncodingReadCloser.
  destruct Henc as [-> | ->]; [done|].
  rewrite !(decide_True (P := EncodingTypeZstd = EncodingTypeZstd)) by done.
  rewrite (decide_False (P := EncodingTypeZstd = EncodingTypeNone)) by done.
  rewrite decide_True by done. apply gozstd_stream.
Qed.

(** The whole chunk, and its checksum when it was asked for. *)
Lemma handle_chunk_readable P r s i c b :
  P i → strings_TrimPrefix (hr_Path r) servePointFile = FormatInt (Z.of_nat i) →
  (Z.of_nat (GetChunkCount (sv_ChunkManager s)) < 2 ^ 63)%Z →
  serve_GetChunkStatus ServeOnly s i = Ok ChunkStatusDone →
  chunks (sv_ChunkManager s) !! i = Some c →
  Forall (range_ok (sv_files s)) (FileRanges c) → (ranges_len (FileRanges c) < 2 ^ 63)%Z →
  chunk_bytes st (sv_world s) (sv_files s) (FileRanges c) = Some b →
  checksums_ok st xxh3 P (sv_ChunkManager s) (sv_world s) → st_readable st (sv_world s) →
  let '(s', w') := handle_chunk st xxh3 Do ServeOnly error_String r s (new_writer None) in
  st_readable st (sv_world s') ∧ whole_response b (rw_response w').
Proof.
  intros HPi Hpath Hsmall Hst Hc Hok Hlen Hb Hsums Hw.
  assert (0 ≤ Chunk_Size c < 2 ^ 63)%Z as Hsize.
  { rewrite Chunk_Size_exact; [|eapply Forall_impl; [exact Hok|]|done].
    - pose proof (chunk_bytes_le st _ _ _ _ Hok Hb). lia.
    - intros x (_ & ? & _). unfold range_len. lia. }
  rewrite (handle_chunk_done st xxh3 Do ServeOnly error_String r s None i c) by done.
  pose proof (prepare_chunk_spec r c None Hsize) as Hprep.
  destruct (prepare_chunk r c None) as [encodingType w].
  destruct Hprep as (Henc & Hf & Hroom & Hnone & Hdig).
  destruct (getWantDigest r); [|by eapply send_chunk_readable].
  pose proof (ComputeChunkChecksum_spec st xxh3 Do Do_alone P i c (sv_ChunkManager s)
    (sv_world s) HPi Hc Hok Hsums) as Hcc.
  pose proof (ComputeChunkChecksum_frame st xxh3 Do Do_alone i (sv_ChunkManager s)
    (sv_world s)) as Hframe.
  pose proof (ComputeChunkChecksum_readable st xxh3 Do Do_alone i c (sv_ChunkManager s) (sv_world s)
    b Hc (proj1 Hsums) Hok Hb Hw) as Hread.
  unfold post in Hcc, Hframe, Hread.
  destruct (ComputeChunkChecksum st xxh3 Do i _) as [res [cm1 w1]]. cbn [fst snd] in *.
  destruct Hread as [Hres Hw1], Hcc as (Hv & _ & Hx), Hframe as (Hch & Hman & _).
  destruct res as [x|?|?]; [|done..]. destruct Hx as [(b' & _ & ->) _].
  eapply send_chunk_readable; cbn [sv_ChunkManager sv_world]; unfold cm_files; rewrite ?Hch, ?Hman;
    try done; [by apply Hdig|]. by rewrite <- Hv.
Qed.
End handler.

(** * A JSON document *)

Section document.
Context {W : Type} `{GozstdLaws} (error_String : error → string).

Lemma jsonResponse_readable r jsonData (s : server W) :
  (Z.of_nat (length jsonData) < 2 ^ 63)%Z → is_ok (gozstd_CompressLevel jsonData) = true →
  let '(_, w) := jsonResponse error_String r jsonData s (new_writer None) in
  rs_StatusCode (rw_response w) = StatusOK ∧
  checkContentType (rw_response w) "application/json" = Ok () ∧
  io_ReadAll (rs_decoded (rw_response w)) = Ok jsonData.
Proof.
  intros Hlen Hz. unfold jsonResponse, setEncodingType.
  set (encodingType := GetPreferredEncodingType _).
  pose proof (preferred_cases (default [] (hr_Header r !! "Accept-Encoding"))) as Henc.
  fold encodingType in Henc.
  assert (∃ body, NewBufferEncodingReader jsonData encodingType
    = Ok (body, Z.of_nat (length body))) as [body Hbody].
  { unfold NewBufferEncodingReader. case_decide; [|by eexists].
    destruct (gozstd_CompressLevel jsonData); [by eexists|done..]. }
  rewrite Hbody. destruct (encoded_body _ _ _ Henc Hbody Hlen) as (Hl & Hd & He).
  pose proof (λ s, json_copy_response (W := W) error_String encodingType body s None Henc Hl) as Hcopy.
  unfold json_writer in Hcopy. destruct (copy_buffer body _) as [[written err] w].
  specialize (Hcopy (sv_add (Z.of_nat written) s)). cbv zeta in Hcopy.
  destruct Hcopy as (Hst & Hct & Hdec). rewrite decide_True in Hdec by done.
  cbn [take_room] in Hdec.
  destruct err as [err|]; [destruct (errorResponse _ _ err _ w) as [s' w']|].
  all: cbn [snd] in *; rewrite Hdec; unfold io_ReadAll; by rewrite He, Hd.
Qed.
End document.

(** * Across the network *)

Section request.
Context {V : Type} `{GozstdLaws} `{ListCodecLaws} (storage : Storage V) `{!StorageSpec storage}.
Context `{!StorageReadable storage} (xxh3 : bytes → Z).
Context (Do : string → io (ChunkManager * V) Z → io (ChunkManager * V) Z).
Hypothesis Do_alone : ∀ key m s, Do key m s = m s.
Hypothesis xxh3_range : ∀ b, uint64_range (xxh3 b).
Context (version : Version) (ServeOnly : bool) (error_String : error → string).
Context (peer_host : string) (net : nat → option (option nat)) (clock : nat → Time).
Hypothesis host_plain : "/"%char ∉ chars peer_host.
#[local] Instance readable_transport : HttpTransport (network V) :=
  peer_transport storage xxh3 Do version ServeOnly error_String peer_host net clock.

(** A request over a connection that holds is answered with what the server sends. *)
Lemma peer_request_answered url options n path query :
  url_split url = Some (peer_host, path, query) → net (nw_requests n) = Some None →
  let rq := build_request url (apply_options options default_config) in
  let '(s, w) := serve storage xxh3 Do version ServeOnly error_String (clock (2 * nw_requests n))
                   (clock (2 * nw_requests n + 1)) (arriving rq path query) (nw_server n)
                   (new_writer None) in
  rs_StatusCode (rw_response w) = StatusOK →
  checkContentType (rw_response w)
    (cfg_expectedContentType (apply_options options default_config)) = Ok () →
  ∃ n', request url options n = (Ok (rs_Header (rw_response w), rs_decoded (rw_response w)), n') ∧
    nw_server n' = s.
Proof.
  intros Hurl Hnet. cbv zeta. unfold request. rewrite io_bind_unfold.
  set (rq := build_request _ _). assert (rq_URL rq = url) as Hrq by done.
  cbn [http_Do readable_transport peer_transport]. unfold peer_Do. rewrite Hrq, Hurl, Hnet.
  rewrite decide_True by done. clear Hrq.
  destruct (serve _ _ _ _ _ _ _ _ _ _ _) as [s w]. intros Hst Hct. cbn [fst snd].
  rewrite Hst. cbn. rewrite Hct. by eexists.
Qed.

Lemma RequestDownload_readable compressType d n i withChecksum c b :
  pd_Host d = peer_host → (Z.of_nat i < 2 ^ 63)%Z → net (nw_requests n) = Some None →
  server_ok storage xxh3 ServeOnly (nw_server n) → st_readable storage (sv_world (nw_server n)) →
  serve_GetChunkStatus ServeOnly (nw_server n) i = Ok ChunkStatusDone →
  chunks (sv_ChunkManager (nw_server n)) !! i = Some c →
  chunk_bytes storage (sv_world (nw_server n)) (cm_files (sv_ChunkManager (nw_server n)))
    (FileRanges c) = Some b →
  post (RequestDownload compressType i withChecksum d) n (λ r n',
    st_readable storage (sv_world (nw_server n')) ∧
    ∃ checksum rd, r = Ok (checksum, rd) ∧ rd_data rd = b).
Proof.
  intros Hhost Hi Hnet Hok Hw Hst Hc Hb. rewrite RequestDownload_unfold, Hhost.
  set (opts := download_options compressType withChecksum).
  set (url := "http://" +:+ peer_host +:+ String "/" ("chunk/" +:+ FormatInt (Z.of_nat i))).
  pose proof (peer_request_answered url opts n ("/chunk/" +:+ FormatInt (Z.of_nat i)) ""
    ltac:(by apply url_split_path, chunk_path_plain) Hnet) as Hans. cbv zeta in Hans.
  rewrite (serve_chunk storage xxh3 Do version ServeOnly error_String _ _ _ _ _ (Z.of_nat i)) in Hans
    by done.
  set (hr := arriving _ _ _) in *. pose proof Hok as [Hn Hchunks Hsums].
  destruct (Hchunks i c Hc) as (Hro & Hlen & _).
  pose proof (handle_chunk_readable storage xxh3 Do Do_alone xxh3_range ServeOnly error_String
    _ hr (nw_server n) i c b Hst (TrimPrefix_app "/chunk/" _) Hn Hst Hc Hro Hlen Hb Hsums Hw) as Hwhole.
  pose proof (handle_chunk_request storage xxh3 Do Do_alone xxh3_range ServeOnly error_String hr
    (nw_server n) None i eq_refl Hi Hok) as Hreq.
  destruct (handle_chunk _ _ _ _ _ hr _ _) as [s' w'].
  destruct Hwhole as (Hw' & Hcode & Hct & Hdata), Hreq as (_ & _ & Hresp).
  destruct (Hresp ltac:(by rewrite Hcode)) as (_ & c' & b' & _ & _ & _ & _ & _ & _ & Hdig).
  destruct Hans as (n' & Hrun & Hn'); [done|by destruct withChecksum|].
  unfold post. rewrite (io_bind_ok _ _ _ _ _ Hrun).
  assert (st_readable storage (sv_world (nw_server n'))) as Hw2 by (by rewrite Hn').
  unfold hr, opts in Hdig. rewrite download_want_digest in Hdig. destruct withChecksum.
  - rewrite (Hdig eq_refl). split; [done|]. by eexists _, _.
  - split; [done|]. by eexists _, _.
Qed.

(** The list of a server that has everything. *)
Lemma UpdatePeerAvailableList_readable compressType choice cm d n b :
  let al := mkAvailableList (clock (2 * nw_requests n)) true [] in
  pd_Host d = peer_host → net (nw_requests n) = Some None → sv_Completed (nw_server n) = true →
  time_valid (Timestamp al) → json_Marshal al = Ok b → is_ok (gozstd_CompressLevel b) = true →
  ∃ n', UpdatePeerAvailableList compressType choice cm d n
          = (receiveAvailableList choice cm al d, n') ∧
    sv_world (nw_server n') = sv_world (nw_server n) ∧ sv_Completed (nw_server n') = true.
Proof.
  intros al Hhost Hnet Hcd Ht Hb Hz. destruct (json_roundtrip al b Ht Hb) as [Hl Hu].
  unfold UpdatePeerAvailableList, RequestBody, RequestBodyWithContext.
  set (opts := [_; _]).
  pose proof (peer_request_answered (available_url d) opts n _ _
    (available_url_split peer_host host_plain d Hhost) Hnet) as Hans. cbv zeta in Hans.
  rewrite (serve_chunk_list storage xxh3 Do version ServeOnly error_String) in Hans by done.
  set (hr := arriving _ _ _) in *.
  pose proof (handle_chunk_list_context error_String (clock (2 * nw_requests n)) hr (nw_server n)
    (new_writer None)) as [Hctx _].
  assert (handle_chunk_list error_String (clock (2 * nw_requests n)) hr (nw_server n)
    (new_writer None) = jsonResponse error_String hr b (nw_server n) (new_writer None)) as Hh.
  { unfold handle_chunk_list. rewrite Hcd. cbn [Timestamp TransferChunkIndexList NewAvailableList].
    unfold availableListResponse. fold al. by rewrite Hb. }
  rewrite Hh in Hans, Hctx. clear Hh.
  pose proof (jsonResponse_readable error_String hr b (nw_server n) Hl Hz) as Hresp.
  pose proof (jsonResponse_client error_String hr b (nw_server n) None Hl) as Hstate.
  destruct (jsonResponse _ hr b _ _) as [s' w'].
  destruct Hresp as (Hcode & Hct & Hread), Hstate as (_ & Hw & _).
  destruct Hans as (n' & Hrun & Hn'); [done|done|].
  rewrite !io_bind_unfold, Hrun. cbn. rewrite Hread, !io_bind_unfold. cbn.
  rewrite io_bind_unfold. unfold io_lift. cbn. rewrite Hu. eexists. split; [done|].
  cbn in *. rewrite Hn'. cbn. by rewrite Hctx.
Qed.
End request.
