(* ===== verification/Peers.v ===== *)
(** Where peers come from: src/src/peers/provider.go, option.go and the four providers. *)
From S2P Require Import Prelude Bytes GoStrings Types Http PeerDownloader.

(** * Package net *)

(** The index of the first [c], and what is after the last. *)
Fixpoint index_byte (c : ascii) (s : string) : option nat :=
  match s with
  | "" => None
  | String x s => if Ascii.eqb x c then Some 0 else S <$> index_byte c s
  end.
Fixpoint last_index_byte (c : ascii) (s : string) : option nat :=
  match s with
  | "" => None
  | String x s =>
    match last_index_byte c s with
    | Some i => Some (S i)
    | None => if Ascii.eqb x c then Some 0 else None
    end
  end.

Definition addr_error (hostport why : string) : result (string * string) :=
  Err (fmt_Errorf "address %s: %s" [AStr hostport; AStr why]).

Definition net_SplitHostPort (hostport : string) : result (string * string) :=
  match last_index_byte ":" hostport with
  | None => addr_error hostport "missing port in address"
  | Some i =>
    let finish host j k :=
      if decide (is_Some (index_byte "[" (string_drop j hostport))) then
        addr_error hostport "unexpected '[' in address"
      else if decide (is_Some (index_byte "]" (string_drop k hostport))) then
        addr_error hostport "unexpected ']' in address"
      else Ok (host, string_drop (S i) hostport) in
    if strings_HasPrefix "[" hostport then
      match index_byte "]" hostport with
      | None => addr_error hostport "missing ']' in address"
      | Some close =>
        if decide (S close = String.length hostport) then
          addr_error hostport "missing port in address"
        else if decide (S close = i) then
          finish (String.substring 1 (close - 1) hostport) 1 (S close)
        else if decide (String.get (S close) hostport = Some ":"%char) then
          addr_error hostport "too many colons in address"
        else addr_error hostport "missing port in address"
      end
    else
      let host := string_take i hostport in
      if decide (is_Some (index_byte ":" host)) then
        addr_error hostport "too many colons in address"
      else finish host 0 0
  end.

Definition net_JoinHostPort (host port : string) : string :=
  if decide (is_Some (index_byte ":" host)) then "[" +:+ host +:+ "]:" +:+ port
  else host +:+ ":" +:+ port.

(** What the code reads of a parsed URL. *)
Record URL := mkURL { url_Scheme : string; url_Host : string; url_Path : string }.

(** * provider.go *)

Fixpoint dedup_loop (uniqueMap : gset string) (peers : list string) : list string :=
  match peers with
  | [] => []
  | str :: peers =>
    if decide (str ∈ uniqueMap) then dedup_loop uniqueMap peers
    else str :: dedup_loop ({[str]} ∪ uniqueMap) peers
  end.
Definition deduplicatePeers (peers : list string) : list string := dedup_loop ∅ peers.

Section peers.
Context {W : Type} `{HttpTransport W} `{Gozstd}.
(** [url.Parse] *)
Context (url_Parse : string → result URL).
(** [net.Resolver]: [LookupIP(ctx, "ip", host)] as printed addresses, and [LookupSRV] as
    targets and ports, of a resolver that asks [dnsServer]. *)
Context (LookupIP : string → string → io W (list string)).
Context (LookupSRV : string → string → io W (list (string * Z))).

Definition normalizePeerAddress (raw : string) (defaultPort : Z) : result string :=
  let s := strings_TrimSpace raw in
  if decide (s = "") then Err (errors_New "empty peer address")
  else
    s ← match url_Parse s with
        | Ok parsed =>
          if decide (url_Scheme parsed = "http" ∨ url_Scheme parsed = "https") then
            if decide (url_Host parsed = "") then Err (errors_New "empty host in URL")
            else Ok (if decide (url_Path parsed ≠ "") then url_Host parsed +:+ url_Path parsed
                     else url_Host parsed)
          else Ok s
        | Err _ => Ok s
        | Panic msg => Panic msg
        end;
    match url_Parse ("http://" +:+ s) with
    | Err e => Err (fmt_Errorf "invalid peer address: %s" [AErr e])
    | Panic msg => Panic msg
    | Ok u =>
      if decide (url_Path u ≠ "") then Ok (strings_TrimSuffix s "/")
      else
        '(host, port) ← match net_SplitHostPort (url_Host u) with
          | Ok hp => Ok hp
          | Err _ =>
            let host := url_Host u in
            let n := String.length host in
            Ok (if (2 <? n)%nat && strings_HasPrefix "[" host && strings_HasSuffix "]" host
                then String.substring 1 (n - 2) host else host, FormatInt defaultPort)
          | Panic msg => Panic msg
          end;
        if decide (host = "") then Err (errors_New "empty host")
        else Ok (net_JoinHostPort host port)
    end.

(** The loop over the elements of a comma-separated list. *)
Fixpoint normalize_all (raw : list string) (defaultPort : Z) : result (list string) :=
  match raw with
  | [] => Ok []
  | peer :: raw =>
    normalized ← normalizePeerAddress peer defaultPort;
    peers ← normalize_all raw defaultPort;
    Ok (normalized :: peers)
  end.

(** ** The providers *)

Inductive Provider :=
| StaticProvider (peers : list string)
| URLProvider (peers : list string) (url : string) (defaultPort : Z)
| ARecordProvider (peers : list string) (fqdn : string) (defaultPort : Z) (dnsServer : string)
| SRVRecordProvider (peers : list string) (fqdn dnsServer : string).

Definition provider_peers (p : Provider) : list string :=
  match p with
  | StaticProvider peers | URLProvider peers _ _ | ARecordProvider peers _ _ _
  | SRVRecordProvider peers _ _ => peers
  end.

Definition NewStaticProvider (sources : string) (defaultPort : Z) : result Provider :=
  peers ← normalize_all (strings_Split "," sources) defaultPort;
  Ok (StaticProvider (deduplicatePeers peers)).

Definition NewURLProvider (rawURL : string) (defaultPort : Z) : result Provider :=
  match url_Parse rawURL with
  | Err e => Err (fmt_Errorf "invalid URL format: %w" [AErr e])
  | Panic msg => Panic msg
  | Ok parsed =>
    if decide (url_Scheme parsed ≠ "http" ∧ url_Scheme parsed ≠ "https") then
      Err (errors_New "-peer-list-url must start with http:// or https://")
    else Ok (URLProvider [] rawURL defaultPort)
  end.

Definition NewARecordProvider (fqdn : string) (defaultPort : Z) (dnsServer : string) :
    result Provider :=
  let fqdn := strings_TrimSpace fqdn in
  if decide (fqdn = "") then Err (fmt_Errorf "empty FQDN for A record lookup" [])
  else Ok (ARecordProvider [] fqdn defaultPort dnsServer).

Definition NewSRVRecordProvider (fqdn dnsServer : string) : result Provider :=
  let fqdn := strings_TrimSpace fqdn in
  if decide (fqdn = "") then Err (fmt_Errorf "empty FQDN for SRV record lookup" [])
  else Ok (SRVRecordProvider [] fqdn dnsServer).

Definition AddStaticPeers (peers : list string) (p : Provider) : Provider :=
  let add l := deduplicatePeers (l ++ peers) in
  match p with
  | StaticProvider l => StaticProvider (add l)
  | URLProvider l url port => URLProvider (add l) url port
  | ARecordProvider l fqdn port dns => ARecordProvider (add l) fqdn port dns
  | SRVRecordProvider l fqdn dns => SRVRecordProvider (add l) fqdn dns
  end.

Definition wrap_io {A} (format : string) (m : io W A) : io W A := λ w,
  let '(r, w) := m w in (wrap_err format r, w).

(** The SRV targets, each looked up. *)
Fixpoint lookup_targets (dnsServer : string) (srvs : list (string * Z)) : io W (list string) :=
  match srvs with
  | [] => mret []
  | (target, port) :: srvs =>
    ips ← wrap_io ("host lookup failed for " +:+ target +:+ ": %w") (LookupIP dnsServer target);
    rest ← lookup_targets dnsServer srvs;
    mret (((λ ip, net_JoinHostPort ip (FormatInt port)) <$> ips) ++ rest)
  end.

Definition URLProvider_GetPeers (peers : list string) (url : string) (defaultPort : Z) :
    io W (list string) :=
  content ← wrap_io "failed to get peers: %w" (RequestBodyWithContext url []);
  if decide (content = []) then mret peers
  else
    found ← io_lift (normalize_all (strings_Split "," (bytes_string content)) defaultPort);
    mret (deduplicatePeers (found ++ peers)).

Definition ARecordProvider_GetPeers (peers : list string) (fqdn : string) (defaultPort : Z)
    (dnsServer : string) : io W (list string) :=
  ips ← LookupIP dnsServer fqdn;
  mret (deduplicatePeers (((λ ip, net_JoinHostPort ip (FormatInt defaultPort)) <$> ips) ++ peers)).

Definition SRVRecordProvider_GetPeers (peers : list string) (fqdn dnsServer : string) :
    io W (list string) :=
  srvs ← wrap_io "SRV lookup failed: %w" (LookupSRV dnsServer fqdn);
  found ← lookup_targets dnsServer srvs;
  mret (deduplicatePeers (found ++ peers)).

Definition GetPeers (p : Provider) : io W (list string) :=
  match p with
  | StaticProvider peers => mret peers
  | URLProvider peers url defaultPort => URLProvider_GetPeers peers url defaultPort
  | ARecordProvider peers fqdn defaultPort dnsServer =>
    ARecordProvider_GetPeers peers fqdn defaultPort dnsServer
  | SRVRecordProvider peers fqdn dnsServer => SRVRecordProvider_GetPeers peers fqdn dnsServer
  end.

(** ** The factory *)

Record Factory := mkFactory { fa_staticProvider : option Provider; fa_defaultPort : Z }.

Definition NewFactory (staticPeers : string) (defaultPort : Z) : result Factory :=
  if decide (staticPeers = "") then Ok (mkFactory None defaultPort)
  else
    staticProvider ← NewStaticProvider staticPeers defaultPort;
    Ok (mkFactory (Some staticProvider) defaultPort).

(** option.go: [Config] after the options ran. *)
Record Config := mkConfig
  { aRecordFQDN : string; srvRecordFQDN : string; cf_url : string; dnsServer : string }.

Definition WithARecord (fqdn : string) (c : Config) : Config :=
  mkConfig fqdn (srvRecordFQDN c) (cf_url c) (dnsServer c).
Definition WithSRVRecord (fqdn : string) (c : Config) : Config :=
  mkConfig (aRecordFQDN c) fqdn (cf_url c) (dnsServer c).
Definition WithURL (url : string) (c : Config) : Config :=
  mkConfig (aRecordFQDN c) (srvRecordFQDN c) url (dnsServer c).
Definition WithDNSServer (dns : string) (c : Config) : Config :=
  mkConfig (aRecordFQDN c) (srvRecordFQDN c) (cf_url c) dns.

Definition given (s : string) : nat := if decide (s ≠ "") then 1 else 0.

(** [None] is the nil interface: no peers at all. *)
Definition Factory_Create (f : Factory) (options : list (Config → Config)) :
    io W (option Provider) :=
  let config := foldl (λ c option, option c) (mkConfig "" "" "" "") options in
  if (1 <? given (aRecordFQDN config) + given (srvRecordFQDN config) + given (cf_url config))%nat
  then io_fail (fmt_Errorf "cannot specify multiple remote peer list options" [])
  else
    provider ← io_lift (
      if decide (aRecordFQDN config ≠ "") then
        Some <$> NewARecordProvider (aRecordFQDN config) (fa_defaultPort f) (dnsServer config)
      else if decide (srvRecordFQDN config ≠ "") then
        Some <$> NewSRVRecordProvider (srvRecordFQDN config) (dnsServer config)
      else if decide (cf_url config ≠ "") then
        Some <$> NewURLProvider (cf_url config) (fa_defaultPort f)
      else Ok None);
    match provider with
    | None => mret (fa_staticProvider f)
    | Some provider =>
      match fa_staticProvider f with
      | Some static =>
        peers ← GetPeers static;
        mret (Some (AddStaticPeers peers provider))
      | None => mret (Some provider)
      end
    end.
End peers.
