(* ===== verification/PeersFacts.v ===== *)
(** Facts about peer addresses and providers: normal forms, and lists without duplicates. *)
From S2P Require Import Prelude Bytes GoStrings Types Http PeerDownloader Peers.

(** * deduplicatePeers *)

Lemma dedup_loop_spec seen l :
  NoDup (dedup_loop seen l) ∧ ∀ x, x ∈ dedup_loop seen l ↔ x ∈ l ∧ x ∉ seen.
Proof.
  revert seen. induction l as [|s l IH]; intros seen; cbn [dedup_loop].
  { split; [apply NoDup_nil_2|]. set_solver. }
  case_decide as Hs.
  - destruct (IH seen) as [Hnd Hin]. split; [done|]. intros x. rewrite Hin. set_solver.
  - destruct (IH ({[s]} ∪ seen)) as [Hnd Hin]. split.
    + constructor; [|done]. rewrite Hin. set_solver.
    + intros x. rewrite elem_of_cons, Hin, elem_of_cons. destruct (decide (x = s)); set_solver.
Qed.

Lemma dedup_NoDup l : NoDup (deduplicatePeers l).
Proof. apply dedup_loop_spec. Qed.
Lemma elem_of_dedup l x : x ∈ deduplicatePeers l ↔ x ∈ l.
Proof. unfold deduplicatePeers. rewrite (proj2 (dedup_loop_spec ∅ l)). set_solver. Qed.

Lemma dedup_sublist l seen : dedup_loop seen l `sublist_of` l.
Proof.
  revert seen. induction l as [|s l IH]; intros seen; cbn [dedup_loop]; [done|].
  case_decide; [by apply sublist_cons|by apply sublist_skip].
Qed.

Lemma dedup_loop_id l seen : NoDup l → (∀ x, x ∈ l → x ∉ seen) → dedup_loop seen l = l.
Proof.
  intros Hnd. revert seen. induction Hnd as [|s l Hs Hnd IH]; intros seen Hl; [done|].
  cbn [dedup_loop]. rewrite decide_False by set_solver. f_equal. apply IH. set_solver.
Qed.

#[export] Hint Resolve dedup_NoDup : go.

(** * Addresses without anything special in them *)

Definition plain_char (c : ascii) : bool :=
  let n := N_of_ascii c in
  ((48 <=? n)%N && (n <=? 57)%N) || ((65 <=? n)%N && (n <=? 90)%N) ||
  ((97 <=? n)%N && (n <=? 122)%N) || Ascii.eqb c "-" || Ascii.eqb c ".".

Definition plain (s : string) : Prop := s ≠ "" ∧ ∀ c, c ∈ chars s → plain_char c = true.

Lemma plain_fresh c s : plain s → plain_char c = false → c ∉ chars s.
Proof. intros [_ Hs] Hc Hin. by rewrite (Hs _ Hin) in Hc. Qed.

(** A port: digits, at least one. *)
Definition digits (s : string) : Prop :=
  s ≠ "" ∧ ∀ c, c ∈ chars s → (48 ≤ N_of_ascii c ≤ 57)%N.

Lemma digits_plain s : digits s → plain s.
Proof.
  intros [Hne Hs]. split; [done|]. intros c Hc. specialize (Hs c Hc). unfold plain_char.
  rewrite (proj2 (N.leb_le 48 _)), (proj2 (N.leb_le _ 57)) by lia. done.
Qed.

Lemma FormatInt_digits n : (0 ≤ n)%Z → digits (FormatInt n).
Proof.
  intros Hn. unfold FormatInt. rewrite (proj2 (Z.ltb_ge n 0)) by lia. split.
  { destruct (uint_of_FormatUint n) as (d & Hd & _). by destruct (FormatUint n). }
  intros c Hc. destruct (decide (N_of_ascii c < 48 ∨ 57 < N_of_ascii c)%N) as [Hout|Hin].
  { by apply (FormatUint_digits n) in Hout. }
  lia.
Qed.

(** ** Trimming *)

(** No white space begins with such a character. *)
Definition no_space (s : string) : Prop :=
  ∀ c p, String c p ∈ space_runes → c ∉ chars s.

Lemma chars_drop n s c : c ∈ chars (string_drop n s) → c ∈ chars s.
Proof.
  revert s. induction n as [|n IH]; intros [|x s]; try done. cbn. intros H.
  apply elem_of_cons. right. by apply IH.
Qed.

Lemma find_none {A} (f : A → bool) l : (∀ x, x ∈ l → f x = false) → find f l = None.
Proof.
  induction l as [|x l IH]; intros H; [done|]. cbn. rewrite H by apply list_elem_of_here.
  apply IH. intros y Hy. apply H. by apply list_elem_of_further.
Qed.

Lemma space_rune_cons p : p ∈ space_runes → ∃ c q, p = String c q.
Proof.
  intros Hp. destruct p as [|c q]; [|by eauto]. exfalso. revert Hp.
  apply (bool_decide_unpack _). by vm_compute.
Qed.

Lemma TrimSpace_id s : no_space s → strings_TrimSpace s = s.
Proof.
  intros Hs. unfold strings_TrimSpace.
  assert (∀ fuel, trim_left fuel s = s) as ->.
  { intros [|fuel]; [done|]. cbn [trim_left]. rewrite find_none; [done|]. intros p Hp.
    destruct (space_rune_cons p Hp) as (c & q & ->). apply not_true_iff_false. intros Hpre.
    apply (Hs c q Hp). destruct s as [|x s]; [done|]. unfold strings_HasPrefix in Hpre.
    cbn [String.prefix] in Hpre. destruct (ascii_dec c x) as [->|]; [|done]. apply list_elem_of_here. }
  generalize (String.length s) as fuel. intros [|fuel]; [done|]. cbn [trim_right].
  rewrite find_none; [done|]. intros p Hp. destruct (space_rune_cons p Hp) as (c & q & ->).
  apply not_true_iff_false. intros Hsuf. apply (Hs c q Hp). unfold strings_HasSuffix in Hsuf.
  apply andb_prop in Hsuf as [_ Hsuf%String.eqb_eq].
  eapply chars_drop. rewrite Hsuf. apply list_elem_of_here.
Qed.

Lemma space_not_plain c p : String c p ∈ space_runes → plain_char c = false ∧ c ≠ ":"%char ∧ c ≠ "/"%char.
Proof.
  intros Hp. assert (forallb (λ s, match s with String c _ => negb (plain_char c) &&
    negb (Ascii.eqb c ":") && negb (Ascii.eqb c "/") | "" => true end) space_runes = true) as H
    by by vm_compute.
  rewrite forallb_forall in H. specialize (H (String c p) ltac:(by apply list_elem_of_In)).
  apply andb_prop in H as [[H1 H2]%andb_prop H3].
  split_and!; [by apply negb_true_iff|by intros ->..].
Qed.

(** ** Hosts and ports *)

Lemma index_byte_fresh c s : c ∉ chars s → index_byte c s = None.
Proof.
  induction s as [|x s IH]; [done|]. cbn. intros [Hx Hs]%not_elem_of_cons.
  destruct (Ascii.eqb_spec x c); [congruence|]. by rewrite IH.
Qed.

Lemma last_index_fresh c s : c ∉ chars s → last_index_byte c s = None.
Proof.
  induction s as [|x s IH]; [done|]. cbn. intros [Hx Hs]%not_elem_of_cons.
  rewrite IH by done. destruct (Ascii.eqb_spec x c); congruence.
Qed.

Lemma last_index_app c a b :
  c ∉ chars b → last_index_byte c (a +:+ String c b) = Some (String.length a).
Proof.
  intros Hb. induction a as [|x a IH].
  - change ("" +:+ String c b) with (String c b). cbn [last_index_byte String.length].
    rewrite last_index_fresh by done. by rewrite Ascii.eqb_refl.
  - change (String x a +:+ String c b) with (String x (a +:+ String c b)).
    cbn [last_index_byte String.length]. by rewrite IH.
Qed.

Lemma string_take_app a b : string_take (String.length a) (a +:+ b) = a.
Proof.
  unfold string_take. induction a as [|x a IH]; [by destruct b|].
  exact (f_equal (String x) IH).
Qed.

Lemma string_drop_app a b : string_drop (String.length a) (a +:+ b) = b.
Proof.
  induction a as [|x a IH]; [by destruct b|]. exact IH.
Qed.

Lemma plain_no_bracket s : plain s → strings_HasPrefix "[" s = false.
Proof.
  intros Hs. destruct s as [|x s]; [done|]. unfold strings_HasPrefix. cbn [String.prefix].
  destruct (ascii_dec "[" x) as [<-|]; [|done]. exfalso.
  apply (plain_fresh "[" _ Hs); [done|apply list_elem_of_here].
Qed.

Lemma SplitHostPort_plain h p : plain h → plain p → net_SplitHostPort (h +:+ ":" +:+ p) = Ok (h, p).
Proof.
  intros Hh Hp. unfold net_SplitHostPort. change (":" +:+ p) with (String ":" p).
  rewrite last_index_app by (by apply plain_fresh).
  assert (strings_HasPrefix "[" (h +:+ String ":" p) = false) as ->.
  { destruct h as [|x h]; [by destruct Hh|]. apply plain_no_bracket in Hh.
    unfold strings_HasPrefix in *. change (String x h +:+ String ":" p)
      with (String x (h +:+ String ":" p)). cbn [String.prefix] in Hh |- *.
    destruct (ascii_dec "[" x); [|done]. by destruct h. }
  rewrite string_take_app, (index_byte_fresh ":" h) by (by apply plain_fresh).
  rewrite decide_False by (by intros []).
  assert (∀ c, plain_char c = false → c ≠ ":"%char →
    index_byte c (string_drop 0 (h +:+ String ":" p)) = None) as Hno.
  { intros c Hc Hne. apply index_byte_fresh. cbn [string_drop]. rewrite chars_app.
    intros [Hin|Hin]%elem_of_app; [by apply plain_fresh in Hin|].
    cbn in Hin. apply elem_of_cons in Hin as [?|Hin]; [done|]. by apply plain_fresh in Hin. }
  rewrite (Hno "["%char), (Hno "]"%char) by done.
  rewrite !decide_False by (by intros []).
  change (S (String.length h)) with (1 + String.length h).
  assert (string_drop (1 + String.length h) (h +:+ String ":" p) = p) as ->; [|done].
  clear. induction h as [|x h IH]; [by destruct p|]. exact IH.
Qed.

Lemma SplitHostPort_no_port h : plain h → ∃ e, net_SplitHostPort h = Err e.
Proof.
  intros Hh. unfold net_SplitHostPort. rewrite last_index_fresh by (by apply plain_fresh).
  by eexists.
Qed.

Lemma JoinHostPort_plain h p : plain h → net_JoinHostPort h p = h +:+ ":" +:+ p.
Proof.
  intros Hh. unfold net_JoinHostPort. rewrite index_byte_fresh by (by apply plain_fresh).
  by rewrite decide_False by (by intros []).
Qed.

(** ** normalizePeerAddress *)

Section normalize.
Context (url_Parse : string → result URL).

(** A plain host, with a port or not. *)
Definition authority (h : string) (p : option string) : string :=
  match p with Some p => h +:+ ":" +:+ p | None => h end.

(** What package net/url does with such addresses: after a scheme they are the host, and
    without one they are not a web address (except a host named like a scheme). *)
Hypothesis parse_http : ∀ h p scheme, plain h → (∀ q, p = Some q → digits q) →
  scheme = "http" ∨ scheme = "https" →
  url_Parse (scheme +:+ "://" +:+ authority h p) = Ok (mkURL scheme (authority h p) "").
Hypothesis parse_bare : ∀ h p, plain h → (∀ q, p = Some q → digits q) →
  strings_ToLower h ≠ "http" → strings_ToLower h ≠ "https" →
  match url_Parse (authority h p) with
  | Ok u => url_Scheme u ≠ "http" ∧ url_Scheme u ≠ "https"
  | Err _ => True
  | Panic _ => False
  end.

Lemma authority_no_space h p :
  plain h → (∀ q, p = Some q → digits q) → no_space (authority h p).
Proof.
  intros Hh Hp c q Hq Hin. destruct (space_not_plain c q Hq) as (Hc & Hcolon & _).
  destruct p as [p|]; [|by apply plain_fresh in Hin]. cbn [authority] in Hin.
  rewrite !chars_app in Hin. apply elem_of_app in Hin as [Hin|Hin]; [by apply plain_fresh in Hin|].
  cbn in Hin. apply elem_of_cons in Hin as [?|Hin]; [done|].
  eapply plain_fresh; [by apply digits_plain, Hp|done|exact Hin].
Qed.

Lemma authority_nonempty h p : plain h → authority h p ≠ "".
Proof. intros [Hh _]. destruct p as [p|]; [|done]. by destruct h. Qed.

(** The second half: an address without scheme. *)
Lemma normalize_authority h p defaultPort :
  plain h → (∀ q, p = Some q → digits q) → (0 ≤ defaultPort)%Z →
  match url_Parse ("http://" +:+ authority h p) with
  | Err e => Err (fmt_Errorf "invalid peer address: %s" [AErr e])
  | Panic msg => Panic msg
  | Ok u =>
    if decide (url_Path u ≠ "") then Ok (strings_TrimSuffix (authority h p) "/")
    else
      '(host, port) ← match net_SplitHostPort (url_Host u) with
        | Ok hp => Ok hp
        | Err _ =>
          let host := url_Host u in
          let n := String.length host in
          Ok (if (2 <? n)%nat && strings_HasPrefix "[" host && strings_HasSuffix "]" host
              then String.substring 1 (n - 2) host else host, FormatInt defaultPort)
        | Panic msg => Panic msg
        end;
      if decide (host = "") then Err (errors_New "empty host")
      else Ok (net_JoinHostPort host port)
  end = Ok (h +:+ ":" +:+ default (FormatInt defaultPort) p).
Proof.
  intros Hh Hp Hport. change ("http://" +:+ authority h p) with ("http" +:+ "://" +:+ authority h p).
  rewrite (parse_http h p "http") by auto. cbn [url_Path url_Host].
  rewrite decide_False by (intros E; by apply E).
  assert (h ≠ "") as Hne by apply Hh.
  destruct p as [p|]; cbn [authority].
  - rewrite SplitHostPort_plain by auto using digits_plain. cbn [mbind result_bind].
    rewrite decide_False by done. by rewrite JoinHostPort_plain.
  - destruct (SplitHostPort_no_port h Hh) as [e ->]. cbn [mbind result_bind].
    rewrite (plain_no_bracket h Hh), andb_false_r. cbn [andb].
    rewrite decide_False by done. by rewrite JoinHostPort_plain.
Qed.

(** Every way to write a plain address gives one normal form: host or host:port, with a
    scheme http:// or https:// or none, all become host:port, the default port standing in for
    a missing one; and a normal form is left alone, so the same peer given twice is
    recognised as a duplicate. *)
Theorem normalizePeerAddress_plain h p scheme defaultPort :
  plain h → (∀ q, p = Some q → digits q) → (0 ≤ defaultPort)%Z →
  strings_ToLower h ≠ "http" → strings_ToLower h ≠ "https" →
  scheme = "" ∨ scheme = "http://" ∨ scheme = "https://" →
  let normal := h +:+ ":" +:+ default (FormatInt defaultPort) p in
  normalizePeerAddress url_Parse (scheme +:+ authority h p) defaultPort = Ok normal ∧
  normalizePeerAddress url_Parse normal defaultPort = Ok normal.
Proof.
  intros Hh Hp Hport Hl1 Hl2 Hscheme.
  assert (∀ p, (∀ q, p = Some q → digits q) →
    normalizePeerAddress url_Parse (authority h p) defaultPort
    = Ok (h +:+ ":" +:+ default (FormatInt defaultPort) p)) as Hbare.
  { clear p Hp. intros p Hp. unfold normalizePeerAddress.
    rewrite TrimSpace_id by (by apply authority_no_space).
    rewrite decide_False by (by apply authority_nonempty).
    pose proof (parse_bare h p Hh Hp Hl1 Hl2) as Hu.
    destruct (url_Parse (authority h p)) as [u|e|?]; [| |done]; cbn [mbind result_bind].
    - rewrite decide_False by naive_solver. by apply normalize_authority.
    - by apply normalize_authority. }
  split.
  - destruct Hscheme as [-> | Hscheme]; [by apply Hbare|].
    assert (∃ s, (s = "http" ∨ s = "https") ∧ scheme +:+ authority h p = s +:+ "://" +:+ authority h p)
      as (s & Hs & ->) by (destruct Hscheme as [-> | ->]; [exists "http"|exists "https"]; auto).
    unfold normalizePeerAddress. rewrite TrimSpace_id.
    + rewrite decide_False by (destruct Hs as [-> | ->]; done).
      rewrite (parse_http h p s) by done. cbn [url_Scheme url_Host url_Path].
      rewrite decide_True by done. rewrite decide_False by (by apply authority_nonempty).
      rewrite decide_False by (intros E; by apply E). cbn [mbind result_bind].
      by apply normalize_authority.
    + intros c q Hq Hin. pose proof (authority_no_space h p Hh Hp c q Hq) as Hno.
      destruct (space_not_plain c q Hq) as (Hc & Hcolon & Hslash). rewrite !chars_app in Hin.
      apply elem_of_app in Hin as [Hin|Hin]; [|apply elem_of_app in Hin as [Hin|Hin]; [|done]].
      * assert (plain s) as Hps by (split; [by destruct Hs as [-> | ->]|]; intros d Hd;
          destruct Hs as [-> | ->]; cbn in Hd; repeat (apply elem_of_cons in Hd as [->|Hd]; [done|]);
          by apply elem_of_nil in Hd). by apply plain_fresh in Hin.
      * cbn in Hin. repeat (apply elem_of_cons in Hin as [?|Hin]; [done|]). by apply elem_of_nil in Hin.
  - change (h +:+ ":" +:+ default (FormatInt defaultPort) p)
      with (authority h (Some (default (FormatInt defaultPort) p))). rewrite Hbare; [done|].
    intros q [= <-]. destruct p as [p|]; [by apply Hp|by apply FormatInt_digits].
Qed.
End normalize.

(** ** The lists the providers give *)

Section lists.
Context {W : Type} `{HttpTransport W} `{Gozstd} (url_Parse : string → result URL).
Context (LookupIP : string → string → io W (list string)).
Context (LookupSRV : string → string → io W (list (string * Z))).

Local Abbreviation GetPeers := (GetPeers url_Parse LookupIP LookupSRV).

(** Normalising a comma-separated list, and what the one remote source answers. *)
Definition normalized (raw : string) (defaultPort : Z) : result (list string) :=
  mapM (λ peer, normalizePeerAddress url_Parse peer defaultPort) (strings_Split "," raw).

Definition remote_list (config : Config) (defaultPort : Z) : io W (list string) :=
  let join (port : Z) (ips : list string) := (λ ip, net_JoinHostPort ip (FormatInt port)) <$> ips in
  if decide (aRecordFQDN config ≠ "") then
    ips ← LookupIP (dnsServer config) (strings_TrimSpace (aRecordFQDN config));
    mret (join defaultPort ips)
  else if decide (srvRecordFQDN config ≠ "") then
    srvs ← LookupSRV (dnsServer config) (strings_TrimSpace (srvRecordFQDN config));
    found ← mapM (LookupIP (dnsServer config)) srvs.*1;
    mret (concat (zip_with join srvs.*2 found))
  else if decide (cf_url config ≠ "") then
    content ← RequestBodyWithContext (cf_url config) [];
    if decide (content = []) then mret [] else io_lift (normalized (bytes_string content) defaultPort)
  else mret [].

(** The provider's answer, given the remote source's and the static peers. *)
Definition merged (statics : list string) (answer found : result (list string)) : Prop :=
  match answer, found with
  | Ok l, Ok found => NoDup l ∧ ∀ q, q ∈ l ↔ q ∈ found ∨ q ∈ statics
  | Err _, Err _ | Panic _, Panic _ => True
  | _, _ => False
  end.

Lemma normalize_all_mapM raw defaultPort :
  normalize_all url_Parse raw defaultPort
  = mapM (λ peer, normalizePeerAddress url_Parse peer defaultPort) raw.
Proof. induction raw as [|p raw IH]; [done|]. cbn. by rewrite IH. Qed.

Lemma merged_dedup found statics :
  merged statics (Ok (deduplicatePeers (found ++ statics))) (Ok found).
Proof. split; [apply dedup_NoDup|]. intros q. by rewrite elem_of_dedup, elem_of_app. Qed.

Lemma lookup_targets_spec dns srvs w :
  let '(r, w1) := lookup_targets LookupIP dns srvs w in
  let '(found, w2) := mapM (M := io W) (LookupIP dns) srvs.*1 w in
  w1 = w2 ∧
  match r, found with
  | Ok l, Ok found => l = concat (zip_with
      (λ port ips, (λ ip, net_JoinHostPort ip (FormatInt port)) <$> ips) srvs.*2 found)
  | Err _, Err _ | Panic _, Panic _ => True
  | _, _ => False
  end.
Proof.
  revert w. induction srvs as [|[target port] srvs IH]; intros w; [done|].
  cbn [lookup_targets fmap list_fmap fst snd mapM]. unfold wrap_io.
  rewrite !io_bind_unfold. destruct (LookupIP dns target w) as [[ips|e|msg] w1]; cbn; [|done..].
  rewrite !io_bind_unfold. specialize (IH w1).
  destruct (lookup_targets LookupIP dns srvs w1) as [r w2].
  destruct (mapM (M := io W) (LookupIP dns) srvs.*1 w1) as [found w3]. destruct IH as [<- IH].
  destruct r as [l|e|msg], found as [found|e'|msg']; try done. cbn. by rewrite IH.
Qed.

(** What a provider asks its source, whatever its static peers. *)
Definition source_list (p : Provider) : io W (list string) :=
  match p with
  | StaticProvider _ => mret []
  | URLProvider _ url port => remote_list (mkConfig "" "" url "") port
  | ARecordProvider _ fqdn port dns =>
    ips ← LookupIP dns fqdn; mret ((λ ip, net_JoinHostPort ip (FormatInt port)) <$> ips)
  | SRVRecordProvider _ fqdn dns =>
    srvs ← LookupSRV dns fqdn;
    found ← mapM (LookupIP dns) srvs.*1;
    mret (concat (zip_with (λ port ips, (λ ip, net_JoinHostPort ip (FormatInt port)) <$> ips)
      srvs.*2 found))
  end.

Lemma GetPeers_merged p w :
  NoDup (provider_peers p) → match p with URLProvider _ url _ => url ≠ "" | _ => True end →
  (GetPeers p w).2 = (source_list p w).2 ∧
  merged (provider_peers p) (GetPeers p w).1 (source_list p w).1.
Proof.
  intros Hnd Hurl. assert (merged (provider_peers p) (Ok (provider_peers p)) (Ok [])) as Hsame.
  { split; [done|]. intros q. rewrite elem_of_nil. naive_solver. }
  destruct p as [peers|peers url port|peers fqdn port dns|peers fqdn dns];
    cbn [Peers.GetPeers provider_peers source_list] in *; unfold URLProvider_GetPeers,
    ARecordProvider_GetPeers, SRVRecordProvider_GetPeers, wrap_io.
  - done.
  - unfold remote_list. cbn [aRecordFQDN srvRecordFQDN cf_url].
    rewrite !decide_False by (by intros []). rewrite decide_True by done. rewrite !io_bind_unfold.
    destruct (RequestBodyWithContext url [] w) as [[content|e|msg] w1]; cbn; [|done..].
    case_decide; [done|]. rewrite !io_bind_unfold, normalize_all_mapM. fold (normalized (bytes_string content) port).
    unfold io_lift. cbn. destruct (normalized _ _) as [found|e|msg]; cbn; [|done..].
    split; [done|]. apply merged_dedup.
  - rewrite !io_bind_unfold. destruct (LookupIP dns fqdn w) as [[ips|e|msg] w1]; cbn; [|done..].
    split; [done|]. apply merged_dedup.
  - rewrite !io_bind_unfold. destruct (LookupSRV dns fqdn w) as [[srvs|e|msg] w1]; cbn; [|done..].
    rewrite !io_bind_unfold. pose proof (lookup_targets_spec dns srvs w1) as Ht.
    destruct (lookup_targets LookupIP dns srvs w1) as [r w2].
    destruct (mapM (M := io W) (LookupIP dns) srvs.*1 w1) as [found w3]. destruct Ht as [<- Ht].
    destruct r as [l|e|msg], found as [found|e'|msg']; try done. cbn. subst.
    split; [done|]. apply merged_dedup.
Qed.

Lemma AddStaticPeers_facts l p :
  provider_peers (AddStaticPeers l p) = deduplicatePeers (provider_peers p ++ l) ∧
  source_list (AddStaticPeers l p) = source_list p.
Proof. by destruct p. Qed.

(** A remote provider starts without peers, and asks the one source that is configured. *)
Lemma new_provider config port o :
  (if decide (aRecordFQDN config ≠ "") then
     Some <$> NewARecordProvider (aRecordFQDN config) port (dnsServer config)
   else if decide (srvRecordFQDN config ≠ "") then
     Some <$> NewSRVRecordProvider (srvRecordFQDN config) (dnsServer config)
   else if decide (cf_url config ≠ "") then
     Some <$> NewURLProvider url_Parse (cf_url config) port
   else Ok None) = Ok o →
  match o with
  | Some p => provider_peers p = [] ∧ source_list p = remote_list config port ∧
      (match p with URLProvider _ url _ => url ≠ "" | StaticProvider _ => False | _ => True end)
  | None => given (aRecordFQDN config) + given (srvRecordFQDN config) + given (cf_url config) = 0 ∧
      remote_list config port = mret []
  end.
Proof.
  unfold NewARecordProvider, NewSRVRecordProvider, NewURLProvider, remote_list, given.
  destruct (decide (aRecordFQDN config ≠ "")) as [Ha|Ha].
  { case_decide; [done|]. by intros [= <-]. }
  destruct (decide (srvRecordFQDN config ≠ "")) as [Hb|Hb].
  { case_decide; [done|]. by intros [= <-]. }
  destruct (decide (cf_url config ≠ "")) as [Hc|Hc]; [|by intros [= <-]].
  destruct (url_Parse _) as [u|?|?]; [|done..]. case_decide; [done|]. intros [= <-].
  split_and!; [done| |done]. cbn. unfold remote_list. cbn.
  rewrite !decide_False by (by intros []). by rewrite decide_True.
Qed.

Lemma NewFactory_static staticPeers defaultPort f :
  NewFactory url_Parse staticPeers defaultPort = Ok f →
  fa_defaultPort f = defaultPort ∧ ∃ statics,
    if decide (staticPeers = "") then statics = [] ∧ fa_staticProvider f = None
    else normalized staticPeers defaultPort = Ok statics ∧
      fa_staticProvider f = Some (StaticProvider (deduplicatePeers statics)).
Proof.
  unfold NewFactory. case_decide; [intros [= <-]; split; [done|by exists []]|].
  unfold NewStaticProvider. rewrite normalize_all_mapM.
  intros (s & (l & Hl & [= <-])%bind_ok & [= <-])%bind_ok. split; [done|by exists l].
Qed.

Lemma GetPeers_remote config defaultPort statics p w :
  NoDup (provider_peers p) → (∀ q, q ∈ provider_peers p ↔ q ∈ statics) →
  source_list p = remote_list config defaultPort →
  match p with URLProvider _ url _ => url ≠ "" | _ => True end →
  let '(answer, w1) := GetPeers p w in
  let '(found, w2) := remote_list config defaultPort w in w1 = w2 ∧ merged statics answer found.
Proof.
  intros Hnd Heq Hsrc Hurl. destruct (GetPeers_merged p w Hnd Hurl) as [H1 H2].
  rewrite Hsrc in H1, H2. destruct (GetPeers p w) as [answer w1].
  destruct (remote_list config defaultPort w) as [found w2]. split; [done|].
  unfold merged in *. cbn in H2. destruct answer, found; try done. destruct H2 as [Hd Hin].
  split; [done|]. intros q. by rewrite Hin, Heq.
Qed.

(** C31: the peer list. More than one remote source is refused, and there is no provider at
    all only when no source is given. Whenever a provider that the factory made is asked, it
    asks the remote source that is configured, if there is one, and succeeds exactly when
    that does; the list it then returns has no duplicates and consists of exactly the peers
    the source answered and the static ones, normalised. When the remote source fails the
    provider fails, and the static peers are not returned either; without one it never fails. *)
Theorem Factory_Create_peers staticPeers defaultPort f options w :
  NewFactory url_Parse staticPeers defaultPort = Ok f →
  let config := foldl (λ c option, option c) (mkConfig "" "" "" "") options in
  let remotes := given (aRecordFQDN config) + given (srvRecordFQDN config) + given (cf_url config) in
  ∃ statics,
    (if decide (staticPeers = "") then statics = []
     else normalized staticPeers defaultPort = Ok statics) ∧
    post (Factory_Create url_Parse LookupIP LookupSRV f options) w (λ r _,
      match r with
      | Ok (Some p) => remotes ≤ 1 ∧ ∀ w',
          let '(answer, w1) := GetPeers p w' in
          let '(found, w2) := remote_list config defaultPort w' in
          w1 = w2 ∧ merged statics answer found
      | Ok None => staticPeers = "" ∧ remotes = 0
      | _ => True
      end).
Proof.
  intros Hf. cbv zeta. set (config := foldl _ _ options).
  destruct (NewFactory_static _ _ _ Hf) as (Hport & statics & Hs).
  exists statics. split; [case_decide; by destruct Hs|]. unfold Factory_Create.
  fold config. rewrite Hport.
  destruct (Nat.ltb_spec 1 (given (aRecordFQDN config) + given (srvRecordFQDN config) +
    given (cf_url config))) as [|Hle]; [done|].
  apply post_bind. unfold post at 1, io_lift. cbn [fst snd].
  match goal with |- context [match ?x with Ok _ => _ | Err _ => _ | Panic _ => _ end] =>
    destruct x as [o|e|msg] eqn:Hp end; [|done..].
  apply new_provider in Hp.
  destruct o as [p|].
  - destruct Hp as (Hempty & Hsrc & Hkind). destruct (fa_staticProvider f) as [s|].
    + case_decide; [by destruct Hs|]. destruct Hs as [_ [= ->]]. eapply post_run; [done|].
      apply post_ret. split; [done|].
      destruct (AddStaticPeers_facts (deduplicatePeers statics) p) as [Hpeers Hsame].
      intros w'; apply GetPeers_remote; [rewrite Hpeers; apply dedup_NoDup| |by rewrite Hsame|by destruct p].
      intros q. rewrite Hpeers, Hempty, elem_of_dedup, elem_of_app, elem_of_nil, elem_of_dedup.
      naive_solver.
    + case_decide; [|by destruct Hs]. destruct Hs as [-> _]. apply post_ret. split; [done|].
      intros w'; apply GetPeers_remote; [rewrite Hempty; apply NoDup_nil_2|by rewrite Hempty|done|by destruct p].
  - destruct Hp as [Hnone Hrem]. apply post_ret. destruct (fa_staticProvider f) as [s|].
    + case_decide; [by destruct Hs|]. destruct Hs as [_ [= ->]]. split; [done|].
      intros w'; apply GetPeers_remote; [apply dedup_NoDup|intros q; cbn [provider_peers]; by rewrite elem_of_dedup|by rewrite Hrem|done].
    + split; [|done]. case_decide; [done|by destruct Hs].
Qed.
End lists.
