(* ===== verification/Manifest.v ===== *)
(** The manifest of src/src/transfer/manifest.go, and [NewChunkManager]: made from a walk of
    the source, or fetched from a peer and checked. *)
From S2P Require Import Prelude Bytes GoStrings Types Storage ChunkBuilder ChunkManager Http PeerDownloader Peers.

(** Package encoding/json on a manifest, on its files and on its chunks. *)
Class ManifestCodec := {
  json_manifest : Manifest → result bytes;
  json_unmanifest : bytes → result Manifest;
  json_files : list FileEntry → result bytes;
  json_chunks : list Chunk → result bytes
}.

(** A manifest as JSON carries it: the field tags leave the counters, statuses and times out, and
    a string has its bytes that are not UTF-8 replaced. *)
Definition json_file (f : FileEntry) : FileEntry :=
  mkFileEntry (utf8_coerce (FileEntry_Name f)) (FileEntry_Size f) (FileEntry_Perm f) 0.

Definition json_form (m : Manifest) : Manifest :=
  mkManifest (utf8_coerce (MajorVersion m)) (utf8_coerce (MinorVersion m)) (ChunkSize m)
    (ChunkChecksum m) (TransferChunkCount m)
    ((λ e, mkDirEntry (utf8_coerce (DirEntry_Name e)) (DirEntry_Perm e)) <$> Dirs m)
    ((λ e, mkSymlinkEntry (utf8_coerce (SymlinkEntry_Name e)) (utf8_coerce (SymlinkEntry_SymlinkTo e)))
       <$> Symlinks m)
    ((λ e, mkEmptyFileEntry (utf8_coerce (EmptyFileEntry_Name e)) (EmptyFileEntry_Perm e))
       <$> EmptyFiles m)
    (json_file <$> Files m).

Class ManifestCodecLaws `{ManifestCodec} := {
  json_manifest_roundtrip m b : json_manifest m = Ok b →
    (Z.of_nat (length b) < 2 ^ 63)%Z ∧ json_unmanifest b = Ok (json_form m);
  json_files_copy l : json_files (FileEntry_Copy <$> l) = json_files l;
  json_chunks_ranges l l' : FileRanges <$> l = FileRanges <$> l' → json_chunks l = json_chunks l';
  json_manifest_no_panic m msg : json_manifest m ≠ Panic msg;
  json_unmanifest_no_panic b msg : json_unmanifest b ≠ Panic msg;
  json_files_no_panic l msg : json_files l ≠ Panic msg;
  json_chunks_no_panic l msg : json_chunks l ≠ Panic msg
}.

Section manifest.
Context {W : Type} `{HttpTransport W} `{Gozstd} `{ManifestCodec} `{SliceSort} (xxh3 : bytes → Z).
(** [version.MajorVersion] and [version.MinorVersion] *)
Context (major minor : string).

Definition computeChecksum (m : Manifest) (chunks : list Chunk) : result Z :=
  files ← json_files (Files m);
  list ← json_chunks chunks;
  Ok (xxh3 (files ++ list)).

(** [manifest.X = receivedManifest.X] for everything but the versions and the chunk size. *)
Definition take_over (received own : Manifest) : Manifest :=
  mkManifest (MajorVersion own) (MinorVersion own) (ChunkSize own) (ChunkChecksum received)
    (TransferChunkCount received) (Dirs received) (Symlinks received) (EmptyFiles received)
    (Files received).

(** [getManifestFromPeer] from the decoded manifest on. [BuildChunks] sorts and counts the
    received files in place. *)
Definition accept_manifest (peerHost : string) (maxFileCountPerChunk : Z)
    (own received : Manifest) : result (Manifest * list Chunk) :=
  if decide (MajorVersion received ≠ MajorVersion own) then
    Err (fmt_Errorf "peer %s has different major version (expected=%s.%s, actual=%s.%s)"
      [AStr peerHost; AStr (MajorVersion own); AStr (MinorVersion own);
       AStr (MajorVersion received); AStr (MinorVersion received)])
  else if negb (ChunkSize received =? ChunkSize own)%Z then
    Err (fmt_Errorf "peer %s has different chunk size (expected=%d, actual=%d)"
      [AStr peerHost; AInt (ChunkSize own); AInt (ChunkSize received)])
  else
    match BuildChunks (ChunkSize own) maxFileCountPerChunk (Files received) with
    | None => Panic "BuildChunks does not return"
    | Some (files, chunks) =>
      let received := set_Files files received in
      match computeChecksum received chunks with
      | Err e => Err (fmt_Errorf "failed to compute checksum for the received manifest: %s" [AErr e])
      | Panic msg => Panic msg
      | Ok checksum =>
        if negb (ChunkChecksum received =? checksum)%Z then
          Err (fmt_Errorf "peer %s has different checksum (expected=%d, actual=%d)"
            [AStr peerHost; AInt checksum; AInt (ChunkChecksum received)])
        else if negb (TransferChunkCount received =? Z.of_nat (length chunks))%Z then
          Err (fmt_Errorf "peer %v has different chunk count: expected=%v, actual=%v"
            [AStr peerHost; AInt (Z.of_nat (length chunks)); AInt (TransferChunkCount received)])
        else Ok (take_over received own, chunks)
      end
    end.

Definition getManifestFromPeer (peerHost : string) (maxFileCountPerChunk : Z) (own : Manifest) :
    io W (Manifest * list Chunk) :=
  content ← RequestBody ("http://" +:+ peerHost +:+ "/manifest")
    [WithExpectedContentType "application/json"];
  received ← io_lift (json_unmanifest content);
  io_lift (accept_manifest peerHost maxFileCountPerChunk own received).

(** The callback of the walk. *)
Definition add_entry (m : Manifest) (entry : Entry) : Manifest :=
  match entry with
  | EDir e => mkManifest (MajorVersion m) (MinorVersion m) (ChunkSize m) (ChunkChecksum m)
      (TransferChunkCount m) (Dirs m ++ [e]) (Symlinks m) (EmptyFiles m) (Files m)
  | ESymlink e => mkManifest (MajorVersion m) (MinorVersion m) (ChunkSize m) (ChunkChecksum m)
      (TransferChunkCount m) (Dirs m) (Symlinks m ++ [e]) (EmptyFiles m) (Files m)
  | EEmptyFile e => mkManifest (MajorVersion m) (MinorVersion m) (ChunkSize m) (ChunkChecksum m)
      (TransferChunkCount m) (Dirs m) (Symlinks m) (EmptyFiles m ++ [e]) (Files m)
  | EFile e => mkManifest (MajorVersion m) (MinorVersion m) (ChunkSize m) (ChunkChecksum m)
      (TransferChunkCount m) (Dirs m) (Symlinks m) (EmptyFiles m) (Files m ++ [FileEntry_Copy e])
  end.

(** The error of [storage.Walk] is overwritten by the one of [computeChecksum]. *)
Definition getManifestFromStorage (storage : Storage W) (maxFileCountPerChunk : Z)
    (own : Manifest) : io W (Manifest * list Chunk) := λ w,
  let empty := mkManifest (MajorVersion own) (MinorVersion own) (ChunkSize own)
    (ChunkChecksum own) (TransferChunkCount own) [] [] [] [] in
  let '(r, w) := Walk storage "" (λ m entry, (add_entry m entry, None)) empty w in
  match r with
  | Panic msg => (Panic msg, w)
  | Err e => (Err e, w)
  | Ok (m, err) =>
    match BuildChunks (ChunkSize m) maxFileCountPerChunk (Files m) with
    | None => (Panic "BuildChunks does not return", w)
    | Some (files, chunks) =>
      let m := set_Files files m in
      match computeChecksum m chunks with
      | Err e => (Err (fmt_Errorf "failed to compute checksum for the manifest: %s" [AErr e]), w)
      | Panic msg => (Panic msg, w)
      | Ok checksum =>
        (Ok (mkManifest (MajorVersion m) (MinorVersion m) (ChunkSize m) checksum
               (Z.of_nat (length chunks)) (Dirs m) (Symlinks m) (EmptyFiles m) (Files m), chunks), w)
      end
    end
  end.

(** ** Waiting for a peer *)

Context (url_Parse : string → result URL).
Context (LookupIP : string → string → io W (list string)).
Context (LookupSRV : string → string → io W (list (string * Z))).

(** The first peer of the list whose manifest is accepted. *)
Fixpoint first_manifest (peerList : list string) (maxFileCountPerChunk : Z) (own : Manifest) :
    io W (option (Manifest * list Chunk)) :=
  match peerList with
  | [] => mret None
  | peer :: peerList =>
    r ← io_try (getManifestFromPeer peer maxFileCountPerChunk own);
    match r with
    | Ok found => mret (Some found)
    | Err _ => first_manifest peerList maxFileCountPerChunk own
    | Panic msg => io_panic msg
    end
  end.

(** [polls] is how often the loop comes around again before its context is done. *)
Fixpoint getManifestFromPeerList (polls : nat) (p : Provider) (maxFileCountPerChunk : Z)
    (own : Manifest) : io W (Manifest * list Chunk) :=
  peerList ← io_try (GetPeers url_Parse LookupIP LookupSRV p);
  found ← match peerList with
          | Ok peerList => first_manifest peerList maxFileCountPerChunk own
          | Err _ => mret None
          | Panic msg => io_panic msg
          end;
  match found, polls with
  | Some found, _ => mret found
  | None, S polls => getManifestFromPeerList polls p maxFileCountPerChunk own
  | None, O => io_fail (fmt_Errorf "failed to get manifest from peer: %s"
                 [AErr (errors_New "context deadline exceeded")])
  end.

(** [newManifest] and [NewChunkManager]; [None] is a nil interface. *)
Definition newManifest (dirSrc : option (Storage W)) (peerListProvider : option Provider)
    (polls : nat) (chunkSize maxFileCountPerChunk : Z) : io W (Manifest * list Chunk) :=
  let manifest := mkManifest major minor chunkSize 0 0 [] [] [] [] in
  match dirSrc, peerListProvider with
  | Some dirSrc, _ =>
    wrap_io "failed to create a file list from the source storage: %s"
      (getManifestFromStorage dirSrc maxFileCountPerChunk manifest)
  | None, Some p =>
    wrap_io "failed to create a file list from the peer list: %s"
      (getManifestFromPeerList polls p maxFileCountPerChunk manifest)
  | None, None =>
    io_fail (errors_New "at least one of local source directory or peer list required")
  end.

Definition NewChunkManager (dirSrc : option (Storage W)) (peerListProvider : option Provider)
    (polls : nat) (chunkSize maxFileCountPerChunk : Z) : io W ChunkManager :=
  '(manifest, chunks) ← newManifest dirSrc peerListProvider polls chunkSize maxFileCountPerChunk;
  manifestJson ← io_lift (json_manifest manifest);
  mret (mkChunkManager manifest manifestJson chunks (replicate (length chunks) 0%Z)).
End manifest.
