(* ===== verification/ManifestFacts.v ===== *)
(** What a manifest is worth: made from a walk it describes the source, and a peer that
    accepts another's manifest cuts the same chunks. *)
From S2P Require Import Prelude Bytes GoStrings Types Storage ChunkBuilder ChunkManager Delivery Statistics Availability Http HttpServer HttpServing PeerDownloader Network Peers Manifest.

(** * Manifests that were made, not received *)

(** The entries of a walk, by kind. *)
Definition walk_dirs (l : list Entry) : list DirEntry :=
  omap (λ e, match e with EDir e => Some e | _ => None end) l.
Definition walk_symlinks (l : list Entry) : list SymlinkEntry :=
  omap (λ e, match e with ESymlink e => Some e | _ => None end) l.
Definition walk_emptyFiles (l : list Entry) : list EmptyFileEntry :=
  omap (λ e, match e with EEmptyFile e => Some e | _ => None end) l.
Definition walk_files (l : list Entry) : list FileEntry :=
  omap (λ e, match e with EFile e => Some (FileEntry_Copy e) | _ => None end) l.

Lemma FileEntry_Copy_idem f : FileEntry_Copy (FileEntry_Copy f) = FileEntry_Copy f.
Proof. done. Qed.

Lemma Copy_walk_files l : FileEntry_Copy <$> walk_files l = walk_files l.
Proof.
  induction l as [|e l IH]; [done|]. destruct e; cbn; [exact IH..|]. by f_equal.
Qed.

Lemma add_entries m l :
  foldl add_entry m l =
    mkManifest (MajorVersion m) (MinorVersion m) (ChunkSize m) (ChunkChecksum m)
      (TransferChunkCount m) (Dirs m ++ walk_dirs l) (Symlinks m ++ walk_symlinks l)
      (EmptyFiles m ++ walk_emptyFiles l) (Files m ++ walk_files l).
Proof.
  revert m. induction l as [|e l IH]; intros m.
  { cbn. rewrite !app_nil_r. by destruct m. }
  cbn [foldl]. rewrite IH. destruct e; cbn; by rewrite <- ?(assoc_L (++)).
Qed.

(** The counters of a fresh file list are zero. *)
Lemma Copy_counters files :
  FileEntry_Copy <$> files = files →
  Forall (λ f, FileEntry_remainingChunkCount f = 0%Z) files.
Proof.
  intros <-. apply Forall_forall. by intros f (g & -> & _)%list_elem_of_fmap.
Qed.

Lemma Copy_counters_range files :
  FileEntry_Copy <$> files = files →
  Forall (λ f, int32_range (FileEntry_remainingChunkCount f)) files.
Proof.
  intros H%Copy_counters. eapply Forall_impl; [exact H|]. intros f ->. unfold int32_range. lia.
Qed.

(** Cutting the file list again after it went through JSON gives the same files, counters
    included, and the same chunks, whatever sorted it. *)
Lemma BuildChunks_again (S1 S2 : SliceSort) cs mf files0 files chunkList :
  (0 < cs < 2 ^ 63)%Z → sizes_ok cs files0 → FileEntry_Copy <$> files0 = files0 →
  NoDup (FileEntry_Name <$> files0) →
  @BuildChunks cs mf S1 files0 = Some (files, chunkList) →
  @BuildChunks cs mf S2 (FileEntry_Copy <$> files) = Some (files, chunkList).
Proof.
  intros Hcs Hs Hc Hnd Hb. rewrite <- Hb. symmetry. apply BuildChunks_same; [|done].
  rewrite (BuildChunks_files _ _ _ _ _ Hcs Hs (Copy_counters_range _ Hc) Hb). by rewrite Hc.
Qed.

Section manifests.
Context `{ManifestCodecLaws} (xxh3 : bytes → Z).

(** A manifest and its chunks as [getManifestFromStorage] makes them from a file list with
    distinct names, sorted by [S1]. *)
Definition well_made (S1 : SliceSort) (mf : Z) (m : Manifest) (chunkList : list Chunk) : Prop :=
  ∃ files0, sizes_ok (ChunkSize m) files0 ∧ FileEntry_Copy <$> files0 = files0 ∧
    NoDup (FileEntry_Name <$> files0) ∧
    @BuildChunks (ChunkSize m) mf S1 files0 = Some (Files m, chunkList) ∧
    computeChecksum xxh3 m chunkList = Ok (ChunkChecksum m) ∧
    TransferChunkCount m = Z.of_nat (length chunkList).

Lemma computeChecksum_no_panic m chunkList msg : computeChecksum xxh3 m chunkList ≠ Panic msg.
Proof.
  unfold computeChecksum. intros [Hp|(b & _ & [Hp|(b' & _ & Hp)]%bind_panic)]%bind_panic.
  - by apply json_files_no_panic in Hp.
  - by apply json_chunks_no_panic in Hp.
  - done.
Qed.

(** The checksum depends on the files' names, sizes and permissions and the chunks' ranges. *)
Lemma computeChecksum_Files m m' chunkList :
  Files m' = Files m → computeChecksum xxh3 m' chunkList = computeChecksum xxh3 m chunkList.
Proof. unfold computeChecksum. by intros ->. Qed.

(** What is accepted was cut and checked here. *)
Lemma accept_manifest_ok `{S2 : SliceSort} host mf own received m chunkList :
  accept_manifest xxh3 host mf own received = Ok (m, chunkList) ↔
  MajorVersion received = MajorVersion own ∧ ChunkSize received = ChunkSize own ∧
  ∃ files, BuildChunks (ChunkSize own) mf (Files received) = Some (files, chunkList) ∧
    computeChecksum xxh3 (set_Files files received) chunkList = Ok (ChunkChecksum received) ∧
    TransferChunkCount received = Z.of_nat (length chunkList) ∧
    m = take_over (set_Files files received) own.
Proof.
  unfold accept_manifest. case_decide as Hv; [naive_solver|].
  destruct (Z.eqb_spec (ChunkSize received) (ChunkSize own)) as [Hcs|]; cbn [negb]; [|naive_solver].
  destruct (BuildChunks _ _ _) as [[files l]|]; [|naive_solver].
  destruct (computeChecksum xxh3 (set_Files files received) l) as [x|e|msg] eqn:Hx;
    [|split; [done|]; intros (_ & _ & ? & [= <- <-] & Hx' & _); congruence..].
  cbn [ChunkChecksum TransferChunkCount set_Files].
  destruct (Z.eqb_spec (ChunkChecksum received) x) as [<-|]; cbn [negb].
  - destruct (Z.eqb_spec (TransferChunkCount received) (Z.of_nat (length l))); cbn [negb];
      [|split; [done|]; intros (_ & _ & ? & [= <- <-] & _ & ? & _); congruence].
    split; [intros [= <- <-]; by eauto 10|].
    by intros (_ & _ & ? & [= <- <-] & _ & _ & ->).
  - split; [done|]. intros (_ & _ & ? & [= <- <-] & Hx' & _). congruence.
Qed.

Lemma accept_manifest_no_panic `{S2 : SliceSort} host mf own received msg :
  (0 < ChunkSize received)%Z → sizes_ok (ChunkSize received) (Files received) →
  Forall (λ f, int32_range (FileEntry_remainingChunkCount f)) (Files received) →
  accept_manifest xxh3 host mf own received ≠ Panic msg.
Proof.
  intros Hcs Hs Hc. unfold accept_manifest. case_decide; [done|].
  destruct (Z.eqb_spec (ChunkSize received) (ChunkSize own)) as [<-|]; [|done].
  destruct (BuildChunks_spec (ChunkSize received) mf (Files received) Hcs Hs Hc) as (l & -> & _).
  destruct (computeChecksum _ _ _) as [x|e|msg'] eqn:Hx; [|done|].
  - cbn [negb]. destruct (negb _); [done|]. by destruct (negb _).
  - by apply computeChecksum_no_panic in Hx.
Qed.

(** ** One peer accepts another's manifest *)

(** A manifest as JSON carries it: the files without their counters. *)
Definition on_the_wire (m : Manifest) : Manifest := set_Files (FileEntry_Copy <$> Files m) m.

Lemma well_made_wire S1 mf m chunkList :
  (0 < ChunkSize m < 2 ^ 63)%Z → well_made S1 mf m chunkList →
  let files0 := FileEntry_Copy <$> Files m in
  sizes_ok (ChunkSize m) files0 ∧ FileEntry_Copy <$> files0 = files0 ∧
  NoDup (FileEntry_Name <$> files0).
Proof.
  intros Hcs (files0 & Hs & Hc & Hnd & Hb & _). cbv zeta.
  pose proof (BuildChunks_files _ _ _ _ _ Hcs Hs (Copy_counters_range _ Hc) Hb) as Hp.
  rewrite Hc in Hp. split_and!.
  - unfold sizes_ok. by rewrite Hp.
  - rewrite <- list_fmap_compose. by apply list_fmap_ext.
  - by rewrite Hp.
Qed.

Lemma accept_well_made (S1 : SliceSort) `{S2 : SliceSort} host mf mf' own m chunkList :
  (0 < ChunkSize m < 2 ^ 63)%Z → well_made S1 mf m chunkList →
  match accept_manifest xxh3 host mf' own (on_the_wire m) with
  | Ok (m', chunkList') =>
      MajorVersion own = MajorVersion m ∧ ChunkSize own = ChunkSize m ∧
      m' = take_over (set_Files (Files m') m) own ∧ well_made S2 mf' m' chunkList' ∧
      FileEntry_Copy <$> Files m' ≡ₚ FileEntry_Copy <$> Files m ∧
      (mf' = mf → chunkList' = chunkList ∧ Files m' = Files m)
  | Err _ => MajorVersion own ≠ MajorVersion m ∨ ChunkSize own ≠ ChunkSize m ∨ mf' ≠ mf
  | Panic _ => False
  end.
Proof.
  intros Hcs Hm. destruct (well_made_wire _ _ _ _ Hcs Hm) as (Hs & Hc & Hnd).
  destruct Hm as (files0 & Hs0 & Hc0 & Hnd0 & Hb & Hx & Hcount).
  pose proof (BuildChunks_again S1 S2 _ _ _ _ _ Hcs Hs0 Hc0 Hnd0 Hb) as Hagain.
  destruct (accept_manifest _ _ _ _ _) as [[m' l']|e|msg] eqn:Hr.
  - apply accept_manifest_ok in Hr as (Hv & Hcs' & files & Hb' & Hx' & Hcount' & ->).
    cbn in *. rewrite <- Hcs' in *. split_and!; [done..| | |].
    + exists (FileEntry_Copy <$> Files m). cbn. rewrite <- Hcs'. split_and!; try done.
    + rewrite (BuildChunks_files _ _ _ _ _ Hcs Hs (Copy_counters_range _ Hc) Hb'). by rewrite Hc.
    + intros ->. rewrite Hagain in Hb'. by injection Hb' as <- <-.
  - destruct (decide (MajorVersion own = MajorVersion m)) as [Hv|]; [|by left].
    destruct (decide (ChunkSize own = ChunkSize m)) as [Hcs'|]; [|by right; left].
    right; right. intros ->. enough (accept_manifest xxh3 host mf own (on_the_wire m)
      = Ok (take_over m own, chunkList)) by congruence.
    apply accept_manifest_ok. cbn. split_and!; [done..|]. exists (Files m).
    rewrite Hcs'. split_and!; try done.
  - apply accept_manifest_no_panic in Hr; [done|cbn; lia|exact Hs|by apply Copy_counters_range].
Qed.
(** ** Through JSON *)

Lemma json_file_valid f : utf8_ValidString (FileEntry_Name f) = true → json_file f = FileEntry_Copy f.
Proof. intros Hv. unfold json_file. by rewrite utf8_coerce_valid. Qed.

Lemma json_files_copies (l : list FileEntry) : FileEntry_Copy <$> (json_file <$> l) = json_file <$> l.
Proof. rewrite <- list_fmap_compose. by apply list_fmap_ext. Qed.

Lemma sizes_ok_json cs (l : list FileEntry) : sizes_ok cs (FileEntry_Copy <$> l) → sizes_ok cs (json_file <$> l).
Proof. unfold sizes_ok. rewrite !Forall_fmap. intros Hs. by eapply Forall_impl. Qed.

(** What comes of another peer's manifest that went through JSON. *)
Lemma accept_json (S1 : SliceSort) `{S2 : SliceSort} host mf mf' own m chunkList :
  (0 < ChunkSize m < 2 ^ 63)%Z → well_made S1 mf m chunkList →
  match accept_manifest xxh3 host mf' own (json_form m) with
  | Ok (m', chunkList') =>
      MajorVersion own = utf8_coerce (MajorVersion m) ∧ ChunkSize own = ChunkSize m ∧
      m' = take_over (set_Files (Files m') (json_form m)) own ∧
      FileEntry_Copy <$> Files m' ≡ₚ json_file <$> Files m ∧
      (Forall (λ f, utf8_ValidString (FileEntry_Name f) = true) (Files m) →
        well_made S2 mf' m' chunkList' ∧
        (mf' = mf → chunkList' = chunkList ∧ Files m' = Files m))
  | Err _ => True
  | Panic _ => False
  end.
Proof.
  intros Hcs Hm. destruct (well_made_wire _ _ _ _ Hcs Hm) as (Hs & _ & _).
  apply sizes_ok_json in Hs. pose proof (Copy_counters_range _ (json_files_copies (Files m))) as Hc.
  destruct (accept_manifest xxh3 host mf' own (json_form m)) as [[m' l']|e|msg] eqn:Hr; [|done|].
  2: { by apply accept_manifest_no_panic in Hr; [..|cbn; lia|exact Hs|exact Hc]. }
  pose proof Hr as (Hv & Hcs' & files & Hb & Hx & Hcount & Hm')%accept_manifest_ok.
  cbn [ChunkSize MajorVersion json_form Files] in Hv, Hcs', Hb. rewrite <- Hcs' in Hb.
  pose proof (BuildChunks_files _ _ _ _ _ Hcs Hs Hc Hb) as Hp. rewrite json_files_copies in Hp.
  assert (Files m' = files) as Hf by (by rewrite Hm'). rewrite Hf.
  split_and!; [done..|exact Hp|]. intros Hvalid.
  set (m2 := set_Files (Files m) (json_form m)).
  assert (json_form m = on_the_wire m2) as Hwire.
  { unfold on_the_wire, m2, set_Files, json_form. cbn [Files]. f_equal.
    apply list_fmap_ext. intros i f Hi. apply json_file_valid.
    by eapply (proj1 (Forall_lookup _ _) Hvalid). }
  assert (well_made S1 mf m2 chunkList) as Hm2.
  { destruct Hm as (files0 & Hm). exists files0. by rewrite (computeChecksum_Files m m2). }
  pose proof (accept_well_made S1 host mf mf' own m2 chunkList Hcs Hm2) as Ha.
  rewrite <- Hwire, Hr in Ha. destruct Ha as (_ & _ & _ & Hw & _ & Hsame). by rewrite <- Hf.
Qed.
End manifests.

(** * Made from a source *)

Section from_source.
Context {W : Type} `{HttpTransport W} `{Gozstd} `{ManifestCodecLaws} `{S1 : SliceSort}.
Context (xxh3 : bytes → Z) (major minor : string) (url_Parse : string → result URL).
Context (LookupIP : string → string → io W (list string)).
Context (LookupSRV : string → string → io W (list (string * Z))).
Context (src : Storage W) `{!StorageWalk src}.

(** C8: a chunk manager made from a source describes the walk of that source: the manifest
    has the entries of the walk, by kind and in order (the files sorted), the chunks are cut
    from those files, nothing is cached, and the JSON that will be served is the manifest's.
    It never panics, and fails only with package json. The walk's own error [err] plays no
    part: a walk that broke off gives a manifest of what it had seen. *)
Theorem NewChunkManager_from_source p polls cs mf w es err w' :
  (0 < cs < 2 ^ 63)%Z → st_walk src "" w = (Ok (es, err), w') →
  sizes_ok cs (walk_files es) → NoDup (FileEntry_Name <$> walk_files es) →
  post (NewChunkManager xxh3 major minor url_Parse LookupIP LookupSRV (Some src) p polls cs mf) w
    (λ r w'', w'' = w' ∧
      match r with
      | Ok cm =>
          well_made xxh3 S1 mf (manifest cm) (chunks cm) ∧
          MajorVersion (manifest cm) = major ∧ ChunkSize (manifest cm) = cs ∧
          Dirs (manifest cm) = walk_dirs es ∧ Symlinks (manifest cm) = walk_symlinks es ∧
          EmptyFiles (manifest cm) = walk_emptyFiles es ∧
          FileEntry_Copy <$> Files (manifest cm) ≡ₚ walk_files es ∧
          chunkChecksums cm = replicate (length (chunks cm)) 0%Z ∧
          json_manifest (manifest cm) = Ok (GetManifestJson cm)
      | Err e => ∃ m l e, FileEntry_Copy <$> Files m ≡ₚ walk_files es ∧
          BuildChunks cs mf (walk_files es) = Some (Files m, l) ∧
          (json_files (Files m) = Err e ∨ json_chunks l = Err e ∨ json_manifest m = Err e)
      | Panic _ => False
      end).
Proof.
  intros Hcs Hwalk Hs Hnd. unfold NewChunkManager, newManifest, wrap_io, getManifestFromStorage.
  unfold post. rewrite io_bind_unfold. rewrite Walk_law, Hwalk, add_entries. cbn [fst snd].
  cbn [ChunkSize Files app MajorVersion MinorVersion ChunkChecksum TransferChunkCount Dirs
    Symlinks EmptyFiles].
  pose proof (Copy_walk_files es) as Hc.
  destruct (BuildChunks_spec cs mf (walk_files es) ltac:(lia) Hs (Copy_counters_range _ Hc))
    as (l & Hb & _). rewrite Hb.
  pose proof (BuildChunks_files _ _ _ _ _ Hcs Hs (Copy_counters_range _ Hc) Hb) as Hperm.
  rewrite Hc in Hperm. generalize dependent (counted 0 (all_ranges l) (sort_Slice (walk_files es))).
  intros files Hb Hperm. cbn [set_Files ChunkSize MajorVersion MinorVersion ChunkChecksum
    TransferChunkCount Dirs Symlinks EmptyFiles Files].
  match goal with |- context [computeChecksum xxh3 ?m l] => set (m0 := m) end.
  destruct (computeChecksum xxh3 m0 l) as [x|e|msg] eqn:Hx.
  - cbn [wrap_err fst snd]. unfold io_lift. rewrite io_bind_unfold. cbn [fst snd].
    set (m1 := mkManifest _ _ _ _ _ _ _ _ _).
    destruct (json_manifest m1) as [b|e|msg] eqn:Hj; cbn [fst snd].
    + split; [done|]. split_and!; try done. exists (walk_files es). by split_and!.
    + split; [done|]. exists m1, l, e. by auto.
    + by apply json_manifest_no_panic in Hj.
  - cbn [wrap_err fst snd]. split; [done|]. exists m0, l, e. split_and!; [done..|].
    unfold computeChecksum in Hx. destruct (json_files (Files m0)) as [b|e1|msg];
      cbn in Hx; [|injection Hx as ->; by left|done].
    destruct (json_chunks l); cbn in Hx; [done|injection Hx as ->; by auto|done].
  - by apply computeChecksum_no_panic in Hx.
Qed.
End from_source.

(** * Fetched from a peer *)

Section from_peer.
Context {V : Type} `{GozstdLaws} `{ListCodecLaws} `{ManifestCodecLaws}.
Context (S1 : SliceSort) `{S2 : SliceSort}.
Context (storage : Storage V) `{!StorageSpec storage} (xxh3 : bytes → Z).
Context (Do : string → io (ChunkManager * V) Z → io (ChunkManager * V) Z).
Context (version : Version) (ServeOnly : bool) (error_String : error → string).
Context (peer_host : string) (net : nat → option (option nat)) (clock : nat → Time).
Hypothesis host_plain : "/"%char ∉ chars peer_host.

#[local] Instance manifest_transport : HttpTransport (network V) :=
  peer_transport storage xxh3 Do version ServeOnly error_String peer_host net clock.

Lemma serve_manifest now finished r s w :
  hr_Path r = "/manifest" →
  serve storage xxh3 Do version ServeOnly error_String now finished r s w =
    let '(s, w) := handle_manifest error_String r s w in
    (mkServer (sv_ChunkManager s) (sv_world s) (sv_Statistics s) (sv_Completed s) (sv_UUID s)
       finished, w).
Proof. intros Hp. unfold HttpServer.serve. by rewrite Hp. Qed.

(** C5: two peers agree on the chunks. Fetch the manifest of a peer that made it from its
    source, across the network and its server, with any encoding, sort and connection: the
    receiver never panics and the server's manager does not change. A manifest that is
    accepted is the sender's as JSON carries it, with the receiver's version and chunk size:
    the same directories, links and files, in whose names the bytes that are not UTF-8 have
    been replaced. If the files' names are UTF-8 it is again a well-made one: its chunks were
    cut here and have the sender's checksum. With the same number of files per chunk the
    chunk lists are then equal, so a chunk index means the same bytes on both sides; with
    another one, acceptance means that the hashes of two JSON texts coincide. The names of
    directories, links and empty files are outside the checksum: such a name that is not UTF-8
    is accepted, changed. *)
Theorem getManifestFromPeer_agrees mf mf' own m chunkList n :
  (0 < ChunkSize m < 2 ^ 63)%Z → well_made xxh3 S1 mf m chunkList →
  json_manifest m = Ok (GetManifestJson (sv_ChunkManager (nw_server n))) →
  post (getManifestFromPeer xxh3 peer_host mf' own) n (λ r n',
    sv_ChunkManager (nw_server n') = sv_ChunkManager (nw_server n) ∧
    match r with
    | Ok (m', chunkList') =>
        MajorVersion own = utf8_coerce (MajorVersion m) ∧ ChunkSize own = ChunkSize m ∧
        m' = take_over (set_Files (Files m') (json_form m)) own ∧
        FileEntry_Copy <$> Files m' ≡ₚ json_file <$> Files m ∧
        (Forall (λ f, utf8_ValidString (FileEntry_Name f) = true) (Files m) →
          well_made xxh3 S2 mf' m' chunkList' ∧
          (mf' = mf → chunkList' = chunkList ∧ Files m' = Files m))
    | Err _ => True
    | Panic _ => False
    end).
Proof.
  intros Hcs Hm Hj. destruct (json_manifest_roundtrip _ _ Hj) as [Hlen Hu].
  unfold getManifestFromPeer, RequestBody, RequestBodyWithContext.
  apply post_bind. apply post_bind. eapply post_mono.
  { apply (peer_request_spec storage xxh3 Do version ServeOnly error_String peer_host net clock
      _ _ n "/manifest" ""). apply (url_split_path peer_host "manifest"); [done|].
    apply (bool_decide_unpack _). by vm_compute. }
  intros r n' [[Hsv [e ->]]|(room & Hserve)]; [by rewrite Hsv|].
  rewrite serve_manifest in Hserve by done. unfold handle_manifest in Hserve.
  set (hr := arriving _ _ _) in *.
  pose proof (jsonResponse_client error_String hr _ (nw_server n) room Hlen) as Hdoc.
  destruct (jsonResponse _ _ _ _ _) as [s' w']. destruct Hserve as [Hsv Hr].
  destruct Hdoc as (Hcm & _ & Hdoc).
  assert (sv_ChunkManager (nw_server n') = sv_ChunkManager (nw_server n)) as Hcm' by (by rewrite Hsv).
  destruct r as [[header rd]|e|?]; [|done..]. destruct Hr as (-> & -> & Hcode).
  destruct (Hdoc Hcode) as [_ Hread]. eapply post_run; [done|].
  unfold post, io_lift. cbn [fst snd nw_server].
  destruct (io_ReadAll _) as [content|e|?] eqn:Hcontent; [|done|].
  - rewrite (Hread _ eq_refl), !io_bind_unfold. cbn [fst snd]. rewrite Hu. cbn [fst snd].
    split; [done|]. pose proof (accept_json xxh3 S1 peer_host mf mf' own m chunkList Hcs Hm) as Ha.
    by destruct (accept_manifest _ _ _ _ _) as [[m' l']|e|msg].
  - unfold io_ReadAll in Hcontent. by destruct (rd_err _).
Qed.
End from_peer.
