(* ===== verification/Transfer.v ===== *)
(** Before and after the chunks: src/src/transfer/transfer.go, which prepares the entries of a
    manifest in a storage, commits them, and verifies them. *)
From S2P Require Import Prelude Bytes GoStrings Types Storage ChunkBuilder ChunkManager ChunkTransfer Delivery Http HttpServer Statistics Availability PeerDownloader Network Peers Manifest ManifestFacts.

Section transfer.
Context {W : Type}.

Definition SetupTransfer (cm : ChunkManager) (st : Storage W) : io W unit :=
  _ ← Prepare st;
  _ ← io_foreach (λ e, PrepareEntry st (EDir e)) (Dirs (manifest cm));
  _ ← io_foreach (λ e, PrepareEntry st (ESymlink e)) (Symlinks (manifest cm));
  _ ← io_foreach (λ e, PrepareEntry st (EEmptyFile e)) (EmptyFiles (manifest cm));
  io_foreach (λ e, PrepareEntry st (EFile e)) (Files (manifest cm)).

Definition CompleteTransfer (cm : ChunkManager) (st : Storage W) : io W unit :=
  _ ← io_foreach (λ e, CommitEntry st (EFile e)) (Files (manifest cm));
  _ ← io_foreach (λ e, CommitEntry st (EEmptyFile e)) (EmptyFiles (manifest cm));
  _ ← io_foreach (λ e, CommitEntry st (ESymlink e)) (Symlinks (manifest cm));
  io_foreach (λ e, CommitEntry st (EDir e)) (Dirs (manifest cm)).

(** The maps of [VerifyTransfer], filled by the callback of the walk. *)
Record verifier := mkVerifier {
  dirMap : gmap string DirEntry;
  symlinkMap : gmap string SymlinkEntry;
  emptyFileMap : gmap string EmptyFileEntry;
  fileMap : gmap string FileEntry
}.

Definition note_entry (v : verifier) (entry : Entry) : verifier :=
  match entry with
  | EDir e => mkVerifier (<[DirEntry_Name e := e]> (dirMap v)) (symlinkMap v) (emptyFileMap v)
      (fileMap v)
  | ESymlink e => mkVerifier (dirMap v) (<[SymlinkEntry_Name e := e]> (symlinkMap v))
      (emptyFileMap v) (fileMap v)
  | EEmptyFile e => mkVerifier (dirMap v) (symlinkMap v)
      (<[EmptyFileEntry_Name e := e]> (emptyFileMap v)) (fileMap v)
  | EFile e => mkVerifier (dirMap v) (symlinkMap v) (emptyFileMap v)
      (<[FileEntry_Name e := e]> (fileMap v))
  end.

(** One of the four loops: [isValid] afterwards. *)
Definition check_all {A} (name : A → string) (m : gmap string A) (equal : A → A → bool)
    (l : list A) (isValid : bool) : bool :=
  foldl (λ isValid i,
    match m !! name i with
    | None => false
    | Some target => if equal i target then isValid else false
    end) isValid l.

Definition same_dir (i target : DirEntry) : bool := (DirEntry_Perm i =? DirEntry_Perm target)%Z.
Definition same_symlink (i target : SymlinkEntry) : bool :=
  String.eqb (SymlinkEntry_SymlinkTo i) (SymlinkEntry_SymlinkTo target).
Definition same_emptyFile (i target : EmptyFileEntry) : bool :=
  (EmptyFileEntry_Perm i =? EmptyFileEntry_Perm target)%Z.
Definition same_file (f target : FileEntry) : bool :=
  (FileEntry_Size f =? FileEntry_Size target)%Z && (FileEntry_Perm f =? FileEntry_Perm target)%Z.

Definition VerifyTransfer (cm : ChunkManager) (st : Storage W) : io W bool := λ w,
  let '(r, w) := Walk st "" (λ v e, (note_entry v e, None)) (mkVerifier ∅ ∅ ∅ ∅) w in
  match r with
  | Panic msg => (Panic msg, w)
  | Err _ | Ok (_, Some _) => (Ok false, w)
  | Ok (v, None) =>
    let isValid := true in
    let isValid := check_all DirEntry_Name (dirMap v) same_dir (Dirs (manifest cm)) isValid in
    let isValid := check_all SymlinkEntry_Name (symlinkMap v) same_symlink (Symlinks (manifest cm))
                     isValid in
    let isValid := check_all EmptyFileEntry_Name (emptyFileMap v) same_emptyFile
                     (EmptyFiles (manifest cm)) isValid in
    (Ok (check_all FileEntry_Name (fileMap v) same_file (cm_files cm) isValid), w)
  end.
End transfer.

(** * Verification *)

Lemma check_all_spec {A} (name : A → string) m equal l isValid :
  check_all name m equal l isValid = true ↔
  isValid = true ∧ ∀ i, i ∈ l → ∃ target, m !! name i = Some target ∧ equal i target = true.
Proof.
  unfold check_all. revert isValid. induction l as [|i l IH]; intros isValid; cbn [foldl].
  { split; [|by intros []]. intros ->. split; [done|]. by intros i ?%elem_of_nil. }
  rewrite IH. split.
  - intros [Hi Hl]. destruct (m !! name i) as [t|] eqn:Ht; [|done].
    destruct (equal i t) eqn:He; [|done]. split; [done|].
    intros j [->|Hj]%elem_of_cons; [by exists t|by apply Hl].
  - intros [-> Hl]. destruct (Hl i) as (t & -> & ->); [by left|]. split; [done|].
    intros j Hj. apply Hl. by right.
Qed.

(** A map filled in the order of a list whose keys are distinct. *)
Lemma foldl_insert {A} (name : A → string) l (m : gmap string A) k a :
  NoDup (name <$> l) → (∀ i, i ∈ l → m !! name i = None) →
  foldl (λ m i, <[name i := i]> m) m l !! k = Some a ↔
  m !! k = Some a ∨ a ∈ l ∧ name a = k.
Proof.
  revert m. induction l as [|i l IH]; intros m Hnd Hm; cbn [foldl].
  { split; [by left|]. by intros [|[?%elem_of_nil _]]. }
  rewrite fmap_cons in Hnd. apply NoDup_cons in Hnd as [Hi Hnd].
  rewrite IH; [|done|].
  - rewrite elem_of_cons. destruct (decide (k = name i)) as [->|Hne].
    + rewrite lookup_insert_eq, Hm by (by left). split.
      * intros [[= <-]|[Ha Hn]]; [by auto|]. destruct Hi. rewrite <- Hn.
        by apply list_elem_of_fmap_2.
      * intros [|[[-> | Ha] Hn]]; [done|by left|]. destruct Hi. rewrite <- Hn.
        by apply list_elem_of_fmap_2.
    + rewrite lookup_insert_ne by done. naive_solver.
  - intros j Hj. rewrite lookup_insert_ne; [by apply Hm; right|]. intros Hn. destruct Hi.
    rewrite Hn. by apply list_elem_of_fmap_2.
Qed.

(** The callback files every entry under its kind. *)
Definition found_files (l : list Entry) : list FileEntry :=
  omap (λ e, match e with EFile e => Some e | _ => None end) l.

Lemma note_entries v l :
  foldl note_entry v l =
    mkVerifier (foldl (λ m i, <[DirEntry_Name i := i]> m) (dirMap v) (walk_dirs l))
      (foldl (λ m i, <[SymlinkEntry_Name i := i]> m) (symlinkMap v) (walk_symlinks l))
      (foldl (λ m i, <[EmptyFileEntry_Name i := i]> m) (emptyFileMap v) (walk_emptyFiles l))
      (foldl (λ m i, <[FileEntry_Name i := i]> m) (fileMap v) (found_files l)).
Proof.
  revert v. induction l as [|e l IH]; intros v; [by destruct v|].
  cbn [foldl]. rewrite IH. by destruct e.
Qed.

Lemma found_lookup {A} (name : A → string) l k a :
  NoDup (name <$> l) →
  foldl (λ m i, <[name i := i]> m) (∅ : gmap string A) l !! k = Some a ↔ a ∈ l ∧ name a = k.
Proof.
  intros Hnd. rewrite foldl_insert by (done || (intros; apply lookup_empty)).
  rewrite lookup_empty. naive_solver.
Qed.

Lemma walk_files_found l : walk_files l = FileEntry_Copy <$> found_files l.
Proof. induction l as [|e l IH]; [done|]. destruct e; cbn; [exact IH..|]. by f_equal. Qed.

(** Every element of [l] has an equal one among the [found]. *)
Lemma check_found {A} (name : A → string) (same : A → A → bool) (key : A → A) (found l : list A) :
  NoDup (name <$> found) →
  (∀ a b, name b = name a ∧ same a b = true ↔ key a = key b) →
  (∀ i, i ∈ l → ∃ target,
    foldl (λ m i, <[name i := i]> m) (∅ : gmap string A) found !! name i = Some target ∧
    same i target = true) ↔ ∀ i, i ∈ l → key i ∈ key <$> found.
Proof.
  intros Hnd Hkey. split; intros Hl i Hi.
  - destruct (Hl i Hi) as (t & [Ht Hn]%found_lookup & Hs); [|done].
    apply list_elem_of_fmap. exists t. split; [by apply Hkey|done].
  - apply Hl in Hi as (t & Hk & Ht)%list_elem_of_fmap. apply Hkey in Hk as [Hn Hs].
    exists t. split; [|done]. by apply found_lookup.
Qed.

Section verification.
Context {W : Type} (st : Storage W) `{!StorageWalk st}.

(** C10: what [VerifyTransfer] verifies. It answers after a walk of the destination, whatever
    the walk meets, and the answer is yes exactly when the walk had no error and found every
    directory of the manifest with its permissions, every symbolic link with its target,
    every empty file with its permissions and every other file with its size and permissions.
    Nothing else is looked at: extra entries do not matter, and neither does the content of
    a file. *)
Theorem VerifyTransfer_spec cm w es err w' :
  st_walk st "" w = (Ok (es, err), w') →
  NoDup (DirEntry_Name <$> walk_dirs es) → NoDup (SymlinkEntry_Name <$> walk_symlinks es) →
  NoDup (EmptyFileEntry_Name <$> walk_emptyFiles es) →
  NoDup (FileEntry_Name <$> walk_files es) →
  ∃ b, VerifyTransfer cm st w = (Ok b, w') ∧
    (b = true ↔ err = None ∧
      (∀ d, d ∈ Dirs (manifest cm) → d ∈ walk_dirs es) ∧
      (∀ l, l ∈ Symlinks (manifest cm) → l ∈ walk_symlinks es) ∧
      (∀ e, e ∈ EmptyFiles (manifest cm) → e ∈ walk_emptyFiles es) ∧
      (∀ f, f ∈ cm_files cm → FileEntry_Copy f ∈ walk_files es)).
Proof.
  intros Hw Hd Hl He Hf. unfold VerifyTransfer. rewrite Walk_law, Hw, note_entries.
  destruct err as [err|]; [exists false; split; [done|]; split; [done|by intros []]|].
  eexists. split; [done|]. cbn [dirMap symlinkMap emptyFileMap fileMap].
  rewrite !check_all_spec.
  rewrite walk_files_found, <- list_fmap_compose in Hf.
  rewrite (check_found _ same_dir id), (check_found _ same_symlink id),
    (check_found _ same_emptyFile id), (check_found _ same_file FileEntry_Copy); try done.
  - rewrite !list_fmap_id, <- walk_files_found. unfold id. naive_solver.
  - intros [na sa pa ca] [nb sb pb cb]. unfold same_file, FileEntry_Copy. cbn.
    rewrite andb_true_iff, !Z.eqb_eq. naive_solver.
  - intros [na pa] [nb pb]. unfold same_emptyFile. cbn. rewrite Z.eqb_eq. naive_solver.
  - intros [na pa] [nb pb]. unfold same_symlink. cbn. rewrite String.eqb_eq. naive_solver.
  - intros [na pa] [nb pb]. unfold same_dir. cbn. rewrite Z.eqb_eq. naive_solver.
Qed.
End verification.

(** * Preparation and completion *)

Lemma post_foreach_calm {W A} (f : A → io W unit) l w :
  (∀ x w, post (f x) w (λ r _, calm r)) → post (io_foreach f l) w (λ r _, calm r).
Proof.
  intros Hf. revert w. induction l as [|x l IH]; intros w; [done|].
  apply (calm_bind (f x)); [apply Hf|]. intros _ w'. apply IH.
Qed.

(** A loop that succeeded succeeded at every element. *)
Lemma post_foreach_ok {W A} (f : A → io W unit) (P : A → W → W → Prop) (I : list A → W → Prop)
    seen l w :
  (∀ x w, x ∈ l → post (f x) w (λ r w', r = Ok () → P x w w')) →
  (∀ seen x w w', P x w w' → I seen w → I (seen ++ [x]) w') →
  I seen w → post (io_foreach f l) w (λ r w', r = Ok () → I (seen ++ l) w').
Proof.
  intros Hf Hstep. revert seen w. induction l as [|x l IH]; intros seen w Hi.
  { unfold post. cbn. intros _. by rewrite app_nil_r. }
  change (io_foreach f (x :: l)) with (f x ≫= λ _, io_foreach f l). apply post_bind.
  eapply post_mono; [apply (Hf x w); by left|]. intros [[]|e|msg] w' Hx; [|done..].
  rewrite (cons_middle x seen l), (assoc_L (++)). apply IH.
  - intros y w1 Hy. apply Hf. by right.
  - eapply Hstep; [by apply Hx|done].
Qed.

Section preparation.
Context {W : Type} (st : Storage W) `{!StorageSpec st, !StoragePrepare st}.

(** Files whose names are all there and denote different files. *)
Definition no_sharing (w : W) (files : list FileEntry) : Prop :=
  ∀ i j f g, files !! i = Some f → files !! j = Some g →
    st_inode st w (FileEntry_Name f) = st_inode st w (FileEntry_Name g) → i = j.

(** After some of the files: each exists, and has its size unless a later one is the same
    file. *)
Definition prepared_so_far (files : list FileEntry) (w : W) : Prop :=
  ∀ k f, files !! k = Some f → ∃ ino, st_inode st w (FileEntry_Name f) = Some ino ∧
    (Z.of_nat (length (st_data st w ino)) = FileEntry_Size f ∨
     ∃ k' g, k < k' ∧ files !! k' = Some g ∧ st_inode st w (FileEntry_Name g) = Some ino).

Definition PrepareEntry_done (f : FileEntry) (w w' : W) : Prop :=
  (∀ n i, st_inode st w n = Some i → st_inode st w' n = Some i) ∧
  ∃ ino, st_inode st w' (FileEntry_Name f) = Some ino ∧
    Z.of_nat (length (st_data st w' ino)) = FileEntry_Size f ∧
    ∀ j, j ≠ ino → st_data st w' j = st_data st w j.

Lemma prepared_step seen f w w' :
  PrepareEntry_done f w w' → prepared_so_far seen w → prepared_so_far (seen ++ [f]) w'.
Proof.
  intros (Hn & ino' & Hi' & Hl' & Hj) Hp k g Hk. apply lookup_app_Some in Hk as [Hk|[Hge Hk]].
  - destruct (Hp k g Hk) as (ino & Hi & Hsize). exists ino. split; [by apply Hn|].
    pose proof (lookup_lt_Some _ _ _ Hk) as Hlt. destruct Hsize as [Hl|(k' & h & Hkk & Hk' & Hh)].
    + destruct (decide (ino = ino')) as [->|Hne]; [|left; by rewrite Hj].
      right. exists (length seen), f. rewrite list_lookup_middle by done. by split_and!.
    + right. exists k', h. rewrite lookup_app_l by (by eapply lookup_lt_Some).
      split_and!; [done..|by apply Hn].
  - apply list_lookup_singleton_Some in Hk as [_ <-]. exists ino'. by split; [|left].
Qed.

Lemma calm_then {A B} (m : io W A) (f : A → io W B) w (Q : result B → W → Prop) :
  post m w (λ r _, calm r) → (∀ a w, post (f a) w (λ r w', calm r ∧ (is_ok r = true → Q r w'))) →
  post (m ≫= f) w (λ r w', calm r ∧ (is_ok r = true → Q r w')).
Proof.
  intros Hm Hf. apply post_bind. eapply post_mono; [exact Hm|].
  intros [a|e|msg] w1 Hc; [apply Hf|by split|by destruct (Hc msg)].
Qed.

Lemma SetupTransfer_spec cm w :
  Forall (λ f, 0 ≤ FileEntry_Size f)%Z (cm_files cm) →
  post (SetupTransfer cm st) w (λ r w',
    match r with
    | Ok _ => (∀ f, f ∈ cm_files cm → is_Some (st_inode st w' (FileEntry_Name f))) ∧
        (no_sharing w' (cm_files cm) → prepared st w' (cm_files cm))
    | Err _ => True
    | Panic _ => False
    end).
Proof.
  intros Hs. unfold SetupTransfer.
  assert (∀ w1, post (io_foreach (λ e, PrepareEntry st (EFile e)) (Files (manifest cm))) w1
    (λ r w', calm r ∧ (is_ok r = true → prepared_so_far (cm_files cm) w'))) as Hfiles.
  { intros w1. apply post_and.
    - apply post_foreach_calm. intros. apply PrepareEntry_no_panic.
    - eapply post_mono;
        [apply (post_foreach_ok _ PrepareEntry_done prepared_so_far [])|by intros [[]|?|?] w2 H; [intros _; apply H|..]].
      + intros f w2 Hf. rewrite Forall_forall in Hs. eapply post_mono; [by apply PrepareEntry_file, Hs|].
        by intros r w3 H ->.
      + apply prepared_step.
      + by intros k f Hk. }
  eapply post_mono.
  - apply calm_then; [apply Prepare_no_panic|]. intros _ w1.
    apply calm_then; [apply post_foreach_calm; intros; apply PrepareEntry_no_panic|]. intros _ w2.
    apply calm_then; [apply post_foreach_calm; intros; apply PrepareEntry_no_panic|]. intros _ w3.
    apply calm_then; [apply post_foreach_calm; intros; apply PrepareEntry_no_panic|]. intros _ w4.
    apply Hfiles.
  - intros [[]|e|msg] w' [Hc Hp]; [|done|by destruct (Hc msg)]. specialize (Hp eq_refl). split.
    + intros f [k Hk]%list_elem_of_lookup. destruct (Hp k f Hk) as (ino & Hi & _). by exists ino.
    + intros Hno. split; [|exact Hno]. intros k f Hk.
      destruct (Hp k f Hk) as (ino & Hi & [Hl|(k' & g & Hlt & Hk' & Hi')]); [by exists ino|].
      assert (k = k') by (eapply Hno; [done..|congruence]). lia.
Qed.

(** C9: [SetupTransfer] prepares the destination. It never panics, and when it succeeds every
    file of the manifest exists; if no two of their names denote the same file (the
    destination has no links between them) each has its final size, which is all that the
    transfer of the chunks needs. *)
Theorem SetupTransfer_prepares cm w :
  Forall (λ f, 0 ≤ FileEntry_Size f)%Z (cm_files cm) →
  post (SetupTransfer cm st) w (λ r w',
    match r with
    | Ok _ => (∀ f, f ∈ cm_files cm → is_Some (st_inode st w' (FileEntry_Name f))) ∧
        (no_sharing w' (cm_files cm) → prepared st w' (cm_files cm))
    | Err _ => True
    | Panic _ => False
    end).
Proof. apply SetupTransfer_spec. Qed.

Lemma CommitEntries_same {A} (entry : A → Entry) l w :
  post (io_foreach (λ e, CommitEntry st (entry e)) l) w (λ r w', same_view st w w' ∧ calm r).
Proof.
  apply post_and; [|apply post_foreach_calm; intros x w1; eapply post_mono;
    [apply CommitEntry_same|by intros r w2 [_ Hc]]].
  apply (post_foreach _ (same_view st w)); [|done]. intros x w1 _ Hw.
  eapply post_mono; [apply CommitEntry_same|]. intros r w2 [Hv _]. by rewrite Hw.
Qed.

(** Committing changes no content: what was downloaded is what is there. *)
Lemma CompleteTransfer_same cm w :
  post (CompleteTransfer cm st) w (λ r w', same_view st w w' ∧ calm r).
Proof.
  unfold CompleteTransfer.
  assert (∀ {A} (entry : A → Entry) l (m : io W unit) w,
    (∀ w, post m w (λ r w', same_view st w w' ∧ calm r)) →
    post (_ ← io_foreach (λ e, CommitEntry st (entry e)) l; m) w
      (λ r w', same_view st w w' ∧ calm r)) as Hseq.
  { intros A entry l m w0 Hm. apply post_bind. eapply post_mono; [apply CommitEntries_same|].
    intros [[]|e|msg] w1 [Hv Hc]; [|by split|by split].
    eapply post_mono; [apply Hm|]. intros r w2 [Hv' Hc']. split; [by rewrite Hv|done]. }
  apply Hseq. intros w1. apply Hseq. intros w2. apply Hseq. intros w3. apply CommitEntries_same.
Qed.
End preparation.
