(* ===== verification/Command.v ===== *)
(** The commands run on completion: src/src/utils/command.go. The templates, and the queue
    with its goroutines as a step machine. *)
From S2P Require Import Prelude Bytes GoStrings Types.

Definition TemplateElapsedTime : string := "%{elapsed_time}".
Definition TemplateFileCount : string := "%{file_count}".
Definition TemplateTotalFileSize : string := "%{total_file_size}".
Definition TemplateFilePath : string := "%{file_path}".
Definition TemplateFileSize : string := "%{file_size}".

(** The strings [runOnComplete] and [runOnEachFileComplete] put into the channel. *)
Definition onComplete_command (command : string) (fileCount totalFileSize : Z)
    (elapsedTime : string) : string :=
  let command := strings_Replace command TemplateFileCount (FormatInt fileCount) in
  let command := strings_Replace command TemplateTotalFileSize (FormatInt totalFileSize) in
  strings_Replace command TemplateElapsedTime elapsedTime.

Definition onEachFile_command (command filePath : string) (fileSize : Z) : string :=
  let command := strings_Replace command TemplateFilePath filePath in
  strings_Replace command TemplateFileSize (FormatInt fileSize).

(** [NewCommand]: an empty option installs a function that does nothing. *)
Record Command := mkCommand { onCompleteCommand : string; onEachFileCompleteCommand : string }.

Definition RunOnComplete (c : Command) (fileCount totalFileSize : Z) (elapsedTime : string) :
    option string :=
  if decide (onCompleteCommand c = "") then None
  else Some (onComplete_command (onCompleteCommand c) fileCount totalFileSize elapsedTime).

Definition RunOnEachFileComplete (c : Command) (filePath : string) (fileSize : Z) :
    option string :=
  if decide (onEachFileCompleteCommand c = "") then None
  else Some (onEachFile_command (onEachFileCompleteCommand c) filePath fileSize).

(** [run]: what happens to a process, whether its group is killed, and what is printed. *)
Inductive outcome := StartFailed (e : error) | Exited (err : option error) | TimedOut.

Definition run (command : string) (commandTimeout : Duration) (o : outcome) : bool * option error :=
  match o with
  | StartFailed e => (false, Some (fmt_Errorf "Failed to start the command.: (%s) %s"
                                     [AStr command; AErr e]))
  | TimedOut => (true, Some (fmt_Errorf
      "Failed to execute the command.: (%s) timeout occurred while running the command after %v"
      [AStr command; AInt commandTimeout]))
  | Exited (Some e) => (false, Some (fmt_Errorf
      "Failed to execute the command.: (%s) error running command (%s)" [AStr command; AErr e]))
  | Exited None => (false, None)
  end.

(** * The queue *)

(** Where [Run]'s goroutine is, and the caller of [Stop]. *)
Inductive runner := RWait | RSpawn (command : string) | RExit.
Inductive stopper := NotStopped | WaitRunner | WaitGroup | Stopped.

(** [waiting] are the callers past [Add(1)] that have not sent yet; [running] the
    goroutines of [run]; [done] what has ended. *)
Record queue := mkQueue {
  waiting : list string;
  commandChannel : list string;
  closed : bool;
  q_runner : runner;
  running : list string;
  commandResultWaitGroup : Z;
  q_stopper : stopper;
  done : list string;
  q_panicked : bool
}.

Definition NewCommand_queue : queue := mkQueue [] [] false RWait [] 0 NotStopped [] false.

Inductive cmd_event :=
| Submit (command : string)   (* a caller: [Add(1)] *)
| Send (j : nat)              (* the [j]-th waiting caller sends *)
| Receive                     (* the range loop takes a command, or ends *)
| Spawn                       (* [go c.run(command)] *)
| Finish (j : nat)            (* the [j]-th running command ends: [Done()] *)
| Stop                        (* [Stop]: [close(c.commandChannel)] *)
| StopStep.                   (* [Stop] gets past one of its waits *)

Definition panic_queue (q : queue) : queue :=
  mkQueue (waiting q) (commandChannel q) (closed q) (q_runner q) (running q)
    (commandResultWaitGroup q) (q_stopper q) (done q) true.

(** [None]: the step cannot be taken now. The channel has room for one command. *)
Definition cmd_step (e : cmd_event) (q : queue) : option queue :=
  if q_panicked q then None else
  match e with
  | Submit command => Some
      (mkQueue (waiting q ++ [command]) (commandChannel q) (closed q) (q_runner q) (running q)
         (commandResultWaitGroup q + 1) (q_stopper q) (done q) false)
  | Send j =>
    command ← waiting q !! j;
    if closed q then Some (panic_queue q)
    else if decide (length (commandChannel q) < 1) then Some
      (mkQueue (delete j (waiting q)) (commandChannel q ++ [command]) (closed q) (q_runner q)
         (running q) (commandResultWaitGroup q) (q_stopper q) (done q) false)
    else None
  | Receive =>
    match q_runner q, commandChannel q with
    | RWait, command :: rest => Some
        (mkQueue (waiting q) rest (closed q) (RSpawn command) (running q)
           (commandResultWaitGroup q) (q_stopper q) (done q) false)
    | RWait, [] =>
        if closed q then Some
          (mkQueue (waiting q) [] true RExit (running q) (commandResultWaitGroup q)
             (q_stopper q) (done q) false)
        else None
    | _, _ => None
    end
  | Spawn =>
    match q_runner q with
    | RSpawn command => Some
        (mkQueue (waiting q) (commandChannel q) (closed q) RWait (running q ++ [command])
           (commandResultWaitGroup q) (q_stopper q) (done q) false)
    | _ => None
    end
  | Finish j =>
    command ← running q !! j;
    if (commandResultWaitGroup q <=? 0)%Z then Some (panic_queue q)
    else Some
      (mkQueue (waiting q) (commandChannel q) (closed q) (q_runner q) (delete j (running q))
         (commandResultWaitGroup q - 1) (q_stopper q) (done q ++ [command]) false)
  | Stop =>
    match q_stopper q with
    | NotStopped => Some
        (mkQueue (waiting q) (commandChannel q) true (q_runner q) (running q)
           (commandResultWaitGroup q) WaitRunner (done q) false)
    | _ => Some (panic_queue q)
    end
  | StopStep =>
    match q_stopper q, q_runner q with
    | WaitRunner, RExit => Some
        (mkQueue (waiting q) (commandChannel q) (closed q) RExit (running q)
           (commandResultWaitGroup q) WaitGroup (done q) false)
    | WaitGroup, _ =>
        if (commandResultWaitGroup q =? 0)%Z then Some
          (mkQueue (waiting q) (commandChannel q) (closed q) (q_runner q) (running q)
             (commandResultWaitGroup q) Stopped (done q) false)
        else None
    | _, _ => None
    end
  end.

Fixpoint cmd_steps (l : list cmd_event) (q : queue) : option queue :=
  match l with
  | [] => Some q
  | e :: l => q ← cmd_step e q; cmd_steps l q
  end.

(** The way [main] uses it: [Stop] once, in [Fin], after everyone who could submit has
    returned. *)
Fixpoint submits (l : list cmd_event) : list string :=
  match l with
  | Submit command :: l => command :: submits l
  | _ :: l => submits l
  | [] => []
  end.
