(* ===== verification/CommandFacts.v ===== *)
(** The commands: templates are filled in completely, and [Stop] waits for every command. *)
From S2P Require Import Prelude Bytes GoStrings Types Command.

(** * Templates *)

(** A command line as its parts: text without a percent sign, and placeholders. *)
Inductive part := Lit (s : string) | Var (name : string).

Definition render1 (p : part) : string :=
  match p with Lit s => s | Var name => "%{" +:+ name +:+ "}" end.
Fixpoint render (l : list part) : string :=
  match l with [] => "" | p :: l => render1 p +:+ render l end.

Definition fill (name value : string) (p : part) : part :=
  match p with
  | Lit s => Lit s
  | Var n => if decide (n = name) then Lit value else Var n
  end.

Definition plain_part (p : part) : Prop :=
  match p with
  | Lit s => "%"%char ∉ chars s
  | Var n => "%"%char ∉ chars n ∧ "}"%char ∉ chars n
  end.

Lemma HasPrefix_cons x a y b :
  strings_HasPrefix (String x a) (String y b) = true ↔ x = y ∧ strings_HasPrefix a b = true.
Proof.
  unfold strings_HasPrefix. cbn [String.prefix]. destruct (ascii_dec x y) as [->|]; naive_solver.
Qed.

(** A placeholder is a prefix of another one and more only if it is that one. *)
Lemma HasPrefix_closed a b s :
  "}"%char ∉ chars a → "}"%char ∉ chars b →
  strings_HasPrefix (a +:+ "}") (b +:+ String "}" s) = true ↔ a = b.
Proof.
  revert b. induction a as [|x a IH]; intros [|y b] Ha Hb.
  - change ("" +:+ "}") with "}". change ("" +:+ String "}" s) with (String "}" s).
    rewrite HasPrefix_cons. split; [done|]. intros _. split; [done|]. by destruct s.
  - change ("" +:+ "}") with "}". change (String y b +:+ String "}" s) with (String y (b +:+ String "}" s)).
    rewrite HasPrefix_cons. split; [|done]. intros [<- _]. destruct Hb. apply list_elem_of_here.
  - change (String x a +:+ "}") with (String x (a +:+ "}")).
    change ("" +:+ String "}" s) with (String "}" s).
    rewrite HasPrefix_cons. split; [|done]. intros [-> _]. destruct Ha. apply list_elem_of_here.
  - change (String x a +:+ "}") with (String x (a +:+ "}")).
    change (String y b +:+ String "}" s) with (String y (b +:+ String "}" s)).
    rewrite HasPrefix_cons, IH.
    + split; [by intros [-> ->]|by intros [= -> ->]].
    + intros Hin. apply Ha. by apply list_elem_of_further.
    + intros Hin. apply Hb. by apply list_elem_of_further.
Qed.

Lemma replace_skip old new a s :
  replace_from old new (String.length a) (a +:+ s) = replace_from old new 0 s.
Proof. induction a as [|x a IH]; [done|]. exact IH. Qed.

(** Text without a percent sign is copied. *)
Lemma replace_text old new a s :
  "%"%char ∉ chars a →
  replace_from (String "%" old) new 0 (a +:+ s) = a +:+ replace_from (String "%" old) new 0 s.
Proof.
  induction a as [|x a IH]; intros Ha; [done|].
  change (String x a +:+ s) with (String x (a +:+ s)). cbn [replace_from].
  assert (strings_HasPrefix (String "%" old) (String x (a +:+ s)) = false) as ->.
  { apply not_true_iff_false. intros [<- _]%HasPrefix_cons. apply Ha, list_elem_of_here. }
  rewrite IH; [done|]. intros Hin. apply Ha. by apply list_elem_of_further.
Qed.

Lemma replace_placeholder name new n s :
  "}"%char ∉ chars name → "%"%char ∉ chars n → "}"%char ∉ chars n →
  replace_from (render1 (Var name)) new 0 (render1 (Var n) +:+ s) =
    render1 (fill name new (Var n)) +:+ replace_from (render1 (Var name)) new 0 s.
Proof.
  intros Hname Hn Hn'. cbn [fill render1].
  set (old := String "{" (name +:+ "}")). change ("%{" +:+ name +:+ "}") with (String "%" old).
  set (rest := String "{" (n +:+ "}")). change ("%{" +:+ n +:+ "}") with (String "%" rest).
  change (String "%" rest +:+ s) with (String "%" (rest +:+ s)). cbn [replace_from].
  assert (rest +:+ s = String "{" (n +:+ String "}" s)) as Hrest.
  { unfold rest. change (String "{" (n +:+ "}") +:+ s) with (String "{" ((n +:+ "}") +:+ s)).
    by rewrite string_app_assoc. }
  assert (strings_HasPrefix (String "%" old) (String "%" (rest +:+ s)) = true ↔ name = n) as Hpre.
  { rewrite HasPrefix_cons. rewrite Hrest. unfold old. rewrite HasPrefix_cons.
    rewrite HasPrefix_closed by done. naive_solver. }
  case_decide as Heq.
  - subst n. rewrite (proj2 Hpre) by done. cbn [render1]. f_equal.
    replace (String.length (String "%" old) - 1) with (String.length rest); [apply replace_skip|].
    unfold rest, old. cbn [String.length]. lia.
  - assert (strings_HasPrefix (String "%" old) (String "%" (rest +:+ s)) = false) as ->.
    { apply not_true_iff_false. intros H%Hpre. by symmetry in H. }
    cbn [render1]. change ("%{" +:+ n +:+ "}") with (String "%" rest).
    change (String "%" rest +:+ ?x) with (String "%" (rest +:+ x)). f_equal.
    apply replace_text. unfold rest. intros [?|Hin]%elem_of_cons; [done|].
    change (String.list_ascii_of_string (n +:+ "}")) with (chars (n +:+ "}")) in Hin.
    rewrite chars_app in Hin. apply elem_of_app in Hin as [?|Hin]; [done|].
    by apply list_elem_of_singleton in Hin.
Qed.

Lemma replace_render name value l :
  "}"%char ∉ chars name → Forall plain_part l →
  strings_Replace (render l) (render1 (Var name)) value = render (fill name value <$> l).
Proof.
  intros Hname. unfold strings_Replace. induction 1 as [|p l Hp Hl IH]; [done|].
  cbn [render]. rewrite fmap_cons. cbn [render]. destruct p as [s|n].
  - etransitivity; [exact (replace_text (String "{" (name +:+ "}")) value s (render l) Hp)|].
    exact (f_equal (String.append s) IH).
  - destruct Hp as [Hp Hp']. rewrite replace_placeholder by done. by rewrite IH.
Qed.

Lemma fill_plain name value l :
  "%"%char ∉ chars value → Forall plain_part l → Forall plain_part (fill name value <$> l).
Proof.
  intros Hv. induction 1 as [|p l Hp Hl IH]; [done|]. rewrite fmap_cons. constructor; [|done].
  destruct p as [s|n]; [done|]. cbn. by case_decide.
Qed.

(** Every placeholder replaced at once, in one pass over the template; those without a value
    stay as they are. *)
Definition fill_all (values : gmap string string) (p : part) : part :=
  match p with
  | Lit s => Lit s
  | Var n => match values !! n with Some value => Lit value | None => Var n end
  end.

(** The parts of [path] in the place of each [%{file_path}]. *)
Definition insert_path (path : list part) (l : list part) : list part :=
  l ≫= λ p, match p with
            | Var n => if decide (n = "file_path") then path else [Var n]
            | Lit s => [Lit s]
            end.

Lemma render_app l k : render (l ++ k) = render l +:+ render k.
Proof. induction l as [|p l IH]; [done|]. cbn. by rewrite IH, string_app_assoc. Qed.

Lemma render_insert_path path l :
  render (fill "file_path" (render path) <$> l) = render (insert_path path l).
Proof.
  induction l as [|p l IH]; [done|]. rewrite fmap_cons. unfold insert_path. cbn [mbind list_bind].
  fold (insert_path path l). rewrite render_app, <- IH. cbn [render]. f_equal.
  destruct p as [s|n]; cbn; [by rewrite string_app_nil|].
  case_decide; [done|]. cbn. by rewrite string_app_nil.
Qed.

Lemma insert_path_plain path l :
  Forall plain_part path → Forall plain_part l → Forall plain_part (insert_path path l).
Proof.
  intros Hpath. induction 1 as [|p l Hp Hl IH]; [done|]. unfold insert_path. cbn [mbind list_bind].
  fold (insert_path path l). apply Forall_app. split; [|done].
  destruct p as [s|n]; [by apply Forall_singleton|]. case_decide; [done|by apply Forall_singleton].
Qed.

Lemma FormatInt_plain n : "%"%char ∉ chars (FormatInt n).
Proof.
  unfold FormatInt. destruct (n <? 0)%Z; [intros [?|Hin]%elem_of_cons; [done|]|intros Hin];
    (apply FormatUint_digits in Hin; [done|by left]).
Qed.

(** The five placeholders of the program. *)
Lemma replace_known name value l :
  name ∈ ["file_path"; "file_size"; "file_count"; "total_file_size"; "elapsed_time"] →
  Forall plain_part l →
  strings_Replace (render l) ("%{" +:+ name +:+ "}") value = render (fill name value <$> l).
Proof.
  intros Hname. apply replace_render. revert name Hname.
  apply (proj1 (Forall_forall _ _)). repeat constructor; apply (bool_decide_unpack _); by vm_compute.
Qed.

(** C33: how templates are filled in. Take a command line of placeholders and of text without
    a percent sign. The final command has its three values in every place, and the per-file
    command the path and the size, exactly as if all placeholders were replaced at once in one
    pass, provided the path has no percent sign either. A path that does have placeholders in
    it is put in first and filled in with the size after that: the command is then not given
    the file's path. *)
Theorem templates_filled l filePath fileSize fileCount totalFileSize elapsedTime path :
  Forall plain_part l → "%"%char ∉ chars filePath → Forall plain_part path →
  onEachFile_command (render l) filePath fileSize =
    render (fill_all {["file_path" := filePath; "file_size" := FormatInt fileSize]} <$> l) ∧
  onEachFile_command (render l) (render path) fileSize =
    render (fill_all {["file_size" := FormatInt fileSize]} <$> insert_path path l) ∧
  onComplete_command (render l) fileCount totalFileSize elapsedTime =
    render (fill_all {["file_count" := FormatInt fileCount;
      "total_file_size" := FormatInt totalFileSize; "elapsed_time" := elapsedTime]} <$> l).
Proof.
  intros Hl Hp Hpath. unfold onEachFile_command, onComplete_command. cbv zeta.
  change TemplateFilePath with ("%{" +:+ "file_path" +:+ "}").
  change TemplateFileSize with ("%{" +:+ "file_size" +:+ "}").
  change TemplateFileCount with ("%{" +:+ "file_count" +:+ "}").
  change TemplateTotalFileSize with ("%{" +:+ "total_file_size" +:+ "}").
  change TemplateElapsedTime with ("%{" +:+ "elapsed_time" +:+ "}").
  pose proof (fill_plain "file_path" filePath l Hp Hl) as Hl1.
  pose proof (insert_path_plain path l Hpath Hl) as Hl2.
  pose proof (fill_plain "file_count" _ l (FormatInt_plain fileCount) Hl) as Hl3.
  pose proof (fill_plain "total_file_size" _ _ (FormatInt_plain totalFileSize) Hl3) as Hl4.
  rewrite (replace_known "file_path" filePath l), (replace_known "file_path" (render path) l),
    (replace_known "file_count" _ l) by (done || set_solver).
  rewrite render_insert_path, (replace_known "file_size" _ (fill "file_path" filePath <$> l)),
    (replace_known "file_size" _ (insert_path path l)),
    (replace_known "total_file_size") by (done || set_solver).
  rewrite (replace_known "elapsed_time") by (done || set_solver).
  rewrite <- !list_fmap_compose. split_and!; f_equal; apply list_fmap_ext; intros i p _.
  all: destruct p as [s|n]; [done|]; cbn [compose fill fill_all]; simplify_map_eq.
  - destruct (decide (n = "file_path")) as [->|H1]; [by simplify_map_eq|].
    rewrite lookup_insert_ne by done. cbn [fill].
    destruct (decide (n = "file_size")) as [->|H2]; by simplify_map_eq.
  - destruct (decide (n = "file_size")) as [->|H2]; by simplify_map_eq.
  - destruct (decide (n = "file_count")) as [->|H1]; [by simplify_map_eq|].
    rewrite lookup_insert_ne by done. cbn [fill].
    destruct (decide (n = "total_file_size")) as [->|H2]; [by simplify_map_eq|].
    rewrite lookup_insert_ne by done. cbn [fill].
    destruct (decide (n = "elapsed_time")) as [->|H3]; by simplify_map_eq.
Qed.

(** A template with two placeholders, one that is not known, and a path that looks like one. *)
Lemma templates_filled_witness :
  onEachFile_command "cp %{file_path} # %{file_size} %{x}" "/dst/a" 5 = "cp /dst/a # 5 %{x}" ∧
  onEachFile_command "echo %{file_path}" "/dst/%{file_size}" 5 = "echo /dst/5".
Proof.
  destruct (templates_filled [Lit "cp "; Var "file_path"; Lit " # "; Var "file_size"; Lit " "; Var "x"]
    "/dst/a" 5 0 0 "" [] ltac:(repeat constructor; apply (bool_decide_unpack _); by vm_compute)
    ltac:(apply (bool_decide_unpack _); by vm_compute) ltac:(by constructor)) as (H1 & _).
  destruct (templates_filled [Lit "echo "; Var "file_path"] "" 5 0 0 "" [Lit "/dst/"; Var "file_size"]
    ltac:(repeat constructor; apply (bool_decide_unpack _); by vm_compute)
    ltac:(apply (bool_decide_unpack _); by vm_compute)
    ltac:(repeat constructor; apply (bool_decide_unpack _); by vm_compute)) as (_ & H2 & _).
  exact (conj H1 H2).
Defined.

(** * The queue *)

Definition runner_commands (r : runner) : list string :=
  match r with RSpawn command => [command] | _ => [] end.

(** The commands that were submitted and have not ended. *)
Definition unfinished (q : queue) : list string :=
  waiting q ++ commandChannel q ++ runner_commands (q_runner q) ++ running q.

(** What holds at every step; [all] are the commands submitted so far. *)
Record queue_ok (all : list string) (q : queue) : Prop := {
  qo_all : unfinished q ++ done q ≡ₚ all;
  qo_group : commandResultWaitGroup q = Z.of_nat (length (unfinished q));
  qo_closed : closed q = true ↔ q_stopper q ≠ NotStopped;
  qo_exit : q_runner q = RExit → closed q = true ∧ commandChannel q = [];
  qo_stop : q_stopper q = WaitGroup ∨ q_stopper q = Stopped → q_runner q = RExit;
  qo_stopped : q_stopper q = Stopped → unfinished q = [];
  qo_quiet : closed q = true → waiting q = [];
  qo_calm : q_panicked q = false
}.

(** The events allowed after [Stop] was called. *)
Definition after_stop (e : cmd_event) : bool :=
  match e with Submit _ | Stop => false | _ => true end.

Definition event_ok (q : queue) (e : cmd_event) : Prop :=
  match e with
  | Submit _ => closed q = false
  | Stop => q_stopper q = NotStopped ∧ waiting q = []
  | _ => True
  end.

Definition submitted (e : cmd_event) : list string :=
  match e with Submit command => [command] | _ => [] end.

Lemma delete_perm {A} (l : list A) j x :
  l !! j = Some x → ∃ l', delete j l = l' ∧ l ≡ₚ x :: l'.
Proof. intros H. exists (delete j l). split; [done|]. by apply delete_Permutation. Qed.

Lemma cmd_step_ok all e q q' :
  queue_ok all q → event_ok q e → cmd_step e q = Some q' → queue_ok (all ++ submitted e) q'.
Proof.
  intros [Ha Hg Hc He Hs Hst Hq Hp] Hev. unfold cmd_step. rewrite Hp.
  destruct q as [wt ch cl rn rg wg sp dn pn]; unfold unfinished in *; cbn in *. subst pn.
  destruct e as [command|j| | |j| |]; cbn in *; rewrite ?app_nil_r.
  - (* Submit *)
    intros [= <-]. subst cl. split; unfold unfinished; cbn; try done.
    + rewrite <- Ha. solve_Permutation.
    + rewrite Hg, !length_app. cbn. lia.
    + intros H. exfalso. assert (false = true); [|done]. apply Hc. by rewrite H.
  - (* Send *)
    destruct (wt !! j) as [command|] eqn:Hj; [|done]. cbn.
    destruct cl; [by rewrite (Hq eq_refl) in Hj|]. case_decide; [|done]. intros [= <-].
    destruct (delete_perm _ _ _ Hj) as (wt' & -> & Hd). split; unfold unfinished; cbn; try done.
    + rewrite <- Ha, Hd. solve_Permutation.
    + rewrite Hg, Hd, !length_app. cbn. rewrite ?length_app. cbn. lia.
    + intros H1. by destruct (He H1).
    + intros H1. specialize (Hst H1). by destruct wt.
  - (* Receive *)
    destruct rn as [|c|]; [|done..]. destruct ch as [|command ch].
    + destruct cl; [|done]. intros [= <-]. split; unfold unfinished; cbn; try done.
    + intros [= <-]. split; unfold unfinished; cbn; try done.
      * rewrite <- Ha. solve_Permutation.
      * rewrite Hg, !length_app. cbn. rewrite ?length_app. lia.
      * intros H1. by specialize (Hs H1).
      * intros H1. specialize (Hst H1). by destruct wt.
  - (* Spawn *)
    destruct rn as [|command|]; [done| |done]. intros [= <-].
    split; unfold unfinished; cbn; try done.
    + rewrite <- Ha. solve_Permutation.
    + rewrite Hg, !length_app. cbn. rewrite ?length_app. cbn. lia.
    + intros H1. by specialize (Hs H1).
    + intros H1. by specialize (Hs (or_intror H1)).
  - (* Finish *)
    destruct (rg !! j) as [command|] eqn:Hj; [|done]. cbn.
    destruct (delete_perm _ _ _ Hj) as (rg' & -> & Hd).
    assert (0 < wg)%Z as Hpos by (rewrite Hg, Hd, !length_app; cbn; lia).
    destruct (Z.leb_spec wg 0); [lia|]. intros [= <-]. split; unfold unfinished; cbn; try done.
    + rewrite <- Ha, Hd. solve_Permutation.
    + rewrite Hg, Hd, !length_app. cbn. lia.
    + intros H1. specialize (Hst H1). by destruct wt, ch, (runner_commands rn), rg.
  - (* Stop *)
    destruct Hev as [-> ->]. intros [= <-]. split; unfold unfinished; cbn; try done.
    + intros H1. destruct (He H1). by split.
    + by intros [].
  - (* StopStep *)
    destruct sp; [done| | |done].
    + destruct rn; [done..|]. intros [= <-]. split; unfold unfinished; cbn; try done.
      split; [done|]. intros _. by apply Hc.
    + destruct (Z.eqb_spec wg 0) as [->|]; [|done]. intros [= <-].
      split; unfold unfinished; cbn; try done.
      * split; [done|]. intros _. by apply Hc.
      * intros _. by apply Hs; left.
      * intros _. apply length_zero_iff_nil. lia.
Qed.

(** ** After [Stop] *)

(** What is left to do until [Stop] returns. *)
Definition left_to_do (q : queue) : nat :=
  3 * length (commandChannel q) + 2 * length (runner_commands (q_runner q)) + length (running q) +
  (match q_runner q with RExit => 0 | _ => 1 end) +
  match q_stopper q with NotStopped => 3 | WaitRunner => 2 | WaitGroup => 1 | Stopped => 0 end.

Lemma after_stop_step all e q q' :
  queue_ok all q → closed q = true → after_stop e = true → cmd_step e q = Some q' →
  closed q' = true ∧ left_to_do q' < left_to_do q.
Proof.
  intros [Ha Hg Hc He Hs Hst Hq Hp] Hcl Hev. unfold cmd_step. rewrite Hp.
  destruct q as [wt ch cl rn rg wg sp dn pn]; unfold unfinished, left_to_do in *; cbn in *. subst cl pn.
  destruct e as [command|j| | |j| |]; cbn in *; try done.
  - by rewrite (Hq eq_refl).
  - destruct rn as [|c|]; [|done..]. destruct ch as [|command ch]; intros [= <-]; cbn; split; (done || lia).
  - destruct rn as [|command|]; [done| |done]. intros [= <-]. cbn. rewrite length_app. cbn.
    split; (done || lia).
  - destruct (rg !! j) as [command|] eqn:Hj; [|done]. cbn. destruct (wg <=? 0)%Z eqn:Hle.
    + exfalso. apply Z.leb_le in Hle. apply lookup_lt_Some in Hj.
      rewrite Hg, !length_app in Hle. lia.
    + intros [= <-]. cbn. split; [done|].
      pose proof (length_delete rg j ltac:(by eexists)). apply lookup_lt_Some in Hj. lia.
  - destruct sp; [done| | |done].
    + destruct rn; [done..|]. intros [= <-]. cbn. split; (done || lia).
    + destruct (wg =? 0)%Z; [|done]. intros [= <-]. cbn. split; (done || lia).
Qed.

(** [Stop] is never stuck. *)
Lemma after_stop_progress all q :
  queue_ok all q → closed q = true → q_stopper q ≠ Stopped →
  ∃ e, after_stop e = true ∧ is_Some (cmd_step e q).
Proof.
  intros [Ha Hg Hc He Hs Hst Hq Hp] Hcl Hns.
  destruct q as [wt ch cl rn rg wg sp dn pn]; unfold unfinished in *; cbn in *. subst cl pn.
  destruct rn as [|command|].
  - exists Receive. split; [done|]. destruct ch; by eexists.
  - exists Spawn. split; [done|]. by eexists.
  - destruct rg as [|command rg].
    + exists StopStep. split; [done|]. rewrite (Hq eq_refl), (proj2 (He eq_refl)) in Hg. cbn in Hg.
      subst wg. destruct sp; [|by eexists..|done]. by destruct (proj1 Hc eq_refl).
    + exists (Finish 0). split; [done|]. cbn. destruct (Z.leb_spec wg 0); [|by eexists].
      exfalso. rewrite Hg, !length_app in *. cbn in *. lia.
Qed.

Lemma cmd_steps_app l1 l2 q :
  cmd_steps (l1 ++ l2) q = q1 ← cmd_steps l1 q; cmd_steps l2 q1.
Proof.
  revert q. induction l1 as [|e l1 IH]; intros q; [done|]. cbn [app cmd_steps].
  destruct (cmd_step e q); [|done]. apply IH.
Qed.

Lemma submits_app l1 l2 : submits (l1 ++ l2) = submits l1 ++ submits l2.
Proof. induction l1 as [|[] l1 IH]; cbn; by rewrite ?IH. Qed.

Lemma NewCommand_queue_ok : queue_ok [] NewCommand_queue.
Proof. split; try done. by intros []. Qed.

(** Until [Stop] is called. *)
Lemma before_stop all l q q' :
  queue_ok all q → closed q = false → Forall (λ e, e ≠ Stop) l → cmd_steps l q = Some q' →
  queue_ok (all ++ submits l) q' ∧ closed q' = false.
Proof.
  intros Hok Hcl Hl. revert all q Hok Hcl. induction Hl as [|e l He Hl IH]; intros all q Hok Hcl.
  { intros [= <-]. cbn. by rewrite app_nil_r. }
  cbn [cmd_steps]. destruct (cmd_step e q) as [q1|] eqn:Hs; [|done]. cbn [mbind option_bind].
  intros Hrun. assert (closed q1 = false) as Hcl1.
  { revert Hs. unfold cmd_step. rewrite (qo_calm _ _ Hok). destruct q; cbn in *. subst.
    destruct e; cbn; repeat case_match; try done; intros; simplify_option_eq; done. }
  assert (queue_ok (all ++ submitted e) q1) as Hok1.
  { eapply cmd_step_ok; [done| |done]. by destruct e. }
  destruct (IH _ _ Hok1 Hcl1 Hrun) as [H1 H2]. split; [|done].
  replace (all ++ submits (e :: l)) with ((all ++ submitted e) ++ submits l); [done|].
  rewrite <- (assoc_L (++)). by destruct e.
Qed.

Lemma after_stop_steps all l q q' :
  queue_ok all q → closed q = true → forallb after_stop l = true → cmd_steps l q = Some q' →
  queue_ok all q' ∧ closed q' = true ∧ length l + left_to_do q' ≤ left_to_do q.
Proof.
  revert q. induction l as [|e l IH]; intros q Hok Hcl.
  { intros _ [= <-]. by split_and!. }
  cbn [forallb cmd_steps]. intros [He Hl]%andb_true_iff.
  destruct (cmd_step e q) as [q1|] eqn:Hs; [|done]. cbn [mbind option_bind]. intros Hrun.
  destruct (after_stop_step _ _ _ _ Hok Hcl He Hs) as [Hcl1 Hlt].
  assert (queue_ok all q1) as Hok1.
  { replace all with (all ++ submitted e) by (by destruct e; rewrite ?app_nil_r).
    eapply cmd_step_ok; [done| |done]. by destruct e. }
  destruct (IH q1 Hok1 Hcl1 Hl Hrun) as (H1 & H2 & H3). cbn [length]. split_and!; [done..|lia].
Qed.

(** C13: [Stop] waits for every command. Commands may be submitted by any number of goroutines
    at any time before [Stop] is called; once it is, when no caller is left inside
    [RunOnComplete] or [RunOnEachFileComplete], nothing panics, [Stop] is never stuck and
    returns after at most three steps per command and three more; and when it has returned
    every command that was ever submitted has run to its end, each exactly once. *)
Theorem Stop_waits l1 l2 q1 q :
  Forall (λ e, e ≠ Stop) l1 → cmd_steps l1 NewCommand_queue = Some q1 → waiting q1 = [] →
  forallb after_stop l2 = true → cmd_steps (Stop :: l2) q1 = Some q →
  q_panicked q = false ∧ length l2 ≤ 3 * length (submits l1) + 3 ∧
  (q_stopper q = Stopped → done q ≡ₚ submits l1 ∧ running q = [] ∧ commandChannel q = []) ∧
  (q_stopper q ≠ Stopped → ∃ e q', after_stop e = true ∧ cmd_step e q = Some q').
Proof.
  intros Hl1 Hrun1 Hw Hl2 Hrun2.
  destruct (before_stop [] l1 _ _ NewCommand_queue_ok eq_refl Hl1 Hrun1) as [Hok1 Hcl1]. cbn in Hok1.
  cbn [cmd_steps] in Hrun2. destruct (cmd_step Stop q1) as [q2|] eqn:Hs; [|done].
  cbn [mbind option_bind] in Hrun2.
  assert (q_stopper q1 = NotStopped) as Hns.
  { destruct (q_stopper q1) eqn:E; [done|exfalso..]; assert (closed q1 = true) as H1;
      try (by apply (qo_closed _ _ Hok1); rewrite E); congruence. }
  pose proof (cmd_step_ok _ Stop _ _ Hok1 (conj Hns Hw) Hs) as Hok2. cbn [submitted] in Hok2.
  rewrite app_nil_r in Hok2.
  assert (closed q2 = true ∧ left_to_do q2 ≤ 3 * length (submits l1) + 3) as [Hcl2 Hleft].
  { revert Hs. unfold cmd_step. rewrite (qo_calm _ _ Hok1), Hns. intros [= <-]. split; [done|].
    assert (length (unfinished q1) ≤ length (submits l1)) as Hlen
      by (rewrite <- (qo_all _ _ Hok1), length_app; lia).
    unfold unfinished, left_to_do in *. rewrite !length_app in Hlen. cbn.
    destruct (q_runner q1); cbn in *; lia. }
  destruct (after_stop_steps _ _ _ _ Hok2 Hcl2 Hl2 Hrun2) as (Hok & Hcl & Hlt).
  split_and!; [apply (qo_calm _ _ Hok)|lia| |].
  - intros Hst. pose proof (qo_stopped _ _ Hok Hst) as Hun. pose proof (qo_all _ _ Hok) as Hall.
    rewrite Hun in Hall. unfold unfinished in Hun.
    apply app_eq_nil in Hun as [_ Hun]. apply app_eq_nil in Hun as [Hch Hun].
    apply app_eq_nil in Hun as [_ Hrg]. by split_and!.
  - intros Hst. destruct (after_stop_progress _ _ Hok Hcl Hst) as (e & He & q' & Hq'). by exists e, q'.
Qed.

(** Two commands: one still in the channel and one running when [Stop] is called. *)
Definition two_commands : list cmd_event :=
  [Submit "a"; Send 0; Receive; Submit "b"; Send 0; Spawn].
Definition stop_steps : list cmd_event :=
  [Receive; Finish 0; Spawn; Receive; StopStep; Finish 0; StopStep].

Lemma Stop_waits_witness :
  ∃ q1 q, cmd_steps two_commands NewCommand_queue = Some q1 ∧
    cmd_steps (Stop :: stop_steps) q1 = Some q ∧ q_stopper q = Stopped ∧ done q ≡ₚ ["a"; "b"].
Proof.
  do 2 eexists. split; [by vm_compute|]. split; [by vm_compute|]. split; [done|].
  refine (proj1 (proj1 (proj2 (proj2 (Stop_waits two_commands stop_steps _ _ _ _ _ _ _))) _));
    [repeat constructor; done|by vm_compute|done|done|by vm_compute|done].
Defined.
