(* ===== verification/Dns.v ===== *)
(** testutil/dns.go: a DNS server that answers A and SRV queries from two tables, with the answer
    changing with the number of queries. The tests of the peer providers run against it. *)
From S2P Require Import Prelude Bytes GoStrings GoNet.

(** * State *)

Record SRVRecord := mkSRVRecord
  { Priority : Z; Weight : Z; Port : Z; Target : string }.

(** [conn] is [nil], an open socket or a closed one. *)
Inductive socket := SocketOpen | SocketClosed.

Record DNSMockServer := mkDNSMockServer {
  addr : string;
  records : gmap string (list string);
  srvRecords : gmap string (list SRVRecord);
  conn : option socket;
  requestCount : Z
}.

Definition NewDNSMockServer (addr : string) : DNSMockServer :=
  mkDNSMockServer addr ∅ ∅ None 0.

Section dns.
Context `{Unicode}.

(** * The tables *)

(** [strings.ToLower(domain)] with a dot at the end. *)
Definition normalize_domain (domain : string) : string :=
  let domain := ToLower domain in
  if strings_HasSuffix "." domain then domain else domain +:+ ".".

Definition AddRecord (domain : string) (ips : list string) (s : DNSMockServer) : DNSMockServer :=
  mkDNSMockServer (addr s) (<[normalize_domain domain := ips]> (records s)) (srvRecords s)
    (conn s) (requestCount s).

Definition AddDynamicRecord (domain : string) (allIPs : list string) (s : DNSMockServer) :
    DNSMockServer :=
  mkDNSMockServer (addr s) (<[normalize_domain domain := allIPs]> (records s)) (srvRecords s)
    (conn s) (requestCount s).

Definition AddSRVRecord (domain : string) (srvs : list SRVRecord) (s : DNSMockServer) :
    DNSMockServer :=
  mkDNSMockServer (addr s) (records s) (<[normalize_domain domain := srvs]> (srvRecords s))
    (conn s) (requestCount s).

Definition AddDynamicSRVRecord (domain : string) (allSrvRecords : list SRVRecord)
    (s : DNSMockServer) : DNSMockServer :=
  mkDNSMockServer (addr s) (records s)
    (<[normalize_domain domain := allSrvRecords]> (srvRecords s)) (conn s) (requestCount s).

(** * Names *)

(** The loop of [parseDomainName]: it goes on for as long as it finds labels. *)
Fixpoint parse_labels (fuel : nat) (data : bytes) (pos : nat) (domain : list string) :
    option (list string * nat) :=
  match fuel with
  | O => None
  | S fuel =>
    match data !! pos with
    | None => Some (domain, pos)
    | Some b =>
      let len := Z.to_nat (byte_val b) in
      if (len =? 0)%nat then Some (domain, pos + 1)
      else
        let pos := pos + 1 in
        if (length data <? pos + len)%nat then Some (domain, pos)
        else parse_labels fuel data (pos + len)
               (domain ++ [bytes_string (take len (drop pos data))])
    end
  end.

(** Every turn moves [pos] to the right, so one turn for each byte and one more are enough. *)
Definition parseDomainName (data : bytes) (offset : nat) : result (string * nat) :=
  match parse_labels (S (length data)) data offset [] with
  | Some (domain, pos) => Ok (strings_Join domain "." +:+ ".", pos)
  | None => Panic "out of fuel"
  end.

(** The loop of [encodeDomainName] stops at an empty part and cuts the long ones. *)
Fixpoint encode_parts (parts : list string) : bytes :=
  match parts with
  | [] => []
  | part :: parts =>
    if decide (part = "") then []
    else
      let part := if (63 <? String.length part)%nat then string_take 63 part else part in
      byte_of (Z.of_nat (String.length part)) :: string_bytes part ++ encode_parts parts
  end.

Definition encodeDomainName (domain : string) : bytes :=
  let domain := match net_ParseIP domain with Some _ => domain +:+ ".local" | None => domain end in
  let domain := if strings_HasSuffix "." domain then domain else domain +:+ "." in
  encode_parts (strings_Split "." domain) ++ [Byte.x00].

(** * Responses *)

Definition buildMultiResponse (transactionID question : bytes) (ips : list string) : bytes :=
  transactionID ++
  (* flags: standard query response, recursion available *)
  [Byte.x81; Byte.x80] ++
  (* one question, the answers, no authority and no additional records *)
  [Byte.x00; Byte.x01] ++
  [Byte.x00; byte_of (Z.of_nat (length ips))] ++
  [Byte.x00; Byte.x00] ++ [Byte.x00; Byte.x00] ++
  question ++
  concat ((λ ip,
    (* a pointer to the name in the question, type A, class IN, 300 seconds, 4 bytes *)
    [Byte.xc0; Byte.x0c] ++ [Byte.x00; Byte.x01] ++ [Byte.x00; Byte.x01] ++
    [Byte.x00; Byte.x00; Byte.x01; Byte.x2c] ++ [Byte.x00; Byte.x04] ++
    To4 (net_ParseIP ip)) <$> ips).

Definition buildResponse (transactionID question : bytes) (ip : string) : bytes :=
  buildMultiResponse transactionID question [ip].

Definition buildNXDomainResponse (transactionID question : bytes) : bytes :=
  transactionID ++ [Byte.x81; Byte.x83] ++ [Byte.x00; Byte.x01] ++ [Byte.x00; Byte.x00] ++
  [Byte.x00; Byte.x00] ++ [Byte.x00; Byte.x00] ++ question.

Definition buildSRVResponse (transactionID question : bytes) (srvs : list SRVRecord) : bytes :=
  transactionID ++
  [Byte.x81; Byte.x80] ++ [Byte.x00; Byte.x01] ++
  [Byte.x00; byte_of (Z.of_nat (length srvs))] ++
  [Byte.x00; Byte.x00] ++ [Byte.x00; Byte.x00] ++
  question ++
  concat ((λ srv,
    let targetBytes := encodeDomainName (Target srv) in
    let dataLength := (6 + Z.of_nat (length targetBytes))%Z in
    (* the pointer, type SRV, class IN, 300 seconds *)
    [Byte.xc0; Byte.x0c] ++ [Byte.x00; Byte.x21] ++ [Byte.x00; Byte.x01] ++
    [Byte.x00; Byte.x00; Byte.x01; Byte.x2c] ++
    put_uint16 dataLength ++
    put_uint16 (Priority srv) ++ put_uint16 (Weight srv) ++ put_uint16 (Port srv) ++
    targetBytes) <$> srvs).

(** * Queries *)

(** The answers to the request with this number: of more than three, all in the middle ten
    requests and the first three before and after. *)
Definition select_dynamic {A} (count : Z) (all : list A) : list A :=
  if (3 <? length all)%nat then
    if (count <=? 5)%Z then take 3 all else if (count <=? 15)%Z then all else take 3 all
  else all.

(** [s.requestCount++] *)
Definition count_request : io DNSMockServer Z := λ s,
  let count := (requestCount s +i64 1)%go in
  (Ok count, mkDNSMockServer (addr s) (records s) (srvRecords s) (conn s) count).

Definition get_server : io DNSMockServer DNSMockServer := λ s, (Ok s, s).

(** The part of [handleQuery] that runs under the lock. *)
Definition answer_locked (transactionID question : bytes) (domain : string) (qtype : Z) :
    io DNSMockServer (option bytes) :=
  s ← get_server;
  if (qtype =? 1)%Z then
    match records s !! domain with
    | None => mret (Some (buildNXDomainResponse transactionID question))
    | Some allIPs =>
      count ← count_request;
      mret (Some (buildMultiResponse transactionID question (select_dynamic count allIPs)))
    end
  else if (qtype =? 28)%Z then
    mret (Some (buildNXDomainResponse transactionID question))
  else if (qtype =? 33)%Z then
    match srvRecords s !! domain with
    | None => mret (Some (buildNXDomainResponse transactionID question))
    | Some allSrvRecords =>
      count ← count_request;
      mret (Some (buildSRVResponse transactionID question (select_dynamic count allSrvRecords)))
    end
  else mret None.

(** The response, or [nil]. *)
Definition handleQuery (query : bytes) : io DNSMockServer (option bytes) :=
  if (length query <? 12)%nat then mret None
  else
    transactionID ← io_lift (slice 0 2 query);
    '(domain, offset) ← io_lift (parseDomainName query 12);
    let domain := ToLower domain in
    if (length query <? offset + 4)%nat then mret None
    else
      qtype ← io_lift (b ← slice offset (offset + 2) query; BigEndian_Uint16 b);
      question ← io_lift (slice 12 (offset + 4) query);
      answer_locked transactionID question domain qtype.

(** * The server's loop *)

Definition set_conn (c : option socket) (s : DNSMockServer) : DNSMockServer :=
  mkDNSMockServer (addr s) (records s) (srvRecords s) c (requestCount s).

(** [Start] up to its loop; what resolving the address and listening return are inputs. *)
Definition Start (resolved listening : result unit) : io DNSMockServer unit := λ s,
  match resolved with
  | Ok _ => match listening with
            | Ok _ => (Ok (), set_conn (Some SocketOpen) s)
            | r => (r, set_conn None s)
            end
  | r => (r, s)
  end.

Definition Stop : io DNSMockServer unit := λ s,
  match conn s with
  | Some SocketOpen => (Ok (), set_conn (Some SocketClosed) s)
  | Some SocketClosed => (Err (errors_New "use of closed network connection"), s)
  | None => (Ok (), s)
  end.

(** One turn of the loop: a packet, of which 512 bytes are kept, from a client; the packet that
    is sent back. An error of [ReadFromUDP] starts the next turn, and a closed socket has no
    packets. *)
Definition Start_turn {C : Type} (received : result (bytes * C)) :
    io DNSMockServer (option (bytes * C)) := λ s,
  match conn s, received with
  | Some SocketOpen, Ok (packet, clientAddr) =>
    (response ← handleQuery (take 512 packet);
     mret ((λ r, (r, clientAddr)) <$> response)) s
  | _, _ => (Ok None, s)
  end.

(** The loop has no way out; this is what it sends for the packets that arrive. *)
Fixpoint Start_loop {C : Type} (received : list (result (bytes * C))) :
    io DNSMockServer (list (bytes * C)) :=
  match received with
  | [] => mret []
  | p :: received =>
    sent ← Start_turn p;
    rest ← Start_loop received;
    mret (match sent with Some r => r :: rest | None => rest end)
  end.
End dns.
