(* ===== verification/DnsFacts.v ===== *)
(** What the DNS server of the tests answers: its names and responses against the message format
    of RFC 1035. *)
From S2P Require Import Prelude Bytes GoStrings GoNet Dns.
From Stdlib Require Import DecimalString.

(** * The format

    A name is a list of labels; an answer's name is a pointer to the question's. *)

Definition plain_label (s : string) : Prop :=
  s ≠ "" ∧ String.length s ≤ 63 ∧ "."%char ∉ chars s.

Definition encode_label (s : string) : bytes :=
  byte_of (Z.of_nat (String.length s)) :: string_bytes s.
Definition encode_labels (ls : list string) : bytes :=
  concat (encode_label <$> ls) ++ [Byte.x00].

(** A query: the rest of the header, the question, and whatever follows it. *)
Definition encode_query (id hdr : bytes) (ls : list string) (qtype : Z) (class trailer : bytes) :
    bytes :=
  id ++ hdr ++ encode_labels ls ++ put_uint16 qtype ++ class ++ trailer.

Record answer := mkAnswer { an_type : bytes; an_class : bytes; an_ttl : bytes; an_data : bytes }.

Record message := mkMessage {
  ms_id : bytes; ms_flags : bytes; ms_name : list string; ms_qtype : Z; ms_class : bytes;
  ms_answers : list answer
}.

(** ** Decoding *)

(** [n] bytes, and those behind them. *)
Definition get (n : nat) (b : bytes) : option (bytes * bytes) :=
  if decide (n ≤ length b) then Some (take n b, drop n b) else None.

Definition get_uint16 (b : bytes) : option (Z * bytes) :=
  '(x, b) ← get 2 b;
  match x with [hi; lo] => Some (byte_val hi * 256 + byte_val lo, b)%Z | _ => None end.

Fixpoint get_labels (fuel : nat) (b : bytes) : option (list string * bytes) :=
  match fuel with
  | O => None
  | S fuel =>
    match b with
    | [] => None
    | n :: b =>
      let len := Z.to_nat (byte_val n) in
      if decide (len = 0) then Some ([], b)
      else if decide (63 < len) then None
      else
        '(l, b) ← get len b;
        '(ls, b) ← get_labels fuel b;
        Some (bytes_string l :: ls, b)
    end
  end.

Definition get_answer (b : bytes) : option (answer * bytes) :=
  '(pointer, b) ← get 2 b;
  if decide (pointer = [Byte.xc0; Byte.x0c]) then
    '(type, b) ← get 2 b;
    '(class, b) ← get 2 b;
    '(ttl, b) ← get 4 b;
    '(len, b) ← get_uint16 b;
    '(data, b) ← get (Z.to_nat len) b;
    Some (mkAnswer type class ttl data, b)
  else None.

Fixpoint get_answers (n : nat) (b : bytes) : option (list answer * bytes) :=
  match n with
  | O => Some ([], b)
  | S n =>
    '(a, b) ← get_answer b;
    '(l, b) ← get_answers n b;
    Some (a :: l, b)
  end.

(** A message with one question, answers, and nothing behind them. *)
Definition decode_message (b : bytes) : option message :=
  '(id, b) ← get 2 b;
  '(flags, b) ← get 2 b;
  '(qd, b) ← get_uint16 b;
  '(an, b) ← get_uint16 b;
  '(counts, b) ← get 4 b;
  if decide (qd = 1%Z ∧ counts = replicate 4 Byte.x00) then
    '(name, b) ← get_labels (length b) b;
    '(qtype, b) ← get_uint16 b;
    '(class, b) ← get 2 b;
    '(answers, b) ← get_answers (Z.to_nat an) b;
    if decide (b = []) then Some (mkMessage id flags name qtype class answers) else None
  else None.

(** The data of an SRV answer. *)
Definition decode_srv (data : bytes) : option (Z * Z * Z * list string) :=
  '(priority, b) ← get_uint16 data;
  '(weight, b) ← get_uint16 b;
  '(port, b) ← get_uint16 b;
  '(name, b) ← get_labels (length b) b;
  if decide (b = []) then Some (priority, weight, port, name) else None.

(** ** Getting what was put *)

Lemma get_app n a b : length a = n → get n (a ++ b) = Some (a, b).
Proof.
  intros <-. unfold get. rewrite decide_True by (rewrite length_app; lia).
  by rewrite take_app_length, drop_app_length.
Qed.

Lemma get_uint16_put n b : (0 ≤ n < 2 ^ 16)%Z → get_uint16 (put_uint16 n ++ b) = Some (n, b).
Proof.
  intros Hn. unfold get_uint16. rewrite get_app by done.
  pose proof (Uint16_put n [] Hn) as H. unfold put_uint16 in *. cbn [app BigEndian_Uint16] in H.
  injection H as H. cbn. by rewrite H.
Qed.

Lemma label_length s :
  plain_label s → Z.to_nat (byte_val (byte_of (Z.of_nat (String.length s)))) = String.length s.
Proof.
  intros (_ & Hl & _). rewrite byte_val_of, wrapu_small by lia. by rewrite Nat2Z.id.
Qed.

Lemma label_pos s : plain_label s → String.length s ≠ 0.
Proof. intros (Hs & _). by destruct s. Qed.

Lemma encode_labels_cons s ls :
  encode_labels (s :: ls) = encode_label s ++ encode_labels ls.
Proof. unfold encode_labels. cbn. by rewrite <- app_assoc. Qed.

Lemma get_labels_encode ls fuel rest :
  Forall plain_label ls → length (encode_labels ls) ≤ fuel →
  get_labels fuel (encode_labels ls ++ rest) = Some (ls, rest).
Proof.
  intros Hls. revert fuel. induction Hls as [|s ls Hs _ IH]; intros fuel Hf.
  - destruct fuel; [cbn in Hf; lia|done].
  - rewrite encode_labels_cons in *. rewrite length_app in Hf. unfold encode_label in *.
    cbn [length app] in *. destruct fuel as [|fuel]; [lia|]. cbn [get_labels].
    rewrite label_length by done.
    rewrite decide_False by (by apply label_pos). destruct Hs as (_ & Hl & _).
    rewrite decide_False by lia. rewrite <- app_assoc.
    rewrite get_app by apply length_string_bytes. cbn.
    rewrite IH by lia. cbn. by rewrite bytes_string_bytes.
Qed.

(** * Names *)

(** [parse_labels] finds the labels wherever they are. *)
Lemma parse_labels_encode ls fuel pre rest domain :
  Forall plain_label ls → length (encode_labels ls) ≤ fuel →
  parse_labels fuel (pre ++ encode_labels ls ++ rest) (length pre) domain
  = Some (domain ++ ls, length pre + length (encode_labels ls)).
Proof.
  intros Hls. revert fuel pre domain. induction Hls as [|s ls Hs _ IH]; intros fuel pre domain Hf.
  - destruct fuel; [cbn in Hf; lia|]. cbn [parse_labels].
    change (encode_labels [] ++ rest) with (Byte.x00 :: rest).
    rewrite list_lookup_middle by done. cbn. by rewrite app_nil_r.
  - rewrite encode_labels_cons in *. rewrite length_app in Hf. unfold encode_label in *.
    cbn [length app] in *. destruct fuel as [|fuel]; [lia|]. cbn [parse_labels].
    rewrite list_lookup_middle by done. rewrite label_length by done.
    rewrite (proj2 (Nat.eqb_neq _ 0)) by (by apply label_pos).
    rewrite (proj2 (Nat.ltb_ge _ _))
      by (rewrite !length_app; cbn; rewrite !length_app, length_string_bytes; lia).
    set (x := byte_of _).
    replace (pre ++ x :: (string_bytes s ++ encode_labels ls) ++ rest)
      with ((pre ++ x :: string_bytes s) ++ encode_labels ls ++ rest)
      by (by rewrite <- !app_assoc).
    replace (length pre + 1 + String.length s) with (length (pre ++ x :: string_bytes s))
      by (rewrite length_app; cbn; rewrite length_string_bytes; lia).
    rewrite IH by lia. f_equal. f_equal.
    + rewrite <- app_assoc. do 2 f_equal. cbn [app]. f_equal.
      rewrite <- !app_assoc, <- app_comm_cons.
      rewrite drop_app_ge by lia. replace (length pre + 1 - length pre) with 1 by lia.
      cbn [drop]; rewrite drop_0.
      rewrite <- length_string_bytes, take_app_length. by rewrite bytes_string_bytes.
    + rewrite !length_app. cbn. lia.
Qed.

Lemma parse_labels_total fuel data pos domain :
  length data < fuel + pos → 0 < fuel →
  ∃ ls pos', parse_labels fuel data pos domain = Some (ls, pos') ∧ pos ≤ pos'.
Proof.
  revert pos domain. induction fuel as [|fuel IH]; intros pos domain Hlt Hf; [lia|].
  cbn [parse_labels].
  destruct (data !! pos) as [b|] eqn:E; [|eauto].
  pose proof (lookup_lt_Some _ _ _ E).
  destruct (Nat.eqb_spec (Z.to_nat (byte_val b)) 0) as [|Hne]; [eexists _, _; split; [done|lia]|].
  destruct (Nat.ltb_spec (length data) (pos + 1 + Z.to_nat (byte_val b)));
    [eexists _, _; split; [done|lia]|].
  destruct (IH (pos + 1 + Z.to_nat (byte_val b))
    (domain ++ [bytes_string (take (Z.to_nat (byte_val b)) (drop (pos + 1) data))]))
    as (ls & pos' & -> & Hle); [lia|lia|]. eexists _, _. split; [done|lia].
Qed.

Lemma parseDomainName_total data offset :
  ∃ d pos, parseDomainName data offset = Ok (d, pos) ∧ offset ≤ pos.
Proof.
  unfold parseDomainName.
  destruct (parse_labels_total (S (length data)) data offset []) as (ls & pos & -> & Hp);
    [lia|lia|]. eauto.
Qed.

(** The full name that the labels spell. *)
Definition full_name (ls : list string) : string := strings_Join ls "." +:+ ".".

Lemma parseDomainName_encode ls pre rest :
  Forall plain_label ls →
  parseDomainName (pre ++ encode_labels ls ++ rest) (length pre)
  = Ok (full_name ls, length pre + length (encode_labels ls)).
Proof.
  intros Hls. unfold parseDomainName. rewrite parse_labels_encode; [done|done|].
  rewrite !length_app. lia.
Qed.

(** ** The dot at the end *)

(** Whether a string ends in a dot, by its last character. *)
Lemma HasSuffix_dot s : strings_HasSuffix "." s = bool_decide (last (chars s) = Some "."%char).
Proof.
  induction s as [|c s IH]; [done|]. destruct s as [|d s].
  - cbn. unfold strings_HasSuffix. cbn. destruct (Ascii.eqb_spec c ".") as [->|]; [done|].
    rewrite bool_decide_eq_false_2 by congruence. done.
  - change (last (chars (String c (String d s)))) with (last (chars (String d s))).
    rewrite <- IH. unfold strings_HasSuffix. cbn [String.length].
    rewrite !(proj2 (Nat.leb_le _ _)) by lia. f_equal. f_equal.
    by rewrite !Nat.sub_succ, !Nat.sub_0_r.
Qed.

Lemma Join_snoc l s sep : ∃ p, strings_Join (l ++ [s]) sep = p +:+ s.
Proof.
  induction l as [|t l [p IH]]; [by exists ""|].
  cbn [app]. rewrite strings_Join_cons by (by destruct l). rewrite IH.
  exists (t +:+ sep +:+ p). by rewrite !string_app_assoc.
Qed.

Lemma last_chars_app p s : s ≠ "" → last (chars (p +:+ s)) = last (chars s).
Proof.
  intros Hs. rewrite chars_app. destruct s as [|c s]; [done|].
  change (chars (String c s)) with (c :: chars s). by rewrite last_app_cons.
Qed.

Lemma Join_no_dot ls :
  ls ≠ [] → Forall plain_label ls → last (chars (strings_Join ls ".")) ≠ Some "."%char.
Proof.
  intros Hne Hls Hl. destruct (exists_last Hne) as (l & s & ->).
  apply Forall_app in Hls as [_ (Hs & _ & Hdot)%Forall_singleton].
  destruct (Join_snoc l s ".") as [p Hp]. rewrite Hp, last_chars_app in Hl by done.
  apply Hdot, list_elem_of_lookup. rewrite last_lookup in Hl. eauto.
Qed.

Lemma full_name_dot ls : last (chars (full_name ls)) = Some "."%char.
Proof. unfold full_name. by rewrite last_chars_app. Qed.

Lemma chars_ToLower s : chars (strings_ToLower s) = ascii_lower <$> chars s.
Proof. induction s as [|c s IH]; [done|]. cbn. by rewrite IH. Qed.

Lemma ascii_lower_dot c : ascii_lower c = "."%char ↔ c = "."%char.
Proof. split; [|by intros ->]. by destruct c as [[] [] [] [] [] [] [] []]. Qed.

Lemma last_dot_ToLower s :
  last (chars (strings_ToLower s)) = Some "."%char ↔ last (chars s) = Some "."%char.
Proof.
  rewrite chars_ToLower, fmap_last, fmap_Some. split.
  - intros (c & -> & Hc). symmetry in Hc. by apply ascii_lower_dot in Hc as ->.
  - intros ->. by exists "."%char.
Qed.

(** ** Encoding and looking up *)

Lemma Split_full_name ls :
  ls ≠ [] → Forall plain_label ls → strings_Split "." (full_name ls) = ls ++ [""].
Proof.
  intros Hne Hls. unfold full_name. rewrite Join_last by done. apply Split_Join; [by destruct ls|].
  apply Forall_app. split; [|by repeat constructor; apply not_elem_of_nil].
  eapply Forall_impl; [exact Hls|]. by intros s (_ & _ & ?).
Qed.

Lemma encode_parts_labels ls :
  Forall plain_label ls → encode_parts (ls ++ [""]) = concat (encode_label <$> ls).
Proof.
  induction 1 as [|s ls (Hs & Hl & _) _ IH]; [done|]. cbn [app encode_parts fmap list_fmap concat].
  rewrite decide_False by done. rewrite (proj2 (Nat.ltb_ge _ _)) by lia. by rewrite IH.
Qed.

(** The two ways to write a name. *)
Definition spells (domain : string) (ls : list string) : Prop :=
  domain = strings_Join ls "." ∨ domain = full_name ls.

Lemma encodeDomainName_labels domain ls :
  ls ≠ [] → Forall plain_label ls → spells domain ls → net_ParseIP domain = None →
  encodeDomainName domain = encode_labels ls.
Proof.
  intros Hne Hls Hd Hip. unfold encodeDomainName. rewrite Hip, HasSuffix_dot.
  assert ((if bool_decide (last (chars domain) = Some "."%char) then domain else domain +:+ ".")
          = full_name ls) as ->.
  { destruct Hd as [->| ->].
    - rewrite bool_decide_eq_false_2; [done|by apply Join_no_dot].
    - by rewrite bool_decide_eq_true_2 by apply full_name_dot. }
  rewrite Split_full_name, encode_parts_labels by done. done.
Qed.

Section lookup.
Context `{Unicode}.

Definition ascii_string (s : string) : Prop := forallb is_ascii (chars s) = true.

(** A domain of the tables names the labels of a query, whatever the case of either. *)
Definition names (domain : string) (ls : list string) : Prop :=
  ascii_string domain ∧ ascii_string (full_name ls) ∧ ls ≠ [] ∧ Forall plain_label ls ∧
  ∃ d, spells d ls ∧ strings_ToLower domain = strings_ToLower d.

Lemma normalize_names domain ls :
  names domain ls → normalize_domain domain = ToLower (full_name ls).
Proof.
  intros (Hd & Hf & Hne & Hls & d & Hs & Heq). unfold normalize_domain.
  rewrite !ToLower_ascii by done. rewrite Heq, HasSuffix_dot. destruct Hs as [->| ->].
  - rewrite bool_decide_eq_false_2.
    + unfold full_name. by rewrite strings_ToLower_app.
    + rewrite last_dot_ToLower. by apply Join_no_dot.
  - rewrite bool_decide_eq_true_2; [done|]. rewrite last_dot_ToLower. apply full_name_dot.
Qed.
End lookup.

(** * Addresses *)

(** An address as its four numbers, and its usual text. *)
Definition dotted (o : Z * Z * Z * Z) : string :=
  let '(a, b, c, d) := o in strings_Join (FormatUint <$> [a; b; c; d]) ".".
Definition octets (o : Z * Z * Z * Z) : bytes :=
  let '(a, b, c, d) := o in byte_of <$> [a; b; c; d].
Definition address_ok (o : Z * Z * Z * Z) : Prop :=
  let '(a, b, c, d) := o in Forall (λ x, 0 ≤ x < 256)%Z [a; b; c; d].

(** A number of a field, followed by a dot or by the end. *)
Lemma parseIPv4_field n fields x s :
  (0 ≤ n < 256)%Z →
  parseIPv4Fields true 0 0 fields (chars (FormatUint n) ++ "."%char :: x :: s)
  = (if (length fields =? 3)%nat then None else parseIPv4Fields true 0 0 (fields ++ [n]) (x :: s))
  ∧ parseIPv4Fields true 0 0 fields (chars (FormatUint n))
    = if (length fields <? 3)%nat then None else Some (fields ++ [n]).
Proof.
  intros Hn. rewrite <- (Z2Nat.id n) by lia. assert (Z.to_nat n < 256) as Hlt by lia.
  generalize dependent (Z.to_nat n). clear n Hn.
  assert (Forall (λ k : nat, ∀ fields x s,
    parseIPv4Fields true 0 0 fields (chars (FormatUint (Z.of_nat k)) ++ "."%char :: x :: s)
    = (if (length fields =? 3)%nat then None
       else parseIPv4Fields true 0 0 (fields ++ [Z.of_nat k]) (x :: s))
    ∧ parseIPv4Fields true 0 0 fields (chars (FormatUint (Z.of_nat k)))
      = if (length fields <? 3)%nat then None else Some (fields ++ [Z.of_nat k])) (seq 0 256))
    as H.
  { unfold seq. repeat (apply Forall_cons_2; [intros; split; reflexivity|]). by apply Forall_nil_2. }
  intros k Hk. rewrite Forall_forall in H. apply H, elem_of_seq. lia.
Qed.

Lemma FormatUint_nonempty n : ∃ x s, chars (FormatUint n) = x :: s.
Proof.
  unfold FormatUint, NilZero.string_of_uint. destruct (N.to_uint _); cbn; eauto.
Qed.

Lemma parse_kind_dot s rest :
  "."%char ∉ s → ":"%char ∉ s → "%"%char ∉ s →
  parse_kind (s ++ "."%char :: rest) = Some "."%char.
Proof.
  induction s as [|x s IH]; [done|]. rewrite !not_elem_of_cons. cbn.
  intros [Hdot Hs1] [Hcol Hs2] [Hper Hs3].
  destruct (Ascii.eqb_spec x "."), (Ascii.eqb_spec x ":"), (Ascii.eqb_spec x "%"); try congruence.
  by apply IH.
Qed.

(** [net.ParseIP] reads the text of an address. *)
Lemma ParseIP_dotted o : address_ok o → To4 (net_ParseIP (dotted o)) = octets o.
Proof.
  destruct o as [[[a b] c] d]. cbn [address_ok dotted octets]. intros Ho.
  repeat (apply Forall_cons in Ho as [? Ho]).
  set (t := chars (strings_Join (FormatUint <$> [a; b; c; d]) ".")).
  assert (t = chars (FormatUint a) ++ "."%char :: chars (FormatUint b) ++ "."%char ::
              chars (FormatUint c) ++ "."%char :: chars (FormatUint d)) as Ht.
  { unfold t. cbn [fmap list_fmap strings_Join]. by rewrite !chars_app. }
  assert (parse_kind t = Some "."%char) as Hk.
  { rewrite Ht. apply parse_kind_dot; apply FormatUint_digits; (by left) || (by right). }
  assert (parseIPv4Fields true 0 0 [] t = Some [a; b; c; d]) as Hp.
  { rewrite Ht. destruct (FormatUint_nonempty b) as (xb & sb & Hb).
    destruct (FormatUint_nonempty c) as (xc & sc & Hc), (FormatUint_nonempty d) as (xd & sd & Hd).
    assert (∀ n m fields rest, (0 ≤ n < 256)%Z → length fields < 3 →
      parseIPv4Fields true 0 0 fields (chars (FormatUint n) ++ "."%char :: chars (FormatUint m) ++ rest)
      = parseIPv4Fields true 0 0 (fields ++ [n]) (chars (FormatUint m) ++ rest)) as Hstep.
    { intros n m fields rest Hn Hl. destruct (FormatUint_nonempty m) as (x & s & ->).
      cbn [app]. rewrite (proj1 (parseIPv4_field n fields x _ Hn)).
      by rewrite (proj2 (Nat.eqb_neq _ _)) by lia. }
    rewrite !Hstep by (done || (cbn; lia)).
    rewrite <- (app_nil_r (chars (FormatUint d))), Hstep by (done || (cbn; lia)).
    rewrite app_nil_r. cbn [app]. by rewrite (proj2 (parseIPv4_field d [a; b; c] xd [] ltac:(done))). }
  unfold net_ParseIP. fold t. clearbody t. rewrite Hk. cbn. rewrite Hp. cbn.
  rewrite bool_decide_eq_true_2; done.
Qed.

(** * Responses *)

Lemma get_answers_concat {A} (put : A → bytes) (a : A → answer) l rest :
  (∀ x rest, x ∈ l → get_answer (put x ++ rest) = Some (a x, rest)) →
  get_answers (length l) (concat (put <$> l) ++ rest) = Some (a <$> l, rest).
Proof.
  induction l as [|x l IH]; intros H; [done|]. cbn [length get_answers fmap list_fmap concat].
  rewrite <- app_assoc, H by set_solver. cbn.
  rewrite IH by (intros; apply H; set_solver). done.
Qed.

Ltac next_field := cbn [mbind option_bind].

(** An answer as the server writes it. *)
Lemma get_answer_put (type class ttl data rest : bytes) (len : Z) :
  length type = 2 → length class = 2 → length ttl = 4 →
  (0 ≤ len < 2 ^ 16)%Z → Z.of_nat (length data) = len →
  get_answer ([Byte.xc0; Byte.x0c] ++ type ++ class ++ ttl ++ put_uint16 len ++ data ++ rest)
  = Some (mkAnswer type class ttl data, rest).
Proof.
  intros Ht Hc Htt Hlen Hd. unfold get_answer.
  rewrite get_app by done. next_field. rewrite decide_True by done.
  do 3 (rewrite get_app by done; next_field). rewrite get_uint16_put by done. next_field.
  rewrite get_app by lia. done.
Qed.

(** The question of a response and the bytes before it. *)
Definition encode_question (ls : list string) (qtype : Z) (class : bytes) : bytes :=
  encode_labels ls ++ put_uint16 qtype ++ class.

Lemma decode_response {A} (put : A → bytes) (a : A → answer) id flags ls qtype class l :
  length id = 2 → length flags = 2 → length class = 2 → Forall plain_label ls →
  (0 ≤ qtype < 2 ^ 16)%Z → length l < 256 →
  (∀ x rest, x ∈ l → get_answer (put x ++ rest) = Some (a x, rest)) →
  decode_message (id ++ flags ++ [Byte.x00; Byte.x01] ++
    [Byte.x00; byte_of (Z.of_nat (length l))] ++ [Byte.x00; Byte.x00] ++ [Byte.x00; Byte.x00] ++
    encode_question ls qtype class ++ concat (put <$> l))
  = Some (mkMessage id flags ls qtype class (a <$> l)).
Proof.
  intros Hid Hfl Hcl Hls Hq Hl Ha. unfold decode_message.
  do 2 (rewrite get_app by done; next_field).
  change ([Byte.x00; Byte.x01]) with (put_uint16 1). rewrite get_uint16_put by done. next_field.
  assert ([Byte.x00; byte_of (Z.of_nat (length l))] = put_uint16 (Z.of_nat (length l))) as ->.
  { unfold put_uint16. rewrite Z.shiftr_div_pow2, Z.div_small by lia. done. }
  rewrite get_uint16_put by lia. next_field.
  rewrite (app_assoc [Byte.x00; Byte.x00]), get_app by done. next_field.
  rewrite decide_True by done. unfold encode_question. rewrite <- !app_assoc.
  rewrite get_labels_encode; [|done|rewrite !length_app; lia]. next_field.
  rewrite get_uint16_put by done. next_field. rewrite get_app by done. next_field.
  rewrite Nat2Z.id, <- (app_nil_r (concat _)), (get_answers_concat put a) by done. done.
Qed.

(** * Queries *)

Section queries.
Context `{Unicode}.

(** The sizes of the parts of a query, and a name in the format. *)
Definition query_ok (id hdr : bytes) (ls : list string) (class : bytes) : Prop :=
  length id = 2 ∧ length hdr = 10 ∧ length class = 2 ∧ Forall plain_label ls.

(** A well-formed query is understood. *)
Lemma handleQuery_encode id hdr ls qtype class trailer s :
  query_ok id hdr ls class → (0 ≤ qtype < 2 ^ 16)%Z →
  handleQuery (encode_query id hdr ls qtype class trailer) s
  = answer_locked id (encode_question ls qtype class) (ToLower (full_name ls)) qtype s.
Proof.
  intros (Hid & Hh & Hc & Hls) Hq. set (q := encode_query id hdr ls qtype class trailer).
  set (e := length (encode_labels ls)).
  assert (length q = 12 + e + 4 + length trailer) as Hlen.
  { unfold q, encode_query, e. rewrite !length_app, put_uint16_length. lia. }
  assert (slice 0 2 q = Ok id) as H1.
  { unfold q, encode_query. rewrite <- Hid. apply (slice_mid [] id). }
  assert (parseDomainName q 12 = Ok (full_name ls, 12 + e)) as H2.
  { unfold q, encode_query. rewrite app_assoc.
    replace 12 with (length (id ++ hdr)) by (rewrite length_app; lia).
    by apply parseDomainName_encode. }
  assert (slice (12 + e) (12 + e + 2) q = Ok (put_uint16 qtype)) as H3.
  { unfold q, encode_query. rewrite app_assoc, (app_assoc _ (encode_labels ls)).
    replace (12 + e) with (length ((id ++ hdr) ++ encode_labels ls))
      by (rewrite !length_app; unfold e; lia).
    apply (slice_mid _ (put_uint16 qtype)). }
  assert (slice 12 (12 + e + 4) q = Ok (encode_question ls qtype class)) as H4.
  { unfold q, encode_query, encode_question.
    replace (id ++ hdr ++ encode_labels ls ++ put_uint16 qtype ++ class ++ trailer)
      with ((id ++ hdr) ++ (encode_labels ls ++ put_uint16 qtype ++ class) ++ trailer)
      by (by rewrite <- !app_assoc).
    replace (12 + e + 4) with
      (length (id ++ hdr) + length (encode_labels ls ++ put_uint16 qtype ++ class))
      by (rewrite !length_app, put_uint16_length; unfold e; lia).
    replace 12 with (length (id ++ hdr)) by (rewrite length_app; lia). apply slice_mid. }
  unfold handleQuery. rewrite (proj2 (Nat.ltb_ge _ _)) by lia.
  rewrite H1, H2. unfold mbind, io_mbind, io_bind_def, io_lift.
  rewrite (proj2 (Nat.ltb_ge _ _)) by lia. rewrite H3, H4.
  pose proof (Uint16_put qtype [] Hq) as Hu. rewrite app_nil_r in Hu. unfold mbind, result_bind.
  by rewrite Hu.
Qed.

(** ** Addresses *)

Definition a_answer (o : Z * Z * Z * Z) : answer :=
  mkAnswer [Byte.x00; Byte.x01] [Byte.x00; Byte.x01] [Byte.x00; Byte.x00; Byte.x01; Byte.x2c]
    (octets o).

Lemma length_octets o : length (octets o) = 4.
Proof. by destruct o as [[[a b] c] d]. Qed.

Lemma select_dynamic_fmap {A B} (f : A → B) count l :
  select_dynamic count (f <$> l) = f <$> select_dynamic count l.
Proof.
  unfold select_dynamic. rewrite length_fmap. repeat case_match; by rewrite ?fmap_take.
Qed.

Lemma select_dynamic_le {A} count (l : list A) : length (select_dynamic count l) ≤ length l.
Proof. unfold select_dynamic. repeat case_match; rewrite ?length_take; lia. Qed.

Lemma select_dynamic_elem {A} count (l : list A) x : x ∈ select_dynamic count l → x ∈ l.
Proof.
  unfold select_dynamic. repeat case_match; try done;
    intros (i & Hx & _)%elem_of_take; by eapply list_elem_of_lookup_2.
Qed.

Lemma A_response_decodes id ls class addrs :
  length id = 2 → length class = 2 → Forall plain_label ls → Forall address_ok addrs →
  length addrs < 256 →
  decode_message (buildMultiResponse id (encode_question ls 1 class) (dotted <$> addrs))
  = Some (mkMessage id [Byte.x81; Byte.x80] ls 1 class (a_answer <$> addrs)).
Proof.
  intros Hid Hc Hls Ha Hl. unfold buildMultiResponse. rewrite length_fmap, <- list_fmap_compose.
  apply (decode_response _ a_answer); try done. intros o rest Ho. unfold compose.
  rewrite Forall_forall in Ha. rewrite ParseIP_dotted by by apply Ha.
  change [Byte.x00; Byte.x04] with (put_uint16 4). rewrite <- !app_assoc.
  apply get_answer_put; try done. by rewrite length_octets.
Qed.

(** A query for addresses of a name in the table. *)
Lemma A_query_spec id hdr ls class trailer addrs s :
  query_ok id hdr ls class → Forall address_ok addrs → length addrs < 256 →
  records s !! ToLower (full_name ls) = Some (dotted <$> addrs) →
  ∃ r, handleQuery (encode_query id hdr ls 1 class trailer) s
       = (Ok (Some r), mkDNSMockServer (addr s) (records s) (srvRecords s) (conn s)
                         (requestCount s +i64 1)%go) ∧
    decode_message r = Some (mkMessage id [Byte.x81; Byte.x80] ls 1 class
      (a_answer <$> select_dynamic (requestCount s +i64 1)%go addrs)).
Proof.
  intros Hq Ha Hl Hrec. rewrite handleQuery_encode by done. destruct Hq as (Hid & _ & Hc & Hls).
  eexists. split.
  - unfold answer_locked, get_server. unfold mbind, io_mbind, io_bind_def. cbn [Z.eqb Pos.eqb].
    rewrite Hrec. unfold count_request. reflexivity.
  - rewrite select_dynamic_fmap. apply A_response_decodes; try done.
    + rewrite Forall_forall in *. intros o Ho. apply Ha. by eapply select_dynamic_elem.
    + pose proof (select_dynamic_le (requestCount s +i64 1)%go addrs). lia.
Qed.
(** ** Services *)

(** A service the tables can hold: 16-bit numbers, and a target that [ls] spells. *)
Definition srv_ok (srv : SRVRecord) (ls : list string) : Prop :=
  (0 ≤ Priority srv < 2 ^ 16)%Z ∧ (0 ≤ Weight srv < 2 ^ 16)%Z ∧ (0 ≤ Port srv < 2 ^ 16)%Z ∧
  ls ≠ [] ∧ Forall plain_label ls ∧ spells (Target srv) ls ∧ net_ParseIP (Target srv) = None ∧
  length (encode_labels ls) ≤ 255.

Definition srv_data (srv : SRVRecord) : bytes :=
  put_uint16 (Priority srv) ++ put_uint16 (Weight srv) ++ put_uint16 (Port srv) ++
  encodeDomainName (Target srv).

Definition srv_answer (srv : SRVRecord) : answer :=
  mkAnswer [Byte.x00; Byte.x21] [Byte.x00; Byte.x01] [Byte.x00; Byte.x00; Byte.x01; Byte.x2c]
    (srv_data srv).

Lemma decode_srv_data srv ls :
  srv_ok srv ls → decode_srv (srv_data srv) = Some (Priority srv, Weight srv, Port srv, ls).
Proof.
  intros (Hp & Hw & Hport & Hne & Hls & Hs & Hip & _). unfold decode_srv, srv_data.
  rewrite (encodeDomainName_labels _ ls) by done.
  do 3 (rewrite get_uint16_put by done; next_field).
  rewrite <- (app_nil_r (encode_labels ls)) at 2. rewrite get_labels_encode by done. done.
Qed.

Lemma SRV_response_decodes id ls class srvs :
  length id = 2 → length class = 2 → Forall plain_label ls →
  Forall (λ srv, ∃ tl, srv_ok srv tl) srvs → length srvs < 256 →
  decode_message (buildSRVResponse id (encode_question ls 33 class) srvs)
  = Some (mkMessage id [Byte.x81; Byte.x80] ls 33 class (srv_answer <$> srvs)).
Proof.
  intros Hid Hc Hls Hs Hl. unfold buildSRVResponse.
  apply (decode_response _ srv_answer); try done. intros srv rest Hin.
  rewrite Forall_forall in Hs. destruct (Hs srv Hin) as (tl & _ & _ & _ & Hne & Htl & Hsp & Hip & Hlen).
  rewrite <- !app_assoc. unfold srv_answer, srv_data.
  assert (length (encodeDomainName (Target srv)) ≤ 255) as Hle
    by by rewrite (encodeDomainName_labels _ tl).
  rewrite (app_assoc (put_uint16 (Port srv))), (app_assoc (put_uint16 (Weight srv))),
    (app_assoc (put_uint16 (Priority srv))).
  apply get_answer_put; try done; rewrite ?length_app, ?put_uint16_length; lia.
Qed.
End queries.

(** * Runs of the server *)

Section properties.
Context `{Unicode} {C : Type}.

(** The addresses that the [k]th query, counted from 0, is told. *)
Definition told {A} (k : nat) (l : list A) : list A :=
  if decide (3 < length l ∧ (k < 5 ∨ 15 ≤ k)) then take 3 l else l.

Lemma select_dynamic_told {A} k (l : list A) : select_dynamic (Z.of_nat k + 1) l = told k l.
Proof.
  unfold select_dynamic, told. destruct (Nat.ltb_spec 3 (length l)).
  - destruct (Z.leb_spec (Z.of_nat k + 1) 5); [by rewrite decide_True by lia|].
    destruct (Z.leb_spec (Z.of_nat k + 1) 15); [by rewrite decide_False by lia|].
    by rewrite decide_True by lia.
  - by rewrite decide_False by lia.
Qed.

Lemma Start_turn_answered (q r : bytes) (client : C) s s' :
  conn s = Some SocketOpen → length q ≤ 512 → handleQuery q s = (Ok (Some r), s') →
  Start_turn (Ok (q, client)) s = (Ok (Some (r, client)), s').
Proof.
  intros Hc Hl Hq. unfold Start_turn. rewrite Hc, take_ge by done.
  unfold mbind, io_mbind, io_bind_def. by rewrite Hq.
Qed.

Lemma A_run_spec id hdr ls class trailer addrs (client : C) n k s :
  let q := encode_query id hdr ls 1 class trailer in
  query_ok id hdr ls class → Forall address_ok addrs → length addrs < 256 →
  length q ≤ 512 → conn s = Some SocketOpen →
  records s !! ToLower (full_name ls) = Some (dotted <$> addrs) →
  requestCount s = Z.of_nat k → (Z.of_nat (k + n) < 2 ^ 63)%Z →
  ∃ sent s', Start_loop (replicate n (Ok (q, client))) s = (Ok sent, s') ∧ length sent = n ∧
    ∀ j r, sent !! j = Some r → r.2 = client ∧
      decode_message r.1 = Some (mkMessage id [Byte.x81; Byte.x80] ls 1 class
        (a_answer <$> told (k + j) addrs)).
Proof.
  intros q Hq Ha Hl Hlen. revert k s. induction n as [|n IH]; intros k s Hc Hrec Hk Hn.
  { by exists [], s. }
  destruct (A_query_spec id hdr ls class trailer addrs s Hq Ha Hl Hrec) as (r & Hr & Hd).
  apply (Start_turn_answered _ r client) in Hr; [|done..].
  rewrite Hk, wrap64_small in Hr, Hd by lia. rewrite select_dynamic_told in Hd.
  destruct (IH (S k) (mkDNSMockServer (addr s) (records s) (srvRecords s) (conn s) (Z.of_nat k + 1)))
    as (sent & s' & Hrun & Hsent & Hall); [done|done|cbn [requestCount]; lia|lia|].
  exists ((r, client) :: sent), s'. split_and!.
  - cbn [replicate Start_loop]. rewrite (io_bind_ok _ _ _ _ _ Hr).
    by rewrite (io_bind_ok _ _ _ _ _ Hrun).
  - cbn. by rewrite Hsent.
  - intros [|j] r' Hj; [|by rewrite <- Nat.add_succ_comm; apply Hall].
    injection Hj as <-. by rewrite Nat.add_0_r.
Qed.

(** C37: the server of the tests answers every query for the addresses of a name in its table with
    a message that a reader of RFC 1035 understands: the query's identifier and question, and one
    answer with the four numbers of each address that this query is told. Of more than three
    addresses, the first five queries are told three, the next ten all, and the others three.
    The name is found whatever the case of its letters in the table and in the query. *)
Theorem dynamic_A_answers domain ls addrs id hdr class trailer (client : C) address n :
  let q := encode_query id hdr ls 1 class trailer in
  names domain ls → query_ok id hdr ls class → Forall address_ok addrs → length addrs < 256 →
  length q ≤ 512 → (Z.of_nat n < 2 ^ 63)%Z →
  ∃ sent s',
    (Start (Ok ()) (Ok ()) ≫= λ _, Start_loop (replicate n (Ok (q, client))))
      (AddDynamicRecord domain (dotted <$> addrs) (NewDNSMockServer address)) = (Ok sent, s') ∧
    length sent = n ∧
    ∀ k r, sent !! k = Some r → r.2 = client ∧
      decode_message r.1 = Some (mkMessage id [Byte.x81; Byte.x80] ls 1 class
        (a_answer <$> if decide (3 < length addrs ∧ (k < 5 ∨ 15 ≤ k)) then take 3 addrs else addrs)).
Proof.
  intros q Hd Hq Ha Hl Hlen Hn. erewrite io_bind_ok; [|reflexivity].
  apply (A_run_spec id hdr ls class trailer addrs client n 0); try done.
  cbn. rewrite <- (normalize_names domain) by done. apply lookup_insert_eq.
Qed.

Lemma told_srv_ok k srvs targets :
  Forall2 srv_ok srvs targets → Forall2 srv_ok (told k srvs) (told k targets).
Proof.
  intros Hs. pose proof (Forall2_length _ _ _ Hs) as Hl. unfold told. rewrite Hl.
  case_decide; [by apply Forall2_take|done].
Qed.

Lemma told_length {A} k (l : list A) : length (told k l) ≤ length l.
Proof. unfold told. case_decide; [rewrite length_take|]; lia. Qed.

(** C38: what the server of the tests answers to queries that are not for an IPv4 address in its
    table. A query for a service in the table, of at most 255 records whose targets are plain
    names and not addresses, gets a message that decodes to the priority, weight, port and target
    of each record this query is told (all of up to three; of more, three, for the sixth to the
    fifteenth query all), and is counted. A query for an IPv6 address, and one for the IPv4
    address or the service of a name that is not in the table, gets NXDOMAIN and is not counted.
    A query of any other type gets no response at all. *)
Theorem SRV_answers domain ls srvs targets id hdr class trailer k s :
  names domain ls → query_ok id hdr ls class →
  Forall2 srv_ok srvs targets → length srvs < 256 →
  requestCount s = Z.of_nat k → (Z.of_nat k < 2 ^ 63 - 1)%Z →
  (∃ r s', handleQuery (encode_query id hdr ls 33 class trailer) (AddSRVRecord domain srvs s)
    = (Ok (Some r), s') ∧ requestCount s' = Z.of_nat (S k) ∧
    ∃ m, decode_message r = Some m ∧ ms_id m = id ∧ ms_flags m = [Byte.x81; Byte.x80] ∧
      ms_name m = ls ∧ ms_qtype m = 33%Z ∧ ms_class m = class ∧
      (decode_srv ∘ an_data <$> ms_answers m)
      = zip_with (λ srv tl, Some (Priority srv, Weight srv, Port srv, tl))
          (told k srvs) (told k targets)) ∧
  (∀ qtype, (0 ≤ qtype < 2 ^ 16)%Z →
    (qtype = 28%Z ∨ qtype = 1%Z ∧ records s !! ToLower (full_name ls) = None ∨
      qtype = 33%Z ∧ srvRecords s !! ToLower (full_name ls) = None →
      ∃ r, handleQuery (encode_query id hdr ls qtype class trailer) s = (Ok (Some r), s) ∧
        decode_message r = Some (mkMessage id [Byte.x81; Byte.x83] ls qtype class [])) ∧
    (qtype ∉ [1; 28; 33]%Z →
      handleQuery (encode_query id hdr ls qtype class trailer) s = (Ok None, s))).
Proof.
  intros Hd Hq Hs Hl Hcount Hk. pose proof Hq as (Hid & _ & Hc & Hls). split.
  - rewrite handleQuery_encode by done. eexists _, _. split.
    { unfold answer_locked, get_server, mbind, io_mbind, io_bind_def. cbn [Z.eqb Pos.eqb].
      cbn [AddSRVRecord srvRecords]. rewrite <- (normalize_names domain) by done.
      rewrite lookup_insert_eq. unfold count_request. reflexivity. }
    cbn [requestCount AddSRVRecord]. rewrite Hcount, wrap64_small by lia.
    split; [lia|]. rewrite select_dynamic_told.
    pose proof (told_srv_ok k _ _ Hs) as Hs'. pose proof (told_length k srvs) as Hle.
    eexists. split; [apply SRV_response_decodes; try done; [|lia]|].
    { clear -Hs'. induction Hs'; constructor; eauto. }
    split_and!; try done. cbn. clear -Hs'. induction Hs' as [|srv tl srvs' tls Hok _ IH]; [done|].
    exact (f_equal2 cons (decode_srv_data _ _ Hok) IH).
  - intros qtype Hrange. rewrite handleQuery_encode by done.
    unfold answer_locked, get_server, mbind, io_mbind, io_bind_def. split.
    + intros Hqt. exists (buildNXDomainResponse id (encode_question ls qtype class)). split.
      { destruct Hqt as [->|[[-> Hn]|[-> Hn]]]; [done|..]; cbn [Z.eqb Pos.eqb]; by rewrite Hn. }
      unfold buildNXDomainResponse.
      rewrite <- (app_nil_r (encode_question ls qtype class)).
      apply (decode_response (A := unit) (λ _, []) (λ _, mkAnswer [] [] [] []) id _ ls qtype class []);
        try done; [cbn; lia|]. intros x rest Hx. by apply not_elem_of_nil in Hx.
    + rewrite !not_elem_of_cons. intros (H1 & H2 & H3 & _).
      by rewrite (proj2 (Z.eqb_neq _ _) H1), (proj2 (Z.eqb_neq _ _) H2), (proj2 (Z.eqb_neq _ _) H3).
Qed.

(** The first bytes of a response. *)
Definition response_header (id question : bytes) (rcode n : Byte.byte) : bytes :=
  id ++ [Byte.x81; rcode] ++ [Byte.x00; Byte.x01] ++ [Byte.x00; n] ++ [Byte.x00; Byte.x00] ++
  [Byte.x00; Byte.x00] ++ question.

Lemma header_prefix id question rcode n answers :
  response_header id question rcode n `prefix_of`
  id ++ [Byte.x81; rcode] ++ [Byte.x00; Byte.x01] ++ [Byte.x00; n] ++ [Byte.x00; Byte.x00] ++
  [Byte.x00; Byte.x00] ++ question ++ answers.
Proof. exists answers. unfold response_header. by rewrite <- !app_assoc. Qed.

(** The types of queries that are answered. *)
Definition answered_types : list Z := [1; 28; 33]%Z.

Definition response_of (id question : bytes) (qtype : Z) (s : DNSMockServer)
    (out : result (option bytes) * DNSMockServer) : Prop :=
  ∃ resp s', out = (Ok resp, s') ∧ records s' = records s ∧ srvRecords s' = srvRecords s ∧
    match resp with
    | None => s' = s ∧ qtype ∉ answered_types
    | Some r => qtype ∈ answered_types ∧ ∃ rcode n, response_header id question rcode n `prefix_of` r ∧
        (rcode = Byte.x80 ∨ rcode = Byte.x83 ∧ n = Byte.x00 ∧ s' = s)
    end.

Lemma nxdomain_response id question qtype s :
  qtype ∈ answered_types →
  response_of id question qtype s (Ok (Some (buildNXDomainResponse id question)), s).
Proof.
  intros Hq. eexists _, s. split_and!; [done..|]. split; [done|]. eexists Byte.x83, Byte.x00.
  split; [by exists []; rewrite app_nil_r|]. by right.
Qed.

Lemma answered_response id question qtype s s' r n :
  qtype ∈ answered_types → records s' = records s → srvRecords s' = srvRecords s →
  response_header id question Byte.x80 n `prefix_of` r →
  response_of id question qtype s (Ok (Some r), s').
Proof.
  intros Hq H1 H2 Hr. eexists _, s'. split_and!; [done..|]. split; [done|].
  eexists _, n. split; [done|]. by left.
Qed.

Lemma answer_locked_response id question domain qtype s :
  response_of id question qtype s (answer_locked id question domain qtype s).
Proof.
  unfold answer_locked, get_server, mbind, io_mbind, io_bind_def.
  destruct (Z.eqb_spec qtype 1) as [->|H1].
  { destruct (records s !! domain); [|by apply nxdomain_response, (bool_decide_unpack _)].
    eapply answered_response; [by apply (bool_decide_unpack _)|done..|apply header_prefix]. }
  destruct (Z.eqb_spec qtype 28) as [->|H2]; [by apply nxdomain_response, (bool_decide_unpack _)|].
  destruct (Z.eqb_spec qtype 33) as [->|H3].
  - destruct (srvRecords s !! domain); [|by apply nxdomain_response, (bool_decide_unpack _)].
    eapply answered_response; [by apply (bool_decide_unpack _)|done..|apply header_prefix].
  - exists None, s. split_and!; [done..|]. unfold answered_types.
    rewrite !elem_of_cons, elem_of_nil. naive_solver.
Qed.

(** Where the name that starts at a position ends: behind the byte 0 after its labels, or, in a
    packet that breaks off, at its end or behind the length of the label that does not fit. *)
Inductive name_end (data : bytes) : nat → nat → Prop :=
| name_end_packet pos : data !! pos = None → name_end data pos pos
| name_end_zero pos : data !! pos = Some Byte.x00 → name_end data pos (pos + 1)
| name_end_short pos b :
    data !! pos = Some b → b ≠ Byte.x00 → length data < pos + 1 + Z.to_nat (byte_val b) →
    name_end data pos (pos + 1)
| name_end_label pos b stop :
    data !! pos = Some b → b ≠ Byte.x00 → pos + 1 + Z.to_nat (byte_val b) ≤ length data →
    name_end data (pos + 1 + Z.to_nat (byte_val b)) stop → name_end data pos stop.

Lemma byte_val_zero b : Z.to_nat (byte_val b) = 0 ↔ b = Byte.x00.
Proof. split; [|by intros ->]. by destruct b. Qed.

Lemma parse_labels_end fuel data pos domain d stop :
  parse_labels fuel data pos domain = Some (d, stop) → name_end data pos stop.
Proof.
  revert pos domain. induction fuel as [|fuel IH]; intros pos domain; [done|]. cbn [parse_labels].
  destruct (data !! pos) as [b|] eqn:Hb; [|intros [= _ <-]; by constructor].
  destruct (Nat.eqb_spec (Z.to_nat (byte_val b)) 0) as [Hz|Hz]; rewrite byte_val_zero in Hz.
  { intros [= _ <-]. subst. by constructor. }
  destruct (Nat.ltb_spec (length data) (pos + 1 + Z.to_nat (byte_val b))) as [Hl|Hl].
  - intros [= _ <-]. by eapply name_end_short.
  - intros Hrest%IH. by eapply name_end_label.
Qed.

Lemma parseDomainName_end data offset d stop :
  parseDomainName data offset = Ok (d, stop) → name_end data offset stop.
Proof.
  unfold parseDomainName. destruct (parse_labels _ _ _ _) as [[? ?]|] eqn:E; [|done].
  intros [= <- <-]. by eapply parse_labels_end.
Qed.

(** A domain name survives the wire: what [encodeDomainName] writes for a name of plain
    labels, with or without the dot at its end, [parseDomainName] reads back wherever it is in a
    packet, and stops behind it. *)
Theorem domain_name_roundtrip ls domain pre rest :
  ls ≠ [] → Forall plain_label ls → spells domain ls → net_ParseIP domain = None →
  parseDomainName (pre ++ encodeDomainName domain ++ rest) (length pre)
  = Ok (full_name ls, length pre + length (encodeDomainName domain)).
Proof.
  intros Hne Hls Hs Hip. rewrite (encodeDomainName_labels domain ls) by done.
  by apply parseDomainName_encode.
Qed.

(** C39: whatever bytes arrive, the server does not panic, and it sends a response exactly when
    the packet has a header, a whole question behind it, and asks for an IPv4 address, an IPv6
    address or a service. The response begins with the packet's identifier, the flags of a
    response, the count of one question, and the packet's question byte for byte: from its
    twelfth byte to the end of the name, its type and its class. The tables stay as they are, and
    without a response, or with NXDOMAIN, the whole server does. *)
Theorem every_response_wellformed query s :
  ∃ resp s', handleQuery query s = (Ok resp, s') ∧
    records s' = records s ∧ srvRecords s' = srvRecords s ∧
    ∃ stop, name_end query 12 stop ∧
      let qtype := fst <$> get_uint16 (drop stop query) in
      let answered := 12 ≤ length query ∧ stop + 4 ≤ length query ∧
        ∃ t, qtype = Some t ∧ t ∈ answered_types in
      match resp with
      | None => s' = s ∧ ¬ answered
      | Some r => answered ∧ ∃ rcode n,
          response_header (take 2 query) (take (stop + 4 - 12) (drop 12 query)) rcode n `prefix_of` r ∧
          (rcode = Byte.x80 ∨ rcode = Byte.x83 ∧ n = Byte.x00 ∧ s' = s)
      end.
Proof.
  unfold handleQuery. destruct (parseDomainName_total query 12) as (d & pos & Hparse & Hpos).
  pose proof (parseDomainName_end _ _ _ _ Hparse) as Hend.
  destruct (Nat.ltb_spec (length query) 12) as [|H12].
  { exists None, s. split_and!; [done..|]. exists pos. split; [done|]. split; [done|]. lia. }
  rewrite slice_ok by lia. rewrite Hparse. unfold mbind, io_mbind, io_bind_def, io_lift.
  destruct (Nat.ltb_spec (length query) (pos + 4)) as [|Hp].
  { exists None, s. split_and!; [done..|]. exists pos. split; [done|]. split; [done|]. lia. }
  rewrite !slice_ok by lia. unfold mbind, result_bind.
  destruct (drop pos query) as [|x [|y rest]] eqn:Hdrop;
    [apply (f_equal length) in Hdrop; rewrite length_drop in Hdrop; cbn in Hdrop; lia..|].
  assert (get_uint16 (x :: y :: rest) = Some (byte_val x * 256 + byte_val y, rest)%Z) as Hget by done.
  replace (pos + 2 - pos) with 2 by lia. cbn [take BigEndian_Uint16].
  change (drop 0 query) with query. change (2 - 0) with 2.
  destruct (answer_locked_response (take 2 query) (take (pos + 4 - 12) (drop 12 query)) (ToLower d)
    (byte_val x * 256 + byte_val y) s) as (resp & s' & -> & Hr & Hs & Hresp).
  exists resp, s'. split_and!; [done..|]. exists pos. split; [done|]. rewrite Hdrop, Hget.
  cbn [fmap option_fmap option_map fst]. destruct resp as [r|].
  - destruct Hresp as [Ht Hresp]. split; [|done]. split_and!; [done..|by eexists].
  - destruct Hresp as [-> Ht]. split; [done|]. by intros (_ & _ & t & [= <-] & ?).
Qed.
End properties.
