(* ===== verification/Registry.v ===== *)
(** The external registry: src/src/peers/registry.go. *)
From S2P Require Import Prelude Bytes GoStrings GoTime Types Http.

(** * The registry *)

Record HeartbeatRequest := mkHeartbeatRequest
  { hb_UUID : string; hb_Address : string; ExpiresInSeconds : Z }.

Record Registry := mkRegistry {
  heartbeatURL : string;
  rg_address : string;
  rg_uuid : string;
  heartbeatInterval : Z;
  rg_timeout : Duration;
  rg_cancelled : bool;
  isRunning : bool
}.

Definition set_isRunning (b : bool) (pr : Registry) : Registry :=
  mkRegistry (heartbeatURL pr) (rg_address pr) (rg_uuid pr) (heartbeatInterval pr) (rg_timeout pr)
    (rg_cancelled pr) b.

Definition NewRegistry (heartbeatURL address uuid : string) (heartbeatInterval timeout : Duration) :
    result Registry :=
  if decide (heartbeatURL = "") then Err (errors_New "-peer-registry-heartbeat-url is required")
  else if decide (address = "") then Err (errors_New "-peer-registry-self-endpoint is required")
  else if decide (uuid = "") then Err (errors_New "uuid is required")
  else if (heartbeatInterval <=? 0)%Z then
    Err (errors_New "-peer-registry-heartbeat-interval must be greater than 0")
  else if (timeout <=? 0)%Z then Err (errors_New "-peer-registry-timeout must be greater than 0")
  else Ok (mkRegistry heartbeatURL address uuid
             (int_of_float64 (Duration_Seconds heartbeatInterval)) timeout false false).

(** [time.NewTicker(d)] panics unless [d] is positive. *)
Definition NewTicker (d : Duration) : result Duration :=
  if (0 <? d)%Z then Ok d else Panic "non-positive interval for NewTicker".

Section registry.
Context {W : Type} `{HttpTransport W} `{Gozstd}.
(** [json.Marshal] *)
Context (json_Marshal : HeartbeatRequest → result bytes).

Definition heartbeat (pr : Registry) : io W unit :=
  let request := mkHeartbeatRequest (rg_uuid pr) (rg_address pr) (wrap 64 (heartbeatInterval pr * 2)) in
  jsonData ← io_lift (wrap_err "failed to marshal heartbeat request: %w" (json_Marshal request));
  r ← io_try (RequestBodyWithContext (heartbeatURL pr)
         [WithMethod "POST"; WithBody (mkReader jsonData [] None); WithContentType "application/json"]);
  match r with
  | Ok _ => mret ()
  | Err e => io_fail (fmt_Errorf "failed to send heartbeat request: %w" [AErr e])
  | Panic msg => io_panic msg
  end.

(** What wakes the heartbeat goroutine. *)
Inductive wake := TickerTick | ContextDone.

(** Its loop: a heartbeat that fails is only logged. *)
Fixpoint heartbeat_loop (pr : Registry) (wakes : list wake) : io W unit :=
  match wakes with
  | TickerTick :: wakes => _ ← io_ignore (heartbeat pr); heartbeat_loop pr wakes
  | ContextDone :: _ | [] => mret ()
  end.

Definition heartbeat_goroutine (pr : Registry) (wakes : list wake) : io W unit :=
  _ ← io_lift (NewTicker (wrap 64 (heartbeatInterval pr * Second)));
  heartbeat_loop pr wakes.

(** [Start]: the state of the registry afterwards, and whether the goroutine is started. *)
Definition Registry_Start (pr : Registry) : io W Registry :=
  if isRunning pr then io_fail (fmt_Errorf "peer registry is already running" [])
  else
    r ← io_try (heartbeat pr);
    match r with
    | Ok _ => mret (set_isRunning true pr)
    | Err e => io_fail (fmt_Errorf "initial heartbeat failed: %w" [AErr e])
    | Panic msg => io_panic msg
    end.

(** [Stop] up to its wait for the goroutine. *)
Definition Registry_Stop (pr : Registry) : Registry :=
  if negb (isRunning pr) then pr
  else mkRegistry (heartbeatURL pr) (rg_address pr) (rg_uuid pr) (heartbeatInterval pr)
         (rg_timeout pr) true false.
End registry.

(** * Facts *)

Section facts.
Context {W : Type} `{HttpTransportLaws W} `{GozstdLaws}.
Context (json_Marshal : HeartbeatRequest → result bytes).
Hypothesis json_calm : ∀ r, calm (json_Marshal r).

Lemma heartbeat_calm pr w :
  post (heartbeat json_Marshal pr) w (λ r w',
    calm r ∧ open_bodies w' = open_bodies w).
Proof.
  unfold heartbeat. apply post_bind. unfold post, io_lift. cbn [fst snd].
  destruct (json_Marshal _) as [jsonData|e|msg] eqn:Hj; cbn; [|done|by destruct (json_calm _ _ Hj)].
  pose proof (RequestBody_spec (heartbeatURL pr) [WithMethod "POST";
    WithBody (mkReader jsonData [] None); WithContentType "application/json"] w) as Hr.
  unfold RequestBody, post in Hr. rewrite io_bind_unfold. unfold io_try.
  destruct (RequestBodyWithContext _ _ w) as [[b|e|msg] w']; cbn in *; destruct Hr as [Ho Hc];
    [done|done|by destruct (Hc msg)].
Qed.

(** The ticks before the context is done. *)
Fixpoint ticks (wakes : list wake) : nat :=
  match wakes with TickerTick :: wakes => S (ticks wakes) | _ => O end.

(** The world after [n] heartbeats, one after the other, whatever became of them. *)
Definition after_heartbeats (pr : Registry) (n : nat) (w : W) : W :=
  Nat.iter n (λ w, (heartbeat json_Marshal pr w).2) w.

Lemma after_heartbeats_S pr n w :
  after_heartbeats pr (S n) w = after_heartbeats pr n (heartbeat json_Marshal pr w).2.
Proof. unfold after_heartbeats. by rewrite Nat.iter_succ_r. Qed.

Lemma after_heartbeats_bodies pr n w : open_bodies (after_heartbeats pr n w) = open_bodies w.
Proof.
  induction n as [|n IH]; [done|]. cbn. rewrite <- IH.
  apply (heartbeat_calm pr (after_heartbeats pr n w)).
Qed.

Lemma heartbeat_loop_runs pr wakes w :
  heartbeat_loop json_Marshal pr wakes w = (Ok (), after_heartbeats pr (ticks wakes) w).
Proof.
  revert w. induction wakes as [|[] wakes IH]; intros w; [done| |done].
  cbn [heartbeat_loop ticks]. rewrite after_heartbeats_S.
  pose proof (heartbeat_calm pr w) as [Hc _]. rewrite io_bind_unfold. unfold io_ignore.
  change (io_bind_def (λ _, io_ret ()) (io_try (heartbeat json_Marshal pr)) w)
    with ((io_try (heartbeat json_Marshal pr) ≫= λ _, io_ret ()) w).
  rewrite io_bind_unfold. unfold io_try. destruct (heartbeat json_Marshal pr w) as [[a|e|msg] w1];
    cbn in *; [apply IH..|by destruct (Hc msg)].
Qed.

End facts.

(** The fraction is cut off. *)
Example registry_intervals :
  int_of_float64 (Duration_Seconds (5 * Second)) = 5%Z ∧
  int_of_float64 (Duration_Seconds (1999 * Millisecond)) = 1%Z ∧
  int_of_float64 (Duration_Seconds (500 * Millisecond)) = 0%Z.
Proof. by vm_compute. Qed.
