(* ===== verification/Logger.v ===== *)
(** The logger: src/src/utils/logger.go, over the library zap, which is a class. *)
From S2P Require Import Prelude Bytes.

(** * Levels *)

(** The levels of zapcore, in the order of their severity. *)
Inductive Level :=
| DebugLevel | InfoLevel | WarnLevel | ErrorLevel | DPanicLevel | PanicLevel | FatalLevel.

#[export] Instance level_eq_dec : EqDecision Level.
Proof. solve_decision. Defined.

Definition Level_val (l : Level) : Z :=
  match l with
  | DebugLevel => -1 | InfoLevel => 0 | WarnLevel => 1 | ErrorLevel => 2
  | DPanicLevel => 3 | PanicLevel => 4 | FatalLevel => 5
  end.

(** [l.Enabled(lvl)]: a threshold lets its own level through and the ones above it. *)
Definition Level_Enabled (l lvl : Level) : bool := (Level_val l <=? Level_val lvl)%Z.

(** * The library *)

Inductive stream := Stdout | Stderr.

#[export] Instance stream_eq_dec : EqDecision stream.
Proof. solve_decision. Defined.

(** zap hands out pointers. *)
Definition AtomicLevel : Type := positive.
Definition SugaredLogger : Type := positive.

Record BufferedWriteSyncer := mkBWS { WS : stream; BWS_Size : Z; FlushInterval : Duration }.

Inductive zap_option :=
| WithCaller (enabled : bool)
| ErrorOutput (w : BufferedWriteSyncer)
| AddStacktrace (lvl : AtomicLevel)
| AddCallerSkip (skip : nat).

Inductive time_encoder := EpochTimeEncoder | ISO8601TimeEncoder.
Inductive level_encoder := LowercaseLevelEncoder | CapitalLevelEncoder.

Record EncoderConfig := mkEncoderConfig
  { EncodeTime : time_encoder; EncodeLevel : level_encoder }.

(** [zap.NewProductionEncoderConfig()], as far as [NewLogger] changes it. *)
Definition NewProductionEncoderConfig : EncoderConfig :=
  mkEncoderConfig EpochTimeEncoder LowercaseLevelEncoder.

(** What [zap.New(zapcore.NewCore(encoder, ws, enab), opts...).Sugar().Named(name)] is made of. *)
Record zap_config := mkZapConfig {
  zc_encoder : EncoderConfig;
  zc_ws : BufferedWriteSyncer;
  zc_enab : AtomicLevel;
  zc_opts : list zap_option;
  zc_name : string
}.

(** A log entry, before it is encoded. *)
Record log_entry := mkEntryOf
  { en_level : Level; en_name : string; en_format : string; en_args : list fmt_arg }.

(** What a stream receives: an entry, or a text that is printed to it directly. *)
Inductive line := Logged (e : log_entry) | Text (format : string) (args : list fmt_arg).

Class Zap (W : Type) := {
  os_Hostname : io W string;
  fmt_Fprintf : stream → string → list fmt_arg → io W unit;
  zap_NewAtomicLevelAt : Level → io W AtomicLevel;
  AtomicLevel_SetLevel : AtomicLevel → Level → io W unit;
  zap_New : zap_config → io W SugaredLogger;
  (** [Debugf], [Infof] and [Errorf] *)
  SugaredLogger_Logf : SugaredLogger → Level → string → list fmt_arg → io W unit;
  SugaredLogger_Sync : SugaredLogger → io W unit;
  (** What the goroutine of a [BufferedWriteSyncer] does, every [FlushInterval]. *)
  zap_flush : SugaredLogger → W → W
}.

(** * The logger *)

Record Logger := mkLogger {
  stdoutLogger : SugaredLogger;
  stderrorLogger : SugaredLogger;
  stacktraceLevel : AtomicLevel;
  logLevel : AtomicLevel
}.

Section logger.
Context {W : Type} `{Zap W}.

(** [os.Hostname()] and what [NewLogger] makes of its error *)
Definition logger_hostname : io W string :=
  hostname ← io_try os_Hostname;
  match hostname with
  | Ok hostname => mret hostname
  | Err err =>
    _ ← io_ignore (fmt_Fprintf Stderr "Hostname retrieval error.: %s\n" [AErr err]);
    mret "localhost"
  | Panic msg => io_panic msg
  end.

Definition NewLogger : io W Logger :=
  hostname ← logger_hostname;
  stacktraceLevel ← zap_NewAtomicLevelAt DPanicLevel;
  logLevel ← zap_NewAtomicLevelAt InfoLevel;
  let stderrBWS := mkBWS Stderr (512 * 1024) (500 * Millisecond) in
  let stdoutBWS := mkBWS Stdout (512 * 1024) (500 * Millisecond) in
  let encCfg := mkEncoderConfig ISO8601TimeEncoder CapitalLevelEncoder in
  let opts := [WithCaller true; ErrorOutput stderrBWS; AddStacktrace stacktraceLevel;
               AddCallerSkip 1] in
  stdoutLogger ← zap_New (mkZapConfig encCfg stdoutBWS logLevel opts hostname);
  stderrorLogger ← zap_New (mkZapConfig encCfg stderrBWS logLevel opts hostname);
  mret (mkLogger stdoutLogger stderrorLogger stacktraceLevel logLevel).

Definition Logger_SetVerbose (logger : Logger) (isVerbose : bool) : io W unit :=
  if isVerbose then AtomicLevel_SetLevel (logLevel logger) DebugLevel
  else AtomicLevel_SetLevel (logLevel logger) InfoLevel.

(** The errors of [Sync] are dropped. *)
Definition Logger_Close (logger : Logger) : io W unit :=
  _ ← io_ignore (SugaredLogger_Sync (stdoutLogger logger));
  io_ignore (SugaredLogger_Sync (stderrorLogger logger)).

(** [loggerInstance]; [loggerOnce] is done when it is there. *)
Definition with_instance : Type := option Logger * W.

Definition GetLogger : io with_instance Logger := λ '(loggerInstance, w),
  match loggerInstance with
  | Some logger => (Ok logger, (loggerInstance, w))
  | None =>
    match NewLogger w with
    | (Ok logger, w) => (Ok logger, (Some logger, w))
    | (Err e, w) => (Err e, (None, w))
    | (Panic msg, w) => (Panic msg, (None, w))
    end
  end.

Definition on_world {A} (m : io W A) : io with_instance A :=
  λ '(loggerInstance, w), let '(r, w) := m w in (r, (loggerInstance, w)).

Definition on_logger {A} (m : Logger → io W A) : io with_instance A :=
  logger ← GetLogger; on_world (m logger).

Definition DebugPrintf (format : string) (args : list fmt_arg) : io with_instance unit :=
  on_logger (λ logger, SugaredLogger_Logf (stdoutLogger logger) DebugLevel format args).
Definition ErrorPrintf (format : string) (args : list fmt_arg) : io with_instance unit :=
  on_logger (λ logger, SugaredLogger_Logf (stderrorLogger logger) ErrorLevel format args).
Definition Printf (format : string) (args : list fmt_arg) : io with_instance unit :=
  on_logger (λ logger, SugaredLogger_Logf (stdoutLogger logger) InfoLevel format args).

(** What the program does with its logger, in the order in which its goroutines get to it. *)
Inductive log_call :=
| CallDebug (format : string) (args : list fmt_arg)
| CallError (format : string) (args : list fmt_arg)
| CallPrint (format : string) (args : list fmt_arg)
| CallSetVerbose (isVerbose : bool)
| CallClose.

Definition run_call (c : log_call) : io with_instance unit :=
  match c with
  | CallDebug format args => DebugPrintf format args
  | CallError format args => ErrorPrintf format args
  | CallPrint format args => Printf format args
  | CallSetVerbose isVerbose => on_logger (λ logger, Logger_SetVerbose logger isVerbose)
  | CallClose => on_logger Logger_Close
  end.

(** The calls of the program so far, with flushes of buffers in between. *)
Inductive log_run : list log_call → with_instance → with_instance → Prop :=
| run_none s : log_run [] s s
| run_next l c s s' : log_run l s s' → log_run (l ++ [c]) s (run_call c s').2
| run_flush l lg s logger w :
    log_run l s (Some logger, w) → log_run l s (Some logger, zap_flush lg w).
End logger.

(** * What zap promises

    A view of the world: the levels, the loggers with what their buffers hold, and what the two
    streams have received. The laws are those of streams that take what is written to them. *)

Record zap_view := mkZapView {
  zv_levels : gmap positive Level;
  zv_loggers : gmap positive (zap_config * list log_entry);
  zv_stdout : list line;
  zv_stderr : list line
}.

Definition received (s : stream) (v : zap_view) : list line :=
  match s with Stdout => zv_stdout v | Stderr => zv_stderr v end.

Definition receive (s : stream) (ls : list line) (v : zap_view) : zap_view :=
  match s with
  | Stdout => mkZapView (zv_levels v) (zv_loggers v) (zv_stdout v ++ ls) (zv_stderr v)
  | Stderr => mkZapView (zv_levels v) (zv_loggers v) (zv_stdout v) (zv_stderr v ++ ls)
  end.

Definition set_level (a : AtomicLevel) (l : Level) (v : zap_view) : zap_view :=
  mkZapView (<[a := l]> (zv_levels v)) (zv_loggers v) (zv_stdout v) (zv_stderr v).
Definition set_logger (lg : SugaredLogger) (c : zap_config * list log_entry) (v : zap_view) :
    zap_view :=
  mkZapView (zv_levels v) (<[lg := c]> (zv_loggers v)) (zv_stdout v) (zv_stderr v).

(** A logger whose buffer is [buf] writes the first [k] entries of it. *)
Definition written (lg : SugaredLogger) (cfg : zap_config) (buf : list log_entry) (k : nat)
    (v : zap_view) : zap_view :=
  receive (WS (zc_ws cfg)) (Logged <$> take k buf) (set_logger lg (cfg, drop k buf) v).

(** The entry a call adds to the buffer, when the level is enabled. *)
Definition entry_of (cfg : zap_config) (enab lvl : Level) (format : string)
    (args : list fmt_arg) : list log_entry :=
  if Level_Enabled enab lvl then [mkEntryOf lvl (zc_name cfg) format args] else [].

Class ZapLaws (W : Type) `{Zap W} := {
  view : W → zap_view;
  Hostname_law w : calm (os_Hostname w).1 ∧ view (os_Hostname w).2 = view w;
  Fprintf_law s format args w :
    calm (fmt_Fprintf s format args w).1 ∧
    view (fmt_Fprintf s format args w).2 = receive s [Text format args] (view w);
  NewAtomicLevelAt_law l w : ∃ a w', zap_NewAtomicLevelAt l w = (Ok a, w') ∧
    zv_levels (view w) !! a = None ∧ view w' = set_level a l (view w);
  SetLevel_law a l w : is_Some (zv_levels (view w) !! a) → ∃ w',
    AtomicLevel_SetLevel a l w = (Ok (), w') ∧ view w' = set_level a l (view w);
  zap_New_law cfg w : is_Some (zv_levels (view w) !! zc_enab cfg) → ∃ lg w',
    zap_New cfg w = (Ok lg, w') ∧ zv_loggers (view w) !! lg = None ∧
    view w' = set_logger lg (cfg, []) (view w);
  (** Entries are written when the buffer is full; nothing is below a panic. *)
  Logf_law lg lvl format args w cfg buf enab :
    zv_loggers (view w) !! lg = Some (cfg, buf) →
    zv_levels (view w) !! zc_enab cfg = Some enab → Level_Enabled DPanicLevel lvl = false →
    ∃ w' k, SugaredLogger_Logf lg lvl format args w = (Ok (), w') ∧
      view w' = written lg cfg (buf ++ entry_of cfg enab lvl format args) k (view w);
  (** [Sync] may still return an error: a terminal cannot be synchronised. *)
  Sync_law lg w cfg buf : zv_loggers (view w) !! lg = Some (cfg, buf) →
    calm (SugaredLogger_Sync lg w).1 ∧
    view (SugaredLogger_Sync lg w).2 = written lg cfg buf (length buf) (view w);
  flush_law lg w : match zv_loggers (view w) !! lg with
    | Some (cfg, buf) => ∃ k, view (zap_flush lg w) = written lg cfg buf k (view w)
    | None => view (zap_flush lg w) = view w
    end
}.

(** * What the calls ask for *)

(** The entries that [l] means to print on a stream, when it starts with the verbosity [v]. *)
Fixpoint meant (name : string) (s : stream) (v : bool) (l : list log_call) : list log_entry :=
  match l with
  | [] => []
  | CallDebug format args :: l =>
    (if v && bool_decide (s = Stdout) then [mkEntryOf DebugLevel name format args] else []) ++
    meant name s v l
  | CallError format args :: l =>
    (if bool_decide (s = Stderr) then [mkEntryOf ErrorLevel name format args] else []) ++
    meant name s v l
  | CallPrint format args :: l =>
    (if bool_decide (s = Stdout) then [mkEntryOf InfoLevel name format args] else []) ++
    meant name s v l
  | CallSetVerbose v :: l => meant name s v l
  | CallClose :: l => meant name s v l
  end.

Fixpoint verbose (v : bool) (l : list log_call) : bool :=
  match l with
  | [] => v
  | CallSetVerbose v :: l => verbose v l
  | _ :: l => verbose v l
  end.

Lemma verbose_snoc v l c : verbose v (l ++ [c]) = verbose (verbose v l) [c].
Proof. revert v. induction l as [|[] l IH]; intros v; simpl; auto. Qed.

Lemma meant_snoc name s v l c :
  meant name s v (l ++ [c]) = meant name s v l ++ meant name s (verbose v l) [c].
Proof.
  revert v. induction l as [|[] l IH]; intros v; cbn [app meant verbose]; rewrite ?IH, ?app_assoc;
    done.
Qed.

Definition level_of (v : bool) : Level := if v then DebugLevel else InfoLevel.

(** * The invariant of a run *)

Definition logger_of (logger : Logger) (s : stream) : SugaredLogger :=
  match s with Stdout => stdoutLogger logger | Stderr => stderrorLogger logger end.

(** What [NewLogger] makes the logger of a stream of. *)
Definition config_of (logger : Logger) (name : string) (s : stream) : zap_config :=
  mkZapConfig (mkEncoderConfig ISO8601TimeEncoder CapitalLevelEncoder)
    (mkBWS s (512 * 1024) (500 * Millisecond)) (logLevel logger)
    [WithCaller true; ErrorOutput (mkBWS Stderr (512 * 1024) (500 * Millisecond));
     AddStacktrace (stacktraceLevel logger); AddCallerSkip 1] name.

Lemma received_written lg cfg buf k v s :
  received s (written lg cfg buf k v) =
    received s v ++ (if decide (s = WS (zc_ws cfg)) then Logged <$> take k buf else []).
Proof.
  unfold written. by destruct (WS (zc_ws cfg)), s; simpl; rewrite ?app_nil_r.
Qed.

Lemma loggers_written lg cfg buf k v :
  zv_loggers (written lg cfg buf k v) = <[lg := (cfg, drop k buf)]> (zv_loggers v).
Proof. unfold written. by destruct (WS _). Qed.

Lemma levels_written lg cfg buf k v : zv_levels (written lg cfg buf k v) = zv_levels v.
Proof. unfold written. by destruct (WS _). Qed.

Section facts.
Context {W : Type} `{ZapLaws W} (name : string) (base : stream → list line) (logger : Logger).
Implicit Types (l : list log_call) (v : zap_view) (buf : stream → list log_entry).

(** The logger is what [NewLogger] made, and what its streams have received together with what
    is buffered is what the calls meant to print. *)
Record logger_inv buf l v : Prop := {
  li_distinct : stdoutLogger logger ≠ stderrorLogger logger;
  li_level : zv_levels v !! logLevel logger = Some (level_of (verbose false l));
  li_loggers s :
    zv_loggers v !! logger_of logger s = Some (config_of logger name s, buf s);
  li_only lg : is_Some (zv_loggers v !! lg) → ∃ s, lg = logger_of logger s;
  li_received s :
    received s v ++ (Logged <$> buf s) = base s ++ (Logged <$> meant name s false l)
}.

Lemma logger_of_inj s s' :
  stdoutLogger logger ≠ stderrorLogger logger → logger_of logger s = logger_of logger s' → s = s'.
Proof. by destruct s, s'. Qed.

(** A stream's buffer takes entries and writes some. *)
Lemma inv_written buf l v s e k l' :
  logger_inv buf l v → verbose false l' = verbose false l →
  (∀ s', meant name s' false l' = meant name s' false l ++ (if decide (s' = s) then e else [])) →
  logger_inv (λ s', if decide (s' = s) then drop k (buf s ++ e) else buf s') l'
    (written (logger_of logger s) (config_of logger name s) (buf s ++ e) k v).
Proof.
  intros [Hd Hl Hlg Hon Hr] Hv Hm. constructor.
  - done.
  - by rewrite levels_written, Hv.
  - intros s'. rewrite loggers_written. destruct (decide (s' = s)) as [->|Hs].
    + by rewrite lookup_insert_eq.
    + rewrite lookup_insert_ne; [apply Hlg|]. intros E. by apply Hs, logger_of_inj.
  - intros lg. rewrite loggers_written, lookup_insert_is_Some. intros [<-|[_ Hlg']]; eauto.
  - intros s'. rewrite received_written, Hm. cbn [config_of zc_ws WS].
    destruct (decide (s' = s)) as [->|Hs].
    + rewrite <- app_assoc, <- fmap_app, take_drop, !fmap_app, app_assoc, Hr. by rewrite app_assoc.
    + rewrite !app_nil_r. apply Hr.
Qed.

Lemma inv_ext buf buf' l v : (∀ s, buf s = buf' s) → logger_inv buf l v → logger_inv buf' l v.
Proof.
  intros E [Hd Hl Hlg Hon Hr]. constructor; [done..| |done|]; intros s; rewrite <- E; auto.
Qed.

(** A call that prints: [lvl] on the stream [s]. *)
Lemma logf_inv buf l w s lvl c format args :
  logger_inv buf l (view w) → Level_Enabled DPanicLevel lvl = false →
  (∀ b, verbose b [c] = b) →
  (∀ s' b, meant name s' b [c] = if decide (s' = s)
    then (if Level_Enabled (level_of b) lvl then [mkEntryOf lvl name format args] else [])
    else []) →
  ∃ w' buf', SugaredLogger_Logf (logger_of logger s) lvl format args w = (Ok (), w') ∧
    logger_inv buf' (l ++ [c]) (view w').
Proof.
  intros Hinv Hlvl Hv Hm.
  destruct (Logf_law (logger_of logger s) lvl format args w _ _ _ (li_loggers _ _ _ Hinv s)
    (li_level _ _ _ Hinv) Hlvl) as (w' & k & Hrun & Hview).
  eexists w', _. split; [done|]. rewrite Hview. apply (inv_written buf l); [done|..].
  - by rewrite verbose_snoc, Hv.
  - intros s'. rewrite meant_snoc, Hm. done.
Qed.

Lemma set_level_inv buf l w isVerbose :
  logger_inv buf l (view w) →
  ∃ w', Logger_SetVerbose logger isVerbose w = (Ok (), w') ∧
    logger_inv buf (l ++ [CallSetVerbose isVerbose]) (view w').
Proof.
  intros [Hd Hl Hlg Hon Hr]. unfold Logger_SetVerbose.
  destruct (SetLevel_law (logLevel logger) (level_of isVerbose) w ltac:(by rewrite Hl))
    as (w' & Hrun & Hview).
  exists w'. split; [by destruct isVerbose|]. rewrite Hview. constructor; try done.
  - rewrite verbose_snoc. simpl. by rewrite lookup_insert_eq.
  - intros s. rewrite meant_snoc. simpl. rewrite app_nil_r. rewrite <- Hr. by destruct s.
Qed.

Lemma sync_inv buf l w s :
  logger_inv buf l (view w) →
  post (io_ignore (SugaredLogger_Sync (logger_of logger s))) w (λ r w', r = Ok () ∧
    logger_inv (λ s', if decide (s' = s) then [] else buf s') l (view w')).
Proof.
  intros Hinv. destruct (Sync_law (logger_of logger s) w _ _ (li_loggers _ _ _ Hinv s))
    as [Hcalm Hview].
  unfold post, io_ignore. fold (@mbind (io W) _). unfold io_try, io_bind_def.
  destruct (SugaredLogger_Sync _ w) as [r w']. cbn [fst snd] in *.
  assert (logger_inv (λ s', if decide (s' = s) then [] else buf s') l (view w')) as Hinv'.
  { rewrite Hview. pose proof (inv_written buf l (view w) s [] (length (buf s)) l Hinv eq_refl)
      as Hw. rewrite app_nil_r in Hw. eapply inv_ext; [|apply Hw].
    - intros s'. cbn. destruct (decide (s' = s)); [apply drop_all|done].
    - intros s'. by destruct (decide (s' = s)); rewrite app_nil_r. }
  destruct r as [[]|e|msg]; [done..|by destruct (Hcalm msg)].
Qed.

Lemma close_inv buf l w :
  logger_inv buf l (view w) →
  ∃ w', Logger_Close logger w = (Ok (), w') ∧
    logger_inv (λ _, []) (l ++ [CallClose]) (view w').
Proof.
  intros Hinv. pose proof (sync_inv _ _ _ Stdout Hinv) as H1. unfold post in H1.
  unfold Logger_Close. rewrite io_bind_unfold. simpl logger_of in H1.
  destruct (io_ignore (SugaredLogger_Sync (stdoutLogger logger)) w) as [r1 w1].
  cbn [fst snd] in *. destruct H1 as [-> Hinv1].
  pose proof (sync_inv _ _ _ Stderr Hinv1) as H2. unfold post in H2. simpl logger_of in H2.
  destruct (io_ignore (SugaredLogger_Sync (stderrorLogger logger)) w1) as [r2 w2].
  cbn [fst snd] in *. destruct H2 as [-> Hinv2]. exists w2. split; [done|].
  destruct Hinv2 as [Hd Hl Hlg Hon Hr]. constructor; try done.
  - by rewrite verbose_snoc.
  - intros s. rewrite Hlg. by destruct s.
  - intros s. rewrite meant_snoc. simpl. rewrite !app_nil_r, <- Hr. destruct s; simpl;
      by rewrite app_nil_r.
Qed.

(** Every call returns, and what it asked for is printed or buffered; [Close] leaves nothing
    in a buffer. *)
Lemma call_inv buf l w c :
  logger_inv buf l (view w) →
  ∃ w' buf', run_call c (Some logger, w) = (Ok (), (Some logger, w')) ∧
    logger_inv buf' (l ++ [c]) (view w') ∧ (c = CallClose → ∀ s, buf' s = []).
Proof.
  intros Hinv. assert (∀ (m : Logger → io W unit) w' buf', m logger w = (Ok (), w') →
    logger_inv buf' (l ++ [c]) (view w') → (c = CallClose → ∀ s, buf' s = []) →
    ∃ w' buf', on_logger m (Some logger, w) = (Ok (), (Some logger, w')) ∧
      logger_inv buf' (l ++ [c]) (view w') ∧ (c = CallClose → ∀ s, buf' s = [])) as Hm.
  { intros m w' buf' Hm Hi Hc. exists w', buf'. split; [|done].
    unfold on_logger, on_world. rewrite io_bind_unfold. simpl. by rewrite Hm. }
  destruct c as [f a|f a|f a|v|]; cbn [run_call].
  1-3: unfold DebugPrintf, ErrorPrintf, Printf.
  - edestruct (logf_inv buf l w Stdout DebugLevel (CallDebug f a) f a) as (w' & buf' & Hr & Hi);
      [done..| |by eapply Hm].
    by intros [] [].
  - edestruct (logf_inv buf l w Stderr ErrorLevel (CallError f a) f a) as (w' & buf' & Hr & Hi);
      [done..| |by eapply Hm].
    by intros [] [].
  - edestruct (logf_inv buf l w Stdout InfoLevel (CallPrint f a) f a) as (w' & buf' & Hr & Hi);
      [done..| |by eapply Hm].
    by intros [] [].
  - destruct (set_level_inv buf l w v Hinv) as (w' & Hr & Hi). by eapply Hm.
  - destruct (close_inv buf l w Hinv) as (w' & Hr & Hi). by eapply Hm.
Qed.

Lemma flush_inv buf l w lg :
  logger_inv buf l (view w) → ∃ buf', logger_inv buf' l (view (zap_flush lg w)).
Proof.
  intros Hinv. pose proof (flush_law lg w) as Hf.
  destruct (zv_loggers (view w) !! lg) as [[cfg b]|] eqn:E; [|exists buf; by rewrite Hf].
  destruct (li_only _ _ _ Hinv lg ltac:(by rewrite E)) as [s ->].
  rewrite (li_loggers _ _ _ Hinv) in E. injection E as <- <-. destruct Hf as [k ->].
  eexists. rewrite <- (app_nil_r (buf s)). apply (inv_written buf l); [done..|].
  intros s'. by destruct (decide (s' = s)); rewrite app_nil_r.
Qed.
End facts.

(** * From the first call *)

Section first.
Context {W : Type} `{ZapLaws W}.

(** What [NewLogger] may print itself. *)
Definition hostname_lines (r : result string) : list line :=
  match r with
  | Err err => [Text "Hostname retrieval error.: %s\n" [AErr err]]
  | _ => []
  end.
Definition hostname_or_localhost (r : result string) : string :=
  match r with Ok hostname => hostname | _ => "localhost" end.

(** What a stream has received before the first entry. *)
Definition base_of (w : W) (s : stream) : list line :=
  received s (view w) ++ (if decide (s = Stderr) then hostname_lines (os_Hostname w).1 else []).

Lemma logger_hostname_ok w :
  ∃ w', logger_hostname w = (Ok (hostname_or_localhost (os_Hostname w).1), w') ∧
    view w' = receive Stderr (hostname_lines (os_Hostname w).1) (view w).
Proof.
  destruct (Hostname_law w) as [Hcalm Hview]. unfold logger_hostname. rewrite io_bind_unfold.
  unfold io_try. destruct (os_Hostname w) as [[h|e|msg] w1]; cbn [fst snd] in *.
  - exists w1. split; [done|]. rewrite Hview. unfold receive. simpl. rewrite app_nil_r.
    by destruct (view w).
  - destruct (Fprintf_law Stderr "Hostname retrieval error.: %s\n" [AErr e] w1) as [Hc Hv].
    rewrite io_bind_unfold. unfold io_ignore, io_try, io_bind_def.
    destruct (fmt_Fprintf _ _ _ w1) as [r w2]. cbn [fst snd] in *. exists w2.
    rewrite Hv, Hview. destruct r as [[]|e'|msg]; [done..|by destruct (Hc msg)].
  - by destruct (Hcalm msg).
Qed.

Lemma NewLogger_inv w :
  zv_loggers (view w) = ∅ →
  ∃ logger w', NewLogger w = (Ok logger, w') ∧
    logger_inv (hostname_or_localhost (os_Hostname w).1) (base_of w) logger
      (λ _, []) [] (view w').
Proof.
  intros Hnone. unfold NewLogger.
  destruct (logger_hostname_ok w) as (w1 & H1 & V1). rewrite (io_bind_ok _ _ _ _ _ H1).
  destruct (NewAtomicLevelAt_law DPanicLevel w1) as (st & w2 & H2 & _ & V2).
  rewrite (io_bind_ok _ _ _ _ _ H2).
  destruct (NewAtomicLevelAt_law InfoLevel w2) as (lv & w3 & H3 & F3 & V3).
  rewrite (io_bind_ok _ _ _ _ _ H3). cbv zeta.
  set (cfg s := config_of (mkLogger 1%positive 1%positive st lv) (hostname_or_localhost (os_Hostname w).1) s).
  destruct (zap_New_law (cfg Stdout) w3) as (lo & w4 & H4 & F4 & V4).
  { rewrite V3. simpl. by rewrite lookup_insert_eq. }
  rewrite (io_bind_ok _ _ _ _ _ H4).
  destruct (zap_New_law (cfg Stderr) w4) as (le & w5 & H5 & F5 & V5).
  { rewrite V4, V3. simpl. by rewrite lookup_insert_eq. }
  rewrite (io_bind_ok _ _ _ _ _ H5). exists (mkLogger lo le st lv), w5. split; [done|].
  assert (lo ≠ le) as Hne by (intros ->; rewrite V4 in F5; simpl in F5; by rewrite lookup_insert_eq in F5).
  rewrite V5, V4, V3, V2, V1. constructor; simpl.
  - done.
  - by rewrite lookup_insert_eq.
  - intros []; simpl; [|by rewrite lookup_insert_eq].
    by rewrite lookup_insert_ne, lookup_insert_eq.
  - intros lg. rewrite Hnone. rewrite !lookup_insert_is_Some. intros [<-|[_ [<-|[_ Hlg]]]].
    + by exists Stderr.
    + by exists Stdout.
    + by rewrite lookup_empty in Hlg; destruct Hlg.
  - intros []; unfold base_of; simpl; by rewrite ?app_nil_r.
Qed.

Lemma GetLogger_inv w :
  zv_loggers (view w) = ∅ →
  ∃ logger w', GetLogger (None, w) = (Ok logger, (Some logger, w')) ∧
    logger_inv (hostname_or_localhost (os_Hostname w).1) (base_of w) logger
      (λ _, []) [] (view w').
Proof.
  intros Hnone. destruct (NewLogger_inv w Hnone) as (logger & w' & Hrun & Hinv).
  exists logger, w'. split; [|done]. unfold GetLogger. by rewrite Hrun.
Qed.

(** After a call of [GetLogger], the next one returns the same logger and does nothing. *)
Lemma on_logger_again {A} (m : Logger → io W A) s logger s' :
  GetLogger s = (Ok logger, s') → on_logger m s = on_logger m s'.
Proof.
  intros H1. unfold on_logger. rewrite (io_bind_ok _ _ _ _ _ H1). destruct s as [[lg|] w].
  - injection H1 as -> <-. by rewrite (io_bind_ok _ _ (Some logger, w) logger (Some logger, w)).
  - unfold GetLogger in H1. destruct (NewLogger w) as [[lg|e|msg] w1]; try done.
    injection H1 as -> <-. by rewrite (io_bind_ok _ _ (Some logger, w1) logger (Some logger, w1)).
Qed.

Lemma run_call_again c s logger s' :
  GetLogger s = (Ok logger, s') → run_call c s = run_call c s'.
Proof. intros H1. destruct c; by eapply on_logger_again. Qed.

Definition run_inv (w0 : W) (l : list log_call) (s : with_instance (W := W)) : Prop :=
  match s with
  | (None, w) => l = [] ∧ w = w0
  | (Some logger, w) => ∃ buf,
      logger_inv (hostname_or_localhost (os_Hostname w0).1) (base_of w0) logger buf l (view w)
  end.

(** A call, whether or not it is the first one. *)
Lemma run_call_inv w0 l s c :
  zv_loggers (view w0) = ∅ → run_inv w0 l s →
  ∃ logger w' buf, run_call c s = (Ok (), (Some logger, w')) ∧
    logger_inv (hostname_or_localhost (os_Hostname w0).1) (base_of w0) logger buf (l ++ [c])
      (view w') ∧ (c = CallClose → ∀ s, buf s = []).
Proof.
  intros Hnone Hinv. assert (∃ logger w' buf, run_call c s = run_call c (Some logger, w') ∧
    logger_inv (hostname_or_localhost (os_Hostname w0).1) (base_of w0) logger buf l (view w'))
    as (logger & w' & buf & -> & Hi).
  { destruct s as [[logger|] w].
    - destruct Hinv as [buf Hi]. by exists logger, w, buf.
    - destruct Hinv as [-> ->]. destruct (GetLogger_inv w0 Hnone) as (logger & w' & Hget & Hi).
      exists logger, w', (λ _, []). split; [by eapply run_call_again|done]. }
  destruct (call_inv _ _ logger buf l w' c Hi) as (w2 & buf2 & Hrun & Hi2 & Hc).
  by exists logger, w2, buf2.
Qed.

Lemma log_run_inv w0 l s :
  zv_loggers (view w0) = ∅ → log_run l (None, w0) s → run_inv w0 l s.
Proof.
  intros Hnone Hrun. remember (None, w0) as s0 eqn:E. induction Hrun as [s|l c s s' _ IH|l lg s logger w _ IH]; subst.
  - done.
  - destruct (run_call_inv w0 l s' c Hnone (IH eq_refl)) as (logger & w' & buf & -> & Hi & _).
    by exists buf.
  - destruct (IH eq_refl) as [buf Hi]. by eapply flush_inv.
Qed.

(** C40: the log. Whatever the goroutines print, however they switch between verbose and not, and
    whenever the buffers are flushed: every call returns, and each stream has received, in the
    order of the calls, a prefix of what was meant for it (what [Printf] was given and, while
    verbose, [DebugPrintf], on standard output; what [ErrorPrintf] was given on standard error,
    behind the failure to find a hostname, if any); after [Close] it has received all of it. *)
Theorem log_complete w l s c :
  zv_loggers (view w) = ∅ → log_run l (None, w) s →
  (run_call c s).1 = Ok () ∧
  ∀ stream,
    let name := hostname_or_localhost (os_Hostname w).1 in
    (∀ logger w', s = (Some logger, w') →
      received stream (view w') `prefix_of`
        base_of w stream ++ (Logged <$> meant name stream false l)) ∧
    (c = CallClose → received stream (view (run_call c s).2.2) =
        base_of w stream ++ (Logged <$> meant name stream false l)).
Proof.
  intros Hnone Hrun. pose proof (log_run_inv w l s Hnone Hrun) as Hinv.
  destruct (run_call_inv w l s c Hnone Hinv) as (logger & w' & buf & Hcall & Hi & Hc).
  rewrite Hcall. split; [done|]. intros stream name. split.
  - intros logger' w1 ->. destruct Hinv as [buf' Hi']. rewrite <- (li_received _ _ _ _ _ _ Hi').
    by apply prefix_app_r.
  - intros ->. pose proof (li_received _ _ _ _ _ _ Hi stream) as Hr.
    rewrite Hc, app_nil_r, meant_snoc in Hr by done. simpl in Hr. by rewrite app_nil_r in Hr.
Qed.
End first.
