(* ===== verification/StorageFactory.v ===== *)
(** Which storage an option names: the factory of src/src/storage/storage.go and its options
    in src/src/storage/option.go. *)
From S2P Require Import Prelude Bytes GoStrings Types Storage LocalStorage.

(** * option.go *)

Inductive StorageType :=
| StorageTypeNone | StorageTypeLocal | StorageTypeAppdepot | StorageTypeS3.

#[export] Instance StorageType_eq_dec : EqDecision StorageType.
Proof. solve_decision. Defined.

Definition StorageTypeFrom (s : string) : result StorageType :=
  let st := strings_ToLower s in
  if decide (st = "local") then Ok StorageTypeLocal
  else if decide (st = "appdepot") then Ok StorageTypeAppdepot
  else if decide (st = "s3") then Ok StorageTypeS3
  else Err (fmt_Errorf "invalid storage type: %s" [AStr s]).

Record Config := mkConfig {
  cfg_path : string;
  appdepotURL : string; appdepotAppName : string; appdepotEnvName : string;
  s3URL : string; s3Region : string; s3AccessKey : string; s3SecretKey : string
}.

Definition WithPath (path : string) (c : Config) : Config :=
  mkConfig path (appdepotURL c) (appdepotAppName c) (appdepotEnvName c) (s3URL c) (s3Region c)
    (s3AccessKey c) (s3SecretKey c).
Definition WithS3Config (url region accessKey secretKey : string) (c : Config) : Config :=
  mkConfig (cfg_path c) (appdepotURL c) (appdepotAppName c) (appdepotEnvName c) url region
    accessKey secretKey.
Definition WithAppdepotConfig (url appName envName : string) (c : Config) : Config :=
  mkConfig (cfg_path c) url appName envName (s3URL c) (s3Region c) (s3AccessKey c) (s3SecretKey c).

(** * The factory *)

Record Factory := mkFactory { storageType : StorageType; storagePath : string; rawURL : string }.

Section factory.
(** [filepath.Abs]: an absolute path, or the error of [os.Getwd]. *)
Context (filepath_Abs : string → result string).

Definition NewFactory (rawURL : string) : result Factory :=
  if decide (rawURL = "") then Ok (mkFactory StorageTypeNone "" "")
  else
    '(storageType, path) ←
      match strings_SplitN2 ":" rawURL with
      | [scheme; path] =>
        match StorageTypeFrom scheme with
        | Ok storageType => Ok (storageType, path)
        | Err _ => Err (fmt_Errorf "invalid storage type (%s)" [AStr rawURL])
        | Panic msg => Panic msg
        end
      | _ => Ok (StorageTypeLocal, rawURL)
      end;
    if decide (path = "") then Ok (mkFactory storageType path rawURL)
    else
      match filepath_Abs path with
      | Ok normalized => Ok (mkFactory storageType normalized rawURL)
      | Err _ =>
        Ok (mkFactory storageType (strings_TrimSuffix (strings_TrimSpace path) "/") rawURL)
      | Panic msg => Panic msg
      end.
End factory.

(** [Create]: the base directory of a [LocalStorage]; [None] is the nil interface. *)
Definition Factory_Create (f : Factory) (options : list (Config → Config)) :
    result (option string) :=
  let config := foldl (λ c option, option c) (mkConfig (storagePath f) "" "" "" "" "" "" "") options in
  match storageType f with
  | StorageTypeNone => Ok None
  | StorageTypeLocal => Some <$> newLocalStorage (cfg_path config)
  | StorageTypeAppdepot => Err (fmt_Errorf "appdepot storage is not supported" [])
  | StorageTypeS3 => Err (fmt_Errorf "s3 storage is not supported" [])
  end.

(** [NewFactory] and [Create] on an option, as [Init] calls them. *)
Definition storage_of (filepath_Abs : string → result string) (rawURL : string) :
    result (option string) :=
  f ← NewFactory filepath_Abs rawURL; Factory_Create f [].

Section storage_of.
Context (filepath_Abs : string → result string).

(** What an option that [Init] accepts names: nothing, or a local directory, written as a path
    or after [local:] in any case of letters. *)
Lemma storage_of_ok raw o :
  storage_of filepath_Abs raw = Ok o →
  match o with
  | None => raw = ""
  | Some dir => dir ≠ "" ∧
      ∃ path, (path = raw ∧ ":"%char ∉ chars raw ∨
               ∃ scheme, raw = scheme +:+ String ":" path ∧ strings_ToLower scheme = "local") ∧
        (filepath_Abs path = Ok dir ∨ dir = strings_TrimSuffix (strings_TrimSpace path) "/")
  end.
Proof.
  unfold storage_of, NewFactory, Factory_Create. case_decide as Hraw; [by intros [= <-]|].
  assert ((":"%char ∉ chars raw ∧ strings_SplitN2 ":" raw = [raw]) ∨
    ∃ a b, raw = a +:+ String ":" b ∧ strings_SplitN2 ":" raw = [a; b]) as Hsplit.
  { clear. induction raw as [|c s IH]; [left; by split; [apply not_elem_of_nil|]|].
    cbn [strings_SplitN2]. destruct (Ascii.eqb_spec c ":") as [->|Hc].
    - right. by exists "", s.
    - destruct IH as [[Hs ->]|(a & b & -> & ->)].
      + left. split; [|done]. by apply not_elem_of_cons; split; [congruence|].
      + right. by exists (String c a), b. }
  set (tail := λ storageType path,
    if decide (path = "") then Ok (mkFactory storageType path raw)
    else match filepath_Abs path with
         | Ok normalized => Ok (mkFactory storageType normalized raw)
         | Err _ => Ok (mkFactory storageType (strings_TrimSuffix (strings_TrimSpace path) "/") raw)
         | Panic msg => Panic msg
         end).
  assert (∀ ty path f, tail ty path = Ok f → storageType f = ty ∧
    (storagePath f = "" ∨ filepath_Abs path = Ok (storagePath f) ∨
     storagePath f = strings_TrimSuffix (strings_TrimSpace path) "/")) as Htail.
  { intros ty path f. unfold tail. case_decide; [intros [= <-]; by auto|].
    destruct (filepath_Abs path) eqn:E; [intros [= <-]; cbn; by auto..|done]. }
  intros (f & Hf & Hc)%bind_ok. apply bind_ok in Hf as ([ty path] & Hty & Hf).
  change (tail ty path = Ok f) in Hf. destruct (Htail ty path f Hf) as [<- Hpath]. clear Htail Hf.
  destruct (storageType f); try done.
  - exfalso. destruct Hsplit as [[_ Hs]|(a & b & _ & Hs)]; rewrite Hs in Hty; [done|].
    unfold StorageTypeFrom in Hty. by repeat case_decide.
  - unfold newLocalStorage in Hc. cbn in Hc. case_decide as Hne; [done|]. injection Hc as <-.
    split; [done|]. exists path. split; [|naive_solver].
    destruct Hsplit as [[Hfresh Hs]|(a & b & -> & Hs)]; rewrite Hs in Hty.
    + injection Hty as <-. by left.
    + right. exists a. unfold StorageTypeFrom in Hty.
      repeat (case_decide; [by simplify_eq|]). done.
Qed.
End storage_of.

(** A local path with a colon in it is taken for another type of storage. *)
Example colon_in_path :
  storage_of Ok "/backup/12:30" = Err (fmt_Errorf "invalid storage type (%s)" [AStr "/backup/12:30"]).
Proof. by vm_compute. Qed.
