(* ===== verification/TestStorage.v ===== *)
(** testutil/storage.go: directories with files of every kind, made for the tests of the storages
    and of the transfers. *)
From S2P Require Import Prelude Bytes GoStrings Types Storage LocalStorage StorageFactory.

(** What the files below need of package [os] besides [OS]: directories with new names, and the
    removal of a tree. A [for range] over a map takes its entries in some order. *)
Class TempDirs (W : Type) := {
  os_MkdirTemp : string → string → io W string;
  os_RemoveAll : string → io W unit
}.
Class MapRange := {
  map_range {A} : gmap string A → list (string * A);
  map_range_perm {A} (m : gmap string A) : map_range m ≡ₚ map_to_list m
}.

(** [filepath.Dir(path)]: what stands before the last slash. *)
Definition filepath_Dir (path : string) : string :=
  let before := String.concat "/" (reverse (tail (reverse (strings_Split "/" path)))) in
  filepath_Clean (if bool_decide ("/"%char ∈ chars path) then before +:+ "/" else "").

Record TestStorageOptions := mkTestStorageOptions {
  Files : gmap string bytes;
  EmptyFiles : list string;
  Dirs : list string;
  Symlinks : gmap string string
}.

Definition DefaultTestStorageOptions : TestStorageOptions :=
  mkTestStorageOptions
    (list_to_map [("file1.txt", replicate 1000 Byte.x61); ("file2.txt", replicate 2000 Byte.x62);
                  ("file3.txt", replicate 500 Byte.x63)]) [] [] ∅.

Definition WithEntriesTestStorageOptions : TestStorageOptions :=
  mkTestStorageOptions
    (list_to_map [("file1.txt", replicate 1000 Byte.x61); ("file2.txt", replicate 2000 Byte.x62);
                  ("subdir/file3.txt", replicate 500 Byte.x63)])
    ["empty.txt"] ["subdir"] (<["link.txt" := "file1.txt"]> ∅).

Section test_storage.
Context {W : Type} `{OS W} `{TempDirs W} `{MapRange}.
Context (filepath_Abs : string → result string).

(** [os.WriteFile]: an error of [Close] counts only when there is no other. *)
Definition os_WriteFile (name : string) (data : bytes) (perm : Z) : io W unit :=
  f ← os_OpenFile name (mkOpenFlags true true true) perm;
  close_after f (λ w,
    let '((_, err), w) := File_Write f data w in
    (match err with Some e => Err e | None => Ok () end, w)).

(** [if err != nil { cleanup(); t.Fatalf(msg, args, err) }]: the test ends there. *)
Definition or_fatal {A} (cleanup : io W unit) (msg : string) (args : list fmt_arg) (m : io W A) :
    io W A :=
  r ← io_try m;
  match r with
  | Err e => _ ← cleanup; io_fail (fmt_Errorf msg (args ++ [AErr e]))
  | r => io_lift r
  end.

(** The storage, its directory, and the function that removes it. *)
Definition CreateTestStorage (opts : TestStorageOptions) :
    io W (option string * string * io W unit) :=
  tmpDir ← or_fatal (mret ()) "Failed to create temp dir: %v" [] (os_MkdirTemp "" "p2pcp-test-*");
  let cleanup := io_ignore (os_RemoveAll tmpDir) in
  let fatal {A} msg args (m : io W A) := or_fatal cleanup msg args m in
  _ ← io_foreach (λ dir,
        fatal "Failed to create directory %s: %v" [AStr dir]
          (os_MkdirAll (filepath_Join tmpDir dir) 493)) (Dirs opts);
  _ ← io_foreach (λ '(name, content),
        let filePath := filepath_Join tmpDir name in
        _ ← fatal "Failed to create parent dir for %s: %v" [AStr name]
              (os_MkdirAll (filepath_Dir filePath) 493);
        fatal "Failed to create test file %s: %v" [AStr name] (os_WriteFile filePath content 420))
        (map_range (Files opts));
  _ ← io_foreach (λ name,
        fatal "Failed to create empty file %s: %v" [AStr name]
          (os_WriteFile (filepath_Join tmpDir name) [] 420)) (EmptyFiles opts);
  _ ← io_foreach (λ '(name, target),
        fatal "Failed to create symlink %s: %v" [AStr name]
          (os_Symlink target (filepath_Join tmpDir name))) (map_range (Symlinks opts));
  factory ← fatal "Failed to create storage factory: %v" []
              (io_lift (StorageFactory.NewFactory filepath_Abs tmpDir));
  stor ← fatal "Failed to create storage: %v" [] (io_lift (StorageFactory.Factory_Create factory []));
  mret (stor, tmpDir, cleanup).

Definition CreateTestStorageDefault : io W (option string * string * io W unit) :=
  CreateTestStorage DefaultTestStorageOptions.
Definition CreateTestStorageWithEntries : io W (option string * string * io W unit) :=
  CreateTestStorage WithEntriesTestStorageOptions.
Definition CreateEmptyTestStorage : io W (option string * string * io W unit) :=
  CreateTestStorage (mkTestStorageOptions ∅ [] [] ∅).

(** * Nothing is left behind *)

(** A call that failed removed the directory last. *)
Definition removed (dir : string) (w : W) : Prop :=
  ∃ w1, w = (io_ignore (os_RemoveAll dir) w1).2.

(** A step after which an error has removed [dir]. *)
Definition tidy {A} (dir : string) (m : io W A) : Prop :=
  ∀ w, match m w with (Err _, w') => removed dir w' | _ => True end.

Lemma tidy_bind {A B} dir (m : io W A) (k : A → io W B) :
  tidy dir m → (∀ a, tidy dir (k a)) → tidy dir (m ≫= k).
Proof.
  intros Hm Hk w. rewrite io_bind_unfold. specialize (Hm w).
  destruct (m w) as [[a|e|msg] w1]; [apply Hk|exact Hm|done].
Qed.

Lemma tidy_foreach {A} dir (f : A → io W unit) l :
  (∀ x, tidy dir (f x)) → tidy dir (io_foreach f l).
Proof.
  intros Hf. induction l as [|x l IH]; [done|].
  change (io_foreach f (x :: l)) with (f x ≫= λ _, io_foreach f l). by apply tidy_bind.
Qed.

Lemma or_fatal_unfold {A} (cleanup : io W unit) msg args (m : io W A) w :
  or_fatal cleanup msg args m w =
    match m w with
    | (Err e, w) => (cleanup ≫= λ _, io_fail (fmt_Errorf msg (args ++ [AErr e]))) w
    | r => r
    end.
Proof.
  unfold or_fatal. rewrite io_bind_unfold. unfold io_try. by destruct (m w) as [[] ?].
Qed.

Lemma tidy_fatal {A} dir msg args (m : io W A) :
  tidy dir (or_fatal (io_ignore (os_RemoveAll dir)) msg args m).
Proof.
  intros w. rewrite or_fatal_unfold. destruct (m w) as [[a|e|msg'] w1]; [done| |done].
  rewrite io_bind_unfold. destruct (io_ignore (os_RemoveAll dir) w1) as [[u|e'|msg'] w2] eqn:E;
    cbn [fst snd]; [by exists w1; rewrite E..|done].
Qed.

(** When [CreateTestStorage] fails after it has made its directory, the last thing it does is
    to remove it. *)
Lemma CreateTestStorage_tidy opts w :
  match CreateTestStorage opts w with
  | (Err _, w') =>
    match os_MkdirTemp "" "p2pcp-test-*" w with
    | (Ok dir, _) => removed dir w'
    | (_, w1) => w' = w1
    end
  | _ => True
  end.
Proof.
  unfold CreateTestStorage. rewrite io_bind_unfold, !or_fatal_unfold.
  destruct (os_MkdirTemp "" "p2pcp-test-*" w) as [[dir|e|msg] w1]; cbn [fst snd]; [|done..].
  revert w1. match goal with |- ∀ w1, match ?m w1 with _ => _ end => change (tidy dir m) end.
  repeat first [apply tidy_fatal | apply tidy_foreach; intros ? | apply tidy_bind; [|intros ?]];
    try (match goal with x : string * _ |- _ => destruct x end);
    repeat first [apply tidy_fatal | apply tidy_bind; [|intros ?]]; done.
Qed.
End test_storage.
