(* ===== verification/Flags.v ===== *)
(** The flags of src/src/main.go: their defaults and usage, the text of [-help], and the values
    that the command line gives them. *)
From S2P Require Import Prelude Bytes GoStrings GoFlag Types Http.

(** The variables of [main.go], in their order. *)
Definition flag_table : list Flag :=
  [
   mkFlag "version" (FBool false) "Show version information.";
   mkFlag "verbose" (FBool false) "Enable verbose logging.";
   mkFlag "statistics" (FBool false) "Print transfer statistics on completion.";
   mkFlag "help" (FBool false) "Show usage.";
   mkFlag "wait-host" (FString "")
     "Wait for the specified host to complete the transfer. Set the timeout with -wait-host-timeout.";
   mkFlag "wait-host-timeout" (FDuration (10 * Minute)%Z) "Timeout for -wait-host.";
   mkFlag "exit-complete" (FBool false) "Exit immediately after the transfer completes.";
   mkFlag "peer-num-concurrent" (FInt 2)
     ("Number of concurrent transfer jobs per peer (1-" +:+ FormatInt MaxPeerNumConcurrent +:+ ").");
   mkFlag "local-num-concurrent" (FInt 1)
     ("Number of concurrent local transfer jobs (1-" +:+ FormatInt MaxLocalNumConcurrent +:+ ").");
   mkFlag "compress-type" (FString EncodingTypeNone)
     "Compression algorithm for network transfers. Options: none, zstd.";
   mkFlag "files-per-chunk" (FInt 5) "Maximum count of files per chunk.";
   mkFlag "chunk-size" (FInt 16777216) "Size of each transfer chunk in bytes.";
   mkFlag "verify-on-complete" (FBool false)
     "Verify file integrity by comparing hash values after all files are transferred.";
   mkFlag "execute-on-complete" (FString "") "Run command after all files complete.";
   mkFlag "execute-on-each-file-complete" (FString "") "Run command after each file completes.";
   mkFlag "command-timeout" (FDuration (10 * Second)%Z)
     "Timeout for command execution. Commands that exceed this timeout are terminated with SIGKILL.";
   mkFlag "listen-addr" (FString ("0.0.0.0:" +:+ FormatInt DefaultPort)) "TCP listen address.";
   mkFlag "peer-list" (FString "") "Static peers (host:port,host:port); merges with others.";
   mkFlag "peer-list-url" (FString "")
     "HTTP URL returning comma-separated peers; exclusive with SRV/A.";
   mkFlag "peer-list-srv" (FString "") "SRV FQDN for discovery; exclusive with URL/A.";
   mkFlag "peer-list-a" (FString "") "A-record FQDN for discovery; exclusive with URL/SRV.";
   mkFlag "peer-list-dns-server" (FString "") "Custom DNS server for A/SRV record lookups.";
   mkFlag "peer-list-poll-interval" (FDuration (3 * Second)%Z)
     "Polling interval for dynamic peer providers.";
   mkFlag "peer-wait-timeout" (FDuration (20 * Second)%Z)
     "Timeout for waiting until at least one peer becomes available.";
   mkFlag "peer-registry-heartbeat-url" (FString "")
     "Registry endpoint to publish this peer; discover via -peer-list-url.";
   mkFlag "peer-registry-self-endpoint" (FString "")
     "This peer's connect address (host:port) to publish.";
   mkFlag "peer-registry-heartbeat-interval" (FDuration (5 * Second)%Z)
     "Interval between registry heartbeats.";
   mkFlag "peer-registry-timeout" (FDuration (3 * Second)%Z) "Timeout for registry requests.";
   mkFlag "src" (FString "") "Source path (local:/path or /path).";
   mkFlag "dst" (FString "") "Destination path (local path). Omit for seed-only mode.";
   mkFlag "transfer-idle-timeout" (FDuration (30 * Second)%Z)
     "Timeout for idle transfers before treating them as failed. Set to 0 to wait indefinitely.";
   mkFlag "seed-idle-timeout" (FDuration (0 * Minute)%Z)
     "Timeout before closing the HTTP server when no requests are received. Set to 0 to disable.";
   mkFlag "sync-interval" (FDuration (2000 * Millisecond)%Z)
     "Interval to synchronize available file chunks between peers."
  ].

(** * Usage *)

Record group := mkGroup { gr_title : string; gr_flags : list string }.

Definition groups : list group :=
  [
   mkGroup "Version/Logging/Statistics" ["version"; "verbose"; "statistics"; "help"];
   mkGroup "Wait/Exit" ["wait-host"; "wait-host-timeout"; "exit-complete"];
   mkGroup "Concurrency/Compression/Chunk/Verification/Command"
     ["peer-num-concurrent"; "local-num-concurrent"; "compress-type"; "chunk-size";
     "files-per-chunk"; "verify-on-complete"; "execute-on-complete";
     "execute-on-each-file-complete"; "command-timeout"];
   mkGroup "Networking" ["listen-addr"];
   mkGroup "Discovery"
     ["peer-list"; "peer-list-url"; "peer-list-srv"; "peer-list-a"; "peer-list-dns-server";
     "peer-list-poll-interval"; "peer-wait-timeout"];
   mkGroup "External Registry"
     ["peer-registry-heartbeat-url"; "peer-registry-self-endpoint";
     "peer-registry-heartbeat-interval"; "peer-registry-timeout"];
   mkGroup "Paths" ["src"; "dst"];
   mkGroup "Timeouts/Synchronization"
     ["transfer-idle-timeout"; "seed-idle-timeout"; "sync-interval"]
  ].

Definition newline : string := String "010" "".
Definition tab : string := String "009" "".

(** The line of a flag, if it is defined. *)
Definition usage_line (table : list Flag) (name : string) : string :=
  match flag_Lookup table name with
  | Some f =>
    if decide (DefValue f ≠ "")
    then "  -" +:+ fl_Name f +:+ tab +:+ fl_Usage f +:+ " (default " +:+ DefValue f +:+ ")" +:+ newline
    else "  -" +:+ fl_Name f +:+ tab +:+ fl_Usage f +:+ newline
  | None => ""
  end.

(** The groups, with an empty line between them. *)
Fixpoint usage_groups (table : list Flag) (gs : list group) : string :=
  match gs with
  | [] => ""
  | g :: gs =>
    gr_title g +:+ newline +:+ String.concat "" (usage_line table <$> gr_flags g) +:+
    match gs with [] => "" | _ => newline +:+ usage_groups table gs end
  end.

(** What [printGroupedUsage] writes to the standard error. *)
Definition printGroupedUsage (argv0 : string) : string :=
  "Usage: " +:+ argv0 +:+ " [options]" +:+ newline +:+ newline +:+ usage_groups flag_table groups.

(** * Values *)

Record flags := mkFlags {
  flagVersion : bool;
  flagVerbose : bool;
  flagStatistics : bool;
  flagShowHelp : bool;
  flagWaitHost : string;
  flagWaitHostTimeout : Duration;
  flagExitComplete : bool;
  flagPeerNumConcurrent : Z;
  flagLocalNumConcurrent : Z;
  flagCompressType : string;
  flagMaxFileCountPerChunk : Z;
  flagChunkSize : Z;
  flagVerifyOnComplete : bool;
  flagExecuteOnComplete : string;
  flagExecuteOnEachFileComplete : string;
  flagCommandTimeout : Duration;
  flagListenAddr : string;
  flagPeerList : string;
  flagPeerListURL : string;
  flagPeerListSRV : string;
  flagPeerListA : string;
  flagPeerListDNSServer : string;
  flagPeerListPollInterval : Duration;
  flagPeerWaitTimeout : Duration;
  flagPeerRegistryHeartbeatURL : string;
  flagPeerRegistrySelfEndpoint : string;
  flagPeerRegistryHeartbeatInterval : Duration;
  flagPeerRegistryTimeout : Duration;
  flagSrc : string;
  flagDst : string;
  flagTransferIdleTimeout : Duration;
  flagSeedIdleTimeout : Duration;
  flagAvailableListSyncInterval : Duration
}.

(** The values of the variables after [flag.Parse]. *)
Definition flags_of (vs : flag_values) : flags :=
  mkFlags
    (bool_flag vs "version") (bool_flag vs "verbose") (bool_flag vs "statistics")
    (bool_flag vs "help") (string_flag vs "wait-host") (duration_flag vs "wait-host-timeout")
    (bool_flag vs "exit-complete") (int_flag vs "peer-num-concurrent")
    (int_flag vs "local-num-concurrent") (string_flag vs "compress-type")
    (int_flag vs "files-per-chunk") (int_flag vs "chunk-size")
    (bool_flag vs "verify-on-complete") (string_flag vs "execute-on-complete")
    (string_flag vs "execute-on-each-file-complete") (duration_flag vs "command-timeout")
    (string_flag vs "listen-addr") (string_flag vs "peer-list") (string_flag vs "peer-list-url")
    (string_flag vs "peer-list-srv") (string_flag vs "peer-list-a")
    (string_flag vs "peer-list-dns-server") (duration_flag vs "peer-list-poll-interval")
    (duration_flag vs "peer-wait-timeout") (string_flag vs "peer-registry-heartbeat-url")
    (string_flag vs "peer-registry-self-endpoint")
    (duration_flag vs "peer-registry-heartbeat-interval")
    (duration_flag vs "peer-registry-timeout") (string_flag vs "src") (string_flag vs "dst")
    (duration_flag vs "transfer-idle-timeout") (duration_flag vs "seed-idle-timeout")
    (duration_flag vs "sync-interval").

(** The command line: the flags, or how [flag.Parse] ends the program. *)
Definition parse_args (args : list string) : parsed := flag_Parse (default_values flag_table) args.

Definition flags_from (args : list string) : option flags :=
  match parse_args args with Parsed vs => Some (flags_of vs) | _ => None end.
