(* ===== verification/Main.v ===== *)
(** The start of the program, src/src/main.go: the checks of [Init], the wait for another host,
    and where the download goes. *)
From S2P Require Import Prelude Bytes GoStrings Types Storage LocalStorage ChunkBuilder ChunkManager Statistics Http Peers Manifest Command Registry StorageFactory GoFlag Flags.

(** [MainContext] after [Init]; [None] is nil. *)
Record MainContext := mkMainContext {
  UUID : string;
  PeerListProvider : option Provider;
  PeerRegistry : option Registry;
  ChunkManager : ChunkManager;
  Completed : bool;
  ServeOnly : bool;
  Src : option string;
  Dst : option string;
  mainCommand : Command;
  mainStatistics : Statistics
}.

Section main.
Context {W : Type} `{OS W} `{HttpTransport W} `{Gozstd} `{ManifestCodec} `{SliceSort}.
Context (xxh3 : bytes → Z) (major minor : string) (url_Parse : string → result URL).
Context (LookupIP : string → string → io W (list string)).
Context (LookupSRV : string → string → io W (list (string * Z))).
Context (filepath_Abs : string → result string) (json_heartbeat : HeartbeatRequest → result bytes).

(** [uuid] is the new UUID; [polls] how often a peer's manifest can be asked for in time. *)
Definition Init (f : flags) (uuid : string) (polls : nat) : io W MainContext :=
  if negb (IsAvailableEncoding (Some (flagCompressType f))).1 then
    io_fail (fmt_Errorf "unsupported compress type (%s)" [AStr (flagCompressType f)])
  else if (flagChunkSize f <=? 0)%Z || (MaxChunkSize <? flagChunkSize f)%Z then
    io_fail (fmt_Errorf "invalid chunk size parameter (%d)" [AInt (flagChunkSize f)])
  else
    srcFactory ← io_lift (wrap_err "failed to create source factory: %s"
      (NewFactory filepath_Abs (flagSrc f)));
    src ← io_lift (wrap_err "failed to create source storage: %s" (Factory_Create srcFactory []));
    dstFactory ← io_lift (wrap_err "failed to create destination factory: %s"
      (NewFactory filepath_Abs (flagDst f)));
    dst ← io_lift (wrap_err "failed to create destination storage: %s"
      (Factory_Create dstFactory []));
    let ServeOnly := match src, dst with Some _, None => true | _, _ => false end in
    peerListFactory ← io_lift (Peers.NewFactory url_Parse (flagPeerList f) DefaultPort);
    provider ← Peers.Factory_Create url_Parse LookupIP LookupSRV peerListFactory
      [WithARecord (flagPeerListA f); WithSRVRecord (flagPeerListSRV f);
       WithURL (flagPeerListURL f); WithDNSServer (flagPeerListDNSServer f)];
    cm ← NewChunkManager xxh3 major minor url_Parse LookupIP LookupSRV (LocalStorage <$> src)
      provider polls (flagChunkSize f) (flagMaxFileCountPerChunk f);
    if (flagPeerNumConcurrent f <? 1)%Z || (MaxPeerNumConcurrent <? flagPeerNumConcurrent f)%Z then
      io_fail (fmt_Errorf "invalid concurrent download jobs parameter (%d)"
        [AInt (flagPeerNumConcurrent f)])
    else if (flagLocalNumConcurrent f <? 1)%Z || (MaxLocalNumConcurrent <? flagLocalNumConcurrent f)%Z
    then io_fail (fmt_Errorf "invalid concurrent download jobs parameter (%d)"
        [AInt (flagLocalNumConcurrent f)])
    else
      let command := mkCommand (flagExecuteOnComplete f) (flagExecuteOnEachFileComplete f) in
      registry ← (if decide (flagPeerRegistryHeartbeatURL f ≠ "") then
          pr ← io_lift (NewRegistry (flagPeerRegistryHeartbeatURL f)
            (flagPeerRegistrySelfEndpoint f) uuid (flagPeerRegistryHeartbeatInterval f)
            (flagPeerRegistryTimeout f));
          pr ← Registry_Start json_heartbeat pr;
          mret (Some pr)
        else mret None);
      mret (mkMainContext uuid provider registry cm ServeOnly ServeOnly src dst command
              (NewStatistics (flagStatistics f))).

(** The wait for [-wait-host]: [polls] requests fit into the timeout. *)
Fixpoint wait_for_host (polls : nat) (host : string) (timeout : Duration) : io W unit :=
  match polls with
  | O => io_fail (fmt_Errorf "wait timeout %v exceeded" [AInt timeout])
  | S polls =>
    r ← io_try (RequestBody ("http://" +:+ host +:+ "/completed") []);
    match r with
    | Ok _ => mret ()
    | Err _ => wait_for_host polls host timeout
    | Panic msg => io_panic msg
    end
  end.
End main.

(** Where the download goroutine downloads to: nowhere with [ServeOnly]; [SetupTransfer] calls
    a method of [Dst], nil or not. *)
Definition download_destination (c : MainContext) : result (option string) :=
  if ServeOnly c then Ok None
  else match Dst c with
       | Some dir => Ok (Some dir)
       | None => Panic "invalid memory address or nil pointer dereference"
       end.
