(* ===== verification/MainFacts.v ===== *)
(** What [Init] lets through. *)
From S2P Require Import Prelude Bytes GoStrings Types Storage LocalStorage ChunkBuilder ChunkManager Statistics Http Peers Manifest Command Registry StorageFactory GoFlag Flags Main.

Section init.
Context {W : Type} `{OS W} `{HttpTransport W} `{Gozstd} `{ManifestCodec} `{SliceSort}.
Context (xxh3 : bytes → Z) (major minor : string) (url_Parse : string → result URL).
Context (LookupIP : string → string → io W (list string)).
Context (LookupSRV : string → string → io W (list (string * Z))).
Context (filepath_Abs : string → result string) (json_heartbeat : HeartbeatRequest → result bytes).

(** A step that succeeded, taken off a chain of them. *)
Lemma post_bind_ok {A B} (m : io W A) (f : A → io W B) w (Q : result B → W → Prop) :
  (∀ a w', m w = (Ok a, w') → post (f a) w' Q) →
  (∀ r w', match r with Ok _ => False | _ => True end → Q r w') → post (m ≫= f) w Q.
Proof.
  intros Hf HQ. unfold post. rewrite io_bind_unfold. destruct (m w) as [[a|e|msg] w'] eqn:Hm; cbn.
  - by apply Hf.
  - by apply HQ.
  - by apply HQ.
Qed.

Lemma lift_wrap_ok {A} fm (r : result A) (w w' : W) a :
  io_lift (wrap_err fm r) w = (Ok a, w') → r = Ok a.
Proof. unfold io_lift. intros [= Hr _]. by apply wrap_err_ok in Hr. Qed.

(** C12: what [Init] lets through. A context it returns has an encoding the program knows, a
    chunk size from 1 to 128 MiB (so the splitter ends) and between 1 and 16 workers of each
    kind; source and destination are what the options name; the chunk manager was made from
    the source, or else from a peer, and there was one of them; the program only serves,
    with everything complete, exactly when it has a source and no destination. With neither
    of the two it still starts to download, and dereferences the nil destination. *)
Theorem Init_checked f uuid polls w :
  post (Init xxh3 major minor url_Parse LookupIP LookupSRV filepath_Abs json_heartbeat f uuid polls) w
    (λ r _, match r with
    | Ok c =>
        (flagCompressType f = "" ∨ flagCompressType f = EncodingTypeNone ∨
         flagCompressType f = EncodingTypeZstd) ∧
        (0 < flagChunkSize f ≤ MaxChunkSize)%Z ∧
        (1 ≤ flagPeerNumConcurrent f ≤ 16)%Z ∧ (1 ≤ flagLocalNumConcurrent f ≤ 16)%Z ∧
        storage_of filepath_Abs (flagSrc f) = Ok (Src c) ∧
        storage_of filepath_Abs (flagDst f) = Ok (Dst c) ∧
        (is_Some (Src c) ∨ is_Some (PeerListProvider c)) ∧
        (∃ w1 w2, NewChunkManager xxh3 major minor url_Parse LookupIP LookupSRV
          (LocalStorage <$> Src c) (PeerListProvider c) polls (flagChunkSize f)
          (flagMaxFileCountPerChunk f) w1 = (Ok (Main.ChunkManager c), w2)) ∧
        Completed c = ServeOnly c ∧
        (ServeOnly c = true ↔ is_Some (Src c) ∧ Dst c = None) ∧
        (is_panic (download_destination c) = true ↔ Src c = None ∧ Dst c = None)
    | _ => True
    end).
Proof.
  unfold Init.
  destruct (IsAvailableEncoding (Some (flagCompressType f))).1 eqn:Henc; cbn [negb]; [|done].
  destruct (_ || _) eqn:Hcs; [done|]. apply orb_false_iff in Hcs as [Hlo%Z.leb_gt Hhi%Z.ltb_ge].
  assert (flagCompressType f = "" ∨ flagCompressType f = EncodingTypeNone ∨
    flagCompressType f = EncodingTypeZstd) as Htype.
  { revert Henc. unfold IsAvailableEncoding. case_decide; [by left|]. cbn.
    rewrite bool_decide_eq_true. unfold EncodingPriorMap. intros [p Hp].
    apply lookup_insert_Some in Hp as [[<- _]|[_ Hp]]; [by auto|].
    apply lookup_insert_Some in Hp as [[<- _]|[_ Hp]]; [by auto|]. by rewrite lookup_empty in Hp. }
  apply post_bind_ok; [|by intros [] ? []]. intros srcFactory w1 Hsf.
  apply post_bind_ok; [|by intros [] ? []]. intros src w2 Hsrc.
  apply post_bind_ok; [|by intros [] ? []]. intros dstFactory w3 Hdf.
  apply post_bind_ok; [|by intros [] ? []]. intros dst w4 Hdst.
  apply post_bind_ok; [|by intros [] ? []]. intros peerListFactory w5 _.
  apply post_bind_ok; [|by intros [] ? []]. intros provider w6 _.
  apply post_bind_ok; [|by intros [] ? []]. intros cm w7 Hcm.
  destruct (_ || _) eqn:Hp; [done|]. apply orb_false_iff in Hp as [Hp1%Z.ltb_ge Hp2%Z.ltb_ge].
  destruct ((flagLocalNumConcurrent f <? 1)%Z || _) eqn:Hl; [done|].
  apply orb_false_iff in Hl as [Hl1%Z.ltb_ge Hl2%Z.ltb_ge].
  apply post_bind_ok; [|by intros [] ? []]. intros registry w8 _.
  unfold post. cbn [fst snd mret io_mret io_ret].
  apply lift_wrap_ok in Hsf, Hsrc, Hdf, Hdst.
  split_and!; try done.
  - unfold storage_of. by rewrite Hsf.
  - unfold storage_of. by rewrite Hdf.
  - cbn. destruct src; [by left; eexists|]. destruct provider; [by right; eexists|]. exfalso.
    cbn in Hcm. unfold NewChunkManager in Hcm. rewrite io_bind_unfold in Hcm. by cbn in Hcm.
  - by exists w6, w7.
  - cbn. destruct src, dst; naive_solver.
  - cbn. unfold download_destination. cbn. destruct src, dst; cbn; naive_solver.
Qed.
End init.
