(* ===== verification/TokenCodec.v ===== *)
(** A concrete text format for manifests, standing in for JSON in the examples: a list of
    escaped tokens, and for every type a writer and a reader that undoes it. *)
From S2P Require Import Prelude Bytes GoStrings Types Storage ChunkBuilder ChunkManager Statistics Availability Http HttpServer PeerDownloader Network Peers Manifest.
From Stdlib Require Import DecimalString.

(** * Tokens *)

Fixpoint join_tokens (l : list string) : string :=
  match l with [] => "" | t :: l => url_QueryEscape t +:+ String "," (join_tokens l) end.

Definition split_tokens (s : string) : list string :=
  omap url_QueryUnescape (removelast (strings_Split "," s)).

Lemma split_join l : split_tokens (join_tokens l) = l.
Proof.
  unfold split_tokens.
  assert (strings_Split "," (join_tokens l) = (url_QueryEscape <$> l) ++ [""]) as ->.
  { induction l as [|t l IH]; [done|]. cbn [join_tokens].
    rewrite strings_Split_app by (by apply QueryEscape_fresh). by rewrite IH. }
  rewrite removelast_last. induction l as [|t l IH]; [done|].
  cbn [fmap list_fmap omap list_omap]. by rewrite url_QueryUnescape_Escape, IH.
Qed.

(** * Writers and readers *)

Class Tokens (A : Type) := {
  put : A → list string;
  get : list string → option (A * list string);
  get_put a rest : get (put a ++ rest) = Some (a, rest)
}.

Definition parse_int (s : string) : option Z :=
  let nat_of s := Z.of_N ∘ N.of_uint <$> NilZero.uint_of_string s in
  match s with
  | String "-" s => Z.opp <$> nat_of s
  | s => nat_of s
  end.

Lemma parse_FormatInt n : parse_int (FormatInt n) = Some n.
Proof.
  assert (∀ n, (0 ≤ n)%Z → Z.of_N ∘ N.of_uint <$> NilZero.uint_of_string (FormatUint n) = Some n)
    as Hnat.
  { intros k Hk. destruct (uint_of_FormatUint k) as (d & -> & Hd). cbn. f_equal. rewrite Hd.
    by rewrite Z2N.id. }
  unfold FormatInt. destruct (Z.ltb_spec n 0).
  - cbn [parse_int]. rewrite Hnat by lia. cbn. f_equal. lia.
  - rewrite <- Hnat by done. unfold parse_int. destruct (FormatUint n) as [|c s] eqn:E; [done|].
    assert ("-"%char ≠ c) as Hc.
    { intros <-. apply (FormatUint_digits n "-"); [by left|]. rewrite E. apply list_elem_of_here. }
    by destruct c as [[] [] [] [] [] [] [] []].
Qed.

#[export] Instance tokens_string : Tokens string :=
  {| put s := [s]; get l := match l with [] => None | s :: l => Some (s, l) end;
     get_put a rest := eq_refl |}.

#[export] Instance tokens_Z : Tokens Z.
Proof.
  refine {| put z := [FormatInt z];
    get l := match l with [] => None | s :: l => z ← parse_int s; Some (z, l) end |}.
  intros z rest. cbn [app]. by rewrite parse_FormatInt.
Defined.

#[export] Instance tokens_pair {A B} `{Tokens A, Tokens B} : Tokens (A * B).
Proof.
  refine {| put '(a, b) := put a ++ put b;
    get l := '(a, l) ← get l; '(b, l) ← get l; Some ((a, b), l) |}.
  intros [a b] rest. rewrite <- (assoc_L (++)), get_put. cbn. by rewrite get_put.
Defined.

(** A list is its length and its elements. *)
Fixpoint get_many {A} `{Tokens A} (n : nat) (l : list string) : option (list A * list string) :=
  match n with
  | O => Some ([], l)
  | S n => '(a, l) ← get l; '(k, l) ← get_many n l; Some (a :: k, l)
  end.

#[export] Instance tokens_list {A} `{Tokens A} : Tokens (list A).
Proof.
  refine {| put k := put (Z.of_nat (length k)) ++ (k ≫= put);
    get l := '(n, l) ← get l; get_many (Z.to_nat n) l |}.
  intros k rest. rewrite <- (assoc_L (++)), get_put. cbn [mbind option_bind]. rewrite Nat2Z.id.
  induction k as [|a k IH]; [done|]. cbn [length get_many mbind list_bind].
  rewrite <- (assoc_L (++)), get_put. cbn [mbind option_bind].
  change (list_bind A string put k) with (k ≫= put). by rewrite IH.
Defined.

(** * The manifest *)

Definition file_tuple (f : FileEntry) : string * Z * Z :=
  (FileEntry_Name f, FileEntry_Size f, FileEntry_Perm f).
Definition tuple_file (t : string * Z * Z) : FileEntry :=
  let '(n, s, p) := t in mkFileEntry n s p 0.

Definition manifest_tuple (m : Manifest) :=
  (MajorVersion m, MinorVersion m, ChunkSize m, ChunkChecksum m, TransferChunkCount m,
   (λ e, (DirEntry_Name e, DirEntry_Perm e)) <$> Dirs m,
   (λ e, (SymlinkEntry_Name e, SymlinkEntry_SymlinkTo e)) <$> Symlinks m,
   (λ e, (EmptyFileEntry_Name e, EmptyFileEntry_Perm e)) <$> EmptyFiles m,
   file_tuple <$> Files m).
Definition tuple_manifest (t : string * string * Z * Z * Z * list (string * Z) *
    list (string * string) * list (string * Z) * list (string * Z * Z)) : Manifest :=
  let '(major, minor, cs, x, n, dirs, links, empty, files) := t in
  mkManifest major minor cs x n ((λ '(a, b), mkDirEntry a b) <$> dirs)
    ((λ '(a, b), mkSymlinkEntry a b) <$> links) ((λ '(a, b), mkEmptyFileEntry a b) <$> empty)
    (tuple_file <$> files).

Lemma fmap_id_compose {A B} (f : A → B) (g : B → A) (l : list A) :
  (∀ x, g (f x) = x) → g <$> (f <$> l) = l.
Proof.
  intros Hgf. induction l as [|x l IH]; [done|]. rewrite !fmap_cons. by rewrite Hgf, IH.
Qed.

Lemma tuple_manifest_tuple m :
  tuple_manifest (manifest_tuple m) = set_Files (FileEntry_Copy <$> Files m) m.
Proof.
  unfold tuple_manifest, manifest_tuple, set_Files.
  assert (tuple_file <$> (file_tuple <$> Files m) = FileEntry_Copy <$> Files m) as ->
    by (by rewrite <- list_fmap_compose).
  f_equal; by apply fmap_id_compose; intros [].
Qed.

Definition range_tuple (r : FileRange) : Z * Z * Z :=
  (Z.of_nat (FileIndex r), StartOffset r, EndOffset r).

Definition to_text {A} `{Tokens A} (a : A) : result bytes :=
  let b := string_bytes (join_tokens (put a)) in
  if (Z.of_nat (length b) <? 2 ^ 63)%Z then Ok b else Err (errors_New "too long").

Definition from_text {A} `{Tokens A} (b : bytes) : result A :=
  match get (split_tokens (bytes_string b)) with
  | Some (a, []) => Ok a
  | _ => Err (errors_New "invalid character")
  end.

Lemma from_to_text {A} `{Tokens A} (a : A) b :
  to_text a = Ok b → (Z.of_nat (length b) < 2 ^ 63)%Z ∧ from_text b = Ok a.
Proof.
  unfold to_text, from_text. destruct (Z.ltb_spec (Z.of_nat
    (length (string_bytes (join_tokens (put a))))) (2 ^ 63)); [|done].
  intros [= <-]. split; [done|]. rewrite bytes_string_bytes, split_join.
  rewrite <- (app_nil_r (put a)). by rewrite get_put.
Qed.

Lemma to_text_no_panic {A} `{Tokens A} (a : A) msg : to_text a ≠ Panic msg.
Proof. unfold to_text. by destruct (_ <? _)%Z. Qed.

#[export] Instance token_codec : ManifestCodec := {|
  json_manifest m := to_text (manifest_tuple m);
  json_unmanifest b := json_form ∘ tuple_manifest <$> from_text b;
  json_files l := to_text (file_tuple <$> l);
  json_chunks l := to_text ((λ c, range_tuple <$> FileRanges c) <$> l)
|}.

Lemma json_form_wire m : json_form (set_Files (FileEntry_Copy <$> Files m) m) = json_form m.
Proof.
  unfold json_form, set_Files. cbn [MajorVersion MinorVersion ChunkSize ChunkChecksum
    TransferChunkCount Dirs Symlinks EmptyFiles Files]. f_equal. by rewrite <- list_fmap_compose.
Qed.

#[export] Instance token_codec_laws : ManifestCodecLaws.
Proof.
  split; cbn.
  - intros m b [Hl Hb]%from_to_text. split; [done|]. rewrite Hb.
    change (Ok (json_form (tuple_manifest (manifest_tuple m))) = Ok (json_form m)).
    by rewrite tuple_manifest_tuple, json_form_wire.
  - intros l. by rewrite <- list_fmap_compose.
  - intros l l' Hll.
    assert (∀ k : list Chunk, (λ c, range_tuple <$> FileRanges c) <$> k =
      fmap range_tuple <$> (FileRanges <$> k)) as Hk by (intros k; by rewrite <- list_fmap_compose).
    apply (f_equal to_text).
    exact (eq_trans (Hk l) (eq_trans (f_equal (fmap (fmap range_tuple)) Hll) (eq_sym (Hk l')))).
  - intros m msg. apply to_text_no_panic.
  - intros b msg. unfold from_text. destruct (get _) as [[a [|]]|]; done.
  - intros l msg. apply to_text_no_panic.
  - intros l msg. apply to_text_no_panic.
Qed.
