(* ===== verification/Downloader.v ===== *)
(** The download loop of src/src/downloader.go as a machine with many threads: every
    downloader has a scheduler (the [for] loop of [execDownloader]) and its workers
    ([downloadWorker]), and they all share the chunk manager, the destination and the main
    context.

    A thread's program counter is a constructor of [sched] or [worker]; a step runs the
    code up to the next access to something another thread can touch, so any interleaving
    of the code is an interleaving of steps. *)
From S2P Require Import Prelude Bytes GoStrings Types Storage ChunkBuilder ChunkManager ChunkQueue Statistics Availability.

(** * State *)

(** What [execDownloader]'s scheduler does next. *)
Inductive sched :=
| SStart                  (* [GetChunkCount() == 0]? *)
| SZeroCancel | SZeroComplete
| SSpawn                  (* start the workers *)
| SValid | SCtx | SReady  (* the three checks at the top of the loop *)
| SPop                    (* [queue.Pop()] *)
| SStatus (i : nat)       (* [GetChunkStatus] *)
| SSwap (i : nat)         (* [UpdateChunkStatus] *)
| SSend (i : nat)         (* [chanRequest <- chunkIndex] *)
| SPush (i : nat)         (* [queue.PushBack] *)
| SCount (i : nat)        (* [CompleteOne]: [numCompleted.Add(1)] *)
| SCompare | SCancel | SComplete
| SStats                  (* [Statistics.AddDownloader] *)
| SClose                  (* [close(chanRequest)] *)
| SWait                   (* [wgWorker.Wait()] *)
| SExit.

#[export] Instance sched_eq_dec : EqDecision sched.
Proof. solve_decision. Defined.

(** What a worker does next. [t0] and [t1] are its two clock readings, [n] the length
    [WriteChunk] returned. *)
Inductive worker :=
| WAnnounce                                  (* [downloadWorkerReadyCount.Add(1)] *)
| WReceive                                   (* [<-chanRequest] *)
| WReceived (o : option nat)                 (* [downloadWorkerReadyCount.Add(-1)] *)
| WStartTime (i : nat)                       (* [t0 := time.Now()] *)
| WRequest (i : nat) (t0 : Time)             (* [RequestDownload] *)
| WWrite (i : nat) (t0 : Time) (checksum : Z) (rd0 : reader) (todo : list FileRange)
    (rd : reader) (n : Z)                    (* the loop of [WriteChunk] *)
| WSetChecksum (i : nat) (t0 : Time) (checksum n : Z)
| WEndTime (i : nat) (t0 : Time) (n : Z)     (* [t1 := time.Now()] *)
| WSetDone (i : nat) (t0 t1 : Time) (n : Z)  (* the two stores of [SetChunkStatusDone] *)
| WSetTime (i : nat) (t0 t1 : Time) (n : Z)
| WCount (i : nat) (t0 t1 : Time) (n : Z)    (* [CompleteOne] *)
| WCompare (t0 t1 : Time) (n : Z)
| WCancel (t0 t1 : Time) (n : Z)
| WComplete (t0 t1 : Time) (n : Z)
| WTouch (t0 t1 : Time) (n : Z)              (* [LastUpdatedAt.Store] *)
| WAddChunks (t0 t1 : Time) (n : Z)
| WAddBytes (t0 t1 : Time) (n : Z)
| WAddDuration (t0 t1 : Time)
| WSetPending (i : nat)                      (* the error branch *)
| WPushBack (i : nat)
| WSleep
| WExit.

(** One [execDownloader]. [ex_counted] is not in the code: it lists the chunks that
    [numCompleted] counts. *)
Record exec := mkExec {
  ex_downloader : Downloader;
  ex_sched : sched;
  ex_workers : list worker;
  numCompleted : Z;
  downloadWorkerReadyCount : Z;
  bytesReceivedTotal : Z;
  chunksReceivedTotal : Z;
  durationTotal : Duration;
  ex_counted : list nat
}.

(** The parts of [MainContext] the download uses. [mc_Dst] is the state of the world the
    destination lives in, [mc_ctx_done] is [DownloadCtx.Err() != nil], [mc_panicked] that
    some goroutine panicked, which ends the process. *)
Record main (W : Type) := mkMain {
  mc_ChunkManager : ChunkManager;
  mc_Dst : W;
  mc_ctx_done : bool;
  mc_Completed : bool;
  mc_LastUpdatedAt : Time;
  mc_ExitCode : Z;
  mc_Statistics : Statistics;
  mc_panicked : bool
}.
Arguments mkMain {W}.
Arguments mc_ChunkManager {W}.
Arguments mc_Dst {W}.
Arguments mc_ctx_done {W}.
Arguments mc_Completed {W}.
Arguments mc_LastUpdatedAt {W}.
Arguments mc_ExitCode {W}.
Arguments mc_Statistics {W}.
Arguments mc_panicked {W}.

(** All of [DownloadFiles]: the running downloaders, and the map of [PeerDownloaders] from
    hosts to them. *)
Record system (W : Type) := mkSystem
  { sy_main : main W; sy_execs : list exec; sy_downloaders : gmap string nat }.
Arguments mkSystem {W}.
Arguments sy_main {W}.
Arguments sy_execs {W}.
Arguments sy_downloaders {W}.

(** ** Field updates *)

Section updates.
Context {W : Type}.
Definition set_cm (cm : ChunkManager) (m : main W) : main W :=
  mkMain cm (mc_Dst m) (mc_ctx_done m) (mc_Completed m) (mc_LastUpdatedAt m) (mc_ExitCode m)
    (mc_Statistics m) (mc_panicked m).
Definition set_Dst (w : W) (m : main W) : main W :=
  mkMain (mc_ChunkManager m) w (mc_ctx_done m) (mc_Completed m) (mc_LastUpdatedAt m)
    (mc_ExitCode m) (mc_Statistics m) (mc_panicked m).
Definition DownloadCancel (m : main W) : main W :=
  mkMain (mc_ChunkManager m) (mc_Dst m) true (mc_Completed m) (mc_LastUpdatedAt m)
    (mc_ExitCode m) (mc_Statistics m) (mc_panicked m).
Definition set_Completed (m : main W) : main W :=
  mkMain (mc_ChunkManager m) (mc_Dst m) (mc_ctx_done m) true (mc_LastUpdatedAt m)
    (mc_ExitCode m) (mc_Statistics m) (mc_panicked m).
Definition set_LastUpdatedAt (t : Time) (m : main W) : main W :=
  mkMain (mc_ChunkManager m) (mc_Dst m) (mc_ctx_done m) (mc_Completed m) t
    (mc_ExitCode m) (mc_Statistics m) (mc_panicked m).
Definition set_ExitCode (c : Z) (m : main W) : main W :=
  mkMain (mc_ChunkManager m) (mc_Dst m) (mc_ctx_done m) (mc_Completed m) (mc_LastUpdatedAt m)
    c (mc_Statistics m) (mc_panicked m).
Definition set_Statistics (s : Statistics) (m : main W) : main W :=
  mkMain (mc_ChunkManager m) (mc_Dst m) (mc_ctx_done m) (mc_Completed m) (mc_LastUpdatedAt m)
    (mc_ExitCode m) s (mc_panicked m).
Definition set_panicked (m : main W) : main W :=
  mkMain (mc_ChunkManager m) (mc_Dst m) (mc_ctx_done m) (mc_Completed m) (mc_LastUpdatedAt m)
    (mc_ExitCode m) (mc_Statistics m) true.
End updates.

Definition set_downloader (d : Downloader) (ex : exec) : exec :=
  mkExec d (ex_sched ex) (ex_workers ex) (numCompleted ex) (downloadWorkerReadyCount ex)
    (bytesReceivedTotal ex) (chunksReceivedTotal ex) (durationTotal ex) (ex_counted ex).
Definition set_sched (p : sched) (ex : exec) : exec :=
  mkExec (ex_downloader ex) p (ex_workers ex) (numCompleted ex) (downloadWorkerReadyCount ex)
    (bytesReceivedTotal ex) (chunksReceivedTotal ex) (durationTotal ex) (ex_counted ex).
Definition set_workers (l : list worker) (ex : exec) : exec :=
  mkExec (ex_downloader ex) (ex_sched ex) l (numCompleted ex) (downloadWorkerReadyCount ex)
    (bytesReceivedTotal ex) (chunksReceivedTotal ex) (durationTotal ex) (ex_counted ex).
Definition set_worker (j : nat) (p : worker) (ex : exec) : exec :=
  set_workers (<[j := p]> (ex_workers ex)) ex.
Definition count_one (i : nat) (ex : exec) : exec :=
  mkExec (ex_downloader ex) (ex_sched ex) (ex_workers ex) (numCompleted ex +i64 1)%go
    (downloadWorkerReadyCount ex) (bytesReceivedTotal ex) (chunksReceivedTotal ex)
    (durationTotal ex) (i :: ex_counted ex).
Definition add_ready (n : Z) (ex : exec) : exec :=
  mkExec (ex_downloader ex) (ex_sched ex) (ex_workers ex) (numCompleted ex)
    (downloadWorkerReadyCount ex +i32 n)%go (bytesReceivedTotal ex) (chunksReceivedTotal ex)
    (durationTotal ex) (ex_counted ex).
Definition add_totals (b c d : Z) (ex : exec) : exec :=
  mkExec (ex_downloader ex) (ex_sched ex) (ex_workers ex) (numCompleted ex)
    (downloadWorkerReadyCount ex) (bytesReceivedTotal ex +i64 b)%go
    (chunksReceivedTotal ex +i64 c)%go (AtomicDuration_Add d (durationTotal ex)).2
    (ex_counted ex).
Definition push_back (i : nat) (ex : exec) : exec :=
  set_downloader (set_Queue (PushBack i (GetQueue (ex_downloader ex))) (ex_downloader ex)) ex.

Definition is_exit (p : worker) : bool := match p with WExit => true | _ => false end.

Definition newExec (d : Downloader) : exec := mkExec d SStart [] 0 0 0 0 0 [].

(** * Steps *)

(** What a step can be given: a clock reading, or the outcome of [RequestDownload]. *)
Inductive input := Now (t : Time) | Response (r : result (Z * reader)).

Section steps.
Context {W : Type} (dst : Storage W) (xxh3 : bytes → Z) (onFileComplete : string → Z → io W unit).
(** [*flagVerifyOnComplete] *)
Context (verifyOnComplete : bool).

(** The scheduler: the new state of the main context and of its downloader. [None]: it
    cannot move. [numConcurrent] is the number of workers it starts. *)
Definition sched_step (numConcurrent : nat) (m : main W) (ex : exec) :
    option (result (main W * exec)) :=
  let cm := mc_ChunkManager m in
  let goto p : option (result (main W * exec)) := Some (Ok (m, set_sched p ex)) in
  match ex_sched ex with
  | SStart => goto (if decide (GetChunkCount cm = 0) then SZeroCancel else SSpawn)
  | SZeroCancel => Some (Ok (DownloadCancel m, set_sched SZeroComplete ex))
  | SZeroComplete => Some (Ok (set_Completed m, set_sched SSpawn ex))
  | SSpawn =>
    Some (Ok (m, set_sched SValid (set_workers (replicate numConcurrent WAnnounce) ex)))
  | SValid => goto (if negb (IsValid (ex_downloader ex)) then SStats else SCtx)
  | SCtx => goto (if mc_ctx_done m then SStats else SReady)
  | SReady => goto (if (downloadWorkerReadyCount ex =? 0)%Z then SValid else SPop)
  | SPop =>
    let '((chunkIndex, ok), queue) := Pop (GetQueue (ex_downloader ex)) in
    Some (Ok (m, set_sched (if ok then SStatus chunkIndex else SValid)
      (set_downloader (set_Queue queue (ex_downloader ex)) ex)))
  | SStatus i => Some (
      status ← GetChunkStatus i cm;
      Ok (m, set_sched match status with
                       | ChunkStatusPending => SSwap i
                       | ChunkStatusDownloading => SPush i
                       | ChunkStatusDone => SCount i
                       end ex))
  | SSwap i => Some (
      '(swapped, cm) ← UpdateChunkStatus i ChunkStatusPending ChunkStatusDownloading cm;
      Ok (set_cm cm m, set_sched (if swapped : bool then SSend i else SPush i) ex))
  | SSend i => None
  | SPush i => Some (Ok (m, set_sched SValid (push_back i ex)))
  | SCount i => Some (Ok (m, set_sched SCompare (count_one i ex)))
  | SCompare =>
    goto (if (numCompleted ex =? Z.of_nat (GetChunkCount cm))%Z then SCancel else SValid)
  | SCancel => Some (Ok (DownloadCancel m, set_sched SComplete ex))
  | SComplete => Some (Ok (set_Completed m, set_sched SValid ex))
  | SStats => Some (Ok (set_Statistics
      (AddDownloader (Downloader_Name (ex_downloader ex)) (bytesReceivedTotal ex)
        (chunksReceivedTotal ex) (AtomicDuration_Load (durationTotal ex)) (mc_Statistics m)) m,
      set_sched SClose ex))
  | SClose => goto SWait
  | SWait => if forallb is_exit (ex_workers ex) then goto SExit else None
  | SExit => None
  end.

Definition chan_closed (p : sched) : bool :=
  match p with SWait | SExit => true | _ => false end.

(** A worker: the main context, the downloader without the worker's own new state, and
    that. The checksum is looked at when the ranges are written. *)
Definition worker_step (inp : input) (m : main W) (ex : exec) (p : worker) :
    option (result (main W * exec * worker)) :=
  let cm := mc_ChunkManager m in
  let goto p : option (result (main W * exec * worker)) := Some (Ok (m, ex, p)) in
  match p with
  | WAnnounce => Some (Ok (m, add_ready 1 ex, WReceive))
  | WReceive => if chan_closed (ex_sched ex) then goto (WReceived None) else None
  | WReceived o => Some (Ok (m, add_ready (-1) ex,
      match o with Some i => WStartTime i | None => WExit end))
  | WStartTime i =>
    match inp with Now t0 => goto (WRequest i t0) | _ => None end
  | WRequest i t0 =>
    match inp with
    | Response (Ok (checksum, rd)) => Some (
        c ← index_slice (chunks cm) i;
        Ok (m, ex, WWrite i t0 checksum rd (FileRanges c) rd 0))
    | Response (Err e) => goto (WSetPending i)
    | _ => None
    end
  | WWrite i t0 checksum rd0 (fileChunk :: todo) rd n =>
    let '(res, (cm, w)) := write_range dst onFileComplete fileChunk rd (cm, mc_Dst m) in
    let m := set_Dst w (set_cm cm m) in
    Some match res with
         | Ok (k, rd) => Ok (m, ex, WWrite i t0 checksum rd0 todo rd (n +i64 k)%go)
         | Err e => Ok (m, ex, WSetPending i)
         | Panic s => Panic s
         end
  | WWrite i t0 checksum rd0 [] rd n =>
    if negb (checksum =? 0)%Z && negb (xxh3 (consumed rd0 rd) =? checksum)%Z
    then goto (WSetPending i)
    else goto (if verifyOnComplete then WSetChecksum i t0 checksum n else WEndTime i t0 n)
  | WSetChecksum i t0 checksum n => Some (
      cm ← SetChunkChecksum i checksum cm;
      Ok (set_cm cm m, ex, WEndTime i t0 n))
  | WEndTime i t0 n =>
    match inp with Now t1 => goto (WSetDone i t0 t1 n) | _ => None end
  | WSetDone i t0 t1 n => Some (
      cm ← SetChunkStatusDone_status i cm;
      Ok (set_cm cm m, ex, WSetTime i t0 t1 n))
  | WSetTime i t0 t1 n => Some (
      cm ← SetChunkStatusDone_time i t1 cm;
      Ok (set_cm cm m, ex, WCount i t0 t1 n))
  | WCount i t0 t1 n => Some (Ok (m, count_one i ex, WCompare t0 t1 n))
  | WCompare t0 t1 n =>
    goto (if (numCompleted ex =? Z.of_nat (GetChunkCount cm))%Z
          then WCancel t0 t1 n else WTouch t0 t1 n)
  | WCancel t0 t1 n => Some (Ok (DownloadCancel m, ex, WComplete t0 t1 n))
  | WComplete t0 t1 n => Some (Ok (set_Completed m, ex, WTouch t0 t1 n))
  | WTouch t0 t1 n => Some (Ok (set_LastUpdatedAt t1 m, ex, WAddChunks t0 t1 n))
  | WAddChunks t0 t1 n => Some (Ok (m, add_totals 0 1 0 ex, WAddBytes t0 t1 n))
  | WAddBytes t0 t1 n => Some (Ok (m, add_totals n 0 0 ex, WAddDuration t0 t1))
  | WAddDuration t0 t1 => Some (Ok (m, add_totals 0 0 (t1 -i64 t0)%go ex, WAnnounce))
  | WSetPending i => Some (
      cm ← SetChunkStatusPending i cm;
      Ok (set_cm cm m, ex, WPushBack i))
  | WPushBack i => Some (Ok (m, push_back i ex, WSleep))
  | WSleep => goto WAnnounce
  | WExit => None
  end.

(** * Events

    What can happen next, with everything that is not determined by the state. *)
Inductive event :=
| EvSched (k : nat)                                  (* the scheduler of downloader [k] *)
| EvWorker (k j : nat) (inp : input)                 (* its worker [j] *)
| EvSend (k j : nat)                                 (* the channel, from one to the other *)
| EvAvailable (k : nat) (choice : nat → nat) (al : AvailableList)  (* [UpdatePeerAvailableList] *)
| EvSelf (k : nat)                                   (* [setIsSelf] finds its own UUID *)
| EvComplete (k : nat)                               (* the list is complete: [cancelUpdate] *)
| EvBadChecksum (k : nat)                            (* [verifyChecksum] finds another one *)
| EvAdd (uuid host : string)                         (* [PeerDownloaders.Add] *)
| EvRemove (host : string)                           (* [PeerDownloaders.Remove] *)
| EvIdle (now : Time)                                (* the idle timer ticks *)
| EvCancel.                                          (* a signal *)

(** The rest of the options: workers per peer, workers for the local source, and
    [*flagTransferIdleTimeout]. *)
Context (peerNumConcurrent localNumConcurrent : nat) (transferIdleTimeout : Duration).

Definition num_concurrent (d : Downloader) : nat :=
  match d with DPeer _ => peerNumConcurrent | DLocal _ => localNumConcurrent end.

Definition with_exec (k : nat) (s : system W)
    (f : main W → exec → option (result (main W * exec))) : option (system W) :=
  ex ← sy_execs s !! k;
  r ← f (sy_main s) ex;
  Some match r with
       | Ok (m, ex) => mkSystem m (<[k := ex]> (sy_execs s)) (sy_downloaders s)
       | _ => mkSystem (set_panicked (sy_main s)) (sy_execs s) (sy_downloaders s)
       end.

(** A step of the update goroutine of a peer downloader, while it runs. *)
Definition with_peer (k : nat) (s : system W)
    (f : main W → PeerDownloader → result (main W * PeerDownloader)) : option (system W) :=
  with_exec k s (λ m ex,
    match ex_downloader ex with
    | DPeer d =>
      if updating d then Some (
        '(m, d) ← f m d;
        Ok (m, set_downloader (DPeer d) ex))
      else None
    | DLocal _ => None
    end).

Definition PeerDownloaders_Add (uuid host : string) (s : system W) : system W :=
  match sy_downloaders s !! host with
  | Some _ => s
  | None =>
    let downloader := NewPeerDownloader (mc_ChunkManager (sy_main s)) uuid host in
    mkSystem (sy_main s) (sy_execs s ++ [newExec (DPeer downloader)])
      (<[host := length (sy_execs s)]> (sy_downloaders s))
  end.

Definition PeerDownloaders_Remove (host : string) (s : system W) : system W :=
  match sy_downloaders s !! host with
  | None => s
  | Some k =>
    mkSystem (sy_main s)
      match sy_execs s !! k with
      | Some ex => <[k := set_downloader (Fin (ex_downloader ex)) ex]> (sy_execs s)
      | None => sy_execs s
      end
      (delete host (sy_downloaders s))
  end.

Definition run_event (e : event) (s : system W) : option (system W) :=
  if mc_panicked (sy_main s) then None else
  match e with
  | EvSched k =>
    with_exec k s (λ m ex, sched_step (num_concurrent (ex_downloader ex)) m ex)
  | EvWorker k j inp =>
    with_exec k s (λ m ex,
      p ← ex_workers ex !! j;
      r ← worker_step inp m ex p;
      Some ('(m, ex, p) ← r; Ok (m, set_worker j p ex)))
  | EvSend k j =>
    with_exec k s (λ m ex,
      p ← ex_workers ex !! j;
      match ex_sched ex, p with
      | SSend i, WReceive =>
        Some (Ok (m, set_worker j (WReceived (Some i)) (set_sched SValid ex)))
      | _, _ => None
      end)
  | EvAvailable k choice al =>
    with_peer k s (λ m d,
      d ← receiveAvailableList choice (mc_ChunkManager m) al d; Ok (m, d))
  | EvSelf k => with_peer k s (λ m d, Ok (m, cancelUpdate (set_IsSelf true d)))
  | EvComplete k =>
    with_peer k s (λ m d,
      Ok (m, if (AvailableChunkCount d =? Z.of_nat (GetChunkCount (mc_ChunkManager m)))%Z
             then cancelUpdate d else d))
  | EvBadChecksum k =>
    with_peer k s (λ m d, Ok (DownloadCancel (set_ExitCode 1 m), cancelUpdate d))
  | EvAdd uuid host => Some (PeerDownloaders_Add uuid host s)
  | EvRemove host => Some (PeerDownloaders_Remove host s)
  | EvIdle now =>
    if mc_ctx_done (sy_main s) || (transferIdleTimeout <=? 0)%Z then None
    else Some (mkSystem
      (if (transferIdleTimeout <=? now - mc_LastUpdatedAt (sy_main s))%Z
       then DownloadCancel (set_ExitCode 1 (sy_main s)) else sy_main s)
      (sy_execs s) (sy_downloaders s))
  | EvCancel => Some (mkSystem (DownloadCancel (sy_main s)) (sy_execs s) (sy_downloaders s))
  end.

Fixpoint run_events (l : list event) (s : system W) : option (system W) :=
  match l with
  | [] => Some s
  | e :: l => s ← run_event e s; run_events l s
  end.

(** The start of [DownloadFiles], after [SetupTransfer]: a fresh main context, and the
    local downloader when there is a source. *)
Definition init_system (cm : ChunkManager) (w : W) (now : Time) (stat : Statistics)
    (src : option (nat → nat)) : system W :=
  mkSystem (mkMain cm w false false now 0 stat false)
    match src with
    | Some choice => [newExec (DLocal (NewLocalDownloader choice cm))]
    | None => []
    end ∅.
End steps.
