(* ===== verification/PeerUpdates.v ===== *)
(** The update goroutine of a peer downloader inside the download machine: a round of it is a
    sequence of the machine's events. *)
From S2P Require Import Prelude Bytes GoStrings Types Storage ChunkManager ChunkQueue Statistics Availability Http HttpServer PeerDownloader Downloader.

(** What the goroutine of downloader [k] can do to the machine. *)
Definition peer_event (k : nat) (e : event) : Prop :=
  match e with
  | EvAvailable k' _ _ | EvSelf k' | EvComplete k' | EvBadChecksum k' => k' = k
  | _ => False
  end.

Section updates.
Context {W : Type} (dst : Storage W) (xxh3 : bytes → Z) (onFileComplete : string → Z → io W unit).
Context (verifyOnComplete : bool) (peerNumConcurrent localNumConcurrent : nat).
Context (transferIdleTimeout : Duration).
Context {V : Type} `{HttpTransportLaws V} `{Gozstd} `{ListCodecLaws} (compressType : string).

Local Abbreviation run_event := (run_event dst xxh3 onFileComplete verifyOnComplete
  peerNumConcurrent localNumConcurrent transferIdleTimeout).
Local Abbreviation run_events := (run_events dst xxh3 onFileComplete verifyOnComplete
  peerNumConcurrent localNumConcurrent transferIdleTimeout).

(** The machine after a round that left the goroutine with [u]. *)
Definition after_round (k : nat) (ex : exec) (s : system W) (u : update_state) : system W :=
  mkSystem
    (if us_failed u then DownloadCancel (set_ExitCode 1 (sy_main s)) else sy_main s)
    (<[k := set_downloader (DPeer (us_downloader u)) ex]> (sy_execs s)) (sy_downloaders s).

(** The goroutine [u] of downloader [k], in a machine that has not panicked. *)
Record round_ok (k : nat) (ex : exec) (s : system W) (u : update_state) : Prop := {
  ro_exec : sy_execs s !! k = Some ex;
  ro_peer : ex_downloader ex = DPeer (us_downloader u);
  ro_updating : updating (us_downloader u) = true;
  ro_self : IsSelf (us_downloader u) = false;
  ro_failed : us_failed u = false;
  ro_panicked : mc_panicked (sy_main s) = false
}.

(** A round ends in a state the events lead to, or with the panic of a bad index. *)
Definition round_post (k : nat) (ex : exec) (s : system W) (r : result update_state) : Prop :=
  ∃ evs, Forall (peer_event k) evs ∧
    match r with
    | Ok u' => run_events evs s = Some (after_round k ex s u')
    | Err _ => False
    | Panic _ => ∃ s', run_events evs s = Some s' ∧ mc_panicked (sy_main s') = true
    end.

Lemma after_round_same k ex s u : round_ok k ex s u → after_round k ex s u = s.
Proof.
  intros [Hex Hd _ _ Hf _]. unfold after_round. rewrite Hf, list_insert_id; [by destruct s|].
  rewrite Hex. f_equal. unfold set_downloader. rewrite <- Hd. by destruct ex.
Qed.

Lemma round_nothing k ex s u u' :
  round_ok k ex s u → us_downloader u' = us_downloader u → us_failed u' = us_failed u →
  round_post k ex s (Ok u').
Proof.
  intros Hok Hd Hf. exists []. split; [done|]. simpl. f_equal. symmetry.
  rewrite <- (after_round_same _ _ _ _ Hok) at 2. unfold after_round. by rewrite Hd, Hf.
Qed.

(** One event of the goroutine. *)
Lemma run_peer_event k ex s u f :
  round_ok k ex s u →
  with_peer (W := W) k s f =
    Some match f (sy_main s) (us_downloader u) with
         | Ok (m, d) => mkSystem m (<[k := set_downloader (DPeer d) ex]> (sy_execs s))
                          (sy_downloaders s)
         | _ => mkSystem (set_panicked (sy_main s)) (sy_execs s) (sy_downloaders s)
         end.
Proof.
  intros [Hex Hd Hu _ _ _]. unfold with_peer, with_exec. rewrite Hex. simpl. rewrite Hd, Hu.
  simpl. by destruct (f _ _) as [[m d]|?|?].
Qed.

Lemma round_one k ex s u e f u' :
  round_ok k ex s u → peer_event k e → run_event e s = with_peer k s f →
  f (sy_main s) (us_downloader u) =
    Ok (if us_failed u' then DownloadCancel (set_ExitCode 1 (sy_main s)) else sy_main s,
        us_downloader u') →
  round_post k ex s (Ok u').
Proof.
  intros Hok He Hrun Hf. exists [e]. split; [by constructor|]. cbn [Downloader.run_events].
  rewrite Hrun, (run_peer_event _ _ _ _ _ Hok), Hf. done.
Qed.

(** ** The three requests *)

Lemma UpdatePeerAvailableList_result choice cm d w :
  post (UpdatePeerAvailableList (W := V) compressType choice cm d) w (λ r _,
    (∃ e, r = Err e) ∨ ∃ al, r = receiveAvailableList choice cm al d).
Proof.
  unfold UpdatePeerAvailableList. apply post_bind. eapply post_mono; [apply RequestBody_spec|].
  intros [content|e|msg] w1 [_ Hp]; [|by eauto|by destruct (Hp msg)].
  apply post_bind. unfold post at 1, io_lift. cbn [fst snd].
  destruct (json_Unmarshal content) as [al|e|msg] eqn:Hj; [|by eauto|by apply json_no_panic in Hj].
  unfold post, io_lift. cbn [fst]. eauto.
Qed.

Lemma setIsSelf_result d w :
  post (setIsSelf (W := V) d) w (λ r _, (∃ e, r = Err e) ∨ ∃ b, r = Ok (set_IsSelf b d)).
Proof.
  unfold setIsSelf. apply post_bind. eapply post_mono; [apply RequestBody_spec|].
  intros [content|e|msg] w1 [_ Hp]; [|by eauto|by destruct (Hp msg)]. apply post_ret. eauto.
Qed.

Lemma ParseUint_no_panic s msg : ParseUint s ≠ Panic msg.
Proof. unfold ParseUint. by repeat case_match. Qed.

Lemma verifyChecksum_result cm d w :
  post (verifyChecksum (W := V) cm d) w (λ r _, (∃ e, r = Err e) ∨ ∃ b, r = Ok b).
Proof.
  unfold verifyChecksum. apply post_bind. eapply post_mono; [apply RequestBody_spec|].
  intros [content|e|msg] w1 [_ Hp]; [|by eauto|by destruct (Hp msg)].
  apply post_bind. unfold post at 1, io_lift. cbn [fst snd].
  destruct (ParseUint (bytes_string content)) as [x|e|msg] eqn:Hx;
    [|by eauto|by apply ParseUint_no_panic in Hx]. apply post_ret. eauto.
Qed.

Lemma or_return_post {A} u (m : io V A) k w (Q : result update_state → V → Prop) :
  post m w (λ r w', match r with
    | Ok a => post (k a) w' Q | Err _ => Q (Ok u) w' | Panic s => Q (Panic s) w' end) →
  post (or_return u m k) w Q.
Proof.
  unfold post, or_return. rewrite io_bind_unfold. unfold io_try.
  by destruct (m w) as [[a|e|s] w1].
Qed.

Lemma receiveAvailableList_frame choice cm al d d' :
  receiveAvailableList choice cm al d = Ok d' →
  updating d' = updating d ∧ IsSelf d' = IsSelf d.
Proof.
  unfold receiveAvailableList. intros ([l d1] & Hm & [= <-])%bind_ok.
  apply mark_chunks_spec in Hm as (new & _ & _ & _ & _ & _ & _ & Hs & Hu & _). done.
Qed.

(** ** A round *)

Lemma update_list_round k ex s u choice w :
  round_ok k ex s u →
  post (update_list compressType choice (mc_ChunkManager (sy_main s)) u) w
    (λ r _, round_post k ex s r).
Proof.
  intros Hok. unfold update_list. apply or_return_post.
  eapply post_mono; [apply UpdatePeerAvailableList_result|].
  intros r w1 [[e ->]|[al Hr]]; [by eapply round_nothing|].
  set (cm := mc_ChunkManager (sy_main s)) in *.
  assert (run_event (EvAvailable k choice al) s = with_peer k s (λ m d,
    d ← receiveAvailableList choice (mc_ChunkManager m) al d; Ok (m, d))) as Hev.
  { unfold Downloader.run_event. by rewrite (ro_panicked _ _ _ _ Hok). }
  rewrite (run_peer_event _ _ _ _ _ Hok) in Hev. fold cm in Hev. rewrite <- Hr in Hev.
  destruct r as [d'|e|msg].
  - apply post_ret. symmetry in Hr. apply receiveAvailableList_frame in Hr as [Hu' Hs'].
    cbn in Hev. set (s1 := mkSystem _ _ _) in Hev. set (ex1 := set_downloader (DPeer d') ex) in *.
    destruct Hok as [Hex Hd Hu Hs Hf Hp].
    assert (round_ok k ex1 s1 (mkUpdateState false false d' false)) as Hok1.
    { constructor; try done; [|by cbn; rewrite Hu'|by cbn; rewrite Hs'].
      apply list_lookup_insert_eq. by eapply lookup_lt_Some. }
    exists [EvAvailable k choice al; EvComplete k]. split; [by repeat constructor|].
    cbn [Downloader.run_events]. rewrite Hev. cbn [mbind option_bind].
    unfold Downloader.run_event at 1. change (mc_panicked (sy_main s1)) with (mc_panicked (sy_main s)).
    rewrite Hp, (run_peer_event _ _ _ _ _ Hok1). cbn. unfold after_round. cbn. rewrite Hf.
    by rewrite list_insert_insert_eq.
  - by eapply round_nothing.
  - exists [EvAvailable k choice al]. split; [by repeat constructor|].
    eexists. cbn [Downloader.run_events]. rewrite Hev. done.
Qed.

Lemma update_valid_round k ex s u choice w :
  round_ok k ex s u →
  post (update_valid compressType choice (mc_ChunkManager (sy_main s)) u) w
    (λ r _, round_post k ex s r).
Proof.
  intros Hok. unfold update_valid. destruct (us_isValidInit u); [by apply update_list_round|].
  apply or_return_post. eapply post_mono; [apply verifyChecksum_result|].
  intros r w1 [[e ->]|[[] ->]]; cbn [negb].
  - by eapply round_nothing.
  - apply update_list_round. by destruct Hok.
  - apply post_ret. eapply (round_one k ex s u (EvBadChecksum k)); [done|done| |].
    + unfold Downloader.run_event. by rewrite (ro_panicked _ _ _ _ Hok).
    + done.
Qed.

Lemma set_IsSelf_id d : IsSelf d = false → set_IsSelf false d = d.
Proof. destruct d. cbn. by intros ->. Qed.

(** C19: the download machine covers the update goroutine: from any state in which the
    goroutine of downloader [k] runs, one round of it, with any responses and any failures of
    the network, changes the main context and the downloader exactly as some sequence of the
    machine's events for [k] does; and if a round panics (an index outside the manifest from
    the peer), so does the machine. So what is proved of all runs of the machine holds with
    the real update loop in it. *)
Theorem update_round_refines k ex s u choice w :
  round_ok k ex s u →
  post (update_round compressType choice (mc_ChunkManager (sy_main s)) u) w
    (λ r _, round_post k ex s r).
Proof.
  intros Hok. unfold update_round. destruct (us_isSelfInit u); [by apply update_valid_round|].
  apply or_return_post. eapply post_mono; [apply setIsSelf_result|].
  intros r w1 [[e ->]|[[] ->]]; cbn [IsSelf set_IsSelf]; [by eapply round_nothing| |].
  - apply post_ret. eapply (round_one k ex s u (EvSelf k)); [done|done| |].
    + unfold Downloader.run_event. by rewrite (ro_panicked _ _ _ _ Hok).
    + cbn. by rewrite (ro_failed _ _ _ _ Hok).
  - rewrite set_IsSelf_id by apply Hok. apply update_valid_round. by destruct Hok.
Qed.
End updates.
