(* ===== verification/Controller.v ===== *)
(** The peer controller of src/src/peers/controller.go: it polls the provider and tells the
    download which peers came and which went. *)
From S2P Require Import Prelude Bytes GoStrings Types Storage ChunkManager ChunkQueue Statistics Availability Downloader.

(** * The controller *)

Inductive call := PeerAdded (host : string) | PeerRemoved (host : string).

(** [reconcile]: the callbacks it starts, each in a goroutine of its own that it waits for,
    so in any order, and the map [c.peers] afterwards. *)
Definition reconcile (desired : list string) (peers : gset string) : list call * gset string :=
  let want : gset string := list_to_set desired in
  let added := filter (λ host, host ∉ peers) (elements want) in
  let peers := peers ∪ list_to_set added in
  let toStop := filter (λ host, host ∉ want) (elements peers) in
  ((PeerAdded <$> added) ++ (PeerRemoved <$> toStop), peers ∖ list_to_set toStop).

Definition stopAll (peers : gset string) : list call * gset string := reconcile [] peers.

(** What happens at one turn of the loop of [Run]: a list of peers, a failed poll, or the
    end, when the context is done. *)
Inductive turn := Polled (l : list string) | PollFailed | Stopped.

Definition controller_turn (t : turn) (peers : gset string) : list call * gset string :=
  match t with
  | Polled l => reconcile l peers
  | PollFailed => ([], peers)
  | Stopped => stopAll peers
  end.

Lemma reconcile_spec desired peers :
  let '(calls, peers') := reconcile desired peers in
  peers' = list_to_set desired ∧
  (∀ h, PeerAdded h ∈ calls ↔ h ∈ desired ∧ h ∉ peers) ∧
  (∀ h, PeerRemoved h ∈ calls ↔ h ∈ peers ∧ h ∉ desired) ∧ NoDup calls.
Proof.
  cbn. set (added := filter _ (elements (list_to_set desired))).
  set (toStop := filter _ _).
  assert (∀ h, h ∈ added ↔ h ∈ desired ∧ h ∉ peers) as Hadded
    by (intros h; unfold added; rewrite list_elem_of_filter, elem_of_elements; set_solver).
  assert (∀ h, h ∈ toStop ↔ h ∈ peers ∧ h ∉ desired) as Hstop.
  { intros h. unfold toStop. rewrite list_elem_of_filter, elem_of_elements. set_solver. }
  split_and!.
  - apply set_eq. intros h. rewrite elem_of_difference, elem_of_union, !elem_of_list_to_set.
    rewrite Hstop, Hadded. destruct (decide (h ∈ desired)), (decide (h ∈ peers)); naive_solver.
  - intros h. rewrite elem_of_app, !list_elem_of_fmap. rewrite <- Hadded. naive_solver.
  - intros h. rewrite elem_of_app, !list_elem_of_fmap. rewrite <- Hstop. naive_solver.
  - apply NoDup_app. split_and!.
    + apply NoDup_fmap_2; [by intros ?? [=]|]. apply NoDup_filter, NoDup_elements.
    + intros c (h & -> & _)%list_elem_of_fmap (h' & ? & _)%list_elem_of_fmap. done.
    + apply NoDup_fmap_2; [by intros ?? [=]|]. apply NoDup_filter, NoDup_elements.
Qed.

(** * The controller and the download machine *)

(** A peer downloader keeps its host, and once invalid or without its update goroutine it
    stays so. *)
Definition same_peer (d d' : Downloader) : Prop :=
  match d, d' with
  | DPeer d, DPeer d' => pd_Host d' = pd_Host d ∧ (IsSelf d = true → IsSelf d' = true) ∧
      (updating d = false → updating d' = false)
  | DLocal _, DLocal _ => True
  | _, _ => False
  end.

Lemma same_peer_refl d : same_peer d d.
Proof. by destruct d. Qed.
Lemma same_peer_set_Queue q d : same_peer d (set_Queue q d).
Proof. by destruct d. Qed.
#[local] Hint Resolve same_peer_refl same_peer_set_Queue : core.

Definition same_source (ex ex' : exec) : Prop := same_peer (ex_downloader ex) (ex_downloader ex').

Lemma same_sources_refl l : Forall2 same_source l l.
Proof.
  apply Forall2_same_length_lookup_2; [done|]. intros i ex ex' ??. simplify_eq.
  apply same_peer_refl.
Qed.
Lemma same_source_insert l k ex ex' :
  l !! k = Some ex → same_source ex ex' → Forall2 same_source l (<[k := ex']> l).
Proof.
  intros Hk Hs. rewrite <- (list_insert_id l k ex Hk) at 1.
  apply Forall2_insert; [apply same_sources_refl|done].
Qed.
#[local] Hint Resolve same_sources_refl : core.

Section machine.
Context {W : Type} (dst : Storage W) (xxh3 : bytes → Z) (onFileComplete : string → Z → io W unit).
Context (verifyOnComplete : bool) (peerNumConcurrent localNumConcurrent : nat).
Context (transferIdleTimeout : Duration) (uuid : string).

Local Abbreviation run_event := (run_event dst xxh3 onFileComplete verifyOnComplete
  peerNumConcurrent localNumConcurrent transferIdleTimeout).
Local Abbreviation run_events := (run_events dst xxh3 onFileComplete verifyOnComplete
  peerNumConcurrent localNumConcurrent transferIdleTimeout).

Lemma sched_step_peer n (m : main W) ex m' ex' :
  sched_step n m ex = Some (Ok (m', ex')) → same_peer (ex_downloader ex) (ex_downloader ex').
Proof.
  unfold sched_step. destruct (ex_sched ex); try discriminate;
    try (intros [= <- <-]; cbn; by auto).
  - destruct (Pop _) as [[i ok] q]. intros [= <- <-]. cbn. auto.
  - destruct (GetChunkStatus _ _); [|discriminate..]. intros [= <- <-]. auto.
  - destruct (UpdateChunkStatus _ _ _ _) as [[sw cm]|?|?]; [|discriminate..].
    intros [= <- <-]. auto.
  - destruct (forallb is_exit _); [|discriminate]. intros [= <- <-]. auto.
Qed.

Lemma worker_step_peer inp (m : main W) ex p m' ex' p' :
  worker_step dst xxh3 onFileComplete verifyOnComplete inp m ex p = Some (Ok (m', ex', p')) →
  same_peer (ex_downloader ex) (ex_downloader ex').
Proof.
  destruct p; cbn [worker_step]; intros Hs;
    repeat match type of Hs with
    | (match ?x with _ => _ end) = _ => destruct x
    | (let '(_, _) := ?x in _) = _ => destruct x
    | Some (?m ≫= _) = _ => destruct m; cbn [mbind result_bind] in Hs
    end; simplify_eq; cbn; try (by auto).
  destruct r as [[??]|?|?]; by simplify_eq.
Qed.

(** What the machine does to one downloader, whatever the event. *)
Lemma with_exec_peer k s f s' :
  (∀ m ex m' ex', f m ex = Some (Ok (m', ex')) → same_peer (ex_downloader ex) (ex_downloader ex')) →
  with_exec (W := W) k s f = Some s' →
  sy_downloaders s' = sy_downloaders s ∧
  Forall2 same_source (sy_execs s) (sy_execs s').
Proof.
  intros Hf. unfold with_exec. destruct (sy_execs s !! k) as [ex|] eqn:Hk; [|done]. cbn.
  destruct (f (sy_main s) ex) as [[[m ex1]|e|msg]|] eqn:Hr; cbn; [| | |done]; intros [= <-]; cbn;
    (split; [done|]); [|by apply same_sources_refl..].
  eapply same_source_insert; [done|]. by eapply Hf.
Qed.

Lemma with_peer_peer k s f s' :
  (∀ m d m' d', f m d = Ok (m', d') → same_peer (DPeer d) (DPeer d')) →
  with_peer (W := W) k s f = Some s' →
  sy_downloaders s' = sy_downloaders s ∧
  Forall2 same_source (sy_execs s) (sy_execs s').
Proof.
  intros Hf. apply with_exec_peer. intros m ex m' ex'.
  destruct (ex_downloader ex) as [d|d] eqn:Hd; [|done]. destruct (updating d); [|done].
  destruct (f m d) as [[m1 d1]|?|?] eqn:Hr; [|done..]. intros [= <- <-]. by apply Hf in Hr.
Qed.

(** The callback an event is, if it is one. *)
Definition event_call (e : event) : option call :=
  match e with
  | EvAdd _ host => Some (PeerAdded host)
  | EvRemove host => Some (PeerRemoved host)
  | _ => None
  end.

Lemma receive_same_peer choice cm al d d' :
  receiveAvailableList choice cm al d = Ok d' → same_peer (DPeer d) (DPeer d').
Proof.
  unfold receiveAvailableList. intros ([l d1] & Hm & [= <-])%bind_ok.
  apply mark_chunks_spec in Hm as (new & _ & _ & _ & _ & Hh & _ & Hs & Hu & _). cbn in *.
  split_and!; congruence.
Qed.

(** The events that are not callbacks leave the map alone. *)
Lemma run_event_other e s s' :
  event_call e = None → run_event e s = Some s' →
  sy_downloaders s' = sy_downloaders s ∧
  Forall2 same_source (sy_execs s) (sy_execs s').
Proof.
  intros He. unfold Downloader.run_event. destruct (mc_panicked (sy_main s)); [done|].
  destruct e; try discriminate He.
  - apply with_exec_peer. intros m ex m' ex'. apply sched_step_peer.
  - apply with_exec_peer. intros m ex m' ex'.
    destruct (ex_workers ex !! j) as [p|]; [|done]. cbn [mbind option_bind].
    destruct (worker_step _ _ _ _ _ _ _ _) as [[[[m1 ex1] p1]|?|?]|] eqn:Hw; [|done..].
    intros [= <- <-]. cbn. by eapply worker_step_peer.
  - apply with_exec_peer. intros m ex m' ex'. destruct (ex_workers ex !! j) as [p|]; [|done].
    cbn [mbind option_bind]. destruct (ex_sched ex); try done. destruct p; try done.
    intros [= <- <-]. cbn. auto.
  - apply with_peer_peer. intros m d m' d' (d1 & Hd & [= <- <-])%bind_ok.
    by apply receive_same_peer in Hd.
  - apply with_peer_peer. by intros m d m' d' [= <- <-].
  - apply with_peer_peer. intros m d m' d' [= <- <-]. by case_match.
  - apply with_peer_peer. by intros m d m' d' [= <- <-].
  - destruct (_ || _); [done|]. intros [= <-]. eauto.
  - intros [= <-]. eauto.
Qed.

(** Downloaders that join later are peers. *)
Lemma run_event_local e s s' k ex' ld' :
  run_event e s = Some s' → sy_execs s' !! k = Some ex' → ex_downloader ex' = DLocal ld' →
  ∃ ex ld, sy_execs s !! k = Some ex ∧ ex_downloader ex = DLocal ld.
Proof.
  intros Hrun Hk Hd. destruct (event_call e) as [[h|h]|] eqn:He.
  - destruct e; try discriminate He. unfold Downloader.run_event, PeerDownloaders_Add in Hrun.
    destruct (mc_panicked _); [done|]. injection Hrun as <-.
    destruct (sy_downloaders s !! _); [by eauto|]. cbn in Hk.
    apply lookup_app_Some in Hk as [Hk|[_ Hk]]; [by eauto|].
    apply list_lookup_singleton_Some in Hk as [_ <-]. done.
  - destruct e; try discriminate He. unfold Downloader.run_event, PeerDownloaders_Remove in Hrun.
    destruct (mc_panicked _); [done|]. injection Hrun as <-.
    destruct (sy_downloaders s !! _) as [k0|]; [|by eauto]. cbn in Hk.
    destruct (sy_execs s !! k0) as [ex0|] eqn:Hk0; [|by eauto].
    apply list_lookup_insert_Some in Hk as [(<- & <- & _)|[_ Hk]]; [|by eauto]. cbn in Hd.
    destruct (ex_downloader ex0) as [|ld] eqn:Hd0; [done|by eauto].
  - apply run_event_other in Hrun as [_ Hex]; [|done].
    destruct (Forall2_lookup_r _ _ _ _ _ Hex Hk) as (ex & Hk' & Hs). unfold same_source in Hs.
    rewrite Hd in Hs. destruct (ex_downloader ex) eqn:E; [done|by eauto].
Qed.

(** Every peer downloader that is not in the map is invalid, and its update goroutine is
    stopped. *)
Definition removed_stopped (s : system W) : Prop :=
  ∀ k ex d, sy_execs s !! k = Some ex → ex_downloader ex = DPeer d →
    sy_downloaders s !! pd_Host d = Some k ∨ IsSelf d = true ∧ updating d = false.

Lemma run_event_map e s s' :
  run_event e s = Some s' →
  dom (sy_downloaders s') =
    match event_call e with
    | Some (PeerAdded h) => {[h]} ∪ dom (sy_downloaders s)
    | Some (PeerRemoved h) => dom (sy_downloaders s) ∖ {[h]}
    | None => dom (sy_downloaders s)
    end.
Proof.
  destruct (event_call e) as [[h|h]|] eqn:He; [| |by intros [-> _]%run_event_other].
  - destruct e; try discriminate He. injection He as ->. unfold Downloader.run_event.
    destruct (mc_panicked _); [done|]. intros [= <-]. unfold PeerDownloaders_Add.
    destruct (sy_downloaders s !! h) eqn:Hh; cbn.
    + apply elem_of_dom_2 in Hh. set_solver.
    + by rewrite dom_insert_L.
  - destruct e; try discriminate He. injection He as ->. unfold Downloader.run_event.
    destruct (mc_panicked _); [done|]. intros [= <-]. unfold PeerDownloaders_Remove.
    destruct (sy_downloaders s !! h) eqn:Hh; cbn.
    + by rewrite dom_delete_L.
    + apply not_elem_of_dom in Hh. set_solver.
Qed.

Lemma run_event_stopped e s s' :
  run_event e s = Some s' → removed_stopped s → removed_stopped s'.
Proof.
  intros Hrun Hinv. destruct (event_call e) as [[h|h]|] eqn:He.
  - destruct e; try discriminate He. injection He as ->. unfold Downloader.run_event in Hrun.
    destruct (mc_panicked _); [done|]. injection Hrun as <-. unfold PeerDownloaders_Add.
    destruct (sy_downloaders s !! h) eqn:Hh; [done|]. intros k ex d Hk Hd. cbn in *.
    apply lookup_app_Some in Hk as [Hk|[Hge Hk]].
    + destruct (Hinv k ex d Hk Hd) as [Hm|]; [left|by right].
      rewrite lookup_insert_ne; [done|]. intros ->. congruence.
    + apply list_lookup_singleton_Some in Hk as [Hk <-]. injection Hd as <-. left. cbn.
      rewrite lookup_insert_eq. f_equal. lia.
  - destruct e; try discriminate He. injection He as ->. unfold Downloader.run_event in Hrun.
    destruct (mc_panicked _); [done|]. injection Hrun as <-. unfold PeerDownloaders_Remove.
    destruct (sy_downloaders s !! h) as [k0|] eqn:Hh; [|done]. intros k ex d Hk Hd. cbn in *.
    assert (k = k0 → IsSelf d = true ∧ updating d = false) as Hfin.
    { intros ->. destruct (sy_execs s !! k0) as [ex0|] eqn:Hk0; [|congruence].
      rewrite list_lookup_insert_eq in Hk by (by eapply lookup_lt_Some). injection Hk as <-.
      cbn in Hd. destruct (ex_downloader ex0); [|done]. by injection Hd as <-. }
    destruct (decide (k = k0)) as [->|Hne]; [right; by apply Hfin|].
    assert (sy_execs s !! k = Some ex) as Hk'.
    { destruct (sy_execs s !! k0); [|done]. by rewrite list_lookup_insert_ne in Hk. }
    destruct (Hinv k ex d Hk' Hd) as [Hm|]; [left|by right].
    rewrite lookup_delete_ne; [done|]. intros ->. congruence.
  - apply run_event_other in Hrun as [Hmap Hex]; [|done]. intros k ex d Hk Hd. rewrite Hmap.
    destruct (Forall2_lookup_r _ _ _ _ _ Hex Hk) as (ex0 & Hk0 & Hs). unfold same_source in Hs.
    rewrite Hd in Hs.
    destruct (ex_downloader ex0) as [d0|] eqn:Hd0; [|done]. destruct Hs as (Hh & Hself & Hup).
    rewrite Hh. destruct (Hinv k ex0 d0 Hk0 Hd0) as [?|[??]]; [by left|right; auto].
Qed.

(** A host that only one kind of callback mentions. *)
Lemma run_events_map evs s s' :
  run_events evs s = Some s' →
  let calls := omap event_call evs in
  ∀ h, ¬ (PeerAdded h ∈ calls ∧ PeerRemoved h ∈ calls) →
    (h ∈ dom (sy_downloaders s') ↔
      PeerAdded h ∈ calls ∨ h ∈ dom (sy_downloaders s) ∧ PeerRemoved h ∉ calls).
Proof.
  cbv zeta. revert s. induction evs as [|e evs IH]; intros s.
  { intros [= <-] h _. cbn. rewrite !elem_of_nil. naive_solver. }
  cbn [Downloader.run_events]. destruct (run_event e s) as [s1|] eqn:He; [|done].
  cbn [mbind option_bind]. intros Hrun h. specialize (IH s1 Hrun h).
  apply run_event_map in He. cbn [omap list_omap]. fold (omap event_call evs).
  destruct (event_call e) as [[h'|h']|]; rewrite ?elem_of_cons; intros Hone;
    rewrite IH by naive_solver; rewrite He.
  - destruct (decide (h = h')) as [->|]; set_solver.
  - destruct (decide (h = h')) as [->|]; set_solver.
  - done.
Qed.

Lemma run_events_stopped evs s s' :
  run_events evs s = Some s' → removed_stopped s → removed_stopped s'.
Proof.
  revert s. induction evs as [|e evs IH]; intros s; [by intros [= <-]|].
  cbn [Downloader.run_events]. destruct (run_event e s) as [s1|] eqn:He; [|done].
  cbn [mbind option_bind]. intros Hrun Hinv. eapply IH; [exact Hrun|].
  by eapply run_event_stopped.
Qed.

(** One turn of the controller, and the events up to the next: the callbacks of the turn, in
    any order, among any other events. *)
Definition round : Type := turn * list event.

Fixpoint follows (rounds : list round) (peers : gset string) : Prop :=
  match rounds with
  | [] => True
  | (t, evs) :: rounds =>
    omap event_call evs ≡ₚ (controller_turn t peers).1 ∧
    follows rounds (controller_turn t peers).2
  end.

(** What the downloaders should be after the turns: the last list that was fetched, and none
    after a stop. *)
Definition last_wanted (turns : list turn) : gset string :=
  foldl (λ want t, match t with
                   | Polled l => list_to_set l
                   | PollFailed => want
                   | Stopped => ∅
                   end) ∅ turns.

Lemma controller_turn_peers t peers :
  (controller_turn t peers).2 =
  match t with Polled l => list_to_set l | PollFailed => peers | Stopped => ∅ end.
Proof.
  destruct t as [l| |]; [|done|]; cbn [controller_turn]; unfold stopAll;
    match goal with |- (reconcile ?l ?p).2 = _ =>
      pose proof (reconcile_spec l p) as Hspec; destruct (reconcile l p) as [calls peers']; cbn
    end; by destruct Hspec as [-> _].
Qed.

Lemma turn_map t peers evs s s' :
  run_events evs s = Some s' → omap event_call evs ≡ₚ (controller_turn t peers).1 →
  dom (sy_downloaders s) = peers → dom (sy_downloaders s') = (controller_turn t peers).2.
Proof.
  intros Hev Hcalls Hdom. pose proof (run_events_map _ _ _ Hev) as Hrun. cbv zeta in Hrun.
  assert (∀ desired, omap event_call evs ≡ₚ (reconcile desired peers).1 →
    dom (sy_downloaders s') = (reconcile desired peers).2) as Hrec.
  { intros desired Hp. pose proof (reconcile_spec desired peers) as Hspec.
    destruct (reconcile desired peers) as [calls peers']. cbn in *.
    destruct Hspec as (-> & Hadd & Hrem & _). apply set_eq. intros h.
    rewrite Hrun, Hp, Hadd, Hrem, Hdom, elem_of_list_to_set.
    - destruct (decide (h ∈ desired)), (decide (h ∈ peers)); naive_solver.
    - rewrite Hp, Hadd, Hrem. naive_solver. }
  destruct t as [l| |]; [by apply Hrec| |by apply Hrec].
  cbn in *. apply Permutation_nil_r in Hcalls. rewrite Hcalls in Hrun.
  apply set_eq. intros h. rewrite (Hrun h), Hdom by (by intros [?%elem_of_nil _]).
  rewrite !elem_of_nil. naive_solver.
Qed.

(** C32: the controller and [PeerDownloaders] stay in step. From the start of a download,
    through any polls of the provider, successful or not, with the callbacks of a poll in any
    order and any other steps of the download in between: the hosts in the map are exactly
    those of the last list that was fetched, whatever was in the lists before it, and none
    once the controller has stopped; every peer downloader that is not in the map is invalid
    and its update goroutine has stopped; and after the controller has stopped there is none
    left that is not. *)
Theorem controller_tracks_peers cm w now stat src rounds s :
  follows rounds ∅ →
  run_events (concat rounds.*2) (init_system cm w now stat src) = Some s →
  dom (sy_downloaders s) = last_wanted rounds.*1 ∧ removed_stopped s ∧
  (fst <$> last rounds = Some Stopped →
    ∀ k ex d, sy_execs s !! k = Some ex → ex_downloader ex = DPeer d →
      IsSelf d = true ∧ updating d = false).
Proof.
  intros Hf Hrun. unfold last_wanted.
  assert (∀ rounds peers s0, follows rounds peers → dom (sy_downloaders s0) = peers →
    run_events (concat rounds.*2) s0 = Some s →
    dom (sy_downloaders s) = foldl (λ want t, match t with
      | Polled l => list_to_set l | PollFailed => want | Stopped => ∅ end) peers rounds.*1) as Hdom.
  { clear. intros rounds. induction rounds as [|[t evs] rounds IH]; intros peers s0.
    { by intros _ <- [= <-]. }
    cbn [follows]. intros [Hcalls Hf] Hs0 Hrun. rewrite fmap_cons in Hrun. cbn [concat snd] in Hrun.
    assert (∃ s1, run_events evs s0 = Some s1 ∧ run_events (concat rounds.*2) s1 = Some s)
      as (s1 & H1 & H2).
    { clear -Hrun. revert s0 Hrun. induction evs as [|e evs IH]; intros s0; [eauto|].
      cbn [app Downloader.run_events]. destruct (run_event e s0) as [s1|]; [|done].
      cbn [mbind option_bind]. apply IH. }
    rewrite fmap_cons. cbn [foldl fst]. rewrite <- (controller_turn_peers t peers).
    eapply IH; [exact Hf| |exact H2]. by eapply turn_map. }
  assert (removed_stopped s) as Hstop.
  { eapply run_events_stopped; [exact Hrun|]. intros k ex d Hk Hd. exfalso. cbn in Hk.
    destruct src; [|done]. apply list_lookup_singleton_Some in Hk as [_ <-]. done. }
  specialize (Hdom rounds ∅ _ Hf dom_empty_L Hrun). split_and!; [done..|].
  intros Hlast k ex d Hk Hd. destruct (Hstop k ex d Hk Hd) as [Hm|]; [exfalso|done].
  apply elem_of_dom_2 in Hm. rewrite Hdom in Hm.
  destruct rounds as [|r rounds _] using rev_ind; [done|]. rewrite last_snoc in Hlast.
  injection Hlast as Hr. rewrite fmap_app, foldl_app in Hm. cbn [fmap list_fmap foldl] in Hm.
  rewrite Hr in Hm. set_solver.
Qed.
End machine.
