(* ===== verification/DownloaderSafety.v ===== *)
(** The control invariants of the download machine of Downloader.v: a chunk being written
    has exactly one owner, a downloader neither loses nor duplicates a chunk, and
    [Completed] means that every chunk is done. They hold for every interleaving, whatever
    the network answers. *)
From S2P Require Import Prelude Bytes GoStrings Types Storage ChunkBuilder ChunkManager ChunkQueue Statistics Availability Downloader.

(** * Counting *)

Definition hits (i : nat) (o : option nat) : nat := if decide (o = Some i) then 1 else 0.
Definition occ (i : nat) (l : list nat) : nat :=
  sum_list_with (λ j, if decide (j = i) then 1 else 0) l.
#[global] Arguments occ : simpl never.
#[global] Arguments hits : simpl never.

Lemma occ_cons i j l : occ i (j :: l) = hits i (Some j) + occ i l.
Proof. unfold occ, hits. simpl. repeat case_decide; simplify_eq; lia. Qed.

Lemma occ_app i l k : occ i (l ++ k) = occ i l + occ i k.
Proof. unfold occ. induction l as [|j l IH]; simpl; [done|]. rewrite IH. lia. Qed.

#[export] Instance occ_perm : Proper ((=) ==> (≡ₚ) ==> (=)) occ.
Proof.
  intros i ? <- l k H. unfold occ. induction H; simpl; [done|lia|lia|congruence].
Qed.

Lemma elem_of_occ i l : i ∈ l ↔ 0 < occ i l.
Proof.
  induction l as [|j l IH]; [rewrite elem_of_nil; unfold occ; simpl; lia|].
  rewrite elem_of_cons, occ_cons, IH. unfold hits. case_decide; simplify_eq.
  - split; [lia|auto].
  - split; [intros [->|]; [done|lia]|]. intros. right. lia.
Qed.

Lemma occ_NoDup l : (∀ i, occ i l ≤ 1) → NoDup l.
Proof.
  induction l as [|j l IH]; intros H; [constructor|]. constructor.
  - rewrite elem_of_occ. specialize (H j). rewrite occ_cons in H. unfold hits in H.
    rewrite decide_True in H by done. lia.
  - apply IH. intros i. specialize (H i). rewrite occ_cons in H. lia.
Qed.

Lemma NoDup_occ l i : NoDup l → occ i l = if decide (i ∈ l) then 1 else 0.
Proof.
  induction 1 as [|j l Hj Hl IH]; [done|]. rewrite occ_cons, IH. unfold hits.
  destruct (decide (Some j = Some i)) as [[= ->]|Hne].
  - rewrite decide_False by done. rewrite decide_True by set_solver. done.
  - destruct (decide (i ∈ l)); [rewrite decide_True by set_solver; done|].
    rewrite decide_False; [done|]. set_solver.
Qed.

Lemma sum_insert {A} (f : A → nat) l k x y :
  l !! k = Some x →
  sum_list_with f (<[k := y]> l) + f x = sum_list_with f l + f y.
Proof.
  revert k. induction l as [|z l IH]; intros [|k] Hk; simpl in *; simplify_eq; [lia|].
  apply IH in Hk. lia.
Qed.

Lemma sum_lookup {A} (f : A → nat) l k x : l !! k = Some x → f x ≤ sum_list_with f l.
Proof.
  revert k. induction l as [|z l IH]; intros [|k] Hk; simpl in *; simplify_eq; [lia|].
  apply IH in Hk. lia.
Qed.

(** Two positions. *)
Lemma sum_lookup_two {A} (f : A → nat) l j k x y :
  j ≠ k → l !! j = Some x → l !! k = Some y → f x + f y ≤ sum_list_with f l.
Proof.
  revert j k. induction l as [|z l IH]; intros [|j] [|k] Hne Hj Hk; simpl in *; simplify_eq.
  - apply (sum_lookup f) in Hk. lia.
  - apply (sum_lookup f) in Hj. lia.
  - assert (j ≠ k) by congruence. specialize (IH j k ltac:(done) Hj Hk). lia.
Qed.

Lemma sum_pos_lookup {A} (f : A → nat) l :
  0 < sum_list_with f l → ∃ k x, l !! k = Some x ∧ 0 < f x.
Proof.
  induction l as [|z l IH]; simpl; [lia|]. intros H.
  destruct (decide (0 < f z)); [by exists 0, z|].
  destruct IH as (k & x & Hk & Hx); [lia|]. by exists (S k), x.
Qed.

(** * Tokens and owners *)

(** The index a thread has taken off its queue and not yet counted or pushed back. *)
Definition sched_token (p : sched) : option nat :=
  match p with SStatus i | SSwap i | SSend i | SPush i | SCount i => Some i | _ => None end.
Definition worker_token (p : worker) : option nat :=
  match p with
  | WReceived o => o
  | WStartTime i | WRequest i _ | WWrite i _ _ _ _ _ _ | WSetChecksum i _ _ _ | WEndTime i _ _
  | WSetDone i _ _ _ | WSetTime i _ _ _ | WCount i _ _ _ | WSetPending i | WPushBack i => Some i
  | _ => None
  end.

(** The chunk a thread has marked as Downloading and must settle. *)
Definition sched_owns (p : sched) : option nat :=
  match p with SSend i => Some i | _ => None end.
Definition worker_owns (p : worker) : option nat :=
  match p with
  | WReceived o => o
  | WStartTime i | WRequest i _ | WWrite i _ _ _ _ _ _ | WSetChecksum i _ _ _ | WEndTime i _ _
  | WSetDone i _ _ _ | WSetPending i => Some i
  | _ => None
  end.

(** The threads of a downloader, and the chunk that thread [t] of downloader [k] holds: a
    scheduler from the swap of its status until a worker has received it, a worker from
    there, while it requests, writes and checks the chunk, until it stores a new status. *)
Inductive thread := TScheduler | TWorker (j : nat).

#[export] Instance thread_eq_dec : EqDecision thread.
Proof. solve_decision. Defined.

Definition thread_holds {W} (s : system W) (k : nat) (t : thread) : option nat :=
  ex ← sy_execs s !! k;
  match t with
  | TScheduler => sched_owns (ex_sched ex)
  | TWorker j => p ← ex_workers ex !! j; worker_owns p
  end.

Definition owners (i : nat) (ex : exec) : nat :=
  hits i (sched_owns (ex_sched ex)) + sum_list_with (λ p, hits i (worker_owns p)) (ex_workers ex).

Definition tokens (i : nat) (ex : exec) : nat :=
  occ i (GetQueue (ex_downloader ex)) + hits i (sched_token (ex_sched ex)) +
  sum_list_with (λ p, hits i (worker_token p)) (ex_workers ex) + occ i (ex_counted ex).

(** * Status *)

Definition chunk_status (cm : ChunkManager) (i : nat) : option ChunkStatus :=
  GetStatus <$> chunks cm !! i.
Definition chunk_done (cm : ChunkManager) (i : nat) : Prop :=
  chunk_status cm i = Some ChunkStatusDone.
Definition downloading (cm : ChunkManager) (i : nat) : nat :=
  if decide (chunk_status cm i = Some ChunkStatusDownloading) then 1 else 0.
Definition all_done (cm : ChunkManager) : Prop := ∀ i, i < GetChunkCount cm → chunk_done cm i.

(** What a step may do to the manager: chunks that are done stay done. *)
Definition cm_le (cm cm' : ChunkManager) : Prop :=
  GetChunkCount cm' = GetChunkCount cm ∧ ∀ i, chunk_done cm i → chunk_done cm' i.

#[export] Instance cm_le_preorder : PreOrder cm_le.
Proof. split; unfold cm_le; [naive_solver|]. intros ???[]; naive_solver congruence. Qed.

Lemma all_done_le cm cm' : cm_le cm cm' → all_done cm → all_done cm'.
Proof. intros [Hl Hd] H i Hi. apply Hd, H. by rewrite <- Hl. Qed.

(** ** The status operations *)

Lemma chunk_status_insert cm i c c' :
  chunks cm !! i = Some c →
  let cm' := set_chunks (<[i := c']> (chunks cm)) cm in
  GetChunkCount cm' = GetChunkCount cm ∧
  ∀ j, chunk_status cm' j = if decide (j = i) then Some (GetStatus c') else chunk_status cm j.
Proof.
  intros Hc. unfold GetChunkCount, chunk_status. simpl. rewrite length_insert. split; [done|].
  intros j. case_decide as Hj.
  - subst. by rewrite list_lookup_insert_eq by (by eapply lookup_lt_Some).
  - by rewrite list_lookup_insert_ne by done.
Qed.

Lemma GetChunkStatus_ok i cm s : GetChunkStatus i cm = Ok s ↔ chunk_status cm i = Some s.
Proof.
  unfold GetChunkStatus, chunk_status, index_slice. destruct (chunks cm !! i); simpl; naive_solver.
Qed.

(** A store of the status [s] by the owner of chunk [i]. *)
Definition status_set (i : nat) (s : ChunkStatus) (cm cm' : ChunkManager) : Prop :=
  GetChunkCount cm' = GetChunkCount cm ∧ is_Some (chunks cm !! i) ∧
  ∀ j, chunk_status cm' j = if decide (j = i) then Some s else chunk_status cm j.

Lemma SetChunkStatusDone_status_ok i cm cm' :
  SetChunkStatusDone_status i cm = Ok cm' → status_set i ChunkStatusDone cm cm'.
Proof.
  intros (c & Hc%index_slice_ok & [= <-])%bind_ok.
  by destruct (chunk_status_insert cm i c (SetStatus ChunkStatusDone c) Hc).
Qed.

Lemma SetChunkStatusPending_ok i cm cm' :
  SetChunkStatusPending i cm = Ok cm' → status_set i ChunkStatusPending cm cm'.
Proof.
  intros (c & Hc%index_slice_ok & [= <-])%bind_ok.
  by destruct (chunk_status_insert cm i c (SetStatus ChunkStatusPending c) Hc).
Qed.

Lemma SetChunkStatusDone_time_ok i t cm cm' :
  SetChunkStatusDone_time i t cm = Ok cm' →
  GetChunkCount cm' = GetChunkCount cm ∧ ∀ j, chunk_status cm' j = chunk_status cm j.
Proof.
  intros (c & Hc%index_slice_ok & [= <-])%bind_ok.
  destruct (chunk_status_insert cm i c (SetUpdatedAt t c) Hc) as [Hl Hj].
  split; [exact Hl|]. intros j. rewrite Hj. case_decide; [|done]. subst.
  unfold chunk_status. by rewrite Hc.
Qed.

Lemma UpdateChunkStatus_ok i old new cm b cm' :
  UpdateChunkStatus i old new cm = Ok (b, cm') →
  if b then chunk_status cm i = Some old ∧ status_set i new cm cm'
  else GetChunkCount cm' = GetChunkCount cm ∧ ∀ j, chunk_status cm' j = chunk_status cm j.
Proof.
  intros (c & Hc%index_slice_ok & H)%bind_ok. unfold UpdateStatus in H.
  destruct (decide (status c = old)) as [<-|]; injection H as <- <-.
  - destruct (chunk_status_insert cm i c (SetStatus new c) Hc).
    unfold status_set. rewrite Hc. unfold chunk_status at 1. by rewrite Hc.
  - destruct (chunk_status_insert cm i c c Hc) as [Hl Hj]. split; [exact Hl|].
    intros j. rewrite Hj. case_decide; [|done]. subst. unfold chunk_status. by rewrite Hc.
Qed.

Lemma SetChunkChecksum_ok i s cm cm' :
  SetChunkChecksum i s cm = Ok cm' → chunks cm' = chunks cm.
Proof. intros (c & _ & [= <-])%bind_ok. done. Qed.

Lemma same_chunks_status cm cm' :
  chunks cm' = chunks cm →
  GetChunkCount cm' = GetChunkCount cm ∧ ∀ j, chunk_status cm' j = chunk_status cm j.
Proof. intros H. unfold GetChunkCount, chunk_status. by rewrite H. Qed.

Lemma write_range_chunks {W} (dst : Storage W) onFileComplete r rd cm w :
  chunks (write_range dst onFileComplete r rd (cm, w)).2.1 = chunks cm.
Proof.
  unfold write_range, get_manager, put_manager, lift_storage, io_lift.
  unfold mbind, io_mbind, io_bind_def, mret, io_mret, io_ret.
  destruct (index_slice _ _) as [f|?|?]; [|done..].
  destruct (Write _ _ _ _ _ _) as [[[n rd']|?|?] w1]; [|done..].
  destruct (decrement_file _ _ _) as [cm' remaining] eqn:E.
  assert (chunks cm' = chunks cm) as Hc.
  { unfold decrement_file in E. by destruct (DecrementRemainingChunkCount f); simplify_eq. }
  destruct (remaining =? 0)%Z; [|done].
  by destruct (onFileComplete _ _ _) as [[] ?].
Qed.

Lemma status_le cm cm' :
  GetChunkCount cm' = GetChunkCount cm → (∀ j, chunk_status cm' j = chunk_status cm j) →
  cm_le cm cm' ∧ ∀ i, downloading cm' i = downloading cm i.
Proof.
  intros Hl Hj. split; [split; [done|]; intros i; unfold chunk_done; by rewrite Hj|].
  intros i. unfold downloading. by rewrite Hj.
Qed.

(** The owner of a chunk that is being downloaded settles it. *)
Lemma status_set_le i s cm cm' :
  status_set i s cm cm' → chunk_status cm i ≠ Some ChunkStatusDone → cm_le cm cm'.
Proof.
  intros (Hl & _ & Hj) Hi. split; [done|]. intros j. unfold chunk_done. rewrite Hj.
  case_decide; [subst; congruence|done].
Qed.

(** * The invariant *)

Definition sched_ok (cm : ChunkManager) (p : sched) : Prop :=
  match p with
  | SCount i => chunk_done cm i
  | SZeroCancel | SZeroComplete | SCancel | SComplete => all_done cm
  | _ => True
  end.
Definition worker_ok (cm : ChunkManager) (p : worker) : Prop :=
  match p with
  | WSetTime i _ _ _ | WCount i _ _ _ => chunk_done cm i
  | WCancel _ _ _ | WComplete _ _ _ => all_done cm
  | _ => True
  end.

Lemma sched_ok_le cm cm' p : cm_le cm cm' → sched_ok cm p → sched_ok cm' p.
Proof. intros H. destruct p; simpl; try done; try by apply all_done_le. by apply H. Qed.
Lemma worker_ok_le cm cm' p : cm_le cm cm' → worker_ok cm p → worker_ok cm' p.
Proof. intros H. destruct p; simpl; try done; try by apply all_done_le. all: by apply H. Qed.

(** Before the workers are started. *)
Definition unspawned (p : sched) : bool :=
  match p with SStart | SZeroCancel | SZeroComplete | SSpawn => true | _ => false end.

(** A downloader's bookkeeping: every index it has learnt of is in exactly one place, and
    what it has counted is done. *)
Record exec_inv (cm : ChunkManager) (ex : exec) : Prop := {
  ei_tokens i : tokens i ex = Nat.b2n (announced (GetChunkCount cm) (ex_downloader ex) i);
  ei_avail d : ex_downloader ex = DPeer d → length (AvailableChunkList d) = GetChunkCount cm;
  ei_count : numCompleted ex = Z.of_nat (length (ex_counted ex));
  ei_done : Forall (chunk_done cm) (ex_counted ex);
  ei_sched : sched_ok cm (ex_sched ex);
  ei_workers : Forall (worker_ok cm) (ex_workers ex);
  ei_unspawned : unspawned (ex_sched ex) = true → ex_workers ex = []
}.

Lemma exec_inv_le cm cm' ex : cm_le cm cm' → exec_inv cm ex → exec_inv cm' ex.
Proof.
  intros Hle []. pose proof Hle as [Hl Hd]. constructor; try done.
  - intros i. rewrite Hl. done.
  - intros d. rewrite Hl. auto.
  - eapply Forall_impl; [done|]. auto.
  - by eapply sched_ok_le.
  - eapply Forall_impl; [done|]. intros p. by apply worker_ok_le.
Qed.

Lemma announced_lt cm ex i :
  exec_inv cm ex → announced (GetChunkCount cm) (ex_downloader ex) i = true →
  i < GetChunkCount cm.
Proof.
  intros []. destruct (ex_downloader ex) as [d|d]; simpl; rewrite bool_decide_eq_true; [|done].
  intros H%lookup_lt_Some. by rewrite (ei_avail0 d eq_refl) in H.
Qed.

(** The whole system. *)
Record sys_inv {W} (s : system W) : Prop := {
  si_owners i : sum_list_with (owners i) (sy_execs s)
    = downloading (mc_ChunkManager (sy_main s)) i;
  si_execs : Forall (exec_inv (mc_ChunkManager (sy_main s))) (sy_execs s);
  si_completed : mc_Completed (sy_main s) = true → all_done (mc_ChunkManager (sy_main s))
}.

(** ** Counting to the end *)

Lemma NoDup_below n l : NoDup l → Forall (λ i, i < n) l → length l ≤ n.
Proof.
  intros Hnd Hl. rewrite <- (length_seq n 0). apply submseteq_length, NoDup_submseteq; [done|].
  intros i Hi. rewrite Forall_forall in Hl. apply elem_of_seq. specialize (Hl i Hi). lia.
Qed.

Lemma NoDup_full n l i : NoDup l → Forall (λ i, i < n) l → length l = n → i < n → i ∈ l.
Proof.
  intros Hnd Hl Hlen Hi. destruct (decide (i ∈ l)) as [|Hni]; [done|].
  assert (length (i :: l) ≤ n); [|simpl in *; lia].
  apply NoDup_below; by constructor.
Qed.

(** What one thread of a downloader does to it: [tok] and [own] are the thread's token and
    the chunk it owns, before and after. *)
Record effect (cm cm' : ChunkManager) (ex ex' : exec) (tok tok' own own' : option nat) : Prop := {
  ef_le : cm_le cm cm';
  ef_owners i : hits i own' + downloading cm i = hits i own + downloading cm' i;
  ef_tokens i :
    occ i (GetQueue (ex_downloader ex')) + hits i tok' + occ i (ex_counted ex') =
    occ i (GetQueue (ex_downloader ex)) + hits i tok + occ i (ex_counted ex);
  ef_announced n i : announced n (ex_downloader ex') i = announced n (ex_downloader ex) i;
  ef_avail d : ex_downloader ex' = DPeer d →
    ∃ d0, ex_downloader ex = DPeer d0 ∧ AvailableChunkList d = AvailableChunkList d0;
  ef_count : numCompleted ex' = Z.of_nat (length (ex_counted ex'));
  ef_done : Forall (chunk_done cm') (ex_counted ex')
}.

Lemma effect_ext cm cm' ex ex' ex'' tok tok' own own' :
  effect cm cm' ex ex' tok tok' own own' →
  ex_downloader ex'' = ex_downloader ex' → ex_counted ex'' = ex_counted ex' →
  numCompleted ex'' = numCompleted ex' → effect cm cm' ex ex'' tok tok' own own'.
Proof. intros [] Hd Hc Hn. constructor; rewrite ?Hd, ?Hc, ?Hn; done. Qed.

(** The facts a thread's step relies on. *)
Record thread_pre (cm : ChunkManager) (ex : exec) (tok own : option nat) : Prop := {
  tp_inv : exec_inv cm ex;
  tp_tokens i :
    occ i (GetQueue (ex_downloader ex)) + hits i tok + occ i (ex_counted ex) ≤
    Nat.b2n (announced (GetChunkCount cm) (ex_downloader ex) i);
  tp_owns i : own = Some i → chunk_status cm i = Some ChunkStatusDownloading
}.

Lemma b2n_le1 b : Nat.b2n b ≤ 1.
Proof. destruct b; simpl; lia. Qed.

Section thread.
Context (cm : ChunkManager) (ex : exec) (tok own : option nat).
Context (Hpre : thread_pre cm ex tok own).
Context (Hsmall : (Z.of_nat (GetChunkCount cm) < 2 ^ 63)%Z).

Lemma counted_below i :
  i ∈ ex_counted ex ∨ tok = Some i → i < GetChunkCount cm.
Proof.
  intros Hi. eapply announced_lt; [apply Hpre|]. pose proof (tp_tokens _ _ _ _ Hpre i) as Ht.
  destruct (announced _ _ i); [done|]. simpl in Ht. destruct Hi as [Hi%elem_of_occ| ->]; [lia|].
  unfold hits in Ht. rewrite decide_True in Ht by done. lia.
Qed.

Lemma counted_NoDup : NoDup (ex_counted ex).
Proof.
  apply occ_NoDup. intros i. pose proof (tp_tokens _ _ _ _ Hpre i).
  pose proof (b2n_le1 (announced (GetChunkCount cm) (ex_downloader ex) i)). lia.
Qed.

(** [numCompleted] reaches the chunk count only when every chunk is done. *)
Lemma count_full :
  numCompleted ex = Z.of_nat (GetChunkCount cm) → all_done cm.
Proof.
  intros Hn i Hi. destruct (tp_inv _ _ _ _ Hpre). rewrite ei_count0 in Hn.
  rewrite Forall_forall in ei_done0. apply ei_done0.
  apply (NoDup_full (GetChunkCount cm)); [apply counted_NoDup| |lia|done].
  apply Forall_forall. intros j Hj. apply counted_below. by left.
Qed.

(** Counting a token. *)
Lemma count_one_effect i :
  tok = Some i → own = None → chunk_done cm i →
  effect cm cm ex (count_one i ex) tok None own None.
Proof.
  intros Htok Hown Hdone.
  assert (length (i :: ex_counted ex) ≤ GetChunkCount cm) as Hlen.
  { apply NoDup_below.
    - apply occ_NoDup. intros j. rewrite occ_cons. pose proof (tp_tokens _ _ _ _ Hpre j) as Ht.
      rewrite Htok in Ht.
      pose proof (b2n_le1 (announced (GetChunkCount cm) (ex_downloader ex) j)). lia.
    - apply Forall_forall. intros j [->|Hj]%elem_of_cons; apply counted_below; auto. }
  constructor; rewrite ?Htok, ?Hown; try done; simpl.
  - intros j. rewrite occ_cons. unfold hits. repeat case_decide; simplify_eq; lia.
  - intros d Hd. eauto.
  - rewrite (ei_count _ _ (tp_inv _ _ _ _ Hpre)). simpl in Hlen. wrap_simpl. lia.
  - constructor; [done|]. apply Hpre.
Qed.

(** Pushing a token back. *)
Lemma push_back_effect i :
  tok = Some i → own = None → effect cm cm ex (push_back i ex) tok None own None.
Proof.
  intros Htok Hown. constructor; rewrite ?Htok, ?Hown; try done; simpl.
  - intros j. rewrite GetQueue_set_Queue, PushBack_perm, occ_cons.
    unfold hits. repeat case_decide; simplify_eq; lia.
  - intros n j. by destruct (ex_downloader ex).
  - intros d Hd. destruct (ex_downloader ex) as [d0|]; [|done]. injection Hd as <-. eauto.
  - apply Hpre.
  - apply Hpre.
Qed.

(** A step that leaves the downloader's queue and count alone. *)
Lemma quiet_effect cm' ex' tok' own' :
  ex_downloader ex' = ex_downloader ex → ex_counted ex' = ex_counted ex →
  numCompleted ex' = numCompleted ex → tok' = tok →
  cm_le cm cm' → (∀ i, hits i own' + downloading cm i = hits i own + downloading cm' i) →
  effect cm cm' ex ex' tok tok' own own'.
Proof.
  intros Hd Hc Hn Ht Hle Ho. constructor; try done; rewrite ?Hd, ?Hc, ?Hn, ?Ht; try done.
  - eauto.
  - apply Hpre.
  - eapply Forall_impl; [apply Hpre|]. intros i. apply Hle.
Qed.

Lemma quiet_effect_same ex' tok' own' :
  ex_downloader ex' = ex_downloader ex → ex_counted ex' = ex_counted ex →
  numCompleted ex' = numCompleted ex → tok' = tok → own' = own →
  effect cm cm ex ex' tok tok' own own'.
Proof. intros ???? ->. by apply quiet_effect. Qed.

(** Settling an owned chunk. *)
Lemma settle_effect i s cm' tok' :
  status_set i s cm cm' → own = Some i → s ≠ ChunkStatusDownloading → tok' = tok →
  effect cm cm' ex ex tok tok' own None.
Proof.
  intros Hs Ho Hne Ht. pose proof (tp_owns _ _ _ _ Hpre i Ho) as Hi. apply quiet_effect; try done.
  - eapply status_set_le; [done|congruence].
  - intros j. destruct Hs as (_ & _ & Hj). unfold hits, downloading. rewrite Hj, Ho.
    repeat case_decide; simplify_eq; congruence || lia.
Qed.
End thread.

(** * Steps of threads *)

Section steps.
Context {W : Type} (dst : Storage W) (xxh3 : bytes → Z) (onFileComplete : string → Z → io W unit).
Context (verifyOnComplete : bool).

Lemma some_ok {A} (r : result A) a : Some r = Some (Ok a) → r = Ok a.
Proof. by intros [= ->]. Qed.

Lemma worker_step_effect inp (m : main W) ex p m' ex' p' :
  worker_step dst xxh3 onFileComplete verifyOnComplete inp m ex p = Some (Ok (m', ex', p')) →
  (Z.of_nat (GetChunkCount (mc_ChunkManager m)) < 2 ^ 63)%Z →
  thread_pre (mc_ChunkManager m) ex (worker_token p) (worker_owns p) →
  worker_ok (mc_ChunkManager m) p →
  (mc_Completed m = true → all_done (mc_ChunkManager m)) →
  effect (mc_ChunkManager m) (mc_ChunkManager m') ex ex' (worker_token p) (worker_token p')
    (worker_owns p) (worker_owns p') ∧
  worker_ok (mc_ChunkManager m') p' ∧ ex_sched ex' = ex_sched ex ∧
  ex_workers ex' = ex_workers ex ∧
  (mc_Completed m' = true → all_done (mc_ChunkManager m')).
Proof.
  intros Hstep Hsmall Hpre Hok Hcompl.
  destruct p; cbn [worker_step] in Hstep; try discriminate Hstep.
  - simplify_eq. split_and!; try done. by eapply quiet_effect_same.
  - case_match; simplify_eq. split_and!; try done. by eapply quiet_effect_same.
  - simplify_eq. destruct o; (split_and!; [by eapply quiet_effect_same|done..]).
  - destruct inp; simplify_eq. split_and!; try done. by eapply quiet_effect_same.
  - destruct inp as [|[[checksum rd]|e|s]]; try done; simplify_eq.
    + try apply some_ok in Hstep; apply bind_ok in Hstep as (c & _ & [= <- <- <-]).
      split_and!; try done. by eapply quiet_effect_same.
    + split_and!; try done. by eapply quiet_effect_same.
  - destruct todo as [|r todo].
    + destruct (negb _ && negb _); simplify_eq;
        [|destruct verifyOnComplete]; (split_and!; [by eapply quiet_effect_same|done..]).
    + pose proof (write_range_chunks dst onFileComplete r rd (mc_ChunkManager m) (mc_Dst m)) as Hc.
      destruct (write_range _ _ _ _ _) as [res [cm' w']]. cbn [fst snd] in Hc.
      destruct (same_chunks_status _ _ Hc) as [Hl Hj]. destruct (status_le _ _ Hl Hj) as [Hle Hd].
      assert (all_done (mc_ChunkManager m) → all_done cm') by (by apply all_done_le).
      destruct res as [[k rd']|e|s]; simplify_eq; cbn;
        (split_and!; [eapply quiet_effect; try done; intros; by rewrite Hd|auto..]).
  - try apply some_ok in Hstep; apply bind_ok in Hstep as (cm' & Hc%SetChunkChecksum_ok & [= <- <- <-]).
    destruct (same_chunks_status _ _ Hc) as [Hl Hj]. destruct (status_le _ _ Hl Hj) as [Hle Hd].
    cbn. split_and!; try done; [|intros; by eapply all_done_le; auto].
    eapply quiet_effect; try done. intros; by rewrite Hd.
  - destruct inp; simplify_eq. split_and!; try done. by eapply quiet_effect_same.
  - try apply some_ok in Hstep; apply bind_ok in Hstep as (cm' & Hs%SetChunkStatusDone_status_ok & [= <- <- <-]).
    assert (effect (mc_ChunkManager m) cm' ex ex (Some i) (Some i) (Some i) None) as He
      by (by eapply settle_effect).
    cbn. split_and!; try done; [|intros; eapply all_done_le; [apply He|auto]].
    destruct Hs as (_ & _ & Hj). unfold chunk_done. rewrite Hj. by rewrite decide_True.
  - try apply some_ok in Hstep; apply bind_ok in Hstep as (cm' & [Hl Hj]%SetChunkStatusDone_time_ok & [= <- <- <-]).
    destruct (status_le _ _ Hl Hj) as [Hle Hd]. cbn.
    split_and!; try done; [|by apply Hle|intros; by eapply all_done_le; auto].
    eapply quiet_effect; try done. intros; by rewrite Hd.
  - simplify_eq. cbn. split_and!; try done. by eapply count_one_effect.
  - simplify_eq. split_and!; try done; [|].
    + eapply quiet_effect_same; try done; by case_match.
    + match goal with |- context [Z.eqb ?a ?b] => destruct (Z.eqb_spec a b) end; [|done].
      by eapply count_full.
  - simplify_eq. split_and!; try done. by eapply quiet_effect_same.
  - simplify_eq. split_and!; try done. by eapply quiet_effect_same.
  - simplify_eq. split_and!; try done. by eapply quiet_effect_same.
  - simplify_eq. split_and!; try done. by eapply quiet_effect_same.
  - simplify_eq. split_and!; try done. by eapply quiet_effect_same.
  - simplify_eq. split_and!; try done. by eapply quiet_effect_same.
  - try apply some_ok in Hstep; apply bind_ok in Hstep as (cm' & Hs%SetChunkStatusPending_ok & [= <- <- <-]).
    assert (effect (mc_ChunkManager m) cm' ex ex (Some i) (Some i) (Some i) None) as He
      by (by eapply settle_effect).
    cbn. split_and!; try done. intros; eapply all_done_le; [apply He|auto].
  - simplify_eq. cbn. split_and!; try done. by eapply push_back_effect.
  - simplify_eq. split_and!; try done. by eapply quiet_effect_same.
Qed.

(** A worker's step leaves the other program counters alone. *)
Lemma worker_step_workers inp (m : main W) ex p m' ex' p' :
  worker_step dst xxh3 onFileComplete verifyOnComplete inp m ex p = Some (Ok (m', ex', p')) →
  ex_workers ex' = ex_workers ex.
Proof.
  intros H. destruct p; cbn [worker_step] in H; try destruct todo; try destruct (write_range _ _ _ _ _) as [[[]| |] []];
    repeat case_match; simplify_eq; try done;
    by apply bind_ok in H as (? & _ & [= _ <- _]).
Qed.

Lemma sched_step_effect n (m : main W) ex m' ex' :
  sched_step n m ex = Some (Ok (m', ex')) →
  ex_sched ex ≠ SSpawn →
  (Z.of_nat (GetChunkCount (mc_ChunkManager m)) < 2 ^ 63)%Z →
  thread_pre (mc_ChunkManager m) ex (sched_token (ex_sched ex)) (sched_owns (ex_sched ex)) →
  (mc_Completed m = true → all_done (mc_ChunkManager m)) →
  effect (mc_ChunkManager m) (mc_ChunkManager m') ex ex' (sched_token (ex_sched ex))
    (sched_token (ex_sched ex')) (sched_owns (ex_sched ex)) (sched_owns (ex_sched ex')) ∧
  sched_ok (mc_ChunkManager m') (ex_sched ex') ∧ ex_workers ex' = ex_workers ex ∧
  (unspawned (ex_sched ex') = true → unspawned (ex_sched ex) = true) ∧
  (mc_Completed m' = true → all_done (mc_ChunkManager m')).
Proof.
  intros Hstep Hspawn Hsmall Hpre Hcompl. pose proof (ei_sched _ _ (tp_inv _ _ _ _ Hpre)) as Hok.
  unfold sched_step in Hstep.
  destruct (ex_sched ex) as [| | | | | | | |i|i|i|i|i| | | | | | |] eqn:E;
    try discriminate Hstep; try done; simplify_eq; cbn [ex_sched set_sched] in *.
  - split_and!; try done; [|].
    + eapply quiet_effect_same; try done; by case_match.
    + case_decide as H0; simpl; [|done]. intros i Hi. lia.
  - split_and!; try done. by eapply quiet_effect_same.
  - split_and!; try done. by eapply quiet_effect_same.
  - split_and!; try done; [|by case_match..]. eapply quiet_effect_same; try done; by case_match.
  - split_and!; try done; [|by case_match..]. eapply quiet_effect_same; try done; by case_match.
  - split_and!; try done; [|by case_match..]. eapply quiet_effect_same; try done; by case_match.
  - pose proof (Pop_spec (GetQueue (ex_downloader ex))) as Hpop.
    destruct (Pop _) as [[i ok] q]. simplify_eq. cbn [ex_sched set_sched].
    split_and!; try done; [|by destruct ok..].
    constructor; simpl; try done.
    + by destruct ok.
    + intros j. rewrite GetQueue_set_Queue. destruct ok.
      * rewrite Hpop, occ_cons. simpl. unfold hits. repeat case_decide; simplify_eq; lia.
      * destruct Hpop as (-> & -> & _). simpl. lia.
    + intros k j. by destruct (ex_downloader ex).
    + intros d Hd. destruct (ex_downloader ex); [|done]. injection Hd as <-. eauto.
    + apply Hpre.
    + apply Hpre.
  - try apply some_ok in Hstep; apply bind_ok in Hstep as (s & Hs%GetChunkStatus_ok & [= <- <-]).
    cbn [ex_sched set_sched]. destruct s; (split_and!; [by eapply quiet_effect_same|done..]).
  - try apply some_ok in Hstep; apply bind_ok in Hstep as ([swapped cm'] & Hs%UpdateChunkStatus_ok & [= <- <-]).
    cbn. destruct swapped.
    + destruct Hs as [Hp Hs]. assert (cm_le (mc_ChunkManager m) cm') as Hle.
      { eapply status_set_le; [done|]. by rewrite Hp. }
      split_and!; try done; [|intros; by eapply all_done_le; auto].
      eapply quiet_effect; try done. intros j. destruct Hs as (_ & _ & Hj).
      unfold hits, downloading. rewrite Hj.
      destruct (decide (j = i)) as [->|Hne].
      * rewrite Hp, !decide_True by done. rewrite !decide_False by done. done.
      * rewrite (decide_False (P := Some i = Some j)) by congruence. done.
    + destruct Hs as [Hl Hj]. destruct (status_le _ _ Hl Hj) as [Hle Hd].
      split_and!; try done; [|intros; by eapply all_done_le; auto].
      eapply quiet_effect; try done. intros j. by rewrite Hd.
  - split_and!; try done. eapply effect_ext; [by eapply push_back_effect|done..].
  - split_and!; try done. eapply effect_ext; [by eapply count_one_effect|done..].
  - split_and!; try done; [| |by case_match].
    + eapply quiet_effect_same; try done; by case_match.
    + match goal with |- context [Z.eqb ?a ?b] => destruct (Z.eqb_spec a b) end; [|done].
      by eapply count_full.
  - split_and!; try done. by eapply quiet_effect_same.
  - split_and!; try done. by eapply quiet_effect_same.
  - split_and!; try done. by eapply quiet_effect_same.
  - split_and!; try done. by eapply quiet_effect_same.
  - case_match; simplify_eq. split_and!; try done. by eapply quiet_effect_same.
Qed.
End steps.

(** * Steps of the system *)

Section system.
Context {W : Type}.
Implicit Types (s : system W) (m : main W).

Lemma sys_inv_exec s k ex m' ex' ds :
  sys_inv s → sy_execs s !! k = Some ex →
  cm_le (mc_ChunkManager (sy_main s)) (mc_ChunkManager m') →
  (∀ i, owners i ex' + downloading (mc_ChunkManager (sy_main s)) i
      = owners i ex + downloading (mc_ChunkManager m') i) →
  exec_inv (mc_ChunkManager m') ex' →
  (mc_Completed m' = true → all_done (mc_ChunkManager m')) →
  sys_inv (mkSystem m' (<[k := ex']> (sy_execs s)) ds).
Proof.
  intros [Ho He Hc] Hk Hle Hown Hex Hc'. constructor; simpl; try done.
  - intros i. pose proof (sum_insert (owners i) _ _ _ ex' Hk) as Hs. specialize (Ho i).
    specialize (Hown i). lia.
  - apply Forall_insert; [|done]. eapply Forall_impl; [exact He|]. intros x.
    by apply exec_inv_le.
Qed.

Lemma sys_inv_main s m' :
  sys_inv s → mc_ChunkManager m' = mc_ChunkManager (sy_main s) →
  mc_Completed m' = mc_Completed (sy_main s) → ∀ ds,
  sys_inv (mkSystem m' (sy_execs s) ds).
Proof. intros [Ho He Hc] Hm Hm' ds. constructor; simpl; rewrite ?Hm, ?Hm'; done. Qed.

(** What a thread of downloader [k] can rely on. *)
Lemma thread_pre_of s k ex tok own :
  sys_inv s → sy_execs s !! k = Some ex →
  (∀ i, occ i (GetQueue (ex_downloader ex)) + hits i tok + occ i (ex_counted ex) ≤ tokens i ex) →
  (∀ i, hits i own ≤ owners i ex) →
  thread_pre (mc_ChunkManager (sy_main s)) ex tok own.
Proof.
  intros [Ho He Hc] Hk Ht Hown. pose proof (proj1 (Forall_lookup _ _) He _ _ Hk) as Hex.
  constructor; [done| |].
  - intros i. rewrite <- (ei_tokens _ _ Hex). apply Ht.
  - intros i ->. specialize (Hown i). specialize (Ho i).
    pose proof (sum_lookup (owners i) _ _ _ Hk) as Hs. unfold hits in Hown.
    rewrite decide_True in Hown by done. unfold downloading in Ho.
    case_decide; [done|lia].
Qed.

Lemma worker_pre s k j ex p :
  sys_inv s → sy_execs s !! k = Some ex → ex_workers ex !! j = Some p →
  thread_pre (mc_ChunkManager (sy_main s)) ex (worker_token p) (worker_owns p).
Proof.
  intros Hs Hk Hj. eapply thread_pre_of; [done..| |]; intros i.
  - pose proof (sum_lookup (λ p, hits i (worker_token p)) _ _ _ Hj). unfold tokens. lia.
  - pose proof (sum_lookup (λ p, hits i (worker_owns p)) _ _ _ Hj). unfold owners. lia.
Qed.

Lemma sched_pre s k ex :
  sys_inv s → sy_execs s !! k = Some ex →
  thread_pre (mc_ChunkManager (sy_main s)) ex (sched_token (ex_sched ex)) (sched_owns (ex_sched ex)).
Proof.
  intros Hs Hk. eapply thread_pre_of; [done..| |]; intros i; unfold tokens, owners; lia.
Qed.

(** ** Who holds a chunk *)

(** A thread that holds a chunk is one of its owners. *)
Lemma thread_holds_owners s k t i :
  thread_holds s k t = Some i → ∃ ex, sy_execs s !! k = Some ex ∧ 1 ≤ owners i ex.
Proof.
  intros (ex & Hk & Ht)%bind_Some. exists ex. split; [done|]. unfold owners. destruct t as [|j].
  - rewrite Ht. unfold hits. rewrite decide_True by done. lia.
  - apply bind_Some in Ht as (p & Hj & Hp).
    pose proof (sum_lookup (λ p, hits i (worker_owns p)) _ _ _ Hj) as Hs. simpl in Hs.
    rewrite Hp in Hs. unfold hits in Hs at 1. rewrite decide_True in Hs by done. lia.
Qed.

(** And two of them are two owners. *)
Lemma threads_hold_owners s k ex t t' i :
  sy_execs s !! k = Some ex → thread_holds s k t = Some i → thread_holds s k t' = Some i →
  t ≠ t' → 2 ≤ owners i ex.
Proof.
  unfold thread_holds, owners. intros Hk Ht Ht' Hne. rewrite Hk in Ht, Ht'. cbn in Ht, Ht'.
  assert (∀ o, o = Some i → hits i o = 1) as Hits.
  { intros o ->. unfold hits. by rewrite decide_True. }
  assert (∀ j p, ex_workers ex !! j = Some p → worker_owns p = Some i →
    1 ≤ sum_list_with (λ p, hits i (worker_owns p)) (ex_workers ex)) as Hone.
  { intros j p Hj Hp. pose proof (sum_lookup (λ p, hits i (worker_owns p)) _ _ _ Hj) as Hs.
    simpl in Hs. by rewrite (Hits _ Hp) in Hs. }
  destruct t as [|j], t' as [|j']; [done|..].
  - apply bind_Some in Ht' as (p & Hj & Hp). rewrite (Hits _ Ht). specialize (Hone _ _ Hj Hp). lia.
  - apply bind_Some in Ht as (p & Hj & Hp). rewrite (Hits _ Ht'). specialize (Hone _ _ Hj Hp). lia.
  - apply bind_Some in Ht as (p & Hj & Hp), Ht' as (p' & Hj' & Hp').
    assert (j ≠ j') as Hjj by congruence.
    pose proof (sum_lookup_two (λ p, hits i (worker_owns p)) _ _ _ _ _ Hjj Hj Hj') as Hs.
    simpl in Hs. rewrite (Hits _ Hp), (Hits _ Hp') in Hs. lia.
Qed.

Lemma owners_thread_holds s k ex i :
  sy_execs s !! k = Some ex → 0 < owners i ex → ∃ t, thread_holds s k t = Some i.
Proof.
  unfold thread_holds, owners. intros Hk Ho. rewrite Hk. cbn.
  destruct (decide (sched_owns (ex_sched ex) = Some i)) as [|Hne]; [by exists TScheduler|].
  unfold hits in Ho at 1. rewrite decide_False in Ho by done.
  destruct (sum_pos_lookup _ _ Ho) as (j & p & Hj & Hp). exists (TWorker j). rewrite Hj. cbn.
  cbn beta in Hp. unfold hits in Hp. case_decide; [done|lia].
Qed.

(** No two threads hold the same chunk. *)
Lemma holder_unique s k t k' t' i :
  sys_inv s → thread_holds s k t = Some i → thread_holds s k' t' = Some i → k = k' ∧ t = t'.
Proof.
  intros [Ho _ _] Ht Ht'. specialize (Ho i).
  assert (downloading (mc_ChunkManager (sy_main s)) i ≤ 1) by (unfold downloading; case_decide; lia).
  destruct (thread_holds_owners _ _ _ _ Ht) as (ex & Hk & H1).
  destruct (thread_holds_owners _ _ _ _ Ht') as (ex' & Hk' & H2).
  destruct (decide (k = k')) as [<-|Hne].
  - split; [done|]. destruct (decide (t = t')) as [|Hne]; [done|].
    pose proof (threads_hold_owners _ _ _ _ _ _ Hk Ht Ht' Hne).
    pose proof (sum_lookup (owners i) _ _ _ Hk). lia.
  - pose proof (sum_lookup_two (owners i) _ _ _ _ _ Hne Hk Hk'). lia.
Qed.

(** Somebody holds a chunk exactly when it is marked Downloading. *)
Lemma holder_exists s i :
  sys_inv s →
  (∃ k t, thread_holds s k t = Some i) ↔
  chunk_status (mc_ChunkManager (sy_main s)) i = Some ChunkStatusDownloading.
Proof.
  intros [Ho _ _]. specialize (Ho i). unfold downloading in Ho. split.
  - intros (k & t & (ex & Hk & H1)%thread_holds_owners).
    pose proof (sum_lookup (owners i) _ _ _ Hk). case_decide; [done|lia].
  - intros Hd. rewrite decide_True in Ho by done.
    destruct (sum_pos_lookup (owners i) (sy_execs s)) as (k & ex & Hk & Hp); [lia|].
    exists k. by eapply owners_thread_holds.
Qed.

Lemma owner_unique s k j ex p k' j' ex' p' i :
  sys_inv s → sy_execs s !! k = Some ex → ex_workers ex !! j = Some p →
  sy_execs s !! k' = Some ex' → ex_workers ex' !! j' = Some p' →
  worker_owns p = Some i → worker_owns p' = Some i → k = k' ∧ j = j'.
Proof.
  intros Hs Hk Hj Hk' Hj' Hp Hp'.
  destruct (holder_unique s k (TWorker j) k' (TWorker j') i Hs) as [-> [= ->]]; [..|done];
    unfold thread_holds.
  - rewrite Hk. cbn. by rewrite Hj.
  - rewrite Hk'. cbn. by rewrite Hj'.
Qed.

(** The effect of a worker, put back into its downloader. *)
Lemma worker_effect_exec cm cm' ex ex' j p p' :
  ex_workers ex !! j = Some p → exec_inv cm ex →
  effect cm cm' ex ex' (worker_token p) (worker_token p') (worker_owns p) (worker_owns p') →
  worker_ok cm' p' → ex_sched ex' = ex_sched ex → ex_workers ex' = ex_workers ex →
  exec_inv cm' (set_worker j p' ex') ∧
  ∀ i, owners i (set_worker j p' ex') + downloading cm i = owners i ex + downloading cm' i.
Proof.
  intros Hj [Ht Ha Hn Hd Hs Hw Hu] He Hok Hsched Hwork. pose proof (ef_le _ _ _ _ _ _ _ _ He) as Hle.
  split.
  - constructor; simpl; rewrite ?Hsched, ?Hwork; try apply He.
    + intros i. rewrite (proj1 Hle), (ef_announced _ _ _ _ _ _ _ _ He), <- Ht.
      pose proof (ef_tokens _ _ _ _ _ _ _ _ He i) as Hi. unfold tokens.
      pose proof (sum_insert (λ p, hits i (worker_token p)) _ _ _ p' Hj). simpl.
      rewrite Hsched, Hwork. lia.
    + intros d Hdl. destruct (ef_avail _ _ _ _ _ _ _ _ He d Hdl) as (d0 & Hd0 & ->).
      rewrite (proj1 Hle). by apply Ha.
    + by eapply sched_ok_le.
    + apply Forall_insert; [|done]. eapply Forall_impl; [done|]. intros x. by apply worker_ok_le.
    + intros H. rewrite (Hu H) in Hj. done.
  - intros i. pose proof (ef_owners _ _ _ _ _ _ _ _ He i).
    pose proof (sum_insert (λ p, hits i (worker_owns p)) _ _ _ p' Hj). unfold owners. simpl.
    rewrite Hsched, Hwork. lia.
Qed.

Lemma sched_effect_exec cm cm' ex ex' :
  exec_inv cm ex →
  effect cm cm' ex ex' (sched_token (ex_sched ex)) (sched_token (ex_sched ex'))
    (sched_owns (ex_sched ex)) (sched_owns (ex_sched ex')) →
  sched_ok cm' (ex_sched ex') → ex_workers ex' = ex_workers ex →
  (unspawned (ex_sched ex') = true → unspawned (ex_sched ex) = true) →
  exec_inv cm' ex' ∧
  ∀ i, owners i ex' + downloading cm i = owners i ex + downloading cm' i.
Proof.
  intros [Ht Ha Hn Hd Hs Hw Hu] He Hok Hwork Hun. pose proof (ef_le _ _ _ _ _ _ _ _ He) as Hle.
  split.
  - constructor; rewrite ?Hwork; try done; try apply He.
    + intros i. rewrite (proj1 Hle), (ef_announced _ _ _ _ _ _ _ _ He), <- Ht.
      pose proof (ef_tokens _ _ _ _ _ _ _ _ He i) as Hi. unfold tokens. rewrite Hwork. lia.
    + intros d Hdl. destruct (ef_avail _ _ _ _ _ _ _ _ He d Hdl) as (d0 & Hd0 & ->).
      rewrite (proj1 Hle). by apply Ha.
    + eapply Forall_impl; [done|]. intros x. by apply worker_ok_le.
    + intros H. by apply Hu, Hun.
  - intros i. pose proof (ef_owners _ _ _ _ _ _ _ _ He i). unfold owners. rewrite Hwork. lia.
Qed.
End system.

(** ** The other events *)

Lemma sum_replicate_zero {A} (f : A → nat) n x : f x = 0 → sum_list_with f (replicate n x) = 0.
Proof. intros H. induction n; simpl; lia. Qed.

Lemma spawn_inv cm ex n :
  exec_inv cm ex → ex_sched ex = SSpawn →
  let ex' := set_sched SValid (set_workers (replicate n WAnnounce) ex) in
  exec_inv cm ex' ∧ ∀ i, owners i ex' = owners i ex.
Proof.
  intros [Ht Ha Hn Hd Hs Hw Hu] E. rewrite E in *. specialize (Hu eq_refl). simpl. split.
  - constructor; simpl; try done; [|by apply Forall_replicate].
    intros i. rewrite <- Ht. unfold tokens. simpl. rewrite Hu, E. simpl.
    rewrite sum_replicate_zero; done.
  - intros i. unfold owners. simpl. rewrite Hu, E. by rewrite sum_replicate_zero.
Qed.

Lemma send_inv cm ex i j :
  exec_inv cm ex → ex_sched ex = SSend i → ex_workers ex !! j = Some WReceive →
  let ex' := set_worker j (WReceived (Some i)) (set_sched SValid ex) in
  exec_inv cm ex' ∧ ∀ i', owners i' ex' = owners i' ex.
Proof.
  intros [Ht Ha Hn Hd Hs Hw Hu] E Hj. simpl. split.
  - constructor; simpl; try done; [|by apply Forall_insert].
    intros i'. rewrite <- Ht. unfold tokens. simpl. rewrite E.
    pose proof (sum_insert (λ p, hits i' (worker_token p)) _ _ _ (WReceived (Some i)) Hj).
    simpl in *. unfold hits in *. simpl in *. lia.
  - intros i'. unfold owners. simpl. rewrite E.
    pose proof (sum_insert (λ p, hits i' (worker_owns p)) _ _ _ (WReceived (Some i)) Hj).
    simpl in *. unfold hits in *. simpl in *. lia.
Qed.

(** A change of the downloader that keeps its queue and its list. *)
Lemma downloader_inv cm ex d :
  exec_inv cm ex → GetQueue d = GetQueue (ex_downloader ex) →
  (∀ n i, announced n d i = announced n (ex_downloader ex) i) →
  (∀ p, d = DPeer p → ∃ p0, ex_downloader ex = DPeer p0 ∧
    length (AvailableChunkList p) = length (AvailableChunkList p0)) →
  exec_inv cm (set_downloader d ex) ∧ ∀ i, owners i (set_downloader d ex) = owners i ex.
Proof.
  intros [Ht Ha Hn Hd Hs Hw Hu] Hq Han Hav. split; [|done].
  constructor; simpl; try done.
  - intros i. rewrite Han, <- Ht. unfold tokens. simpl. by rewrite Hq.
  - intros p Hp. destruct (Hav p Hp) as (p0 & Hp0 & ->). by apply Ha.
Qed.

Lemma fmap_to_nat_of_nat (l : list nat) : Z.to_nat <$> (Z.of_nat <$> l) = l.
Proof. induction l as [|i l IH]; [done|]. rewrite !fmap_cons, IH. f_equal. lia. Qed.

(** New indices become available: each is queued once. *)
Lemma available_inv cm ex d choice al d' :
  exec_inv cm ex → ex_downloader ex = DPeer d →
  receiveAvailableList choice cm al d = Ok d' →
  exec_inv cm (set_downloader (DPeer d') ex) ∧
  ∀ i, owners i (set_downloader (DPeer d') ex) = owners i ex.
Proof.
  intros [Ht Ha Hn Hd Hs Hw Hu] E Hrec. split; [|done]. unfold receiveAvailableList in Hrec.
  apply bind_ok in Hrec as ([indexList d1] & Hmark & [= <-]).
  apply mark_chunks_spec in Hmark as (new & -> & Hl & Hq & _ & _ & _ & _ & _ & Hnd & Hi).
  pose proof (fmap_to_nat_of_nat new) as Hnew.
  constructor; simpl; try done.
  - intros i. unfold tokens. simpl. rewrite Hnew, PushShuffledList_perm, occ_app, Hq.
    specialize (Ht i). unfold tokens in Ht. rewrite E in Ht. simpl in Ht.
    rewrite (NoDup_occ new i Hnd). destruct (Hi i) as [Hiff Hmono]. simpl in Hiff, Hmono.
    destruct (bool_decide (AvailableChunkList d !! i = _)), (bool_decide (AvailableChunkList d1 !! i = _));
      simpl in *; case_decide as Hin; try lia.
    all: try (apply Hiff in Hin as [? ?]; done). all: try by specialize (Hmono eq_refl).
    by destruct Hin; apply Hiff.
  - intros p [= <-]. cbn [AvailableChunkList set_pd_Queue]. rewrite Hl. exact (Ha d E).
Qed.

Lemma new_exec_inv cm uuid host :
  exec_inv cm (newExec (DPeer (NewPeerDownloader cm uuid host))) ∧
  ∀ i, owners i (newExec (DPeer (NewPeerDownloader cm uuid host))) = 0.
Proof.
  split; [|done]. constructor; simpl; try done.
  - intros i. unfold tokens. simpl. rewrite bool_decide_eq_false_2; [done|].
    intros [H _]%lookup_replicate. done.
  - intros d [= <-]. simpl. by rewrite length_replicate.
Qed.

Section events.
Context {W : Type} (dst : Storage W) (xxh3 : bytes → Z) (onFileComplete : string → Z → io W unit).
Context (verifyOnComplete : bool) (peerNumConcurrent localNumConcurrent : nat).
Context (transferIdleTimeout : Duration).
Implicit Types (s : system W).
Local Abbreviation run_event := (run_event dst xxh3 onFileComplete verifyOnComplete
  peerNumConcurrent localNumConcurrent transferIdleTimeout).

(** A step of one downloader: it keeps the invariant if [f] does. *)
Lemma with_exec_inv k s f s' :
  sys_inv s → with_exec k s f = Some s' →
  (∀ ex m' ex', sy_execs s !! k = Some ex → f (sy_main s) ex = Some (Ok (m', ex')) →
    GetChunkCount (mc_ChunkManager m') = GetChunkCount (mc_ChunkManager (sy_main s)) ∧
    ∀ ds, sys_inv (mkSystem m' (<[k := ex']> (sy_execs s)) ds)) →
  GetChunkCount (mc_ChunkManager (sy_main s')) = GetChunkCount (mc_ChunkManager (sy_main s)) ∧
  sys_inv s'.
Proof.
  unfold with_exec. intros Hs Hw Hf.
  apply bind_Some in Hw as (ex & Hk & (r & Hr & [= <-])%bind_Some).
  destruct r as [[m' ex']|e|msg]; [|split; [done|by apply sys_inv_main]..].
  by edestruct (Hf ex m' ex').
Qed.

Lemma with_peer_inv k s f s' :
  sys_inv s → with_peer k s f = Some s' →
  (∀ ex d m' d', sy_execs s !! k = Some ex → ex_downloader ex = DPeer d →
    f (sy_main s) d = Ok (m', d') →
    mc_ChunkManager m' = mc_ChunkManager (sy_main s) ∧
    mc_Completed m' = mc_Completed (sy_main s) ∧
    exec_inv (mc_ChunkManager (sy_main s)) (set_downloader (DPeer d') ex)) →
  GetChunkCount (mc_ChunkManager (sy_main s')) = GetChunkCount (mc_ChunkManager (sy_main s)) ∧
  sys_inv s'.
Proof.
  intros Hs Hw Hf. eapply with_exec_inv; [done..|]. intros ex m' ex' Hk H. simpl in H.
  destruct (ex_downloader ex) as [d|] eqn:E; [|done]. destruct (updating d); [|done].
  apply some_ok, bind_ok in H as ([m1 d'] & Hd & [= <- <-]).
  destruct (Hf ex d m1 d' Hk E Hd) as (Hm & Hm' & Hinv). split; [by rewrite Hm|].
  intros ds. eapply sys_inv_exec; [done|done|rewrite Hm; reflexivity|..|by rewrite Hm|].
  - intros i. by rewrite Hm.
  - rewrite Hm, Hm'. by apply Hs.
Qed.

Lemma run_event_inv e s s' :
  run_event e s = Some s' →
  (Z.of_nat (GetChunkCount (mc_ChunkManager (sy_main s))) < 2 ^ 63)%Z →
  sys_inv s →
  GetChunkCount (mc_ChunkManager (sy_main s')) = GetChunkCount (mc_ChunkManager (sy_main s)) ∧
  sys_inv s'.
Proof.
  intros Hrun Hsmall Hs. unfold Downloader.run_event in Hrun. destruct (mc_panicked _); [done|].
  assert (∀ k ex, sy_execs s !! k = Some ex → exec_inv (mc_ChunkManager (sy_main s)) ex) as Hex.
  { intros k ex. apply Forall_lookup. apply Hs. }
  destruct e as [k|k j inp|k j|k choice al|k|k|k|uuid host|host|now|].
  - eapply with_exec_inv; [done..|]. intros ex m' ex' Hk H.
    destruct (decide (ex_sched ex = SSpawn)) as [E|Hne].
    + unfold sched_step in H. rewrite E in H. simplify_eq. split; [done|]. intros ds.
      edestruct spawn_inv as [Hinv Hown]; [by eapply Hex|done|].
      eapply sys_inv_exec; [done|done|done| |done|by apply Hs]. intros i. by rewrite Hown.
    + eapply sched_step_effect in H as (He & Hok & Hwk & Hun & Hc); try done;
        [|by eapply sched_pre|by apply Hs].
      pose proof (ef_le _ _ _ _ _ _ _ _ He) as Hle. split; [apply Hle|]. intros ds.
      edestruct sched_effect_exec as [Hinv Hown]; [by eapply Hex|done..|].
      by eapply sys_inv_exec.
  - eapply with_exec_inv; [done..|]. intros ex m' ex' Hk H. simpl in H.
    apply bind_Some in H as (p & Hj & (r & Hr & H)%bind_Some).
    apply some_ok, bind_ok in H as ([[m1 ex1] p1] & -> & [= <- <-]).
    eapply worker_step_effect in Hr as (He & Hok & Hsc & Hwk & Hc); try done;
      [|by eapply worker_pre|by eapply (proj1 (Forall_lookup _ _) (ei_workers _ _ (Hex _ _ Hk)))|by apply Hs].
    pose proof (ef_le _ _ _ _ _ _ _ _ He) as Hle. split; [apply Hle|]. intros ds.
    edestruct worker_effect_exec as [Hinv Hown]; [done|by eapply Hex|done..|].
    by eapply sys_inv_exec.
  - eapply with_exec_inv; [done..|]. intros ex m' ex' Hk H. simpl in H.
    apply bind_Some in H as (p & Hj & H). destruct (ex_sched ex) eqn:E; try done.
    destruct p; try done. simplify_eq. split; [done|]. intros ds.
    edestruct send_inv as [Hinv Hown]; [by eapply Hex|done|done|].
    eapply sys_inv_exec; [done|done|done| |done|by apply Hs]. intros i'. by rewrite Hown.
  - eapply with_peer_inv; [done..|]. intros ex d m' d' Hk E H.
    apply bind_ok in H as (d1 & Hd1 & [= <- <-]). split_and!; [done|done|].
    by eapply available_inv; [eapply Hex| |].
  - eapply with_peer_inv; [done..|]. intros ex d m' d' Hk E [= <- <-]. split_and!; [done|done|].
    apply downloader_inv; [by eapply Hex|by rewrite E|by rewrite E|]. intros p [= <-]. eauto.
  - eapply with_peer_inv; [done..|]. intros ex d m' d' Hk E [= <- <-]. split_and!; [done|done|].
    destruct (_ =? _)%Z;
    (apply downloader_inv; [by eapply Hex|by rewrite E|by rewrite E|]; intros p [= <-]; eauto).
  - eapply with_peer_inv; [done..|]. intros ex d m' d' Hk E [= <- <-]. split_and!; [done|done|].
    apply downloader_inv; [by eapply Hex|by rewrite E|by rewrite E|]. intros p [= <-]. eauto.
  - injection Hrun as <-. unfold PeerDownloaders_Add. case_match; [done|]. split; [done|].
    destruct (new_exec_inv (mc_ChunkManager (sy_main s)) uuid host) as [Hinv Hown].
    destruct Hs as [Ho He Hc]. constructor; simpl; try done.
    + intros i. rewrite sum_list_with_app, Ho. cbn [sum_list_with]. rewrite Hown. lia.
    + apply Forall_app. split; [done|]. constructor; [done|constructor].
  - injection Hrun as <-. unfold PeerDownloaders_Remove. case_match; [|done]. split; [done|].
    destruct (sy_execs s !! n) as [ex|] eqn:Hk; [|by apply sys_inv_main].
    edestruct (downloader_inv (mc_ChunkManager (sy_main s)) ex (Fin (ex_downloader ex)))
      as [Hinv Hown]; [by eapply Hex|by destruct (ex_downloader ex)..| |].
    { intros p Hp. destruct (ex_downloader ex); [|done]. injection Hp as <-. eauto. }
    eapply sys_inv_exec; [done|done|done| |done|by apply Hs]. intros i. by rewrite Hown.
  - destruct (_ || _); [done|]. injection Hrun as <-. simpl.
    case_match; (split; [done|]); by apply sys_inv_main.
  - injection Hrun as <-. split; [done|]. by apply sys_inv_main.
Qed.

Lemma run_events_inv l s s' :
  run_events dst xxh3 onFileComplete verifyOnComplete peerNumConcurrent localNumConcurrent
    transferIdleTimeout l s = Some s' →
  (Z.of_nat (GetChunkCount (mc_ChunkManager (sy_main s))) < 2 ^ 63)%Z →
  sys_inv s →
  GetChunkCount (mc_ChunkManager (sy_main s')) = GetChunkCount (mc_ChunkManager (sy_main s)) ∧
  sys_inv s'.
Proof.
  revert s. induction l as [|e l IH]; intros s; simpl; [by intros [= <-]|].
  intros (s1 & H1 & H2)%bind_Some Hsmall Hs.
  edestruct run_event_inv as [Hl Hs1]; [done..|]. rewrite <- Hl in Hsmall |- *. by apply IH.
Qed.

(** The state [DownloadFiles] starts from. *)
Lemma init_inv cm (w : W) now stat src :
  Forall (λ c, GetStatus c = ChunkStatusPending) (chunks cm) →
  sys_inv (init_system cm w now stat src).
Proof.
  intros Hp. assert (∀ i, downloading cm i = 0) as H0.
  { intros i. unfold downloading, chunk_status. destruct (chunks cm !! i) as [c|] eqn:Hc; [|done].
    rewrite Forall_lookup in Hp. simpl. by rewrite (Hp _ _ Hc). }
  destruct src as [choice|]; constructor; simpl; try done; try (intros i; by rewrite H0).
  constructor; [|constructor]. constructor; simpl; try done.
  intros i. unfold tokens. simpl. rewrite PushShuffledList_perm. simpl.
  rewrite NoDup_occ by apply NoDup_seq. unfold hits. simpl.
  destruct (bool_decide_reflect (i < GetChunkCount cm)) as [H|H]; simpl.
  - rewrite decide_True by (apply elem_of_seq; lia). done.
  - rewrite decide_False; [done|]. rewrite elem_of_seq. lia.
Qed.
End events.

(** * Properties *)

Section properties.
Context {W : Type} (dst : Storage W) (xxh3 : bytes → Z) (onFileComplete : string → Z → io W unit).
Context (verifyOnComplete : bool) (peerNumConcurrent localNumConcurrent : nat).
Context (transferIdleTimeout : Duration).
Context (cm : ChunkManager) (w : W) (now : Time) (stat : Statistics) (from : option (nat → nat)).
Local Abbreviation run_events := (run_events dst xxh3 onFileComplete verifyOnComplete
  peerNumConcurrent localNumConcurrent transferIdleTimeout).

(** C6: [Completed] is never set early: in every state that any number of downloaders, with
    any number of workers, can reach by any interleaving, with peers joining and leaving,
    failing, answering anything, and the transfer being cancelled at any time, [Completed]
    implies that every chunk is Done. *)
Theorem completed_means_done l s :
  Forall (λ c, GetStatus c = ChunkStatusPending) (chunks cm) →
  (Z.of_nat (GetChunkCount cm) < 2 ^ 63)%Z →
  run_events l (init_system cm w now stat from) = Some s →
  mc_Completed (sy_main s) = true →
  GetChunkCount (mc_ChunkManager (sy_main s)) = GetChunkCount cm ∧
  ∀ i, i < GetChunkCount cm →
    GetChunkStatus i (mc_ChunkManager (sy_main s)) = Ok ChunkStatusDone.
Proof.
  intros Hp Hsmall Hrun Hc.
  destruct (run_events_inv dst xxh3 onFileComplete verifyOnComplete peerNumConcurrent
    localNumConcurrent transferIdleTimeout l _ _ Hrun Hsmall) as [Hl [Ho He Hall]];
    [by apply init_inv|]. simpl in Hl.
  split; [done|]. intros i Hi. apply GetChunkStatus_ok, Hall; [done|]. by rewrite Hl.
Qed.

(** C15: no two threads ever hold the same chunk: from the moment a scheduler has swapped a
    chunk's status to Downloading until a worker stores another status (it received the
    chunk, requested, wrote and checked it, and is about to mark it Done, or Pending after
    an error), one thread of one downloader holds it and no other scheduler or worker of any
    downloader does. And a chunk is marked Downloading exactly while somebody holds it, so a
    chunk being written is marked, and a marked one is never orphaned. (Schedulers that
    have not swapped yet may look at the same index: one of the swaps wins.) *)
Theorem exclusive_writers l s i :
  Forall (λ c, GetStatus c = ChunkStatusPending) (chunks cm) →
  (Z.of_nat (GetChunkCount cm) < 2 ^ 63)%Z →
  run_events l (init_system cm w now stat from) = Some s →
  (∀ k t k' t', thread_holds s k t = Some i → thread_holds s k' t' = Some i → k = k' ∧ t = t') ∧
  ((∃ k t, thread_holds s k t = Some i) ↔
   GetChunkStatus i (mc_ChunkManager (sy_main s)) = Ok ChunkStatusDownloading).
Proof.
  intros Hp Hsmall Hrun.
  destruct (run_events_inv dst xxh3 onFileComplete verifyOnComplete peerNumConcurrent
    localNumConcurrent transferIdleTimeout l _ _ Hrun Hsmall) as [Hl Hs]; [by apply init_inv|].
  split; [intros *; by apply holder_unique|]. rewrite GetChunkStatus_ok. by apply holder_exists.
Qed.

(** C16: no downloader loses or duplicates a chunk, failures and retries included: each
    chunk it has learnt of is in exactly one place, waiting in its queue, held by its
    scheduler or one of its workers, or counted in [numCompleted]; other chunks are in none;
    and [numCompleted] counts only chunks that are Done. *)
Theorem no_chunk_lost l s k ex i :
  Forall (λ c, GetStatus c = ChunkStatusPending) (chunks cm) →
  (Z.of_nat (GetChunkCount cm) < 2 ^ 63)%Z →
  run_events l (init_system cm w now stat from) = Some s →
  sy_execs s !! k = Some ex →
  tokens i ex = (if announced (GetChunkCount cm) (ex_downloader ex) i then 1 else 0) ∧
  numCompleted ex = Z.of_nat (length (ex_counted ex)) ∧
  (i ∈ ex_counted ex → GetChunkStatus i (mc_ChunkManager (sy_main s)) = Ok ChunkStatusDone).
Proof.
  intros Hp Hsmall Hrun Hk.
  destruct (run_events_inv dst xxh3 onFileComplete verifyOnComplete peerNumConcurrent
    localNumConcurrent transferIdleTimeout l _ _ Hrun Hsmall) as [Hl Hs];
    [by apply init_inv|]. simpl in Hl.
  destruct (proj1 (Forall_lookup _ _) (si_execs _ Hs) _ _ Hk) as [Ht Ha Hn Hd _ _ _].
  rewrite Hl in Ht. split_and!; [by rewrite Ht; destruct (announced _ _ _)|done|].
  intros Hi. apply GetChunkStatus_ok. rewrite Forall_forall in Hd. by apply Hd.
Qed.
End properties.
