(* ===== verification/DownloaderLiveness.v ===== *)
(** Progress of the download machine: no downloader gets stuck, and once the download
    context is cancelled (the download is complete, timed out or interrupted) every
    downloader stops after a bounded number of its own steps. *)
From S2P Require Import Prelude Bytes GoStrings Types Storage ChunkBuilder ChunkManager ChunkQueue Statistics Availability Downloader DownloaderSafety.

(** The steps of the threads of downloader [k]. *)
Definition thread_event (k : nat) (e : event) : bool :=
  match e with
  | EvSched k' | EvWorker k' _ _ | EvSend k' _ => bool_decide (k' = k)
  | _ => false
  end.

(** * The channel protocol *)

Definition leaving (p : worker) : bool :=
  match p with WExit | WReceived None => true | _ => false end.

Record live_inv (n : nat) (ex : exec) : Prop := {
  li_leaving : Forall (λ p, leaving p = true → chan_closed (ex_sched ex) = true) (ex_workers ex);
  li_exit : ex_sched ex = SExit → Forall (eq WExit) (ex_workers ex);
  li_unspawned : unspawned (ex_sched ex) = true → ex_workers ex = [];
  li_spawned : unspawned (ex_sched ex) = false → length (ex_workers ex) = n
}.

Lemma forallb_exit l : forallb is_exit l = true → Forall (eq WExit) l.
Proof.
  intros H%Is_true_eq_left%forallb_True. eapply Forall_impl; [done|]. by intros [].
Qed.

Section steps.
Context {W : Type} (dst : Storage W) (xxh3 : bytes → Z) (onFileComplete : string → Z → io W unit).
Context (verifyOnComplete : bool) (peerNumConcurrent localNumConcurrent : nat).
Context (transferIdleTimeout : Duration).
Implicit Types (m : main W) (s : system W).
Local Abbreviation worker_step := (worker_step dst xxh3 onFileComplete verifyOnComplete).
Local Abbreviation run_event := (run_event dst xxh3 onFileComplete verifyOnComplete
  peerNumConcurrent localNumConcurrent transferIdleTimeout).
Local Abbreviation run_events := (run_events dst xxh3 onFileComplete verifyOnComplete
  peerNumConcurrent localNumConcurrent transferIdleTimeout).
Local Abbreviation num d := (num_concurrent peerNumConcurrent localNumConcurrent d).

Lemma worker_step_sched inp m ex p m' ex' p' :
  worker_step inp m ex p = Some (Ok (m', ex', p')) →
  ex_sched ex' = ex_sched ex ∧ num (ex_downloader ex') = num (ex_downloader ex) ∧
  p ≠ WExit ∧ (leaving p' = true → p = WReceived None ∨ chan_closed (ex_sched ex) = true).
Proof.
  intros H. destruct p; cbn [Downloader.worker_step] in H; try destruct todo;
    try destruct (write_range _ _ _ _ _) as [[[]| |] []]; repeat case_match; simplify_eq;
    try (split_and!; try done; auto; simpl; by destruct (ex_downloader ex)).
  all: try (apply bind_ok in H as (? & _ & [= _ <- <-]); by split_and!).
Qed.

Lemma sched_step_live m ex m' ex' :
  sched_step (num (ex_downloader ex)) m ex = Some (Ok (m', ex')) →
  live_inv (num (ex_downloader ex)) ex →
  live_inv (num (ex_downloader ex')) ex' ∧ num (ex_downloader ex') = num (ex_downloader ex).
Proof.
  intros H [Hl He Hu Hs]. unfold sched_step in H.
  assert (∀ ex1, unspawned (ex_sched ex1) = unspawned (ex_sched ex) → ex_sched ex1 ≠ SExit →
    (chan_closed (ex_sched ex) = true → chan_closed (ex_sched ex1) = true) →
    ex_workers ex1 = ex_workers ex → num (ex_downloader ex1) = num (ex_downloader ex) →
    live_inv (num (ex_downloader ex1)) ex1) as Hmove.
  { intros ex1 Hp1 Hp2 Hp3 E2 ->. constructor; rewrite ?E2, ?Hp1; try done.
    eapply Forall_impl; [exact Hl|]. simpl. auto. }
  destruct (ex_sched ex) as [| | | | | | | |i|i|i|i|i| | | | | | |] eqn:E; try done;
    try (simplify_eq; split; [|done]; apply Hmove; simpl; try done; by repeat case_match).
  - simplify_eq. split; [|done]. constructor; simpl; try done.
    + by apply Forall_replicate.
    + intros _. apply length_replicate.
  - destruct (Pop _) as [[i ok] q]. simplify_eq. split; [|simpl; by destruct (ex_downloader ex)].
    apply Hmove; simpl; try done; [by destruct ok..|by destruct (ex_downloader ex)].
  - apply some_ok, bind_ok in H as (st & _ & [= <- <-]). split; [|done].
    apply Hmove; simpl; try done; by destruct st.
  - apply some_ok, bind_ok in H as ([b cm] & _ & [= <- <-]). split; [|done].
    apply Hmove; simpl; try done; by destruct b.
  - simplify_eq. split; [|simpl; by destruct (ex_downloader ex)].
    apply Hmove; simpl; try done. by destruct (ex_downloader ex).
  - case_match eqn:Hex; [|done]. simplify_eq. split; [|done]. constructor; simpl; try done.
    intros _. by apply forallb_exit.
Qed.

Lemma worker_live ex ex' j p p' n :
  live_inv n ex → ex_workers ex !! j = Some p → ex_sched ex' = ex_sched ex →
  ex_workers ex' = ex_workers ex → p ≠ WExit →
  (leaving p' = true → leaving p = true ∨ chan_closed (ex_sched ex) = true) →
  live_inv n (set_worker j p' ex').
Proof.
  intros [Hl He Hu Hs] Hj E1 E2 Hp Hp'. constructor; simpl; rewrite ?E1, ?E2.
  - apply Forall_insert; [done|]. intros H. destruct (Hp' H) as [H'|]; [|done].
    rewrite Forall_lookup in Hl. by eapply Hl.
  - intros H. specialize (He H). rewrite Forall_lookup in He. by destruct (He _ _ Hj).
  - intros H. by rewrite (Hu H) in Hj.
  - intros H. rewrite length_insert. auto.
Qed.

Definition sys_live s : Prop :=
  Forall (λ ex, live_inv (num (ex_downloader ex)) ex) (sy_execs s).

Lemma live_inv_downloader n ex d : live_inv n ex → live_inv n (set_downloader d ex).
Proof. by intros []. Qed.

Lemma with_exec_live k s f s' :
  sys_live s → with_exec k s f = Some s' →
  (∀ ex m' ex', sy_execs s !! k = Some ex → live_inv (num (ex_downloader ex)) ex →
    f (sy_main s) ex = Some (Ok (m', ex')) → live_inv (num (ex_downloader ex')) ex') →
  sys_live s'.
Proof.
  intros Hs Hw Hf. unfold with_exec in Hw.
  apply bind_Some in Hw as (ex & Hk & (r & Hr & [= <-])%bind_Some).
  destruct r as [[m' ex']|e|msg]; [|done..]. apply Forall_insert; [done|].
  eapply Hf; [done| |done]. by eapply (proj1 (Forall_lookup _ _) Hs).
Qed.

Lemma with_peer_live k s f s' : sys_live s → with_peer k s f = Some s' → sys_live s'.
Proof.
  intros Hs Hw. eapply with_exec_live; [done..|]. intros ex m' ex' Hk Hl H. simpl in H.
  destruct (ex_downloader ex) as [d|] eqn:E; [|done]. destruct (updating d); [|done].
  apply some_ok, bind_ok in H as ([m1 d'] & _ & [= <- <-]). simpl.
  by apply live_inv_downloader.
Qed.

Lemma run_event_live e s s' : run_event e s = Some s' → sys_live s → sys_live s'.
Proof.
  intros Hrun Hs. unfold Downloader.run_event in Hrun. destruct (mc_panicked _); [done|].
  destruct e as [k|k j inp|k j|k choice al|k|k|k|uuid host|host|now|];
    try (by eapply with_peer_live).
  - eapply with_exec_live; [done..|]. intros ex m' ex' Hk Hl H.
    exact (proj1 (sched_step_live _ _ _ _ H Hl)).
  - eapply with_exec_live; [done..|]. intros ex m' ex' Hk Hl H. simpl in H.
    apply bind_Some in H as (p & Hj & (r & Hr & H)%bind_Some).
    apply some_ok, bind_ok in H as ([[m1 ex1] p1] & -> & [= <- <-]).
    pose proof (worker_step_workers _ _ _ _ _ _ _ _ _ _ _ Hr) as Hwk.
    destruct (worker_step_sched _ _ _ _ _ _ _ Hr) as (Hsc & Hn & Hp & Hlv). simpl.
    rewrite Hn. eapply worker_live; try done. intros H. destruct (Hlv H) as [->|]; auto.
  - eapply with_exec_live; [done..|]. intros ex m' ex' Hk Hl H. simpl in H.
    apply bind_Some in H as (p & Hj & H). destruct (ex_sched ex) eqn:E; try done.
    destruct p; try done. simplify_eq. simpl.
    assert (live_inv (num (ex_downloader ex)) (set_sched SValid ex)) as Hl'.
    { destruct Hl as [H1 H2 H3 H4]. rewrite E in *. constructor; simpl; auto; done. }
    eapply (worker_live _ (set_sched SValid ex)); done.
  - injection Hrun as <-. unfold PeerDownloaders_Add. case_match; [done|].
    apply Forall_app. split; [done|]. constructor; [|constructor]. by constructor.
  - injection Hrun as <-. unfold PeerDownloaders_Remove. case_match; [|done].
    destruct (sy_execs s !! n) as [ex|] eqn:Hk; [|done]. apply Forall_insert; [done|].
    simpl. pose proof (proj1 (Forall_lookup _ _) Hs _ _ Hk) as Hl. simpl in Hl.
    destruct (ex_downloader ex); by apply live_inv_downloader.
  - destruct (_ || _); [done|]. by injection Hrun as <-.
  - by injection Hrun as <-.
Qed.

Lemma run_events_live l s s' : run_events l s = Some s' → sys_live s → sys_live s'.
Proof.
  revert s. induction l as [|e l IH]; intros s; simpl; [by intros [= <-]|].
  intros (s1 & H1 & H2)%bind_Some Hs. eapply IH; [done|]. by eapply run_event_live.
Qed.

Lemma run_events_app l1 l2 s s' :
  run_events l1 s = Some s' → run_events (l1 ++ l2) s = run_events l2 s'.
Proof.
  revert s. induction l1 as [|e l1 IH]; intros s; simpl; [by intros [= ->]|].
  intros (s1 & H1 & H2)%bind_Some. rewrite H1. simpl. by apply IH.
Qed.

Lemma init_live cm (w : W) now stat from : sys_live (init_system cm w now stat from).
Proof. destruct from; simpl; [|constructor]. constructor; [|constructor]. by constructor. Qed.

(** ** Somebody can move *)

Lemma worker_enabled_now m ex p :
  p ≠ WExit → (∀ i t0, p ≠ WRequest i t0) → (p = WReceive → chan_closed (ex_sched ex) = true) →
  ∃ r, worker_step (Now 0%Z) m ex p = Some r.
Proof.
  intros Hp Hr Hc. destruct p; try done; cbn [Downloader.worker_step]; try (by eexists).
  - rewrite Hc by done. by eexists.
  - by destruct (Hr i t0).
  - destruct todo as [|r' todo]; [case_match; by eexists|].
    destruct (write_range _ _ _ _ _) as [res []]. by eexists.
Qed.

Lemma worker_enabled m ex p :
  p ≠ WExit → (p = WReceive → chan_closed (ex_sched ex) = true) →
  ∃ inp r, (∀ x, inp ≠ Response (Ok x)) ∧ worker_step inp m ex p = Some r.
Proof.
  intros Hp Hc. assert ((∃ i t0, p = WRequest i t0) ∨ ∀ i t0, p ≠ WRequest i t0)
    as [(i & t0 & ->)|Hr] by (destruct p; eauto).
  - exists (Response (Err io_EOF)). by eexists.
  - destruct (worker_enabled_now m ex p) as [r Hstep]; [done..|]. by exists (Now 0%Z), r.
Qed.

(** A step of one thread, as an event. *)
Lemma with_exec_some k s f ex r :
  sy_execs s !! k = Some ex → f (sy_main s) ex = Some r → ∃ s', with_exec k s f = Some s'.
Proof. intros Hk Hf. unfold with_exec. rewrite Hk. simpl. rewrite Hf. by eexists. Qed.

Lemma worker_event k j s ex p :
  mc_panicked (sy_main s) = false → sy_execs s !! k = Some ex → ex_workers ex !! j = Some p →
  p ≠ WExit → (p = WReceive → chan_closed (ex_sched ex) = true) →
  ∃ e s', thread_event k e = true ∧ run_event e s = Some s'.
Proof.
  intros Hpan Hk Hj Hp Hc. destruct (worker_enabled (sy_main s) ex p Hp Hc) as (inp & r & _ & Hr).
  exists (EvWorker k j inp). unfold Downloader.run_event. rewrite Hpan.
  edestruct (with_exec_some k s (λ m ex, p ← ex_workers ex !! j; r ← worker_step inp m ex p;
    Some ('(m, ex, p) ← r; Ok (m, set_worker j p ex)))) as [s' Hs']; [done| |].
  { cbn beta. rewrite Hj. simpl. rewrite Hr. done. }
  exists s'. split; [|done]. simpl. by apply bool_decide_eq_true.
Qed.

Lemma not_exit_worker l : forallb is_exit l = false → ∃ j p, l !! j = Some p ∧ p ≠ WExit.
Proof. intros (j & p & Hj & Hp)%forallb_false_lookup. exists j, p. split; [done|by intros ->]. Qed.

Lemma thread_progress k s ex :
  mc_panicked (sy_main s) = false → sys_live s → sy_execs s !! k = Some ex →
  0 < num (ex_downloader ex) → ex_sched ex ≠ SExit →
  ∃ e s', thread_event k e = true ∧ run_event e s = Some s'.
Proof.
  intros Hpan Hs Hk Hn Hne. pose proof (proj1 (Forall_lookup _ _) Hs _ _ Hk) as [Hl He Hu Hsp].
  assert (∀ r, sched_step (num (ex_downloader ex)) (sy_main s) ex = Some r →
    ∃ e s', thread_event k e = true ∧ run_event e s = Some s') as Hsched.
  { intros r Hr. exists (EvSched k). unfold Downloader.run_event. rewrite Hpan.
    edestruct (with_exec_some k s (λ m ex, sched_step (num (ex_downloader ex)) m ex))
      as [s' Hs']; [done..|]. exists s'. split; [|done]. simpl. by apply bool_decide_eq_true. }
  destruct (sched_step (num (ex_downloader ex)) (sy_main s) ex) as [r|] eqn:Hr; [by eapply Hsched|].
  unfold sched_step in Hr. destruct (ex_sched ex) as [| | | | | | | |i|i|i|i|i| | | | | | |] eqn:E;
    try done; try (by destruct (Pop _) as [[? ?] ?]).
  - destruct (lookup_lt_is_Some_2 (ex_workers ex) 0) as [p Hp]; [rewrite Hsp; [lia|done]|].
    assert (p = WReceive ∨ p ≠ WReceive) as [->|Hpr] by (destruct p; auto).
    + exists (EvSend k 0). unfold Downloader.run_event. rewrite Hpan.
      match goal with |- context [with_exec k s ?f] =>
        edestruct (with_exec_some k s f ex) as [s' Hs']; [done|cbn beta; rewrite Hp; simpl; by rewrite E|]
      end.
      exists s'. split; [|done]. simpl. by apply bool_decide_eq_true.
    + eapply worker_event; [done..| |done]. intros ->.
      rewrite Forall_lookup in Hl. by specialize (Hl _ _ Hp eq_refl).
  - case_match eqn:Hex; [done|]. destruct (not_exit_worker _ Hex) as (j & p & Hj & Hp).
    eapply worker_event; [done..|]. intros _. by rewrite E.
Qed.
End steps.

(** * Stopping

    After the cancellation a downloader has only so many steps left: its scheduler finishes
    its turn and leaves the loop, and a worker finishes its chunk. [M] bounds the number of
    ranges of a chunk. *)

Definition sched_rank (p : sched) : nat :=
  match p with
  | SStart => 30 | SZeroCancel => 29 | SZeroComplete => 28 | SSpawn => 27
  | SReady => 26 | SPop => 25 | SStatus _ => 24 | SSwap _ | SCount _ => 23
  | SSend _ | SPush _ | SCompare => 22 | SCancel => 21 | SComplete => 20
  | SValid => 19 | SCtx => 18 | SStats => 17 | SClose => 16 | SWait => 15 | SExit => 0
  end.

Definition worker_rank (M : nat) (p : worker) : nat :=
  match p with
  | WExit => 0 | WReceived None => 1 | WReceive => 2 | WAnnounce => 3 | WSleep => 4
  | WPushBack _ => 5 | WSetPending _ => 6
  | WAddDuration _ _ => 4 | WAddBytes _ _ _ => 5 | WAddChunks _ _ _ => 6 | WTouch _ _ _ => 7
  | WComplete _ _ _ => 8 | WCancel _ _ _ => 9 | WCompare _ _ _ => 10 | WCount _ _ _ _ => 11
  | WSetTime _ _ _ _ => 12 | WSetDone _ _ _ _ => 13 | WEndTime _ _ _ => 14
  | WSetChecksum _ _ _ _ => 15 | WWrite _ _ _ _ todo _ _ => 16 + length todo
  | WRequest _ _ => 17 + M | WStartTime _ => 18 + M | WReceived (Some _) => 19 + M
  end.

(** Steps left to a downloader with [n] workers. *)
Definition steps_left (M n : nat) (ex : exec) : nat :=
  sched_rank (ex_sched ex) * (3 * n + M + 20) +
  sum_list_with (worker_rank M) (ex_workers ex).

Definition ranges_of (cm : ChunkManager) : list (list FileRange) := FileRanges <$> chunks cm.

Lemma ranges_of_insert cm i c c' :
  chunks cm !! i = Some c → FileRanges c' = FileRanges c →
  ranges_of (set_chunks (<[i := c']> (chunks cm)) cm) = ranges_of cm.
Proof.
  intros Hc Hr. unfold ranges_of. simpl. rewrite list_fmap_insert, Hr.
  apply list_insert_id. by rewrite list_lookup_fmap, Hc.
Qed.

Section ranges.
Context (cm : ChunkManager) (i : nat).
Lemma SetChunkStatusDone_status_ranges cm' :
  SetChunkStatusDone_status i cm = Ok cm' → ranges_of cm' = ranges_of cm.
Proof. intros (c & Hc%index_slice_ok & [= <-])%bind_ok. by eapply ranges_of_insert. Qed.
Lemma SetChunkStatusDone_time_ranges t cm' :
  SetChunkStatusDone_time i t cm = Ok cm' → ranges_of cm' = ranges_of cm.
Proof. intros (c & Hc%index_slice_ok & [= <-])%bind_ok. by eapply ranges_of_insert. Qed.
Lemma SetChunkStatusPending_ranges cm' :
  SetChunkStatusPending i cm = Ok cm' → ranges_of cm' = ranges_of cm.
Proof. intros (c & Hc%index_slice_ok & [= <-])%bind_ok. by eapply ranges_of_insert. Qed.
Lemma UpdateChunkStatus_ranges old new b cm' :
  UpdateChunkStatus i old new cm = Ok (b, cm') → ranges_of cm' = ranges_of cm.
Proof.
  intros (c & Hc%index_slice_ok & H)%bind_ok. unfold UpdateStatus in H.
  case_decide; injection H as <- <-; by eapply ranges_of_insert.
Qed.
Lemma SetChunkChecksum_ranges x cm' :
  SetChunkChecksum i x cm = Ok cm' → ranges_of cm' = ranges_of cm.
Proof. by intros (c & _ & [= <-])%bind_ok. Qed.
End ranges.

Section stopping.
Context {W : Type} (dst : Storage W) (xxh3 : bytes → Z) (onFileComplete : string → Z → io W unit).
Context (verifyOnComplete : bool) (peerNumConcurrent localNumConcurrent : nat).
Context (transferIdleTimeout : Duration).
Context (M : nat).
Implicit Types (m : main W) (s : system W).
Local Abbreviation worker_step := (worker_step dst xxh3 onFileComplete verifyOnComplete).
Local Abbreviation run_event := (run_event dst xxh3 onFileComplete verifyOnComplete
  peerNumConcurrent localNumConcurrent transferIdleTimeout).
Local Abbreviation run_events := (run_events dst xxh3 onFileComplete verifyOnComplete
  peerNumConcurrent localNumConcurrent transferIdleTimeout).
Local Abbreviation num d := (num_concurrent peerNumConcurrent localNumConcurrent d).

Definition ranges_bounded (cm : ChunkManager) : Prop :=
  Forall (λ l, length l ≤ M) (ranges_of cm).

(** A worker's step: one fewer left, the ranges and the cancellation stay. *)
Lemma worker_step_rank inp m ex p m' ex' p' :
  worker_step inp m ex p = Some (Ok (m', ex', p')) → ranges_bounded (mc_ChunkManager m) →
  ranges_of (mc_ChunkManager m') = ranges_of (mc_ChunkManager m) ∧
  (mc_ctx_done m = true → mc_ctx_done m' = true) ∧ worker_rank M p' < worker_rank M p.
Proof.
  intros H Hb. destruct p; cbn [Downloader.worker_step] in H; try discriminate H.
  - simplify_eq. simpl. split_and!; done || lia.
  - case_match; simplify_eq. simpl. split_and!; done || lia.
  - simplify_eq. destruct o; simpl; split_and!; done || lia.
  - destruct inp; simplify_eq. simpl. split_and!; done || lia.
  - destruct inp as [|[[checksum rd]|e|msg]]; try done; simplify_eq.
    + apply bind_ok in H as (c & Hc%index_slice_ok & [= <- <- <-]).
      split_and!; [done..|]. simpl.
      assert (length (FileRanges c) ≤ M); [|lia]. unfold ranges_bounded in Hb.
      rewrite Forall_forall in Hb. apply Hb. unfold ranges_of.
      apply list_elem_of_fmap_2. by eapply list_elem_of_lookup_2.
    + simpl. split_and!; done || lia.
  - destruct todo as [|r todo].
    + repeat case_match; simplify_eq; simpl; split_and!; done || lia.
    + pose proof (write_range_chunks dst onFileComplete r rd (mc_ChunkManager m) (mc_Dst m)) as Hc.
      destruct (write_range _ _ _ _ _) as [res [cm' w']]. cbn [fst snd] in Hc.
      destruct res as [[k rd']|e|msg]; simplify_eq; simpl;
        (split_and!; [unfold ranges_of; simpl; by rewrite Hc|done|lia]).
  - apply some_ok, bind_ok in H as (cm' & Hc%SetChunkChecksum_ranges & [= <- <- <-]).
    simpl. split_and!; done || lia.
  - destruct inp; simplify_eq. simpl. split_and!; done || lia.
  - apply some_ok, bind_ok in H as (cm' & Hc%SetChunkStatusDone_status_ranges & [= <- <- <-]).
    simpl. split_and!; done || lia.
  - apply some_ok, bind_ok in H as (cm' & Hc%SetChunkStatusDone_time_ranges & [= <- <- <-]).
    simpl. split_and!; done || lia.
  - simplify_eq. simpl. split_and!; done || lia.
  - simplify_eq. case_match; simpl; split_and!; done || lia.
  - simplify_eq. simpl. split_and!; done || lia.
  - simplify_eq. simpl. split_and!; done || lia.
  - simplify_eq. simpl. split_and!; done || lia.
  - simplify_eq. simpl. split_and!; done || lia.
  - simplify_eq. simpl. split_and!; done || lia.
  - simplify_eq. simpl. split_and!; done || lia.
  - apply some_ok, bind_ok in H as (cm' & Hc%SetChunkStatusPending_ranges & [= <- <- <-]).
    simpl. split_and!; done || lia.
  - simplify_eq. simpl. split_and!; done || lia.
  - simplify_eq. simpl. split_and!; done || lia.
Qed.

(** A scheduler's step, when the context is cancelled. *)
Lemma sched_step_rank n m ex m' ex' :
  sched_step n m ex = Some (Ok (m', ex')) →
  ranges_of (mc_ChunkManager m') = ranges_of (mc_ChunkManager m) ∧
  (mc_ctx_done m = true → mc_ctx_done m' = true) ∧
  (mc_ctx_done m = true → sched_rank (ex_sched ex') < sched_rank (ex_sched ex)) ∧
  (ex_workers ex' = ex_workers ex ∨
   ex_sched ex = SSpawn ∧ ex_workers ex' = replicate n WAnnounce).
Proof.
  intros H. unfold sched_step in H.
  destruct (ex_sched ex) as [| | | | | | | |i|i|i|i|i| | | | | | |] eqn:E; try done;
    try (simplify_eq; cbn; split_and!; auto; intros; repeat case_match; simpl; lia || done).
  - destruct (Pop _) as [[i ok] q]. simplify_eq. cbn. split_and!; auto.
    intros _. destruct ok; simpl; lia.
  - apply some_ok, bind_ok in H as (st & _ & [= <- <-]). cbn. split_and!; auto.
    intros _. destruct st; simpl; lia.
  - apply some_ok, bind_ok in H as ([b cm] & Hu%UpdateChunkStatus_ranges & [= <- <-]). cbn.
    split_and!; auto. intros _. destruct b; simpl; lia.
  - case_match; [|done]. simplify_eq. cbn. split_and!; auto. intros _. simpl. lia.
Qed.

Lemma sum_announce n : sum_list_with (worker_rank M) (replicate n WAnnounce) = 3 * n.
Proof. induction n as [|n IH]; [done|]. cbn [replicate sum_list_with]. rewrite IH. simpl. lia. Qed.

(** What an event does to downloader [k], unless the process panics. *)
Record stop_step (k : nat) (e : event) (s s' : system W) (ex : exec) : Prop := {
  ss_ranges : ranges_of (mc_ChunkManager (sy_main s')) = ranges_of (mc_ChunkManager (sy_main s));
  ss_ctx : mc_ctx_done (sy_main s) = true → mc_ctx_done (sy_main s') = true;
  ss_exec : ∃ ex', sy_execs s' !! k = Some ex' ∧
    num (ex_downloader ex') = num (ex_downloader ex) ∧
    (mc_ctx_done (sy_main s) = true →
      (if thread_event k e then 1 else 0) + steps_left M (num (ex_downloader ex')) ex'
      ≤ steps_left M (num (ex_downloader ex)) ex)
}.

Lemma stop_step_same k e s ex m' ds :
  sy_execs s !! k = Some ex → thread_event k e = false →
  mc_ChunkManager m' = mc_ChunkManager (sy_main s) →
  (mc_ctx_done (sy_main s) = true → mc_ctx_done m' = true) →
  stop_step k e s (mkSystem m' (sy_execs s) ds) ex.
Proof.
  intros Hk He Hm Hc. constructor; simpl; [by rewrite Hm|done|].
  exists ex. rewrite He. split_and!; [done|done|lia].
Qed.

Lemma stop_step_refl k e s ex :
  sy_execs s !! k = Some ex → thread_event k e = false → stop_step k e s s ex.
Proof.
  intros Hk He. constructor; [done|done|]. exists ex. rewrite He. split_and!; [done|done|lia].
Qed.

(** A step of downloader [k1]. *)
Lemma with_exec_stop k k1 e s f s' ex :
  sy_execs s !! k = Some ex → with_exec k1 s f = Some s' → mc_panicked (sy_main s') = false →
  mc_panicked (sy_main s) = false → (thread_event k e = true → k1 = k) →
  (∀ ex1 m' ex1', sy_execs s !! k1 = Some ex1 → f (sy_main s) ex1 = Some (Ok (m', ex1')) →
    ranges_of (mc_ChunkManager m') = ranges_of (mc_ChunkManager (sy_main s)) ∧
    (mc_ctx_done (sy_main s) = true → mc_ctx_done m' = true) ∧
    num (ex_downloader ex1') = num (ex_downloader ex1) ∧
    (mc_ctx_done (sy_main s) = true →
      (if thread_event k1 e then 1 else 0) + steps_left M (num (ex_downloader ex1')) ex1'
      ≤ steps_left M (num (ex_downloader ex1)) ex1)) →
  stop_step k e s s' ex.
Proof.
  intros Hk Hw Hpan Hpan0 He Hf. unfold with_exec in Hw.
  apply bind_Some in Hw as (ex1 & Hk1 & (r & Hr & [= <-])%bind_Some).
  destruct r as [[m' ex1']|err|msg]; [|done..].
  destruct (Hf _ _ _ Hk1 Hr) as (H1 & H2 & H3 & H4). constructor; simpl; [done..|].
  destruct (decide (k1 = k)) as [->|Hne].
  - simplify_eq. exists ex1'. split_and!; [|done..].
    by rewrite list_lookup_insert_eq by (by eapply lookup_lt_Some).
  - exists ex. rewrite list_lookup_insert_ne by done. split_and!; [done..|].
    destruct (thread_event k e); [by destruct Hne; apply He|]. lia.
Qed.

Lemma thread_event_eq k k1 e :
  thread_event k1 e = true → thread_event k e = true → k1 = k.
Proof. destruct e; simpl; try done; rewrite !bool_decide_eq_true; congruence. Qed.

Lemma with_peer_stop k k1 e s f s' ex :
  sy_execs s !! k = Some ex → with_peer k1 s f = Some s' → mc_panicked (sy_main s') = false →
  mc_panicked (sy_main s) = false → thread_event k e = false → thread_event k1 e = false →
  (∀ d m' d', f (sy_main s) d = Ok (m', d') →
    mc_ChunkManager m' = mc_ChunkManager (sy_main s) ∧
    (mc_ctx_done (sy_main s) = true → mc_ctx_done m' = true)) →
  stop_step k e s s' ex.
Proof.
  intros Hk Hw Hp Hp0 He He1 Hf. eapply with_exec_stop; [done..|by rewrite He|].
  intros ex1 m' ex1' Hk1 H. simpl in H.
  destruct (ex_downloader ex1) as [d|] eqn:E; [|done]. destruct (updating d); [|done].
  apply some_ok, bind_ok in H as ([m1 d'] & Hd & [= <- <-]). destruct (Hf _ _ _ Hd) as [-> Hc].
  split_and!; [done|done|done|]. rewrite He1. unfold steps_left. simpl. lia.
Qed.

Lemma run_event_stop k e s s' ex :
  sys_live peerNumConcurrent localNumConcurrent s → ranges_bounded (mc_ChunkManager (sy_main s)) →
  sy_execs s !! k = Some ex → run_event e s = Some s' → mc_panicked (sy_main s') = false →
  stop_step k e s s' ex.
Proof.
  intros Hlive Hb Hk Hrun Hpan'. unfold Downloader.run_event in Hrun.
  destruct (mc_panicked _) eqn:Hpan; [done|].
  destruct e as [k1|k1 j inp|k1 j|k1 choice al|k1|k1|k1|uuid host|host|now|].
  - eapply with_exec_stop; try done; [by simpl; rewrite bool_decide_eq_true|].
    intros ex1 m' ex1' Hk1 H. pose proof (proj1 (Forall_lookup _ _) Hlive _ _ Hk1) as Hl.
    destruct (sched_step_rank _ _ _ _ _ H) as (H1 & H2 & H3 & H4).
    destruct (sched_step_live peerNumConcurrent localNumConcurrent _ _ _ _ H Hl) as [_ Hn].
    split_and!; [done..|]. intros Hc. specialize (H3 Hc). simpl.
    rewrite bool_decide_eq_true_2 by done. rewrite Hn. unfold steps_left.
    destruct H4 as [->|[E H4]]; [nia|]. rewrite H4, (li_unspawned _ _ Hl) by (by rewrite E).
    rewrite sum_announce. simpl. nia.
  - eapply with_exec_stop; try done; [by simpl; rewrite bool_decide_eq_true|].
    intros ex1 m' ex1' Hk1 H. simpl in H.
    apply bind_Some in H as (p & Hj & (r & Hr & H)%bind_Some).
    apply some_ok, bind_ok in H as ([[m1 ex2] p1] & -> & [= <- <-]).
    pose proof (worker_step_workers _ _ _ _ _ _ _ _ _ _ _ Hr) as Hwk.
    destruct (worker_step_sched _ _ _ _ peerNumConcurrent localNumConcurrent _ _ _ _ _ _ _ Hr)
      as (Hsc & Hn & _).
    destruct (worker_step_rank _ _ _ _ _ _ _ Hr Hb) as (H1 & H2 & H3). simpl.
    split_and!; [done..|]. intros _. rewrite bool_decide_eq_true_2 by done. unfold steps_left.
    simpl. rewrite Hsc, Hwk, Hn.
    pose proof (sum_insert (worker_rank M) _ _ _ p1 Hj). lia.
  - eapply with_exec_stop; try done; [by simpl; rewrite bool_decide_eq_true|].
    intros ex1 m' ex1' Hk1 H. simpl in H. apply bind_Some in H as (p & Hj & H).
    destruct (ex_sched ex1) eqn:E; try done. destruct p; try done. simplify_eq. simpl.
    split_and!; [done..|]. intros _. rewrite bool_decide_eq_true_2 by done. unfold steps_left.
    simpl. rewrite E. pose proof (sum_insert (worker_rank M) _ _ _ (WReceived (Some i)) Hj) as Hs.
    simpl in *. lia.
  - eapply with_peer_stop; try done. intros d m' d' (d1 & _ & [= <- <-])%bind_ok. done.
  - eapply with_peer_stop; try done. by intros d m' d' [= <- <-].
  - eapply with_peer_stop; try done. by intros d m' d' [= <- <-].
  - eapply with_peer_stop; try done. by intros d m' d' [= <- <-].
  - injection Hrun as <-. unfold PeerDownloaders_Add. case_match; [by apply stop_step_refl|].
    constructor; simpl; [done|done|]. exists ex. split_and!; [by apply lookup_app_l_Some|done|lia].
  - injection Hrun as <-. unfold PeerDownloaders_Remove.
    case_match; [|by apply stop_step_refl].
    destruct (sy_execs s !! n) as [ex1|] eqn:Hn; [|by apply stop_step_same].
    constructor; simpl; [done|done|]. destruct (decide (n = k)) as [->|Hne].
    + simplify_eq. eexists.
      rewrite list_lookup_insert_eq by (by eapply lookup_lt_Some). split; [done|]. simpl.
      assert (num (Fin (ex_downloader ex)) = num (ex_downloader ex)) as Hnum
        by (by destruct (ex_downloader ex)).
      rewrite Hnum. split; [done|]. unfold steps_left. simpl. lia.
    + exists ex. rewrite list_lookup_insert_ne by done. split_and!; [done|done|lia].
  - destruct (_ || _) eqn:Hc; [done|]. apply orb_false_iff in Hc as [Hc _]. injection Hrun as <-.
    apply stop_step_same; [done|done|by case_match|by rewrite Hc].
  - injection Hrun as <-. by apply stop_step_same.
Qed.

(** No event changes the ranges of a chunk. *)
Lemma with_exec_ranges k s f s' :
  with_exec k s f = Some s' →
  (∀ ex m' ex', f (sy_main s) ex = Some (Ok (m', ex')) →
    ranges_of (mc_ChunkManager m') = ranges_of (mc_ChunkManager (sy_main s))) →
  ranges_of (mc_ChunkManager (sy_main s')) = ranges_of (mc_ChunkManager (sy_main s)).
Proof.
  unfold with_exec. intros (ex & Hk & (r & Hr & [= <-])%bind_Some)%bind_Some Hf.
  destruct r as [[m' ex']|e|msg]; [|done..]. by eapply Hf.
Qed.

Lemma with_peer_ranges k s f s' :
  with_peer k s f = Some s' →
  (∀ d m' d', f (sy_main s) d = Ok (m', d') →
    mc_ChunkManager m' = mc_ChunkManager (sy_main s)) →
  ranges_of (mc_ChunkManager (sy_main s')) = ranges_of (mc_ChunkManager (sy_main s)).
Proof.
  intros Hw Hf. eapply with_exec_ranges; [done|]. intros ex m' ex' H. simpl in H.
  destruct (ex_downloader ex) as [d|]; [|done]. destruct (updating d); [|done].
  apply some_ok, bind_ok in H as ([m1 d'] & Hd & [= <- <-]). by rewrite (Hf _ _ _ Hd).
Qed.

Lemma run_event_ranges e s s' :
  ranges_bounded (mc_ChunkManager (sy_main s)) → run_event e s = Some s' →
  ranges_of (mc_ChunkManager (sy_main s')) = ranges_of (mc_ChunkManager (sy_main s)).
Proof.
  intros Hb Hrun. unfold Downloader.run_event in Hrun. destruct (mc_panicked _); [done|].
  destruct e as [k1|k1 j inp|k1 j|k1 choice al|k1|k1|k1|uuid host|host|now|].
  - eapply with_exec_ranges; [done|]. intros ex m' ex' H.
    apply (sched_step_rank _ _ _ _ _ H).
  - eapply with_exec_ranges; [done|]. intros ex m' ex' H. simpl in H.
    apply bind_Some in H as (p & Hj & (r & Hr & H)%bind_Some).
    apply some_ok, bind_ok in H as ([[m1 ex2] p1] & -> & [= <- <-]).
    apply (worker_step_rank _ _ _ _ _ _ _ Hr Hb).
  - eapply with_exec_ranges; [done|]. intros ex m' ex' H. simpl in H.
    apply bind_Some in H as (p & Hj & H). repeat case_match; by simplify_eq.
  - eapply with_peer_ranges; [done|]. intros d m' d' (d1 & _ & [= <- <-])%bind_ok. done.
  - eapply with_peer_ranges; [done|]. by intros d m' d' [= <- <-].
  - eapply with_peer_ranges; [done|]. by intros d m' d' [= <- <-].
  - eapply with_peer_ranges; [done|]. by intros d m' d' [= <- <-].
  - injection Hrun as <-. unfold PeerDownloaders_Add. by case_match.
  - injection Hrun as <-. unfold PeerDownloaders_Remove. by case_match.
  - destruct (_ || _); [done|]. injection Hrun as <-. by case_match.
  - by injection Hrun as <-.
Qed.

Lemma run_events_bounded l s s' :
  ranges_bounded (mc_ChunkManager (sy_main s)) → run_events l s = Some s' →
  ranges_bounded (mc_ChunkManager (sy_main s')).
Proof.
  revert s. induction l as [|e l IH]; intros s Hb; simpl; [by intros [= <-]|].
  intros (s1 & H1 & H2)%bind_Some. eapply IH; [|done]. unfold ranges_bounded.
  by rewrite (run_event_ranges _ _ _ Hb H1).
Qed.

Lemma run_event_not_panicked e s s' :
  run_event e s = Some s' → mc_panicked (sy_main s) = false.
Proof. unfold Downloader.run_event. by destruct (mc_panicked _). Qed.

Lemma run_events_stop k l s s' ex :
  sys_live peerNumConcurrent localNumConcurrent s → ranges_bounded (mc_ChunkManager (sy_main s)) →
  sy_execs s !! k = Some ex → mc_ctx_done (sy_main s) = true →
  run_events l s = Some s' → mc_panicked (sy_main s') = false →
  ∃ ex', sy_execs s' !! k = Some ex' ∧ num (ex_downloader ex') = num (ex_downloader ex) ∧
    mc_ctx_done (sy_main s') = true ∧
    length (filter (λ e, thread_event k e = true) l) + steps_left M (num (ex_downloader ex')) ex'
      ≤ steps_left M (num (ex_downloader ex)) ex.
Proof.
  revert s ex. induction l as [|e l IH]; intros s ex Hlive Hb Hk Hc Hrun Hpan.
  { injection Hrun as <-. exists ex. simpl. split_and!; [done..|lia]. }
  simpl in Hrun. apply bind_Some in Hrun as (s1 & H1 & H2).
  assert (mc_panicked (sy_main s1) = false) as Hpan1.
  { destruct l as [|e2 l]; [simpl in H2; by simplify_eq|]. simpl in H2.
    apply bind_Some in H2 as (s2 & H2 & _). by eapply run_event_not_panicked. }
  destruct (run_event_stop _ _ _ _ _ Hlive Hb Hk H1 Hpan1) as [Hr Hctx (ex1 & Hk1 & Hn & Hle)].
  specialize (Hle Hc). assert (ranges_bounded (mc_ChunkManager (sy_main s1))) as Hb1
    by (unfold ranges_bounded; by rewrite Hr).
  destruct (IH s1 ex1 ltac:(by eapply run_event_live) Hb1 Hk1 (Hctx Hc) H2 Hpan)
    as (ex' & Hk' & Hn' & Hc' & Hrest).
  exists ex'. split_and!; [done|by rewrite Hn'|done|].
  rewrite filter_cons. destruct (thread_event k e); simpl; lia.
Qed.

Definition downloader_exited (k : nat) (s : system W) : Prop :=
  ∃ ex, sy_execs s !! k = Some ex ∧ ex_sched ex = SExit ∧ Forall (eq WExit) (ex_workers ex).

(** Left alone after the cancellation, a downloader runs to its exit. *)
Lemma downloader_finishes k n s ex :
  sys_live peerNumConcurrent localNumConcurrent s → ranges_bounded (mc_ChunkManager (sy_main s)) →
  sy_execs s !! k = Some ex → mc_ctx_done (sy_main s) = true → mc_panicked (sy_main s) = false →
  0 < num (ex_downloader ex) → steps_left M (num (ex_downloader ex)) ex ≤ n →
  ∃ l s', Forall (λ e, thread_event k e = true) l ∧ length l ≤ n ∧ run_events l s = Some s' ∧
    (mc_panicked (sy_main s') = false → downloader_exited k s').
Proof.
  revert s ex. induction n as [n IH] using lt_wf_ind. intros s ex Hlive Hb Hk Hc Hpan Hnum Hle.
  destruct (decide (ex_sched ex = SExit)) as [E|E].
  { exists [], s. split_and!; [constructor|simpl; lia|done|]. intros _. exists ex.
    split_and!; [done..|]. eapply li_exit; [|done]. by eapply (proj1 (Forall_lookup _ _) Hlive). }
  destruct (thread_progress dst xxh3 onFileComplete verifyOnComplete peerNumConcurrent
    localNumConcurrent transferIdleTimeout k s ex Hpan Hlive Hk Hnum E) as (e & s1 & He & H1).
  destruct (mc_panicked (sy_main s1)) eqn:Hpan1.
  - exists [e], s1. rewrite Hpan1. split_and!; [by repeat constructor| |simpl; by rewrite H1|done].
    assert (0 < steps_left M (num (ex_downloader ex)) ex); [|simpl; lia]. unfold steps_left.
    destruct (ex_sched ex); try done; simpl; lia.
  - destruct (run_event_stop _ _ _ _ _ Hlive Hb Hk H1 Hpan1) as [Hr Hctx (ex1 & Hk1 & Hn & Hlt)].
    specialize (Hlt Hc). rewrite He in Hlt.
    destruct (IH (pred n) ltac:(lia) s1 ex1) as (l & s' & Hl & Hlen & Hrun & Hend);
      [by eapply run_event_live|unfold ranges_bounded; by rewrite Hr|done|by apply Hctx|done
      |by rewrite Hn|lia|].
    exists (e :: l), s'. split_and!; [by constructor|simpl; lia|simpl; by rewrite H1|done].
Qed.

Lemma with_exec_length k s f s' :
  with_exec k s f = Some s' → length (sy_execs s') = length (sy_execs s).
Proof.
  intros (ex & Hk & (r & Hr & [= <-])%bind_Some)%bind_Some.
  destruct r as [[m' ex']|e|msg]; [|done..]. apply length_insert.
Qed.

Lemma thread_event_length k e s s' :
  thread_event k e = true → run_event e s = Some s' → length (sy_execs s') = length (sy_execs s).
Proof.
  unfold Downloader.run_event. destruct (mc_panicked _); [done|].
  destruct e; try done; intros _; apply with_exec_length.
Qed.

Lemma thread_events_length k l s s' :
  Forall (λ e, thread_event k e = true) l → run_events l s = Some s' →
  length (sy_execs s') = length (sy_execs s).
Proof.
  intros Hl. revert s. induction Hl as [|e l He Hl IH]; intros s; [by intros [= <-]|]. simpl.
  intros (s1 & H1 & H2)%bind_Some. rewrite (IH _ H2). by eapply thread_event_length.
Qed.

Lemma steps_left_exited n ex :
  steps_left M n ex = 0 → ex_sched ex = SExit.
Proof. unfold steps_left. destruct (ex_sched ex); simpl; lia || done. Qed.

Lemma exited_steps_left k s ex :
  sys_live peerNumConcurrent localNumConcurrent s → sy_execs s !! k = Some ex →
  ex_sched ex = SExit → steps_left M (num (ex_downloader ex)) ex = 0.
Proof.
  intros Hlive Hk E. pose proof (proj1 (Forall_lookup _ _) Hlive _ _ Hk) as [_ He _ _].
  specialize (He E). unfold steps_left. rewrite E. simpl.
  induction He as [|p l <- _ IH]; [done|]. simpl. apply IH.
Qed.

(** Left alone after the cancellation, all downloaders run to their exits. *)
Lemma downloaders_finish n s :
  0 < peerNumConcurrent → 0 < localNumConcurrent →
  sys_live peerNumConcurrent localNumConcurrent s → ranges_bounded (mc_ChunkManager (sy_main s)) →
  mc_ctx_done (sy_main s) = true → mc_panicked (sy_main s) = false → n ≤ length (sy_execs s) →
  ∃ l s', Forall (λ e, ∃ k, thread_event k e = true) l ∧ run_events l s = Some s' ∧
    (mc_panicked (sy_main s') = false → mc_ctx_done (sy_main s') = true ∧
      length (sy_execs s') = length (sy_execs s) ∧
      ∀ k ex, k < n → sy_execs s' !! k = Some ex → ex_sched ex = SExit).
Proof.
  intros Hpeer Hlocal Hlive Hb Hc Hpan. induction n as [|n IH]; intros Hn.
  { exists [], s. split_and!; [constructor|done|]. intros _. split_and!; [done|done|lia]. }
  destruct (IH ltac:(lia)) as (l1 & s1 & Hl1 & Hrun1 & Hend1).
  destruct (mc_panicked (sy_main s1)) eqn:Hpan1.
  { exists l1, s1. rewrite Hpan1. by split_and!. }
  destruct (Hend1 eq_refl) as (Hc1 & Hlen1 & Hexit1).
  pose proof (run_events_live _ _ _ _ _ _ _ _ _ _ Hrun1 Hlive) as Hlive1.
  pose proof (run_events_bounded _ _ _ Hb Hrun1) as Hb1.
  destruct (lookup_lt_is_Some_2 (sy_execs s1) n) as [ex Hk]; [lia|].
  destruct (downloader_finishes n (steps_left M (num (ex_downloader ex)) ex) s1 ex Hlive1 Hb1 Hk
    Hc1 Hpan1) as (l2 & s2 & Hl2 & _ & Hrun2 & Hend2); [by destruct (ex_downloader ex)|done|].
  exists (l1 ++ l2), s2. split_and!.
  - apply Forall_app. split; [done|]. eapply Forall_impl; [exact Hl2|].
    intros e He. by exists n.
  - by rewrite (run_events_app _ _ _ _ _ _ _ _ _ _ _ Hrun1).
  - intros Hpan2. pose proof (thread_events_length _ _ _ _ Hl2 Hrun2) as Hlen2.
    destruct (Hend2 Hpan2) as (ex2 & Hk2 & Hex2 & _).
    destruct (run_events_stop _ _ _ _ _ Hlive1 Hb1 Hk Hc1 Hrun2 Hpan2) as (_ & _ & _ & Hc2 & _).
    split_and!; [done|congruence|]. intros k ex' Hkn Hk'.
    destruct (decide (k = n)) as [->|Hne]; [by simplify_eq|].
    destruct (lookup_lt_is_Some_2 (sy_execs s1) k) as [ex1 Hk1]; [lia|].
    destruct (run_events_stop _ _ _ _ _ Hlive1 Hb1 Hk1 Hc1 Hrun2 Hpan2) as (ex'' & Hk'' & _ & _ & Hle).
    assert (ex_sched ex1 = SExit) as Hx1 by (apply (Hexit1 k ex1); [lia|done]).
    pose proof (exited_steps_left _ _ _ Hlive1 Hk1 Hx1). simplify_eq.
    apply (steps_left_exited (num (ex_downloader ex'))). lia.
Qed.
End stopping.

(** * Properties *)

Section properties.
Context {W : Type} (dst : Storage W) (xxh3 : bytes → Z) (onFileComplete : string → Z → io W unit).
Context (verifyOnComplete : bool) (peerNumConcurrent localNumConcurrent : nat).
Context (transferIdleTimeout : Duration).
Context (cm : ChunkManager) (w : W) (now : Time) (stat : Statistics) (from : option (nat → nat)).
Local Abbreviation run_event := (run_event dst xxh3 onFileComplete verifyOnComplete
  peerNumConcurrent localNumConcurrent transferIdleTimeout).
Local Abbreviation run_events := (run_events dst xxh3 onFileComplete verifyOnComplete
  peerNumConcurrent localNumConcurrent transferIdleTimeout).
Local Abbreviation num d := (num_concurrent peerNumConcurrent localNumConcurrent d).

(** C17: no downloader deadlocks: in every reachable state, a downloader whose scheduler has
    not returned has a thread that can take a step (given at least one worker), and when it
    has returned all its workers have. *)
Theorem downloader_never_stuck l s k ex :
  run_events l (init_system cm w now stat from) = Some s →
  mc_panicked (sy_main s) = false →
  sy_execs s !! k = Some ex → 0 < num (ex_downloader ex) →
  if decide (ex_sched ex = SExit) then Forall (eq WExit) (ex_workers ex)
  else ∃ e s', thread_event k e = true ∧ run_event e s = Some s'.
Proof.
  intros Hrun Hpan Hk Hn.
  pose proof (run_events_live _ _ _ _ _ _ _ _ _ _ Hrun (init_live _ _ _ _ _ _ _)) as Hlive.
  case_decide as E; [|by eapply thread_progress].
  eapply li_exit; [|done]. by eapply (proj1 (Forall_lookup _ _) Hlive).
Qed.

(** C18: a cancelled download stops. Once the context is cancelled, by completion, the idle
    timeout or a signal, the threads of a downloader take at most [steps_left] more steps,
    whatever the other downloaders, the peers and the network do in between; and wherever
    they have got to, they can only have stopped by exiting: when the scheduler has returned
    so has every worker, until then one of its threads can always take a step, and the steps
    of its own threads, at most as many as are left, bring it to its exit. (At least one
    worker, as [Init] checks; a panic ends the whole process.) *)
Theorem cancelled_downloader_stops M l0 s l s' k ex :
  Forall (λ c, length (FileRanges c) ≤ M) (chunks cm) →
  run_events l0 (init_system cm w now stat from) = Some s →
  mc_ctx_done (sy_main s) = true → sy_execs s !! k = Some ex → 0 < num (ex_downloader ex) →
  run_events l s = Some s' → mc_panicked (sy_main s') = false →
  ∃ ex', sy_execs s' !! k = Some ex' ∧
    (let left e := steps_left M (num (ex_downloader e)) e in
    length (filter (λ e, thread_event k e = true) l) + left ex' ≤ left ex ∧
    (if decide (ex_sched ex' = SExit) then Forall (eq WExit) (ex_workers ex')
     else ∃ e s'', thread_event k e = true ∧ run_event e s' = Some s'') ∧
    ∃ l' s'', Forall (λ e, thread_event k e = true) l' ∧ length l' ≤ left ex' ∧
      run_events l' s' = Some s'' ∧
      (mc_panicked (sy_main s'') = false → downloader_exited k s'')).
Proof.
  intros HM Hrun Hc Hk Hnum Hrun' Hpan.
  pose proof (run_events_live _ _ _ _ _ _ _ _ _ _ Hrun (init_live _ _ _ _ _ _ _)) as Hlive.
  assert (ranges_bounded M (mc_ChunkManager (sy_main s))) as Hb.
  { eapply run_events_bounded; [|done]. unfold ranges_bounded, ranges_of. by rewrite Forall_fmap. }
  destruct (run_events_stop _ _ _ _ _ _ _ _ _ _ _ _ _ Hlive Hb Hk Hc Hrun' Hpan)
    as (ex' & Hk' & Hn & Hc' & Hle).
  pose proof (run_events_live _ _ _ _ _ _ _ _ _ _ Hrun' Hlive) as Hlive'.
  exists ex'. split; [done|]. cbv zeta. split_and!; [done| |].
  - case_decide as E; [|eapply thread_progress; try done; by rewrite Hn].
    eapply li_exit; [|done]. by eapply (proj1 (Forall_lookup _ _) Hlive').
  - eapply downloader_finishes; try done; [by eapply run_events_bounded|by rewrite Hn].
Qed.
End properties.
