(* ===== verification/MissedUpdate.v ===== *)
(** An update that a peer never hears of: what the lists of http_server.go's [/chunk/list] say
    while the download machine of Downloader.v runs on. *)
From S2P Require Import Prelude Bytes GoStrings Types Storage ChunkBuilder ChunkManager ChunkTransfer ChunkQueue Statistics Availability HttpServer HttpServing Downloader DownloaderSafety DownloaderLiveness.

(** * Invariants of one step *)

(** What the next step of a worker does to the cell of a chunk. *)
Definition cell_update (p : worker) : option (nat * (Chunk → Chunk)) :=
  match p with
  | WSetDone i _ _ _ => Some (i, SetStatus ChunkStatusDone)
  | WSetTime i _ t1 _ => Some (i, SetUpdatedAt t1)
  | WSetPending i => Some (i, SetStatus ChunkStatusPending)
  | _ => None
  end.

Section invariant.
Context {W : Type} (dst : Storage W) (xxh3 : bytes → Z) (onFileComplete : string → Z → io W unit).
Context (verifyOnComplete : bool) (peerNumConcurrent localNumConcurrent : nat).
Context (transferIdleTimeout : Duration).
Implicit Types (s : system W) (m : main W).
Local Abbreviation worker_step := (worker_step dst xxh3 onFileComplete verifyOnComplete).
Local Abbreviation run_event := (run_event dst xxh3 onFileComplete verifyOnComplete
  peerNumConcurrent localNumConcurrent transferIdleTimeout).
Local Abbreviation run_events := (run_events dst xxh3 onFileComplete verifyOnComplete
  peerNumConcurrent localNumConcurrent transferIdleTimeout).

Lemma set_cell i f c cm j :
  chunks cm !! i = Some c →
  chunks (set_chunks (<[i := f c]> (chunks cm)) cm) !! j
  = if decide (i = j) then f <$> chunks cm !! j else chunks cm !! j.
Proof.
  intros Hc. simpl. case_decide as Hij; [|by apply list_lookup_insert_ne].
  subst. rewrite list_lookup_insert_eq by (by eapply lookup_lt_Some). by rewrite Hc.
Qed.

Lemma worker_step_cell inp m ex p m' ex' p' j :
  worker_step inp m ex p = Some (Ok (m', ex', p')) →
  chunks (mc_ChunkManager m') !! j = match cell_update p with
    | Some (i, f) => if decide (i = j) then f <$> chunks (mc_ChunkManager m) !! j
                     else chunks (mc_ChunkManager m) !! j
    | None => chunks (mc_ChunkManager m) !! j
    end.
Proof.
  intros H. destruct p; cbn [Downloader.worker_step cell_update] in *;
    try (apply some_ok, bind_ok in H as (cm' & Hc & [= <- <- <-]));
    try (apply bind_ok in Hc as (c & Hc%index_slice_ok & [= <-]));
    try (by apply set_cell); try (by repeat case_match; simplify_eq).
  - destruct inp as [|[[checksum rd]|e|msg]]; simplify_eq; [|done].
    by apply bind_ok in H as (c & _ & [= <- <- <-]).
  - destruct todo as [|r todo]; [by repeat case_match; simplify_eq|].
    pose proof (write_range_chunks dst onFileComplete r rd (mc_ChunkManager m) (mc_Dst m)) as Hc.
    destruct (write_range _ _ _ _ _) as [res [cm' w']]. cbn [fst snd] in Hc.
    destruct res as [[k rd']|e|msg]; simplify_eq; simpl; by rewrite Hc.
Qed.

(** A scheduler only takes a pending chunk. *)
Lemma sched_step_cell n m ex m' ex' j :
  sched_step n m ex = Some (Ok (m', ex')) →
  chunks (mc_ChunkManager m') !! j = chunks (mc_ChunkManager m) !! j ∨
  ∃ c, chunks (mc_ChunkManager m) !! j = Some c ∧ GetStatus c = ChunkStatusPending ∧
    chunks (mc_ChunkManager m') !! j = Some (SetStatus ChunkStatusDownloading c).
Proof.
  intros H. unfold sched_step in H.
  destruct (ex_sched ex) as [| | | | | | | |i|i|i|i|i| | | | | | |] eqn:E; try done;
    try (left; by simplify_eq).
  - destruct (Pop _) as [[i ok] q]. left. by simplify_eq.
  - apply some_ok, bind_ok in H as (st & _ & [= <- <-]). by left.
  - apply some_ok, bind_ok in H as ([b cm] & (c & Hc%index_slice_ok & Hu)%bind_ok & [= <- <-]).
    unfold UpdateStatus in Hu. case_decide as Hst; injection Hu as <- <-;
      (destruct (decide (i = j)) as [<-|Hne]; [|left; by apply list_lookup_insert_ne]).
    + right. exists c. split_and!; [done..|]. apply list_lookup_insert_eq. by eapply lookup_lt_Some.
    + left. simpl. rewrite Hc. apply list_lookup_insert_eq. by eapply lookup_lt_Some.
  - left. case_match; by simplify_eq.
Qed.

(** An invariant [P] of the chunks together with [Q] of every downloader: it is enough that
    the steps of a scheduler, of a worker and of the channel keep them. *)
Context (P : list Chunk → Prop) (Q : exec → Prop).
Hypothesis Q_sched : ∀ n s k ex m' ex',
  sys_inv s → sy_execs s !! k = Some ex → sched_step n (sy_main s) ex = Some (Ok (m', ex')) →
  P (chunks (mc_ChunkManager (sy_main s))) → Q ex →
  P (chunks (mc_ChunkManager m')) ∧ Q ex'.
Hypothesis Q_worker : ∀ inp s k j ex p m' ex' p',
  sys_inv s → sy_execs s !! k = Some ex → ex_workers ex !! j = Some p →
  worker_step inp (sy_main s) ex p = Some (Ok (m', ex', p')) →
  P (chunks (mc_ChunkManager (sy_main s))) → Q ex →
  P (chunks (mc_ChunkManager m')) ∧ Q (set_worker j p' ex').
Hypothesis Q_send : ∀ ex i j, Q ex → ex_sched ex = SSend i → ex_workers ex !! j = Some WReceive →
  Q (set_worker j (WReceived (Some i)) (set_sched SValid ex)).
Hypothesis Q_downloader : ∀ ex d, Q ex → Q (set_downloader d ex).
Hypothesis Q_new : ∀ d, Q (newExec d).

Definition both_inv s : Prop :=
  P (chunks (mc_ChunkManager (sy_main s))) ∧ Forall Q (sy_execs s).

Lemma with_exec_both k s f s' :
  both_inv s → with_exec k s f = Some s' →
  (∀ ex m' ex', sy_execs s !! k = Some ex → f (sy_main s) ex = Some (Ok (m', ex')) → Q ex →
    P (chunks (mc_ChunkManager m')) ∧ Q ex') →
  both_inv s'.
Proof.
  intros [HP HQ] (ex & Hk & (r & Hr & [= <-])%bind_Some)%bind_Some Hf.
  destruct r as [[m' ex']|e|msg]; [|done..].
  destruct (Hf _ _ _ Hk Hr) as [HP' HQ']; [by eapply (proj1 (Forall_lookup _ _) HQ)|].
  split; [done|]. by apply Forall_insert.
Qed.

Lemma with_peer_both k s f s' :
  both_inv s → with_peer k s f = Some s' →
  (∀ d m' d', f (sy_main s) d = Ok (m', d') → mc_ChunkManager m' = mc_ChunkManager (sy_main s)) →
  both_inv s'.
Proof.
  intros Hs Hw Hf. eapply with_exec_both; [done..|]. intros ex m' ex' Hk H HQ. simpl in H.
  destruct (ex_downloader ex) as [d|]; [|done]. destruct (updating d); [|done].
  apply some_ok, bind_ok in H as ([m1 d'] & Hd & [= <- <-]). rewrite (Hf _ _ _ Hd).
  split; [apply Hs|by apply Q_downloader].
Qed.

Lemma run_event_both e s s' :
  sys_inv s → run_event e s = Some s' → both_inv s → both_inv s'.
Proof.
  intros Hinv Hrun Hs. unfold Downloader.run_event in Hrun. destruct (mc_panicked _); [done|].
  destruct e as [k|k j inp|k j|k choice al|k|k|k|uuid host|host|now|].
  - eapply with_exec_both; [done..|]. intros ex m' ex' Hk H HQ.
    eapply Q_sched; [exact Hinv|exact Hk|exact H|apply Hs|done].
  - eapply with_exec_both; [done..|]. intros ex m' ex' Hk H HQ. simpl in H.
    apply bind_Some in H as (p & Hj & (r & Hr & H)%bind_Some).
    apply some_ok, bind_ok in H as ([[m1 ex1] p1] & -> & [= <- <-]).
    eapply Q_worker; [exact Hinv|exact Hk|exact Hj|exact Hr|apply Hs|done].
  - eapply with_exec_both; [done..|]. intros ex m' ex' Hk H HQ. simpl in H.
    apply bind_Some in H as (p & Hj & H). destruct (ex_sched ex) eqn:E; try done.
    destruct p; try done. simplify_eq. split; [apply Hs|by apply Q_send].
  - eapply with_peer_both; [done..|]. by intros d m' d' (d1 & _ & [= <- <-])%bind_ok.
  - eapply with_peer_both; [done..|]. by intros d m' d' [= <- <-].
  - eapply with_peer_both; [done..|]. by intros d m' d' [= <- <-].
  - eapply with_peer_both; [done..|]. by intros d m' d' [= <- <-].
  - injection Hrun as <-. unfold PeerDownloaders_Add. case_match; [done|]. split; [apply Hs|].
    apply Forall_app. split; [apply Hs|by repeat constructor].
  - injection Hrun as <-. unfold PeerDownloaders_Remove. case_match; [|done].
    split; [apply Hs|]. simpl. destruct (sy_execs s !! n) as [ex|] eqn:Hk; [|apply Hs].
    apply Forall_insert; [apply Hs|]. apply Q_downloader.
    by eapply (proj1 (Forall_lookup _ _) (proj2 Hs)).
  - destruct (_ || _); [done|]. injection Hrun as <-. by case_match.
  - by injection Hrun as <-.
Qed.

Lemma run_events_both l s s' :
  (Z.of_nat (GetChunkCount (mc_ChunkManager (sy_main s))) < 2 ^ 63)%Z →
  sys_inv s → run_events l s = Some s' → both_inv s → both_inv s'.
Proof.
  revert s. induction l as [|e l IH]; intros s Hsmall Hinv; simpl; [by intros [= <-]|].
  intros (s1 & H1 & H2)%bind_Some Hs.
  destruct (run_event_inv _ _ _ _ _ _ _ _ _ _ H1 Hsmall Hinv) as [Hl Hs1].
  rewrite <- Hl in Hsmall.
  eapply IH; [done..|exact (run_event_both _ _ _ Hinv H1 Hs)].
Qed.
End invariant.

(** * The time stamps

    A chunk that is not Done has never been stamped. *)
Definition unstamped (l : list Chunk) : Prop :=
  Forall (λ c, GetStatus c ≠ ChunkStatusDone → GetUpdatedAt c = time_zero) l.

(** What the rest of the run can still store for chunk [i], when the worker that has it has
    read the clock not later than [now]. *)
Definition late_worker (i : nat) (now : Time) (p : worker) : Prop :=
  match p with
  | WSetDone i' _ t1 _ | WSetTime i' _ t1 _ => i' = i → (t1 ≤ now)%Z
  | _ => worker_owns p ≠ Some i
  end.
Definition late_exec (i : nat) (now : Time) (ex : exec) : Prop :=
  sched_owns (ex_sched ex) ≠ Some i ∧ Forall (late_worker i now) (ex_workers ex).
Definition late_chunk (i : nat) (now : Time) (l : list Chunk) : Prop :=
  ∃ c, l !! i = Some c ∧ GetStatus c ≠ ChunkStatusPending ∧ (GetUpdatedAt c ≤ now)%Z.

Section stamps.
Context {W : Type} (dst : Storage W) (xxh3 : bytes → Z) (onFileComplete : string → Z → io W unit).
Context (verifyOnComplete : bool) (peerNumConcurrent localNumConcurrent : nat).
Context (transferIdleTimeout : Duration).
Implicit Types (s : system W) (m : main W).
Local Abbreviation worker_step := (worker_step dst xxh3 onFileComplete verifyOnComplete).
Local Abbreviation run_event := (run_event dst xxh3 onFileComplete verifyOnComplete
  peerNumConcurrent localNumConcurrent transferIdleTimeout).
Local Abbreviation run_events := (run_events dst xxh3 onFileComplete verifyOnComplete
  peerNumConcurrent localNumConcurrent transferIdleTimeout).

Lemma run_events_unstamped l s s' :
  (Z.of_nat (GetChunkCount (mc_ChunkManager (sy_main s))) < 2 ^ 63)%Z →
  sys_inv s → run_events l s = Some s' →
  unstamped (chunks (mc_ChunkManager (sy_main s))) →
  unstamped (chunks (mc_ChunkManager (sy_main s'))).
Proof.
  intros Hsmall Hinv Hrun Hu.
  refine (proj1 (run_events_both _ _ _ _ _ _ _ unstamped (λ _, True) _ _ _ _ _ l s s' Hsmall Hinv
    Hrun (conj Hu (proj2 (Forall_forall _ _) (λ _ _, I))))); try done.
  - intros n s0 k ex m' ex' _ _ H Hs _. split; [|done]. apply Forall_lookup. intros i c Hc.
    unfold unstamped in Hs. rewrite Forall_lookup in Hs.
    destruct (sched_step_cell _ _ _ _ _ i H) as [E|(c0 & Hc0 & Hst & E)]; rewrite E in Hc.
    + by eapply Hs.
    + injection Hc as <-. intros _. cbn. apply (Hs _ _ Hc0). by rewrite Hst.
  - intros inp s0 k j ex p m' ex' p' Hi Hk Hj H Hs _. split; [|done]. apply Forall_lookup.
    intros i c Hc. unfold unstamped in Hs. rewrite Forall_lookup in Hs.
    rewrite (worker_step_cell _ _ _ _ _ _ _ _ _ _ _ i H) in Hc.
    destruct (cell_update p) as [[i' f]|] eqn:Hp; [|by eapply Hs].
    destruct (decide (i' = i)) as [->|]; [|by eapply Hs].
    apply fmap_Some in Hc as (c0 & Hc0 & ->).
    pose proof (worker_pre _ _ _ _ _ Hi Hk Hj) as Hpre.
    pose proof (proj1 (Forall_lookup _ _) (ei_workers _ _ (tp_inv _ _ _ _ Hpre)) _ _ Hj) as Hok.
    destruct p; simpl in Hp; try done; simplify_eq; cbn [GetUpdatedAt SetStatus SetUpdatedAt GetStatus];
      try done.
    + intros Hn. destruct Hn. unfold worker_ok, chunk_done, chunk_status in Hok.
      rewrite Hc0 in Hok. by injection Hok.
    + intros _. apply (Hs _ _ Hc0).
      pose proof (tp_owns _ _ _ _ Hpre i eq_refl) as Hd. unfold chunk_status in Hd.
      rewrite Hc0 in Hd. injection Hd as ->. done.
Qed.

(** A scheduler that has a chunk to send has just found it pending. *)
Lemma sched_step_sends n m ex m' ex' i :
  sched_step n m ex = Some (Ok (m', ex')) → sched_owns (ex_sched ex') = Some i →
  ∃ c, chunks (mc_ChunkManager m) !! i = Some c ∧ GetStatus c = ChunkStatusPending.
Proof.
  intros H Ho. unfold sched_step in H.
  destruct (ex_sched ex) as [| | | | | | | |i'|i'|i'|i'|i'| | | | | | |] eqn:E; try done;
    try (simplify_eq; by repeat case_match).
  - destruct (Pop _) as [[i' ok] q]. simplify_eq. by destruct ok.
  - apply some_ok, bind_ok in H as (st & _ & [= <- <-]). by destruct st.
  - apply some_ok, bind_ok in H as ([b cm] & (c & Hc%index_slice_ok & Hu)%bind_ok & [= <- <-]).
    unfold UpdateStatus in Hu. case_decide as Hst; injection Hu as <- <-; [|done].
    injection Ho as <-. by exists c.
  - case_match; by simplify_eq.
Qed.

Lemma worker_step_late i now inp m ex p m' ex' p' :
  worker_step inp m ex p = Some (Ok (m', ex', p')) → late_worker i now p → late_worker i now p'.
Proof.
  intros H. destruct p; cbn [Downloader.worker_step] in H; try destruct todo;
    try destruct (write_range _ _ _ _ _) as [[[]| |] []]; repeat case_match; simplify_eq; try done;
    try (apply bind_ok in H as (? & _ & [= _ _ <-])); cbn; try done.
  intros Hne ->. by destruct Hne.
Qed.

(** Once the clock has been read, the stamp stays old. *)
Lemma run_events_late i now l s s' :
  (Z.of_nat (GetChunkCount (mc_ChunkManager (sy_main s))) < 2 ^ 63)%Z →
  sys_inv s → run_events l s = Some s' →
  both_inv (late_chunk i now) (late_exec i now) s →
  both_inv (late_chunk i now) (late_exec i now) s'.
Proof.
  intros Hsmall Hinv Hrun Hs. eapply run_events_both; [..|done|done|exact Hrun|done].
  - intros n s0 k ex m' ex' Hi Hk H (c & Hc & Hst & Ht) [Hsch Hw].
    destruct (sched_step_cell _ _ _ _ _ i H) as [E|(c0 & Hc0 & Hst0 & E)]; [|congruence].
    split; [exists c; by rewrite E|]. split.
    + intros Ho. destruct (sched_step_sends _ _ _ _ _ _ H Ho) as (c1 & Hc1 & Hp). congruence.
    + destruct (sched_step_rank _ _ _ _ _ H) as (_ & _ & _ & [->|[_ ->]]); [done|].
      by apply Forall_replicate.
  - intros inp s0 k j ex p m' ex' p' Hi Hk Hj H (c & Hc & Hst & Ht) [Hsch Hw].
    pose proof (proj1 (Forall_lookup _ _) Hw _ _ Hj) as Hp. split.
    + pose proof (worker_step_cell _ _ _ _ _ _ _ _ _ _ _ i H) as E. rewrite Hc in E.
      unfold late_chunk. rewrite E. destruct p; cbn [cell_update]; try (by exists c);
        (case_decide as Heq; [subst|by exists c]); eexists; (split; [done|]); cbn in *; try done.
      split; [done|auto].
    + destruct (worker_step_sched _ _ _ _ peerNumConcurrent localNumConcurrent _ _ _ _ _ _ _ H)
        as (Hsc & _).
      pose proof (worker_step_workers _ _ _ _ _ _ _ _ _ _ _ H) as Hwk.
      split; cbn; rewrite ?Hsc, ?Hwk; [done|]. apply Forall_insert; [done|].
      by eapply worker_step_late.
  - intros ex i' j [Hsch Hw] E Hj. split; [done|]. cbn. apply Forall_insert; [done|]. cbn.
    intros [= ->]. by rewrite E in Hsch.
  - by intros ex d [].
  - intros d. by split; [|constructor].
Qed.

(** The worker that has read the clock is the only one that has the chunk. *)
Lemma late_start i now s k j ex t0 t1 n :
  sys_inv s → unstamped (chunks (mc_ChunkManager (sy_main s))) → (0 ≤ now)%Z → (t1 ≤ now)%Z →
  sy_execs s !! k = Some ex → ex_workers ex !! j = Some (WSetDone i t0 t1 n) →
  both_inv (late_chunk i now) (late_exec i now) s ∧
  GetChunkStatus i (mc_ChunkManager (sy_main s)) = Ok ChunkStatusDownloading.
Proof.
  intros Hinv Hu Hnow Ht Hk Hj.
  assert (thread_holds s k (TWorker j) = Some i) as Hh
    by (unfold thread_holds; rewrite Hk; cbn; by rewrite Hj).
  assert (chunk_status (mc_ChunkManager (sy_main s)) i = Some ChunkStatusDownloading) as Hst
    by (apply holder_exists; eauto).
  split; [|by apply GetChunkStatus_ok]. split.
  - unfold chunk_status in Hst. apply fmap_Some in Hst as (c & Hc & Hst). exists c.
    split_and!; [done|by rewrite <- Hst|].
    rewrite (proj1 (Forall_lookup _ _) Hu i c Hc) by (by rewrite <- Hst). done.
  - apply Forall_lookup. intros k' ex' Hk'. split.
    + intros Ho. destruct (holder_unique s k (TWorker j) k' TScheduler i Hinv Hh); [|done].
      unfold thread_holds. by rewrite Hk'.
    + apply Forall_lookup. intros j' p Hj'.
      assert (worker_owns p = Some i → k = k' ∧ j = j') as Huniq
        by (by eapply owner_unique).
      pose proof (proj1 (Forall_lookup _ _) (si_execs _ Hinv) _ _ Hk') as He.
      pose proof (proj1 (Forall_lookup _ _) (ei_workers _ _ He) _ _ Hj') as Hok.
      destruct p; cbn in *; try done;
        try (intros [= ->]; destruct (Huniq eq_refl) as [-> ->]; by simplify_eq).
      intros ->. unfold chunk_done in Hok. congruence.
Qed.

Lemma late_not_listed {V} i now later since s (sv : server V) :
  both_inv (late_chunk i now) (late_exec i now) s → (now ≤ since)%Z →
  sv_ChunkManager sv = mc_ChunkManager (sy_main s) →
  Z.of_nat i ∉ TransferChunkIndexList (server_list later since sv).
Proof.
  intros [(c & Hc & _ & Ht) _] Hsince Hcm. unfold server_list. destruct (sv_Completed sv).
  { by intros ?%not_elem_of_nil. }
  cbn. rewrite list_elem_of_fmap.
  intros (j & ->%Nat2Z.inj & (c' & Hc' & _ & Hu)%GetStatusDoneChunks_spec).
  rewrite Hcm, Hc in Hc'. injection Hc' as <-. lia.
Qed.
End stamps.

(** * The property *)

Section property.
Context {W : Type} (dst : Storage W) (xxh3 : bytes → Z) (onFileComplete : string → Z → io W unit).
Context (verifyOnComplete : bool) (peerNumConcurrent localNumConcurrent : nat).
Context (transferIdleTimeout : Duration).
Context (cm : ChunkManager) (w : W) (start : Time) (stat : Statistics) (from : option (nat → nat)).
Local Abbreviation run_event := (run_event dst xxh3 onFileComplete verifyOnComplete
  peerNumConcurrent localNumConcurrent transferIdleTimeout).
Local Abbreviation run_events := (run_events dst xxh3 onFileComplete verifyOnComplete
  peerNumConcurrent localNumConcurrent transferIdleTimeout).

(** C28: an update can be missed for good. In any reachable state of the download let a worker
    have read the clock, [t1], and not have stored the Done status yet; let a list be made
    now, stamped [now], not before [t1]. The list does not have the chunk, whatever it is
    asked for since. The worker's next step makes the chunk Done. And yet, however the download
    goes on, whatever other chunks become Done and whenever the next lists are made, no list
    that is asked for since [now], or since any later list's stamp, names the chunk: a peer
    that asks so only learns of it when the server reports that it has everything. *)
Theorem missed_update {V} l0 s k j ex i t0 t1 n now :
  Forall (λ c, GetStatus c = ChunkStatusPending ∧ GetUpdatedAt c = time_zero) (chunks cm) →
  (Z.of_nat (GetChunkCount cm) < 2 ^ 63)%Z →
  run_events l0 (init_system cm w start stat from) = Some s → mc_panicked (sy_main s) = false →
  sy_execs s !! k = Some ex → ex_workers ex !! j = Some (WSetDone i t0 t1 n) →
  (0 ≤ now)%Z → (t1 ≤ now)%Z →
  (∀ since (sv : server V), sv_ChunkManager sv = mc_ChunkManager (sy_main s) →
    Z.of_nat i ∉ TransferChunkIndexList (server_list now since sv)) ∧
  (∃ s1, run_event (EvWorker k j (Now t1)) s = Some s1 ∧
    GetChunkStatus i (mc_ChunkManager (sy_main s1)) = Ok ChunkStatusDone) ∧
  (∀ l s' later since (sv : server V), run_events l s = Some s' → (now ≤ since)%Z →
    sv_ChunkManager sv = mc_ChunkManager (sy_main s') →
    Z.of_nat i ∉ TransferChunkIndexList (server_list later since sv)).
Proof.
  intros Hcm Hsmall Hrun Hpan Hk Hj Hnow Ht.
  assert (sys_inv (init_system cm w start stat from)) as Hinv0.
  { apply init_inv. eapply Forall_impl; [exact Hcm|]. by intros c []. }
  destruct (run_events_inv _ _ _ _ _ _ _ _ _ _ Hrun Hsmall Hinv0) as [Hcount Hinv].
  assert (unstamped (chunks (mc_ChunkManager (sy_main s)))) as Hu.
  { eapply run_events_unstamped; [..|exact Hrun|]; [done..|].
    eapply Forall_impl; [exact Hcm|]. by intros c []. }
  destruct (late_start _ _ _ _ _ _ _ _ _ Hinv Hu Hnow Ht Hk Hj) as [Hlate Hst].
  unfold GetChunkStatus in Hst. apply bind_ok in Hst as (c & Hc%index_slice_ok & [= Hst]).
  split_and!.
  - intros since sv Hsv. unfold server_list. destruct (sv_Completed sv).
    { by intros ?%not_elem_of_nil. }
    cbn. rewrite list_elem_of_fmap.
    intros (j' & ->%Nat2Z.inj & (c' & Hc' & Hd & _)%GetStatusDoneChunks_spec). congruence.
  - eexists. split.
    + unfold Downloader.run_event. rewrite Hpan. unfold with_exec. rewrite Hk. cbn.
      rewrite Hj. cbn. unfold SetChunkStatusDone_status. rewrite (index_slice_lookup _ _ _ Hc).
      reflexivity.
    + cbn. unfold GetChunkStatus. cbn.
      rewrite (index_slice_lookup _ i (SetStatus ChunkStatusDone c)); [done|].
      apply list_lookup_insert_eq. by eapply lookup_lt_Some.
  - intros l s' later since sv Hrun' Hsince Hsv. eapply late_not_listed; [|done..].
    eapply run_events_late; [| |exact Hrun'|done]; [by rewrite Hcount|done].
Qed.
End property.
