(* ===== verification/DownloaderData.v ===== *)
(** The data invariants of the download machine: whatever the interleaving of the workers'
    range writes, a chunk that is done holds the source's bytes, and no goroutine panics. *)
From S2P Require Import Prelude Bytes GoStrings Types Storage ChunkBuilder ChunkManager ChunkTransfer ChunkQueue Statistics Availability Delivery Downloader DownloaderSafety.

(** * What never changes *)

(** The manager up to statuses, counters and cached checksums. *)
Record meta_ok (cm0 cm : ChunkManager) : Prop := {
  mo_ranges : FileRanges <$> chunks cm = FileRanges <$> chunks cm0;
  mo_files : same_files (cm_files cm) (cm_files cm0);
  mo_sums : length (chunkChecksums cm) = length (chunks cm)
}.

Lemma meta_chunk cm0 cm i c :
  meta_ok cm0 cm → chunks cm !! i = Some c →
  ∃ c0, chunks cm0 !! i = Some c0 ∧ FileRanges c0 = FileRanges c.
Proof.
  intros [Hr _ _] Hc. assert ((FileRanges <$> chunks cm0) !! i = Some (FileRanges c)) as H
    by (by rewrite <- Hr, list_lookup_fmap, Hc).
  rewrite list_lookup_fmap in H. destruct (chunks cm0 !! i) as [c0|]; [|done].
  simpl in H. exists c0. by simplify_eq.
Qed.

Lemma meta_count cm0 cm : meta_ok cm0 cm → GetChunkCount cm = GetChunkCount cm0.
Proof. intros [Hr _ _]. apply (f_equal length) in Hr. by rewrite !length_fmap in Hr. Qed.

Lemma meta_set_chunk cm0 cm i c c' :
  meta_ok cm0 cm → chunks cm !! i = Some c → FileRanges c' = FileRanges c →
  meta_ok cm0 (set_chunks (<[i := c']> (chunks cm)) cm).
Proof.
  intros [Hr Hf Hs] Hc Hcc. constructor; simpl; [|done|by rewrite length_insert].
  rewrite list_fmap_insert, Hcc, list_insert_id; [done|]. by rewrite list_lookup_fmap, Hc.
Qed.

(** The status operations succeed on chunks that exist, and change nothing but statuses. *)
Section operations.
Context (cm0 cm : ChunkManager) (i : nat).
Hypothesis Hmeta : meta_ok cm0 cm.
Hypothesis Hi : is_Some (chunks cm !! i).

Lemma GetChunkStatus_total : ∃ s, GetChunkStatus i cm = Ok s.
Proof.
  destruct Hi as [c Hc]. unfold GetChunkStatus. rewrite (index_slice_lookup _ _ _ Hc). by eexists.
Qed.

Lemma UpdateChunkStatus_total old new :
  ∃ b cm', UpdateChunkStatus i old new cm = Ok (b, cm') ∧ meta_ok cm0 cm'.
Proof.
  destruct Hi as [c Hc]. unfold UpdateChunkStatus. rewrite (index_slice_lookup _ _ _ Hc).
  unfold mbind, result_bind, UpdateStatus. case_decide; do 2 eexists; (split; [done|]);
    by eapply meta_set_chunk.
Qed.

Lemma SetChunkStatusDone_status_total :
  ∃ cm', SetChunkStatusDone_status i cm = Ok cm' ∧ meta_ok cm0 cm'.
Proof.
  destruct Hi as [c Hc]. unfold SetChunkStatusDone_status. rewrite (index_slice_lookup _ _ _ Hc).
  eexists; split; [done|]. by eapply meta_set_chunk.
Qed.

Lemma SetChunkStatusDone_time_total t :
  ∃ cm', SetChunkStatusDone_time i t cm = Ok cm' ∧ meta_ok cm0 cm'.
Proof.
  destruct Hi as [c Hc]. unfold SetChunkStatusDone_time. rewrite (index_slice_lookup _ _ _ Hc).
  eexists; split; [done|]. by eapply meta_set_chunk.
Qed.

Lemma SetChunkStatusPending_total :
  ∃ cm', SetChunkStatusPending i cm = Ok cm' ∧ meta_ok cm0 cm'.
Proof.
  destruct Hi as [c Hc]. unfold SetChunkStatusPending. rewrite (index_slice_lookup _ _ _ Hc).
  eexists; split; [done|]. by eapply meta_set_chunk.
Qed.

Lemma SetChunkChecksum_total s : ∃ cm', SetChunkChecksum i s cm = Ok cm' ∧ meta_ok cm0 cm'.
Proof.
  destruct (lookup_lt_is_Some_2 (chunkChecksums cm) i) as [x Hx].
  { rewrite (mo_sums _ _ Hmeta). by apply lookup_lt_is_Some. }
  unfold SetChunkChecksum. rewrite (index_slice_lookup _ _ _ Hx). eexists; split; [done|].
  destruct Hmeta as [Hr Hf Hs]. constructor; simpl; [done|done|]. by rewrite length_insert.
Qed.
End operations.

Lemma chunk_status_lookup cm i s : chunk_status cm i = Some s → is_Some (chunks cm !! i).
Proof. unfold chunk_status. destruct (chunks cm !! i); naive_solver. Qed.

(** * The invariant *)

Section data.
Context {W : Type} (dst : Storage W) `{!StorageSpec dst}.
Context {V : Type} (src : Storage V) `{!StorageSpec src} (v : V).
Context (xxh3 : bytes → Z) (onFileComplete : string → Z → io W unit).
Hypothesis onFileComplete_ok : ∀ p s w,
  (onFileComplete p s w).1 = Ok () ∧ same_view dst w (onFileComplete p s w).2.
Context (cm0 : ChunkManager).
Hypothesis Hok : manager_ok cm0.
Hypothesis Hsrc : sized src v (cm_files cm0).

(** Chunk [i] of the destination is the source's. *)
Definition chunk_delivered (w : W) (i : nat) : Prop :=
  ∀ c, chunks cm0 !! i = Some c →
    chunk_bytes dst w (cm_files cm0) (FileRanges c)
    = chunk_bytes src v (cm_files cm0) (FileRanges c).

(** What [RequestDownload] may answer: see [good_attempt]. *)
Definition good_response (i : nat) (checksum : Z) (rd : reader) : Prop :=
  good_attempt src v xxh3 (cm_files cm0) (chunks cm0) (mkAttempt i rd checksum).

(** How far a worker is with its chunk. *)
Definition worker_data (w : W) (p : worker) : Prop :=
  match p with
  | WWrite i _ checksum rd0 todo rd n => ∃ c written,
      chunks cm0 !! i = Some c ∧ FileRanges c = written ++ todo ∧
      chunk_bytes dst w (cm_files cm0) written
        = Some (take (Z.to_nat (ranges_len written)) (rd_data rd0)) ∧
      rd_data rd = drop (Z.to_nat (ranges_len written)) (rd_data rd0) ∧
      Z.to_nat (ranges_len written) ≤ length (rd_data rd0) ∧
      n = ranges_len written ∧ good_response i checksum rd0
  | WSetChecksum i _ _ _ | WEndTime i _ _ | WSetDone i _ _ _ => chunk_delivered w i
  | _ => True
  end.

Record data_inv (s : system W) : Prop := {
  da_meta : meta_ok cm0 (mc_ChunkManager (sy_main s));
  da_prepared : prepared dst (mc_Dst (sy_main s)) (cm_files cm0);
  da_done i : chunk_done (mc_ChunkManager (sy_main s)) i →
    chunk_delivered (mc_Dst (sy_main s)) i;
  da_workers k j ex p : sy_execs s !! k = Some ex → ex_workers ex !! j = Some p →
    worker_data (mc_Dst (sy_main s)) p;
  da_panicked : mc_panicked (sy_main s) = false
}.

(** A world that differs only in chunk [i]. *)
Definition chunk_frame (i : nat) (w w' : W) : Prop :=
  ∀ i' c l, i' ≠ i → chunks cm0 !! i' = Some c → (∀ r, r ∈ l → r ∈ FileRanges c) →
    chunk_bytes dst w' (cm_files cm0) l = chunk_bytes dst w (cm_files cm0) l.

Lemma chunk_frame_delivered i w w' i' :
  chunk_frame i w w' → i' ≠ i → chunk_delivered w i' → chunk_delivered w' i'.
Proof. intros Hf Hne Hd c Hc. rewrite (Hf i' c) by done. by apply Hd. Qed.

Lemma chunk_frame_worker i w w' p :
  chunk_frame i w w' → worker_owns p ≠ Some i → worker_data w p → worker_data w' p.
Proof.
  intros Hf Hne. destruct p; simpl in *; try done.
  - intros (c & written & Hc & Hr & Hb & Hrest). exists c, written. split_and!; try apply Hrest; try done.
    rewrite (Hf i0 c written); [done|congruence|done|]. intros r. rewrite Hr. set_solver.
  - intros H. eapply chunk_frame_delivered; [done|congruence|done].
  - intros H. eapply chunk_frame_delivered; [done|congruence|done].
  - intros H. eapply chunk_frame_delivered; [done|congruence|done].
Qed.

(** ** One range of a chunk *)

Lemma chunk_ranges_disjoint i i' c c' r r' :
  i ≠ i' → chunks cm0 !! i = Some c → chunks cm0 !! i' = Some c' →
  r ∈ FileRanges c → r' ∈ FileRanges c' → ranges_disjoint r r'.
Proof.
  intros. eapply (all_ranges_lookup (chunks cm0) i i' c c'); try done.
  eapply layout_disjoint. apply Hok.
Qed.

Lemma chunk_bytes_frame w w' l :
  (∀ r, r ∈ l → range_bytes dst w' (cm_files cm0) r = range_bytes dst w (cm_files cm0) r) →
  chunk_bytes dst w' (cm_files cm0) l = chunk_bytes dst w (cm_files cm0) l.
Proof. intros H. by apply chunk_bytes_ext. Qed.

Lemma write_range_data cm w i c written r todo rd0 rd :
  meta_ok cm0 cm → prepared dst w (cm_files cm0) →
  chunks cm0 !! i = Some c → FileRanges c = written ++ r :: todo →
  chunk_bytes dst w (cm_files cm0) written
    = Some (take (Z.to_nat (ranges_len written)) (rd_data rd0)) →
  rd_data rd = drop (Z.to_nat (ranges_len written)) (rd_data rd0) →
  Z.to_nat (ranges_len written) ≤ length (rd_data rd0) →
  post (write_range dst onFileComplete r rd) (cm, w) (λ res '(cm', w'),
    meta_ok cm0 cm' ∧ prepared dst w' (cm_files cm0) ∧ chunk_frame i w w' ∧
    chunks cm' = chunks cm ∧
    match res with
    | Ok (k, rd') =>
        wrap 64 (ranges_len written + k) = ranges_len (written ++ [r]) ∧
        chunk_bytes dst w' (cm_files cm0) (written ++ [r])
          = Some (take (Z.to_nat (ranges_len (written ++ [r]))) (rd_data rd0)) ∧
        rd_data rd' = drop (Z.to_nat (ranges_len (written ++ [r]))) (rd_data rd0) ∧
        Z.to_nat (ranges_len (written ++ [r])) ≤ length (rd_data rd0)
    | Err _ => True
    | Panic _ => False
    end).
Proof.
  intros Hmeta Hp Hc Hr Hwb Hdata Hlen.
  destruct (manager_chunk _ _ _ Hok Hc) as (Hin & Hd & Hsmall).
  rewrite Hr in Hin, Hd, Hsmall. apply Forall_app in Hin as [Hinw Hin].
  apply Forall_cons in Hin as [Hinr Hint]. apply FOP_app in Hd as (_ & _ & Hd).
  pose proof (mo_files _ _ Hmeta) as Hff.
  pose proof (ranges_len_range_in _ _ Hinw). pose proof (ranges_len_range_in _ _ Hint).
  rewrite ranges_len_app, ranges_len_cons in Hsmall.
  assert (0 ≤ range_len r)%Z by (destruct Hinr as [(_ & ? & _) _]; unfold range_len; lia).
  assert (ranges_len (written ++ [r]) = ranges_len written + range_len r)%Z as Hlen'.
  { rewrite ranges_len_app, ranges_len_cons. unfold ranges_len at 2. simpl. lia. }
  eapply post_mono.
  { eapply write_range_spec; [done..|by rewrite Hff|].
    eapply range_in_files; [symmetry; exact Hff|done]. }
  intros res [cm' w'] [[Hch Hsums Hff' Hp' Ho] Hres].
  assert (∀ r', range_in (cm_files cm0) r' → ranges_disjoint r r' →
    range_bytes dst w' (cm_files cm0) r' = range_bytes dst w (cm_files cm0) r') as Hother.
  { intros r' Hr' Hdis. rewrite <- Hff. apply Ho.
    - eapply range_ok_files; [symmetry; exact Hff|apply Hr'].
    - intros x ->%list_elem_of_singleton. done. }
  split_and!.
  - destruct Hmeta. constructor; [congruence|by etrans|congruence].
  - by rewrite <- Hff.
  - intros i' c' l Hne Hc' Hl. apply chunk_bytes_frame. intros r' Hr'.
    destruct (manager_chunk _ _ _ Hok Hc') as (Hin' & _ & _). rewrite Forall_forall in Hin'.
    apply Hother; [by apply Hin', Hl|].
    eapply (chunk_ranges_disjoint i i' c c'); [done..| |by apply Hl]. rewrite Hr. set_solver.
  - done.
  - destruct res as [[k rd']|e|msg]; [|done..]. destruct Hres as (-> & Hrb & Hdata' & Hn).
    rewrite Hdata in Hrb, Hdata', Hn. rewrite Hff in Hrb. rewrite length_drop in Hn.
    rewrite Hlen', Z2Nat.inj_add by lia. split_and!.
    + wrap_simpl. done.
    + rewrite chunk_bytes_app. cbn [chunk_bytes]. rewrite Hrb.
      rewrite (chunk_bytes_frame w w' written), Hwb.
      * simpl. rewrite app_nil_r. f_equal. apply take_take_drop.
      * intros r' Hr'. apply Hother; [by eapply (proj1 (Forall_forall _ _) Hinw)|].
        symmetry. apply Hd; [done|set_solver].
    + by rewrite Hdata', drop_drop.
    + lia.
Qed.

(** The end of [WriteChunk]: the bytes are the source's, or the checksum differs. *)
Lemma write_end_data w i c checksum rd0 rd :
  prepared dst w (cm_files cm0) → chunks cm0 !! i = Some c →
  chunk_bytes dst w (cm_files cm0) (FileRanges c)
    = Some (take (Z.to_nat (ranges_len (FileRanges c))) (rd_data rd0)) →
  rd_data rd = drop (Z.to_nat (ranges_len (FileRanges c))) (rd_data rd0) →
  Z.to_nat (ranges_len (FileRanges c)) ≤ length (rd_data rd0) →
  good_response i checksum rd0 →
  negb (checksum =? 0)%Z && negb (xxh3 (consumed rd0 rd) =? checksum)%Z = false →
  chunk_delivered w i.
Proof.
  intros Hp Hc Hb Hdata Hlen (b & Hsb & Hgood) Hsum c' Hc'. simplify_eq.
  unfold source_bytes in Hsb. simpl in Hsb. rewrite Hc in Hsb. simpl in Hsb.
  destruct (manager_chunk _ _ _ Hok Hc) as (Hin & _ & _).
  destruct (chunk_bytes_sized src _ _ _ Hsrc Hin) as (b0 & Hb0 & Hbl). simplify_eq.
  rewrite Hb, Hsb. f_equal. rewrite (consumed_take _ _ _ Hdata Hlen) in Hsum. simpl in Hgood.
  rewrite <- Hbl in *. set (b' := take (length b) (rd_data rd0)) in *.
  assert (length b' = length b) as Hl by (unfold b'; rewrite length_take; lia).
  destruct Hgood as [Hpre|(Hnz & Heq & Hinj)].
  - apply prefix_length_eq; [done|lia].
  - apply Hinj; [done|]. destruct (Z.eqb_spec checksum 0); [done|].
    destruct (Z.eqb_spec (xxh3 b') checksum); [congruence|done].
Qed.
(** ** One step of a worker *)

Context (verifyOnComplete : bool).

Lemma worker_step_data inp (m : main W) ex p r :
  worker_step dst xxh3 onFileComplete verifyOnComplete inp m ex p = Some r →
  meta_ok cm0 (mc_ChunkManager m) → prepared dst (mc_Dst m) (cm_files cm0) →
  (∀ i, chunk_done (mc_ChunkManager m) i → chunk_delivered (mc_Dst m) i) →
  worker_data (mc_Dst m) p →
  (∀ i, worker_owns p = Some i →
    chunk_status (mc_ChunkManager m) i = Some ChunkStatusDownloading) →
  worker_ok (mc_ChunkManager m) p →
  (∀ i t0 checksum rd, p = WRequest i t0 → inp = Response (Ok (checksum, rd)) →
    good_response i checksum rd) →
  ∃ m' ex' p', r = Ok (m', ex', p') ∧ meta_ok cm0 (mc_ChunkManager m') ∧
    prepared dst (mc_Dst m') (cm_files cm0) ∧
    (∀ i, chunk_done (mc_ChunkManager m') i → chunk_delivered (mc_Dst m') i) ∧
    mc_panicked m' = mc_panicked m ∧ worker_data (mc_Dst m') p' ∧
    (mc_Dst m' = mc_Dst m ∨
     ∃ i, worker_owns p = Some i ∧ chunk_frame i (mc_Dst m) (mc_Dst m')).
Proof.
  intros Hstep Hmeta Hp Hdone Hdata Howns Hwok Hgood.
  assert (∀ i, worker_owns p = Some i → is_Some (chunks (mc_ChunkManager m) !! i)) as Hin
    by (intros; eapply chunk_status_lookup; auto).
  destruct p; cbn [worker_step] in Hstep; try discriminate Hstep.
  - simplify_eq. do 3 eexists. split_and!; eauto; done.
  - case_match; simplify_eq. do 3 eexists. split_and!; eauto; done.
  - simplify_eq. do 3 eexists. split_and!; eauto. by destruct o.
  - destruct inp; simplify_eq. do 3 eexists. split_and!; eauto; done.
  - destruct inp as [|[[checksum rd]|e|msg]]; try done; simplify_eq.
    + destruct (Hin i eq_refl) as [c Hc]. rewrite (index_slice_lookup _ _ _ Hc).
      destruct (meta_chunk _ _ _ _ Hmeta Hc) as (c0 & Hc0 & Hr0).
      do 3 eexists. split; [done|]. split_and!; eauto. exists c0, [].
      split_and!; try done; [unfold ranges_len; simpl; lia|]. by eapply Hgood.
    + do 3 eexists. split_and!; eauto; done.
  - destruct Hdata as (c & written & Hc & Hr & Hwb & Hdat & Hlen & -> & Hg).
    destruct todo as [|r' todo].
    + rewrite app_nil_r in Hr. subst written.
      destruct (negb (checksum =? 0)%Z && negb (xxh3 (consumed rd0 rd) =? checksum)%Z) eqn:E.
      { simplify_eq. do 3 eexists. split_and!; eauto; done. }
      assert (chunk_delivered (mc_Dst m) i) by (by eapply write_end_data).
      destruct verifyOnComplete; simplify_eq; do 3 eexists; (split_and!; eauto; done).
    + pose proof (write_range_data _ _ _ _ _ _ _ _ _ Hmeta Hp Hc Hr Hwb Hdat Hlen) as Hw.
      unfold post in Hw. destruct (write_range _ _ _ _ _) as [res [cm' w']].
      cbn [fst snd] in Hw. destruct Hw as (Hm' & Hp' & Hf & Hch & Hres).
      assert (∀ i', chunk_done cm' i' → chunk_delivered w' i') as Hdone'.
      { intros i' Hd. destruct (same_chunks_status _ _ Hch) as [_ Hst].
        unfold chunk_done in Hd. rewrite Hst in Hd.
        eapply chunk_frame_delivered; [done| |by apply Hdone].
        intros ->. rewrite (Howns i eq_refl) in Hd. done. }
      destruct res as [[k rd']|e|msg]; [| |done]; injection Hstep as <-; do 3 eexists;
        (split; [done|]); cbn; split_and!; eauto.
      destruct Hres as (Hk & Hb & Hd & Hl). exists c, (written ++ [r']).
      split_and!; try done. by rewrite Hr, <- (assoc_L (++)).
  - destruct (SetChunkChecksum_total cm0 _ i Hmeta (Hin i eq_refl) checksum) as (cm' & E & Hm').
    rewrite E in Hstep. injection Hstep as <-. do 3 eexists. split; [done|]. cbn.
    split_and!; eauto. intros i'. apply SetChunkChecksum_ok, same_chunks_status in E as [_ E].
    unfold chunk_done. rewrite E. apply Hdone.
  - destruct inp; simplify_eq. do 3 eexists. split_and!; eauto; done.
  - destruct (SetChunkStatusDone_status_total cm0 _ i Hmeta (Hin i eq_refl)) as (cm' & E & Hm').
    rewrite E in Hstep. injection Hstep as <-. do 3 eexists. split; [done|]. cbn.
    split_and!; eauto. intros i'. apply SetChunkStatusDone_status_ok in E as (_ & _ & E).
    unfold chunk_done. rewrite E. case_decide; [by subst|apply Hdone].
  - destruct (SetChunkStatusDone_time_total cm0 (mc_ChunkManager m) i Hmeta
      ltac:(by eapply chunk_status_lookup) t1) as (cm' & E & Hm').
    rewrite E in Hstep. injection Hstep as <-. do 3 eexists. split; [done|]. cbn.
    split_and!; eauto. intros i'. apply SetChunkStatusDone_time_ok in E as [_ E].
    unfold chunk_done. rewrite E. apply Hdone.
  - simplify_eq. do 3 eexists. split_and!; eauto; done.
  - simplify_eq. do 3 eexists. split_and!; eauto. by case_match.
  - simplify_eq. do 3 eexists. split_and!; eauto; done.
  - simplify_eq. do 3 eexists. split_and!; eauto; done.
  - simplify_eq. do 3 eexists. split_and!; eauto; done.
  - simplify_eq. do 3 eexists. split_and!; eauto; done.
  - simplify_eq. do 3 eexists. split_and!; eauto; done.
  - simplify_eq. do 3 eexists. split_and!; eauto; done.
  - destruct (SetChunkStatusPending_total cm0 _ i Hmeta (Hin i eq_refl)) as (cm' & E & Hm').
    rewrite E in Hstep. injection Hstep as <-. do 3 eexists. split; [done|]. cbn.
    split_and!; eauto. intros i'. apply SetChunkStatusPending_ok in E as (_ & _ & E).
    unfold chunk_done. rewrite E. case_decide; [done|apply Hdone].
  - simplify_eq. do 3 eexists. split_and!; eauto; done.
  - simplify_eq. do 3 eexists. split_and!; eauto; done.
Qed.
(** ** One step of a scheduler *)

Lemma sched_step_data n (m : main W) ex r :
  sched_step n m ex = Some r →
  meta_ok cm0 (mc_ChunkManager m) →
  (∀ i, sched_token (ex_sched ex) = Some i → i < GetChunkCount (mc_ChunkManager m)) →
  ∃ m' ex', r = Ok (m', ex') ∧ meta_ok cm0 (mc_ChunkManager m') ∧ mc_Dst m' = mc_Dst m ∧
    (∀ i, chunk_done (mc_ChunkManager m') i → chunk_done (mc_ChunkManager m) i) ∧
    mc_panicked m' = mc_panicked m ∧
    (ex_workers ex' = ex_workers ex ∨ ∃ n, ex_workers ex' = replicate n WAnnounce).
Proof.
  intros Hstep Hmeta Htok. unfold sched_step in Hstep.
  assert (∀ i, sched_token (ex_sched ex) = Some i → is_Some (chunks (mc_ChunkManager m) !! i)) as Hin
    by (intros; apply lookup_lt_is_Some; by apply Htok).
  destruct (ex_sched ex) as [| | | | | | | |i|i|i|i|i| | | | | | |] eqn:E; try done;
    try (simplify_eq; do 2 eexists; (split; [done|]); cbn; split_and!; eauto; done).
  - destruct (Pop _) as [[i ok] q]. simplify_eq. do 2 eexists. split; [done|]. cbn.
    split_and!; eauto; done.
  - destruct (GetChunkStatus_total (mc_ChunkManager m) i (Hin i eq_refl)) as [s Hs].
    rewrite Hs in Hstep. injection Hstep as <-. do 2 eexists. split; [done|]. cbn.
    split_and!; eauto; done.
  - destruct (UpdateChunkStatus_total cm0 _ i Hmeta (Hin i eq_refl) ChunkStatusPending
      ChunkStatusDownloading) as (b & cm' & Hu & Hm').
    rewrite Hu in Hstep. injection Hstep as <-. do 2 eexists. split; [done|]. cbn.
    split_and!; eauto. intros j. apply UpdateChunkStatus_ok in Hu. unfold chunk_done.
    destruct b; [destruct Hu as (_ & _ & _ & Hj)|destruct Hu as [_ Hj]]; rewrite Hj; [|done].
    by case_decide.
  - case_match; [|done]. simplify_eq. do 2 eexists. split; [done|]. cbn. split_and!; eauto; done.
Qed.

(** ** One event *)

Context (peerNumConcurrent localNumConcurrent : nat) (transferIdleTimeout : Duration).
Local Abbreviation run_event := (run_event dst xxh3 onFileComplete verifyOnComplete
  peerNumConcurrent localNumConcurrent transferIdleTimeout).
Local Abbreviation run_events := (run_events dst xxh3 onFileComplete verifyOnComplete
  peerNumConcurrent localNumConcurrent transferIdleTimeout).

(** The network: streams are good, and the lists of a peer (which has the same manifest)
    name chunks that exist. *)
Definition event_ok (e : event) (s : system W) : Prop :=
  match e with
  | EvWorker k j (Response (Ok (checksum, rd))) =>
      ∀ ex i t0, sy_execs s !! k = Some ex → ex_workers ex !! j = Some (WRequest i t0) →
        good_response i checksum rd
  | EvAvailable _ _ al =>
      Forall (λ z, 0 ≤ z < Z.of_nat (GetChunkCount cm0))%Z (TransferChunkIndexList al)
  | _ => True
  end.

(** A run of events that are ok when they happen. *)
Fixpoint events_ok (l : list event) (s : system W) : Prop :=
  match l with
  | [] => True
  | e :: l => event_ok e s ∧ ∀ s', run_event e s = Some s' → events_ok l s'
  end.

(** Nothing but the flags and a downloader changes. *)
Lemma data_inv_exec s k ex m' ex' ds :
  data_inv s → sy_execs s !! k = Some ex →
  mc_ChunkManager m' = mc_ChunkManager (sy_main s) → mc_Dst m' = mc_Dst (sy_main s) →
  mc_panicked m' = mc_panicked (sy_main s) →
  (∀ j p, ex_workers ex' !! j = Some p → worker_data (mc_Dst (sy_main s)) p) →
  data_inv (mkSystem m' (<[k := ex']> (sy_execs s)) ds).
Proof.
  intros [Hm Hp Hd Hw Hpan] Hk H1 H2 H3 Hex. constructor; simpl; rewrite ?H1, ?H2, ?H3; try done.
  intros k' j ex1 p Hk' Hj. destruct (decide (k' = k)) as [->|Hne].
  - rewrite list_lookup_insert_eq in Hk' by (by eapply lookup_lt_Some). simplify_eq.
    by eapply Hex.
  - rewrite list_lookup_insert_ne in Hk' by done. by eapply Hw.
Qed.

Lemma data_inv_main s m' ds :
  data_inv s → mc_ChunkManager m' = mc_ChunkManager (sy_main s) →
  mc_Dst m' = mc_Dst (sy_main s) → mc_panicked m' = mc_panicked (sy_main s) →
  data_inv (mkSystem m' (sy_execs s) ds).
Proof. intros [] H1 H2 H3. constructor; simpl; rewrite ?H1, ?H2, ?H3; done. Qed.

Lemma worker_event_data k j inp s s' :
  sys_inv s → data_inv s → event_ok (EvWorker k j inp) s →
  run_event (EvWorker k j inp) s = Some s' → data_inv s'.
Proof.
  intros Hs Hd He Hrun. pose proof Hd as [Hm Hp Hdone Hw Hpan].
  unfold Downloader.run_event, with_exec in Hrun. rewrite Hpan in Hrun.
  apply bind_Some in Hrun as (ex & Hk & (r & Hr & [= <-])%bind_Some).
  apply bind_Some in Hr as (p & Hj & (r1 & Hr1 & [= <-])%bind_Some).
  assert (exec_inv (mc_ChunkManager (sy_main s)) ex) as Hex
    by (by eapply (proj1 (Forall_lookup _ _) (si_execs _ Hs))).
  edestruct worker_step_data as (m' & ex' & p' & Er & Hm' & Hp' & Hdone' & Hpan' & Hw' & Hf);
    [exact Hr1|done|done|done|by eapply Hw|by eapply worker_pre| | |].
  { by eapply (proj1 (Forall_lookup _ _) (ei_workers _ _ Hex)). }
  { intros i t0 checksum rd -> ->. by eapply He. }
  subst r1. pose proof (worker_step_workers _ _ _ _ _ _ _ _ _ _ _ Hr1) as Hwk.
  constructor; simpl; try done; [|congruence].
  intros k' j' ex1 q Hk' Hj'. destruct (decide (k' = k ∧ j' = j)) as [[-> ->]|Hne].
  - rewrite list_lookup_insert_eq in Hk' by (by eapply lookup_lt_Some). injection Hk' as <-.
    simpl in Hj'. rewrite Hwk, list_lookup_insert_eq in Hj' by (by eapply lookup_lt_Some).
    by injection Hj' as <-.
  - assert (∃ ex2, sy_execs s !! k' = Some ex2 ∧ ex_workers ex2 !! j' = Some q) as (ex2 & Hk2 & Hj2).
    { destruct (decide (k' = k)) as [->|Hnk].
      - rewrite list_lookup_insert_eq in Hk' by (by eapply lookup_lt_Some). injection Hk' as <-.
        simpl in Hj'. rewrite Hwk, list_lookup_insert_ne in Hj' by naive_solver. eauto.
      - rewrite list_lookup_insert_ne in Hk' by done. eauto. }
    specialize (Hw _ _ _ _ Hk2 Hj2). destruct Hf as [->|(i & Hi & Hf)]; [done|].
    eapply chunk_frame_worker; [done| |done]. intros Hq. apply Hne.
    by destruct (owner_unique s k' j' ex2 q k j ex p i).
Qed.

Lemma peer_event_data k s f s' :
  data_inv s → with_peer k s f = Some s' →
  (∀ ex d, sy_execs s !! k = Some ex → ex_downloader ex = DPeer d → ∃ m' d',
    f (sy_main s) d = Ok (m', d') ∧ mc_ChunkManager m' = mc_ChunkManager (sy_main s) ∧
    mc_Dst m' = mc_Dst (sy_main s) ∧ mc_panicked m' = mc_panicked (sy_main s)) →
  data_inv s'.
Proof.
  intros Hd Hw Hf. unfold with_peer, with_exec in Hw.
  apply bind_Some in Hw as (ex & Hk & (r & Hr & [= <-])%bind_Some).
  destruct (ex_downloader ex) as [d|] eqn:E; [|done]. destruct (updating d); [|done].
  destruct (Hf ex d Hk E) as (m' & d' & Hfd & H1 & H2 & H3). rewrite Hfd in Hr.
  injection Hr as <-. eapply data_inv_exec; try done. intros j p Hj. exact (da_workers s Hd k j ex p Hk Hj).
Qed.

Lemma run_event_data e s s' :
  sys_inv s → data_inv s → event_ok e s → run_event e s = Some s' → data_inv s'.
Proof.
  intros Hs Hd He Hrun. pose proof Hd as [Hm Hp Hdone Hw Hpan].
  assert (∀ k ex, sy_execs s !! k = Some ex → exec_inv (mc_ChunkManager (sy_main s)) ex) as Hex.
  { intros k ex. apply Forall_lookup. apply Hs. }
  destruct e as [k|k j inp|k j|k choice al|k|k|k|uuid host|host|now|];
    [|by eapply worker_event_data|..];
    unfold Downloader.run_event in Hrun; rewrite Hpan in Hrun.
  - unfold with_exec in Hrun. apply bind_Some in Hrun as (ex & Hk & (r & Hr & [= <-])%bind_Some).
    edestruct sched_step_data as (m' & ex' & -> & Hm' & Hw' & Hdone' & Hpan' & Hwk);
      [exact Hr|done| |].
    { intros i Hi. eapply counted_below; [by eapply sched_pre|]. by right. }
    constructor; simpl; try done; rewrite ?Hw'; try done; [auto| |congruence].
    intros k' j ex1 p Hk' Hj. destruct (decide (k' = k)) as [->|Hne].
    + rewrite list_lookup_insert_eq in Hk' by (by eapply lookup_lt_Some). injection Hk' as <-.
      destruct Hwk as [Hwk|[n' Hwk]]; rewrite Hwk in Hj; [by eapply Hw|].
      by apply lookup_replicate in Hj as [-> _].
    + rewrite list_lookup_insert_ne in Hk' by done. by eapply Hw.
  - unfold with_exec in Hrun. apply bind_Some in Hrun as (ex & Hk & (r & Hr & [= <-])%bind_Some).
    apply bind_Some in Hr as (p & Hj & Hr). destruct (ex_sched ex); try done.
    destruct p; try done. injection Hr as <-. eapply data_inv_exec; try done. simpl.
    intros j' p' [(-> & <- & _)|(_ & Hj')]%list_lookup_insert_Some; [done|by eapply Hw].
  - eapply peer_event_data; [done..|]. intros ex d Hk E.
    edestruct (mark_chunks_total (if IsCompleted al then Z.of_nat <$> seq 0 (GetChunkCount
      (mc_ChunkManager (sy_main s))) else TransferChunkIndexList al)
      (set_pd_LastUpdatedAt (Timestamp al) d) []) as [[l d'] Hmark].
    { simpl. rewrite (ei_avail _ _ (Hex _ _ Hk) d E). destruct (IsCompleted al).
      - apply Forall_fmap, Forall_forall. intros i Hi%elem_of_seq. simpl. lia.
      - rewrite (meta_count _ _ Hm). exact He. }
    unfold receiveAvailableList. rewrite Hmark. simpl. by do 2 eexists.
  - eapply peer_event_data; [done..|]. intros ex d Hk E. by do 2 eexists.
  - eapply peer_event_data; [done..|]. intros ex d Hk E. by do 2 eexists.
  - eapply peer_event_data; [done..|]. intros ex d Hk E. by do 2 eexists.
  - injection Hrun as <-. unfold PeerDownloaders_Add. case_match; [done|].
    constructor; simpl; try done. intros k j ex p [Hk|[_ Hk]]%lookup_app_Some Hj; [by eapply Hw|].
    apply list_lookup_singleton_Some in Hk as [_ <-]. done.
  - injection Hrun as <-. unfold PeerDownloaders_Remove. case_match; [|done].
    destruct (sy_execs s !! n) as [ex|] eqn:Hk; [|by apply data_inv_main].
    eapply data_inv_exec; try done. intros j p Hj. by eapply Hw.
  - destruct (_ || _); [done|]. injection Hrun as <-. case_match; by apply data_inv_main.
  - injection Hrun as <-. by apply data_inv_main.
Qed.

Lemma run_events_data l s s' :
  (Z.of_nat (GetChunkCount (mc_ChunkManager (sy_main s))) < 2 ^ 63)%Z →
  sys_inv s → data_inv s → events_ok l s → run_events l s = Some s' →
  sys_inv s' ∧ data_inv s'.
Proof.
  revert s. induction l as [|e l IH]; intros s Hsmall Hs Hd Hok'; simpl.
  { by intros [= <-]. }
  destruct Hok' as [He Hrest]. intros (s1 & H1 & H2)%bind_Some.
  destruct (run_event_inv dst xxh3 onFileComplete verifyOnComplete peerNumConcurrent
    localNumConcurrent transferIdleTimeout e s s1 H1 Hsmall Hs) as [Hl Hs1].
  rewrite <- Hl in Hsmall. 
  apply (IH s1); [done|done|exact (run_event_data e s s1 Hs Hd He H1)|exact (Hrest s1 H1)|done].
Qed.

(** The start. *)
Lemma init_data w now stat from :
  Forall (λ c, GetStatus c = ChunkStatusPending) (chunks cm0) →
  length (chunkChecksums cm0) = length (chunks cm0) →
  prepared dst w (cm_files cm0) → data_inv (init_system cm0 w now stat from).
Proof.
  intros Hp Hl Hprep. constructor; simpl; try done.
  - intros i. unfold chunk_done, chunk_status. destruct (chunks cm0 !! i) as [c|] eqn:Hc; [|done].
    rewrite Forall_lookup in Hp. simpl. by rewrite (Hp _ _ Hc).
  - intros k j ex p Hk Hj. destruct from; [|done].
    apply list_lookup_singleton_Some in Hk as [_ <-]. done.
Qed.

(** What the invariants say of the files. *)
Lemma inv_content s :
  sys_inv s → data_inv s →
  (∀ i c, chunks cm0 !! i = Some c →
    GetChunkStatus i (mc_ChunkManager (sy_main s)) = Ok ChunkStatusDone →
    chunk_bytes dst (mc_Dst (sy_main s)) (cm_files cm0) (FileRanges c)
    = chunk_bytes src v (cm_files cm0) (FileRanges c)) ∧
  (mc_Completed (sy_main s) = true → ∀ g, g ∈ cm_files cm0 →
    content dst (mc_Dst (sy_main s)) (FileEntry_Name g) = content src v (FileEntry_Name g) ∧
    is_Some (content src v (FileEntry_Name g))).
Proof.
  intros [_ _ Hcompl] [Hmeta Hp Hdone _ _]. split.
  - intros i c Hi Hst%GetChunkStatus_ok. exact (Hdone i Hst c Hi).
  - intros Hcd g Hg.
    edestruct (delivered_all dst src v cm0 cm0 (mc_Dst (sy_main s)) (set_seq 0 (GetChunkCount cm0))
      Hok Hsrc) as [Heq Hsome]; [| |exact Hg|].
    + split_and!; try done. intros i c Hi Hch. apply (Hdone i); [|done].
      apply Hcompl; [done|]. rewrite (meta_count _ _ Hmeta). apply elem_of_set_seq in Hi. lia.
    + intros i Hi. apply elem_of_set_seq. unfold GetChunkCount. lia.
    + split; [done|by rewrite <- Heq].
Qed.
End data.

(** * Properties *)

Section properties.
Context {W : Type} (dst : Storage W) `{!StorageSpec dst}.
Context {V : Type} (src : Storage V) `{!StorageSpec src} (v : V).
Context (xxh3 : bytes → Z) (onFileComplete : string → Z → io W unit).
Hypothesis onFileComplete_ok : ∀ p s w,
  (onFileComplete p s w).1 = Ok () ∧ same_view dst w (onFileComplete p s w).2.
Context (verifyOnComplete : bool) (peerNumConcurrent localNumConcurrent : nat).
Context (transferIdleTimeout : Duration).
Local Abbreviation run_events := (run_events dst xxh3 onFileComplete verifyOnComplete
  peerNumConcurrent localNumConcurrent transferIdleTimeout).
Local Abbreviation events_ok cm := (events_ok dst src v xxh3 onFileComplete cm verifyOnComplete
  peerNumConcurrent localNumConcurrent transferIdleTimeout).

(** A download is correct under concurrency. Start from the chunks of a file list, a source that
    holds the files and a destination prepared for them, and interleave the goroutines in any
    way, with streams that may break off and whose bytes are the source's or are checked against
    its checksum. *)
Lemma download_content `{SliceSort} cs mf files0 cm w now stat from l s :
  (0 < cs < 2 ^ 63)%Z → sizes_ok cs files0 →
  Forall (λ f, int32_range (FileEntry_remainingChunkCount f)) files0 →
  BuildChunks cs mf files0 = Some (cm_files cm, chunks cm) →
  length (chunkChecksums cm) = length (chunks cm) →
  (Z.of_nat (GetChunkCount cm) < 2 ^ 63)%Z →
  sized src v (cm_files cm) → prepared dst w (cm_files cm) →
  events_ok cm l (init_system cm w now stat from) →
  run_events l (init_system cm w now stat from) = Some s →
  mc_panicked (sy_main s) = false ∧
  (∀ i c, chunks cm !! i = Some c →
    GetChunkStatus i (mc_ChunkManager (sy_main s)) = Ok ChunkStatusDone →
    chunk_bytes dst (mc_Dst (sy_main s)) (cm_files cm) (FileRanges c)
    = chunk_bytes src v (cm_files cm) (FileRanges c)) ∧
  (mc_Completed (sy_main s) = true → ∀ f, f ∈ files0 →
    content dst (mc_Dst (sy_main s)) (FileEntry_Name f) = content src v (FileEntry_Name f) ∧
    is_Some (content src v (FileEntry_Name f))).
Proof.
  intros Hcs Hs Hc Hb Hsums Hsmall Hsrc Hdst Hev Hrun.
  destruct (BuildChunks_manager_ok _ _ _ _ Hcs Hs Hc Hb) as [Hok Hpend].
  destruct (run_events_data dst src v xxh3 onFileComplete onFileComplete_ok cm Hok Hsrc
    verifyOnComplete peerNumConcurrent localNumConcurrent transferIdleTimeout l
    (init_system cm w now stat from) s)
    as [Hs' Hd']; [done|by apply init_inv|by apply init_data|done..|].
  destruct (inv_content dst src v xxh3 cm Hok Hsrc s Hs' Hd') as [Hdone Hcompl].
  split_and!; [apply Hd'|exact Hdone|]. intros Hcd f Hf.
  destruct (BuildChunks_names _ _ _ _ _ f Hcs Hs Hc Hb Hf) as (g & Hg & <-). by apply Hcompl.
Qed.
End properties.
