(* ===== verification/DownloaderBooks.v ===== *)
(** The bookkeeping of a downloader that its progress depends on: the counter of workers
    that wait for a chunk is right, whoever counts the last chunk is on the way to set
    [Completed], and a scheduler leaves its loop only for a reason that lasts. *)
From S2P Require Import Prelude Bytes GoStrings Types Storage ChunkBuilder ChunkManager ChunkQueue Statistics Availability Downloader DownloaderSafety DownloaderLiveness.

(** * The invariant *)

(** A worker that [downloadWorkerReadyCount] counts. *)
Definition ready (p : worker) : nat :=
  match p with WReceive | WReceived _ => 1 | _ => 0 end.

(** After counting a chunk, before the flag is set. *)
Definition completing (p : worker) : bool :=
  match p with WComplete _ _ _ => true | _ => false end.
Definition finishing (p : worker) : bool :=
  match p with WCompare _ _ _ | WCancel _ _ _ | WComplete _ _ _ => true | _ => false end.
Definition sched_finishing (p : sched) : bool :=
  match p with
  | SStart | SZeroCancel | SZeroComplete | SCompare | SCancel | SComplete => true
  | _ => false
  end.

Definition left_loop (p : sched) : bool :=
  match p with SStats | SClose | SWait | SExit => true | _ => false end.

(** [n] is the number of chunks. *)
Record books (ctx completed : bool) (n : nat) (ex : exec) : Prop := {
  bk_ready : downloadWorkerReadyCount ex
    = wrap 32 (Z.of_nat (sum_list_with ready (ex_workers ex)));
  bk_fresh : unspawned (ex_sched ex) = true → ex_counted ex = [];
  bk_full : length (ex_counted ex) = n →
    completed = true ∨ sched_finishing (ex_sched ex) = true ∨
    ∃ j p, ex_workers ex !! j = Some p ∧ finishing p = true;
  bk_loop : left_loop (ex_sched ex) = true → ctx = true ∨ IsValid (ex_downloader ex) = false
}.

Lemma books_mono (c c' f f' : bool) n ex :
  (c = true → c' = true) → (f = true → f' = true) → books c f n ex → books c' f' n ex.
Proof. intros Hc Hf [H1 H2 H3 H4]. constructor; naive_solver. Qed.

(** Another downloader with the same threads, valid only if it was. *)
Lemma books_downloader c f n ex d :
  (IsValid (ex_downloader ex) = false → IsValid d = false) →
  books c f n ex → books c f n (set_downloader d ex).
Proof. intros Hd [H1 H2 H3 H4]. constructor; naive_solver. Qed.

Lemma wrap32_of_wrapped z x : x = wrap 32 z → wrap 32 x = x.
Proof. intros ->. pose proof (wrap_add_l 32 z 0 ltac:(lia)) as H. by rewrite !Z.add_0_r in H. Qed.

(** * Steps *)

Section steps.
Context {W : Type} (dst : Storage W) (xxh3 : bytes → Z) (onFileComplete : string → Z → io W unit).
Context (verifyOnComplete : bool) (peerNumConcurrent localNumConcurrent : nat).
Context (transferIdleTimeout : Duration).
Implicit Types (m : main W) (s : system W).
Local Abbreviation run_event := (run_event dst xxh3 onFileComplete verifyOnComplete
  peerNumConcurrent localNumConcurrent transferIdleTimeout).
Local Abbreviation run_events := (run_events dst xxh3 onFileComplete verifyOnComplete
  peerNumConcurrent localNumConcurrent transferIdleTimeout).

(** What a worker's step does to the books; it leaves the flags on. *)
Record worker_books m ex p m' ex' p' : Prop := {
  wb_ctx : mc_ctx_done m = true → mc_ctx_done m' = true;
  wb_completed : mc_Completed m = true → mc_Completed m' = true;
  wb_valid : IsValid (ex_downloader ex') = IsValid (ex_downloader ex);
  wb_announced n i : announced n (ex_downloader ex') i = announced n (ex_downloader ex) i;
  wb_ready z : downloadWorkerReadyCount ex = wrap 32 z →
    downloadWorkerReadyCount ex' = wrap 32 (z + Z.of_nat (ready p') - Z.of_nat (ready p));
  wb_counted : ex_counted ex' = ex_counted ex ∨
    finishing p' = true ∧ ∃ i, ex_counted ex' = i :: ex_counted ex;
  wb_finishing : finishing p = true → finishing p' = true ∨ mc_Completed m' = true ∨
    numCompleted ex ≠ Z.of_nat (GetChunkCount (mc_ChunkManager m)) ∧
    ex_counted ex' = ex_counted ex;
  wb_cancel : mc_ctx_done m' = true → mc_ctx_done m = true ∨ completing p' = true;
  wb_completing : completing p = true → mc_Completed m' = true
}.

(** A step that touches neither flags nor counters, outside of the end of the count. *)
Lemma worker_books_quiet m ex p m' ex' p' :
  mc_ctx_done m' = mc_ctx_done m → mc_Completed m' = mc_Completed m →
  IsValid (ex_downloader ex') = IsValid (ex_downloader ex) →
  (∀ n i, announced n (ex_downloader ex') i = announced n (ex_downloader ex) i) →
  downloadWorkerReadyCount ex' = downloadWorkerReadyCount ex →
  ex_counted ex' = ex_counted ex → ready p' = ready p → finishing p = false →
  worker_books m ex p m' ex' p'.
Proof.
  intros H1 H2 H3 H4 H5 H6 H7 H8. constructor; rewrite ?H1, ?H2, ?H5, ?H7, ?H8; auto; try done.
  - intros z ->. f_equal. lia.
  - intros H. by destruct p.
Qed.

Lemma worker_step_books inp m ex p m' ex' p' :
  worker_step dst xxh3 onFileComplete verifyOnComplete inp m ex p = Some (Ok (m', ex', p')) →
  worker_books m ex p m' ex' p'.
Proof.
  intros H. destruct p; cbn [worker_step] in H; try discriminate H.
  all: try (repeat case_match; simplify_eq; by apply worker_books_quiet).
  all: try (apply some_ok, bind_ok in H as (? & _ & [= <- <- <-]); by apply worker_books_quiet).
  - simplify_eq. constructor; simpl; auto; try done.
    intros z ->. rewrite wrap_add_l by lia. f_equal. lia.
  - simplify_eq. constructor; simpl; auto; try done; [|by destruct o..].
    intros z ->. rewrite wrap_add_l by lia. f_equal. destruct o; simpl; lia.
  - repeat case_match; simplify_eq; try by apply worker_books_quiet.
    apply bind_ok in H as (? & _ & [= <- <- <-]). by apply worker_books_quiet.
  - simplify_eq. constructor; simpl; auto; try done.
    + intros z ->. f_equal. lia.
    + eauto.
  - simplify_eq. constructor; simpl; auto.
    + intros z ->. f_equal. case_match; simpl; lia.
    + intros _. match goal with |- context [Z.eqb ?a ?b] => destruct (Z.eqb_spec a b) end; auto.
    + done.
  - simplify_eq. constructor; simpl; auto; try done. intros z ->. f_equal. lia.
  - simplify_eq. constructor; simpl; auto; try done. intros z ->. f_equal. lia.
  - simplify_eq. apply worker_books_quiet; try done; simpl; by destruct (ex_downloader ex).
Qed.

(** The scheduler's step. *)
Lemma sched_step_books n m ex m' ex' :
  sched_step n m ex = Some (Ok (m', ex')) →
  numCompleted ex = Z.of_nat (length (ex_counted ex)) →
  (unspawned (ex_sched ex) = true → ex_workers ex = []) →
  books (mc_ctx_done m) (mc_Completed m) (GetChunkCount (mc_ChunkManager m)) ex →
  (mc_ctx_done m = true → mc_ctx_done m' = true) ∧
  (mc_Completed m = true → mc_Completed m' = true) ∧
  books (mc_ctx_done m') (mc_Completed m') (GetChunkCount (mc_ChunkManager m)) ex'.
Proof.
  intros H Hn Hw [Hr Hf Hfull Hl]. unfold sched_step in H.
  assert (∀ c (f : bool) ex1, ex_workers ex1 = ex_workers ex →
    downloadWorkerReadyCount ex1 = downloadWorkerReadyCount ex →
    ex_counted ex1 = ex_counted ex → (unspawned (ex_sched ex1) = true → ex_counted ex = []) →
    (f = true ∨ sched_finishing (ex_sched ex) = false ∨ sched_finishing (ex_sched ex1) = true ∨
      length (ex_counted ex) ≠ GetChunkCount (mc_ChunkManager m)) →
    (mc_Completed m = true → f = true) →
    (left_loop (ex_sched ex1) = true → c = true ∨ IsValid (ex_downloader ex1) = false) →
    books c f (GetChunkCount (mc_ChunkManager m)) ex1) as Hmove.
  { intros c f ex1 E1 E2 E3 H1 H2 H3 H4. constructor; rewrite ?E1, ?E2, ?E3; auto.
    intros Hlen. destruct H2 as [->|[H2|[H2|H2]]]; [by left| |by right; left|done].
    destruct (Hfull Hlen) as [?|[?|?]]; [left; auto|congruence|by right; right]. }
  destruct (ex_sched ex) as [| | | | | | | |i|i|i|i|i| | | | | | |] eqn:E; try discriminate H; simpl in *;
    try (simplify_eq; split_and!; [done|done|]; apply Hmove; simpl; auto; done).
  - simplify_eq. split_and!; [done|done|]. rewrite Hf in Hmove by done.
    apply Hmove; simpl; auto; try done; case_decide; auto.
  - simplify_eq. split_and!; [done|done|]. rewrite (Hw eq_refl) in Hr. constructor; simpl; auto; try done.
    + rewrite sum_replicate_zero; done.
    + intros Hlen. destruct (Hfull Hlen) as [?|[?|(j & p & Hj & _)]]; [by left|done|].
      by rewrite (Hw eq_refl) in Hj.
  - simplify_eq. split_and!; [done|done|].
    apply Hmove; simpl; auto; destruct (IsValid (ex_downloader ex)); simpl; auto; done.
  - simplify_eq. split_and!; [done|done|].
    apply Hmove; simpl; auto; destruct (mc_ctx_done m'); simpl; auto; done.
  - simplify_eq. split_and!; [done|done|]. apply Hmove; simpl; auto; by case_match.
  - destruct (Pop _) as [[i ok] q]. simplify_eq. split_and!; [done|done|].
    apply Hmove; simpl; auto; by destruct ok.
  - apply some_ok, bind_ok in H as (st & _ & [= <- <-]). split_and!; [done|done|].
    apply Hmove; simpl; auto; by destruct st.
  - apply some_ok, bind_ok in H as ([b cm] & _ & [= <- <-]). split_and!; [done|done|].
    apply Hmove; simpl; auto; by destruct b.
  - simplify_eq. split_and!; [done|done|]. by constructor; simpl; auto.
  - rewrite Hn in H. simplify_eq. split_and!; [done|done|].
    destruct (Z.eqb_spec (Z.of_nat (length (ex_counted ex)))
      (Z.of_nat (GetChunkCount (mc_ChunkManager m')))); apply Hmove; simpl; auto; try done.
    right. right. right. lia.
  - case_match; [|done]. simplify_eq. split_and!; [done|done|]. apply Hmove; simpl; auto.
Qed.

(** * Events *)

Definition sys_books s : Prop :=
  Forall (books (mc_ctx_done (sy_main s)) (mc_Completed (sy_main s))
    (GetChunkCount (mc_ChunkManager (sy_main s)))) (sy_execs s).

Lemma sys_books_main s m' ds :
  sys_books s →
  GetChunkCount (mc_ChunkManager m') = GetChunkCount (mc_ChunkManager (sy_main s)) →
  (mc_ctx_done (sy_main s) = true → mc_ctx_done m' = true) →
  mc_Completed m' = mc_Completed (sy_main s) → sys_books (mkSystem m' (sy_execs s) ds).
Proof.
  intros Hs H1 H2 H3. unfold sys_books. simpl. rewrite H1, H3.
  eapply Forall_impl; [exact Hs|]. intros ex. by apply books_mono.
Qed.

Lemma with_exec_books k s f s' :
  sys_books s → with_exec k s f = Some s' →
  GetChunkCount (mc_ChunkManager (sy_main s')) = GetChunkCount (mc_ChunkManager (sy_main s)) →
  (∀ ex m' ex', sy_execs s !! k = Some ex → f (sy_main s) ex = Some (Ok (m', ex')) →
    books (mc_ctx_done (sy_main s)) (mc_Completed (sy_main s))
      (GetChunkCount (mc_ChunkManager (sy_main s))) ex →
    (mc_ctx_done (sy_main s) = true → mc_ctx_done m' = true) ∧
    (mc_Completed (sy_main s) = true → mc_Completed m' = true) ∧
    books (mc_ctx_done m') (mc_Completed m') (GetChunkCount (mc_ChunkManager (sy_main s))) ex') →
  sys_books s'.
Proof.
  intros Hs Hw Hn Hf. unfold with_exec in Hw.
  apply bind_Some in Hw as (ex & Hk & (r & Hr & [= <-])%bind_Some).
  destruct r as [[m' ex']|e|msg]; [|done..].
  destruct (Hf ex m' ex' Hk Hr) as (Hc & Hcd & Hb); [by eapply (proj1 (Forall_lookup _ _) Hs)|].
  unfold sys_books. simpl in *. rewrite Hn. apply Forall_insert; [|done].
  eapply Forall_impl; [exact Hs|]. intros ex1. by apply books_mono.
Qed.

Lemma with_peer_books k s f s' :
  sys_books s → with_peer k s f = Some s' →
  GetChunkCount (mc_ChunkManager (sy_main s')) = GetChunkCount (mc_ChunkManager (sy_main s)) →
  (∀ d m' d', f (sy_main s) d = Ok (m', d') →
    (mc_ctx_done (sy_main s) = true → mc_ctx_done m' = true) ∧
    mc_Completed m' = mc_Completed (sy_main s) ∧ (IsSelf d = true → IsSelf d' = true)) →
  sys_books s'.
Proof.
  intros Hs Hw Hn Hf. eapply with_exec_books; [done..|]. intros ex m' ex' Hk H Hb. simpl in H.
  destruct (ex_downloader ex) as [d|] eqn:E; [|done]. destruct (updating d); [|done].
  apply some_ok, bind_ok in H as ([m1 d'] & Hd & [= <- <-]).
  destruct (Hf _ _ _ Hd) as (Hc & Hcd & Hself). split; [done|]. split; [congruence|].
  apply books_downloader; [rewrite E; simpl; rewrite !negb_false_iff; auto|].
  rewrite Hcd. by eapply books_mono.
Qed.

(** A worker's step, put back into its downloader. *)
Lemma worker_books_exec m ex j p m' ex' p' n :
  worker_books m ex p m' ex' p' → ex_workers ex !! j = Some p →
  ex_sched ex' = ex_sched ex → ex_workers ex' = ex_workers ex →
  unspawned (ex_sched ex) = false → n = GetChunkCount (mc_ChunkManager m) →
  numCompleted ex = Z.of_nat (length (ex_counted ex)) →
  books (mc_ctx_done m) (mc_Completed m) n ex →
  books (mc_ctx_done m') (mc_Completed m') n (set_worker j p' ex').
Proof.
  intros Hw Hj E1 E2 Hun -> Hn [Hr Hf Hfull Hl]. constructor; simpl; rewrite ?E1, ?E2.
  - rewrite (wb_ready _ _ _ _ _ _ Hw _ Hr). f_equal.
    pose proof (sum_insert ready _ _ _ p' Hj). lia.
  - by rewrite Hun.
  - intros Hlen. assert (ex_workers ex !! j ≠ None) as Hlt by (by rewrite Hj).
    assert (<[j:=p']> (ex_workers ex) !! j = Some p') as Hj'
      by (apply list_lookup_insert_eq; by eapply lookup_lt_Some).
    destruct (wb_counted _ _ _ _ _ _ Hw) as [Hc|[Hfin _]]; [|by right; right; exists j, p'].
    rewrite Hc in Hlen. destruct (Hfull Hlen) as [?|[?|(j1 & p1 & Hj1 & Hp1)]].
    + left. by apply Hw.
    + by right; left.
    + destruct (decide (j1 = j)) as [->|Hne].
      * simplify_eq. destruct (wb_finishing _ _ _ _ _ _ Hw Hp1) as [?|[?|[Hneq _]]].
        -- right. right. by exists j, p'.
        -- by left.
        -- congruence.
      * right. right. exists j1, p1. by rewrite list_lookup_insert_ne.
  - rewrite (wb_valid _ _ _ _ _ _ Hw). intros H. destruct (Hl H); [left; by apply Hw|by right].
Qed.

Lemma receive_IsSelf choice cm al d d' :
  receiveAvailableList choice cm al d = Ok d' → IsSelf d' = IsSelf d.
Proof.
  unfold receiveAvailableList. intros ([l d1] & Hm & [= <-])%bind_ok.
  by apply mark_chunks_spec in Hm as (new & _ & _ & _ & _ & _ & _ & Hs & _).
Qed.

Lemma run_event_books e s s' :
  run_event e s = Some s' →
  (Z.of_nat (GetChunkCount (mc_ChunkManager (sy_main s))) < 2 ^ 63)%Z →
  sys_inv s → sys_books s → sys_books s'.
Proof.
  intros Hrun Hsmall Hs Hb.
  pose proof (proj1 (run_event_inv _ _ _ _ _ _ _ _ _ _ Hrun Hsmall Hs)) as Hn.
  assert (∀ k ex, sy_execs s !! k = Some ex → exec_inv (mc_ChunkManager (sy_main s)) ex) as Hex.
  { intros k ex. apply Forall_lookup. apply Hs. }
  unfold Downloader.run_event in Hrun. destruct (mc_panicked _); [done|].
  destruct e as [k|k j inp|k j|k choice al|k|k|k|uuid host|host|now|].
  - eapply with_exec_books; [done..|]. intros ex m' ex' Hk H.
    eapply sched_step_books; [exact H|..].
    + by eapply ei_count, Hex.
    + by eapply ei_unspawned, Hex.
  - eapply with_exec_books; [done..|]. intros ex m' ex' Hk H Hbx. simpl in H.
    apply bind_Some in H as (p & Hj & (r & Hr & H)%bind_Some).
    apply some_ok, bind_ok in H as ([[m1 ex1] p1] & -> & [= <- <-]).
    pose proof (worker_step_workers _ _ _ _ _ _ _ _ _ _ _ Hr) as Hwk.
    destruct (worker_step_sched _ _ _ _ peerNumConcurrent localNumConcurrent _ _ _ _ _ _ _ Hr)
      as (Hsc & _).
    apply worker_step_books in Hr as Hwb. split_and!; [apply Hwb|apply Hwb|].
    eapply worker_books_exec; [done..| |done|by eapply ei_count, Hex|done].
    destruct (unspawned (ex_sched ex)) eqn:Hun; [|done].
    by rewrite (ei_unspawned _ _ (Hex _ _ Hk) Hun) in Hj.
  - eapply with_exec_books; [done..|]. intros ex m' ex' Hk H [Hr Hf Hfull Hl]. simpl in H.
    apply bind_Some in H as (p & Hj & H). destruct (ex_sched ex) eqn:E; try done.
    destruct p; try done. simplify_eq. split_and!; [done|done|]. constructor; simpl; try done.
    + rewrite Hr. do 2 f_equal. pose proof (sum_insert ready _ _ _ (WReceived (Some i)) Hj) as Hsum.
      simpl in Hsum. lia.
    + intros Hlen. destruct (Hfull Hlen) as [?|[?|(j1 & p1 & Hj1 & Hp1)]]; [by left|done|].
      right. right. exists j1, p1. rewrite list_lookup_insert_ne; [done|]. naive_solver.
  - eapply with_peer_books; [done..|]. intros d m' d' (d1 & Hd & [= <- <-])%bind_ok.
    by rewrite (receive_IsSelf _ _ _ _ _ Hd).
  - eapply with_peer_books; [done..|]. by intros d m' d' [= <- <-].
  - eapply with_peer_books; [done..|]. intros d m' d' [= <- <-]. by case_match.
  - eapply with_peer_books; [done..|]. by intros d m' d' [= <- <-].
  - injection Hrun as <-. unfold PeerDownloaders_Add. case_match; [done|].
    apply Forall_app. split; [done|]. constructor; [|constructor]. constructor; simpl; auto; done.
  - injection Hrun as <-. unfold PeerDownloaders_Remove. case_match; [|done].
    destruct (sy_execs s !! n) as [ex|] eqn:Hk; [|by apply sys_books_main].
    apply Forall_insert; [done|]. apply books_downloader; [by destruct (ex_downloader ex)|].
    by eapply (proj1 (Forall_lookup _ _) Hb).
  - destruct (_ || _); [done|]. injection Hrun as <-.
    case_match; by apply sys_books_main.
  - injection Hrun as <-. by apply sys_books_main.
Qed.

Lemma init_books cm (w : W) now stat from : sys_books (init_system cm w now stat from).
Proof.
  destruct from; simpl; [|constructor]. constructor; [|constructor]. constructor; simpl; auto; done.
Qed.
End steps.
