(* ===== verification/DownloaderDriving.v ===== *)
(** How the goroutines of a download are driven to its end: in any environment that lets them
    go on and answers their requests, those of one downloader with whole chunks. *)
From S2P Require Import Prelude Bytes GoStrings Types Storage ChunkBuilder ChunkManager ChunkTransfer ChunkQueue Statistics Availability Delivery Downloader DownloaderSafety DownloaderLiveness DownloaderData DownloaderBooks.

(** * Writing to a healthy destination *)

Section healthy.
Context {W : Type} (dst : Storage W) `{!StorageSpec dst, !StorageHealthy dst}.
Context (onFileComplete : string → Z → io W unit).
Hypothesis onFileComplete_ok : ∀ p s w,
  (onFileComplete p s w).1 = Ok () ∧ same_view dst w (onFileComplete p s w).2.
Hypothesis onFileComplete_healthy : ∀ p s w,
  st_healthy dst w → st_healthy dst (onFileComplete p s w).2.

Lemma write_range_healthy r rd cm w :
  prepared dst w (cm_files cm) → range_in (cm_files cm) r → st_healthy dst w →
  st_healthy dst (write_range dst onFileComplete r rd (cm, w)).2.2 ∧
  (Z.to_nat (range_len r) ≤ length (rd_data rd) →
   is_ok (write_range dst onFileComplete r rd (cm, w)).1 = true).
Proof.
  intros Hp [(Hidx & Ho & He) _] Hw.
  destruct (lookup_lt_is_Some_2 _ _ Hidx) as [f Hf].
  destruct (proj1 Hp _ _ Hf) as (ino & Hino & _).
  pose proof (Write_healthy w (FileEntry_Name f) ino (StartOffset r) (range_len r) rd Hw Hino
    ltac:(lia) ltac:(unfold range_len; lia)) as Hok.
  unfold post, write_range, get_manager, put_manager, lift_storage, io_lift, index_slice in *.
  unfold mbind, io_mbind, io_bind_def, mret, io_mret, io_ret. rewrite Hf.
  unfold range_len in *. wrap_simpl.
  destruct (Write dst _ _ _ rd w) as [res w1]. cbn [fst snd] in Hok.
  destruct Hok as [Hw1 Hok]. destruct res as [[n rd']|e|s]; [|done..].
  destruct (decrement_file (FileIndex r) f cm) as [cm' remaining]. cbn [fst snd].
  destruct (remaining =? 0)%Z; [|done].
  destruct (onFileComplete_ok (filepath_Join (GetBaseDirectory dst) (FileEntry_Name f))
    (FileEntry_Size f) w1) as [Hcb _].
  pose proof (onFileComplete_healthy (filepath_Join (GetBaseDirectory dst) (FileEntry_Name f))
    (FileEntry_Size f) w1 Hw1) as Hw2.
  destruct (onFileComplete _ _ w1) as [cb w2]. cbn [fst snd] in *. by subst cb.
Qed.
End healthy.

(** * Idle downloaders *)

(** A worker that waits for a chunk, or is gone. *)
Definition resting (p : worker) : bool :=
  match p with WReceive | WExit => true | _ => false end.

Definition sending (p : sched) : bool := match p with SSend _ => true | _ => false end.

(** Nobody has a chunk marked Downloading. *)
Definition exec_idle (ex : exec) : bool :=
  negb (sending (ex_sched ex)) && forallb resting (ex_workers ex).

(** Where a scheduler is when its chunk was handed over. *)
Definition settle (p : sched) : sched := match p with SSend _ => SValid | p => p end.

Lemma settle_idempotent p : settle (settle p) = settle p.
Proof. by destruct p. Qed.

Definition exec_rank (M : nat) (ex : exec) : nat :=
  (if sending (ex_sched ex) then 18 + M else 0) + sum_list_with (worker_rank M) (ex_workers ex).

Lemma exec_idle_owners ex i : exec_idle ex = true → owners i ex = 0.
Proof.
  intros [Hs Hw]%andb_true_iff. unfold owners.
  assert (sched_owns (ex_sched ex) = None) as -> by (by destruct (ex_sched ex)).
  change (hits i None) with 0. simpl. clear Hs.
  induction (ex_workers ex) as [|p l IH]; [done|]. apply andb_true_iff in Hw as [Hp Hw]. simpl.
  rewrite IH by done. by destruct p.
Qed.

(** * The states of a run *)

Section completion.
Context {W : Type} (dst : Storage W) `{!StorageSpec dst, !StorageHealthy dst}.
Context {V : Type} (src : Storage V) `{!StorageSpec src} (v : V).
Context (xxh3 : bytes → Z) (onFileComplete : string → Z → io W unit).
Hypothesis onFileComplete_ok : ∀ p s w,
  (onFileComplete p s w).1 = Ok () ∧ same_view dst w (onFileComplete p s w).2.
Hypothesis onFileComplete_healthy : ∀ p s w,
  st_healthy dst w → st_healthy dst (onFileComplete p s w).2.
Context (cm0 : ChunkManager).
Hypothesis Hok : manager_ok cm0.
Hypothesis Hsrc : sized src v (cm_files cm0).
Hypothesis Hsmall : (Z.of_nat (GetChunkCount cm0) < 2 ^ 63)%Z.
Context (verifyOnComplete : bool) (peerNumConcurrent localNumConcurrent : nat).
Context (transferIdleTimeout : Duration).
Implicit Types (m : main W) (s : system W).
Local Abbreviation worker_step := (worker_step dst xxh3 onFileComplete verifyOnComplete).
Local Abbreviation run_event := (run_event dst xxh3 onFileComplete verifyOnComplete
  peerNumConcurrent localNumConcurrent transferIdleTimeout).
Local Abbreviation run_events := (run_events dst xxh3 onFileComplete verifyOnComplete
  peerNumConcurrent localNumConcurrent transferIdleTimeout).
Local Abbreviation event_ok := (event_ok src v xxh3 cm0).
Local Abbreviation events_ok := (events_ok dst src v xxh3 onFileComplete cm0 verifyOnComplete
  peerNumConcurrent localNumConcurrent transferIdleTimeout).
Local Abbreviation worker_data := (worker_data dst src v xxh3 cm0).
Local Abbreviation num d := (num_concurrent peerNumConcurrent localNumConcurrent d).
Local Abbreviation n0 := (GetChunkCount cm0).

Record good s : Prop := {
  gd_sys : sys_inv s;
  gd_live : sys_live peerNumConcurrent localNumConcurrent s;
  gd_data : data_inv dst src v xxh3 cm0 s;
  gd_books : sys_books s;
  gd_healthy : st_healthy dst (mc_Dst (sy_main s))
}.

Lemma good_count s : good s → GetChunkCount (mc_ChunkManager (sy_main s)) = n0.
Proof. intros Hg. apply meta_count. apply Hg. Qed.

Lemma good_exec s k ex :
  good s → sy_execs s !! k = Some ex →
  exec_inv (mc_ChunkManager (sy_main s)) ex ∧ live_inv (num (ex_downloader ex)) ex ∧
  books (mc_ctx_done (sy_main s)) (mc_Completed (sy_main s)) n0 ex.
Proof.
  intros Hg Hk. rewrite <- (good_count s Hg). destruct Hg as [Hs Hl _ Hb _].
  split_and!; [exact (proj1 (Forall_lookup _ _) (si_execs _ Hs) _ _ Hk)
    |exact (proj1 (Forall_lookup _ _) Hl _ _ Hk)|exact (proj1 (Forall_lookup _ _) Hb _ _ Hk)].
Qed.

(** Only a range that is written changes the destination. *)
Lemma worker_step_healthy inp m ex p m' ex' p' :
  worker_step inp m ex p = Some (Ok (m', ex', p')) →
  meta_ok cm0 (mc_ChunkManager m) → prepared dst (mc_Dst m) (cm_files cm0) →
  worker_data (mc_Dst m) p → st_healthy dst (mc_Dst m) → st_healthy dst (mc_Dst m').
Proof.
  intros H Hm Hp Hd Hw. destruct p; cbn [Downloader.worker_step] in H; try discriminate H.
  all: try (repeat case_match; simplify_eq; exact Hw).
  all: try (apply some_ok, bind_ok in H as (? & _ & [= <- <- <-]); exact Hw).
  - repeat case_match; simplify_eq; try exact Hw.
    by apply bind_ok in H as (? & _ & [= <- <- <-]).
  - destruct todo as [|r todo]; [repeat case_match; simplify_eq; exact Hw|].
    destruct Hd as (c & written & Hc & Hr & _).
    destruct (manager_chunk _ _ _ Hok Hc) as (Hin & _). rewrite Hr in Hin.
    apply Forall_app in Hin as [_ [Hin _]%Forall_cons].
    pose proof (mo_files _ _ Hm) as Hff.
    destruct (write_range_healthy dst onFileComplete onFileComplete_ok onFileComplete_healthy
      r rd (mc_ChunkManager m) (mc_Dst m)) as [Hw' _];
      [by rewrite Hff|by eapply range_in_files|done|].
    destruct (write_range _ _ _ _ _) as [res [cm' w']]. cbn [fst snd] in Hw'.
    by destruct res as [[k rd']|?|?]; simplify_eq.
Qed.

Lemma with_exec_healthy k s f s' :
  with_exec k s f = Some s' → st_healthy dst (mc_Dst (sy_main s)) →
  (∀ ex m' ex', sy_execs s !! k = Some ex → f (sy_main s) ex = Some (Ok (m', ex')) →
    st_healthy dst (mc_Dst m')) → st_healthy dst (mc_Dst (sy_main s')).
Proof.
  unfold with_exec. intros (ex & Hk & (r & Hr & [= <-])%bind_Some)%bind_Some Hw Hf.
  destruct r as [[m' ex']|e|msg]; [|done..]. by eapply Hf.
Qed.

Lemma run_event_healthy e s s' :
  run_event e s = Some s' → good s → st_healthy dst (mc_Dst (sy_main s')).
Proof.
  intros Hrun Hg. pose proof (gd_healthy _ Hg) as Hw. pose proof (gd_data _ Hg) as Hd.
  unfold Downloader.run_event in Hrun. destruct (mc_panicked _); [done|].
  destruct e as [k|k j inp|k j|k choice al|k|k|k|uuid host|host|now|].
  - eapply with_exec_healthy; [done..|]. intros ex m' ex' Hk H.
    assert (mc_Dst m' = mc_Dst (sy_main s)) as ->; [|done]. simpl in H. unfold sched_step in H.
    destruct (ex_sched ex); try done; repeat case_match; simplify_eq; try done;
      by apply bind_ok in H as (? & _ & H); repeat case_match; simplify_eq.
  - eapply with_exec_healthy; [done..|]. intros ex m' ex' Hk H. simpl in H.
    apply bind_Some in H as (p & Hj & (r & Hr & H)%bind_Some).
    apply some_ok, bind_ok in H as ([[m1 ex1] p1] & -> & [= <- <-]).
    eapply worker_step_healthy; [exact Hr|apply Hd|apply Hd| |done].
    by eapply (da_workers _ _ _ _ _ _ Hd).
  - eapply with_exec_healthy; [done..|]. intros ex m' ex' Hk H. simpl in H.
    apply bind_Some in H as (p & Hj & H). by repeat case_match; simplify_eq.
  - eapply with_exec_healthy; [done..|]. intros ex m' ex' Hk H. simpl in H.
    repeat case_match; simplify_eq.
    apply bind_ok in H as ([? ?] & (? & _ & [= <- <-])%bind_ok & [= <- <-]). done.
  - eapply with_exec_healthy; [done..|]. intros ex m' ex' Hk H. simpl in H.
    by repeat case_match; simplify_eq.
  - eapply with_exec_healthy; [done..|]. intros ex m' ex' Hk H. simpl in H.
    by repeat case_match; simplify_eq.
  - eapply with_exec_healthy; [done..|]. intros ex m' ex' Hk H. simpl in H.
    by repeat case_match; simplify_eq.
  - injection Hrun as <-. unfold PeerDownloaders_Add. by case_match.
  - injection Hrun as <-. unfold PeerDownloaders_Remove. by repeat case_match.
  - destruct (_ || _); [done|]. injection Hrun as <-. by case_match.
  - by injection Hrun as <-.
Qed.

Lemma run_event_good e s s' : event_ok e s → run_event e s = Some s' → good s → good s'.
Proof.
  intros He Hrun Hg. pose proof (good_count _ Hg) as Hn. pose proof Hg as [Hs Hl Hd Hb Hw].
  assert (Z.of_nat (GetChunkCount (mc_ChunkManager (sy_main s))) < 2 ^ 63)%Z by (by rewrite Hn).
  constructor.
  - by eapply run_event_inv.
  - by eapply run_event_live.
  - by eapply run_event_data.
  - by eapply run_event_books.
  - by eapply run_event_healthy.
Qed.

Lemma run_events_good l s s' : events_ok l s → run_events l s = Some s' → good s → good s'.
Proof.
  revert s. induction l as [|e l IH]; intros s; simpl; [by intros _ [= <-]|].
  intros [He Hl] (s1 & H1 & H2)%bind_Some Hg. eapply IH; [by apply Hl|done|].
  by eapply run_event_good.
Qed.

(** ** An environment

    The goroutines of one downloader machine, wherever it runs: by itself, or as a node of a
    swarm. A state [t] of the environment has the machine [sys t]; the environment lets every
    goroutine go on, and answers every request, those of downloader [k0] with whole chunks.
    While a request is answered the machine is only touched where its goroutines do not look. *)

Record quiet (s s' : system W) : Prop := {
  qu_execs : sy_execs s' = sy_execs s;
  qu_chunks : chunks (mc_ChunkManager (sy_main s')) = chunks (mc_ChunkManager (sy_main s));
  qu_ctx : mc_ctx_done (sy_main s') = mc_ctx_done (sy_main s);
  qu_completed : mc_Completed (sy_main s') = mc_Completed (sy_main s);
  qu_panicked : mc_panicked (sy_main s') = mc_panicked (sy_main s)
}.

Lemma quiet_refl (s : system W) : quiet s s.
Proof. done. Qed.

(** All the bytes of a chunk, with its checksum or none. *)
Definition whole (i : nat) (r : result (Z * reader)) : Prop :=
  ∃ checksum rd, r = Ok (checksum, rd) ∧
    source_bytes src v (cm_files cm0) (chunks cm0) i = Some (rd_data rd) ∧
    (checksum = 0%Z ∨ checksum = xxh3 (rd_data rd)).

(** An event that takes no response. *)
Definition unasked (e : event) : bool :=
  match e with EvWorker _ _ (Response _) => false | _ => true end.

Record environment {T} (sys : T → system W) (inv : T → Prop) (next : T → T → Prop) (k0 : nat) :
    Prop := {
  en_good t : inv t → good (sys t);
  en_own e k t s1 : inv t → thread_event k e = true → unasked e = true →
    run_event e (sys t) = Some s1 → ∃ t', next t t' ∧ inv t' ∧ sys t' = s1;
  en_request t k j ex i t0 :
    inv t → sy_execs (sys t) !! k = Some ex → ex_workers ex !! j = Some (WRequest i t0) →
    ∃ t' s1 r, next t t' ∧ inv t' ∧ quiet (sys t) s1 ∧ calm r ∧ (k = k0 → whole i r) ∧
      run_event (EvWorker k j (Response r)) s1 = Some (sys t')
}.

Definition step_exec (k : nat) m' ex' (s : system W) : system W :=
  mkSystem m' (<[k := ex']> (sy_execs s)) (sy_downloaders s).

Lemma step_exec_lookup k m' ex ex' s :
  sy_execs s !! k = Some ex → sy_execs (step_exec k m' ex' s) !! k = Some ex'.
Proof. intros Hk. apply list_lookup_insert_eq. by eapply lookup_lt_Some. Qed.

(** A worker's event, when it has not ended the program. *)
Lemma run_worker_event k j inp s ex p s' :
  run_event (EvWorker k j inp) s = Some s' → sy_execs s !! k = Some ex →
  ex_workers ex !! j = Some p → mc_panicked (sy_main s') = false →
  ∃ m' ex' p', worker_step inp (sy_main s) ex p = Some (Ok (m', ex', p')) ∧
    s' = step_exec k m' (set_worker j p' ex') s.
Proof.
  unfold Downloader.run_event, with_exec. destruct (mc_panicked _); [done|]. intros Hrun Hk Hj.
  rewrite Hk in Hrun. simpl in Hrun. rewrite Hj in Hrun. simpl in Hrun.
  destruct (worker_step inp _ ex p) as [[[[m' ex'] p']|?|?]|]; simplify_eq/=; [|done..].
  intros _. by exists m', ex', p'.
Qed.

(** ** What the steps of the workers keep *)

(** A cancelled download is complete, or a worker is about to say so. *)
Definition settled s : Prop :=
  mc_ctx_done (sy_main s) = true → mc_Completed (sy_main s) = true ∨
  ∃ k j ex p, sy_execs s !! k = Some ex ∧ ex_workers ex !! j = Some p ∧ completing p = true.

(** Downloader [k] is valid, knows every chunk, has counted [c] of them, and its scheduler is
    at [p]. *)
Definition source_at (k : nat) (p : sched) (c : nat) s : Prop :=
  ∃ ex, sy_execs s !! k = Some ex ∧ IsValid (ex_downloader ex) = true ∧
    (∀ i, i < n0 → announced n0 (ex_downloader ex) i = true) ∧
    ex_sched ex = p ∧ c ≤ length (ex_counted ex).

Lemma quiet_settled s s' : quiet s s' → settled s → settled s'.
Proof. intros [He _ Hc Hf _]. unfold settled. by rewrite He, Hc, Hf. Qed.

Lemma quiet_source k p c s s' : quiet s s' → source_at k p c s → source_at k p c s'.
Proof. intros [He _ _ _ _]. unfold source_at. by rewrite He. Qed.

Lemma worker_settled s k j ex p m' ex' p' :
  worker_books (sy_main s) ex p m' ex' p' → sy_execs s !! k = Some ex →
  ex_workers ex !! j = Some p → ex_workers ex' = ex_workers ex →
  settled s → settled (step_exec k m' (set_worker j p' ex') s).
Proof.
  intros Hb Hk Hj Hwk Hs Hc. simpl in Hc. simpl.
  assert (completing p' = true → ∃ k0 j0 ex0 p0,
    <[k:=set_worker j p' ex']> (sy_execs s) !! k0 = Some ex0 ∧ ex_workers ex0 !! j0 = Some p0 ∧
    completing p0 = true) as Hnew.
  { intros Hp'. exists k, j, (set_worker j p' ex'), p'. split_and!; [|simpl|done].
    - apply list_lookup_insert_eq. by eapply lookup_lt_Some.
    - rewrite Hwk. apply list_lookup_insert_eq. by eapply lookup_lt_Some. }
  destruct (wb_cancel _ _ _ _ _ _ Hb Hc) as [Hc0|?]; [|by right; apply Hnew].
  destruct (Hs Hc0) as [Hcd|(k0 & j0 & ex0 & p0 & Hk0 & Hj0 & Hp0)]; [by left; apply Hb|].
  destruct (decide (k0 = k)) as [->|Hne].
  - simplify_eq. destruct (decide (j0 = j)) as [->|Hne].
    + simplify_eq. left. by eapply wb_completing.
    + right. exists k, j0, (set_worker j p' ex'), p0. split_and!; [|simpl|done].
      * apply list_lookup_insert_eq. by eapply lookup_lt_Some.
      * by rewrite Hwk, list_lookup_insert_ne.
  - right. exists k0, j0, ex0, p0. by rewrite list_lookup_insert_ne.
Qed.

Lemma worker_source s k j ex p m' ex' p' k0 q c :
  worker_books (sy_main s) ex p m' ex' p' → sy_execs s !! k = Some ex →
  ex_sched ex' = ex_sched ex →
  source_at k0 q c s → source_at k0 q c (step_exec k m' (set_worker j p' ex') s).
Proof.
  intros Hb Hk Hsc (ex0 & Hk0 & Hv & Ha & Hp & Hc).
  destruct (decide (k0 = k)) as [->|Hne].
  - simplify_eq. exists (set_worker j p' ex'). split_and!; simpl.
    + apply list_lookup_insert_eq. by eapply lookup_lt_Some.
    + by rewrite (wb_valid _ _ _ _ _ _ Hb).
    + intros i Hi. rewrite (wb_announced _ _ _ _ _ _ Hb). by apply Ha.
    + done.
    + destruct (wb_counted _ _ _ _ _ _ Hb) as [->|[_ [i ->]]]; simpl; lia.
  - exists ex0. simpl. by rewrite list_lookup_insert_ne.
Qed.

(** ** Bringing the workers to rest *)

Local Abbreviation M := (max_list (length <$> ranges_of cm0)).

Lemma good_ranges s : good s → ranges_bounded M (mc_ChunkManager (sy_main s)).
Proof.
  intros Hg. unfold ranges_bounded, ranges_of.
  rewrite (mo_ranges _ _ (da_meta _ _ _ _ _ _ (gd_data _ Hg))).
  apply Forall_forall. intros l Hl. apply max_list_elem_of_le. by apply list_elem_of_fmap_2.
Qed.

Definition idle s : Prop := forallb exec_idle (sy_execs s) = true.

Lemma quiet_ranges s s' : quiet s s' → good s → ranges_bounded M (mc_ChunkManager (sy_main s')).
Proof.
  intros [_ Hc _ _ _] Hg. unfold ranges_bounded, ranges_of. rewrite Hc. by apply good_ranges.
Qed.

Lemma num_pos d : 0 < peerNumConcurrent → 0 < localNumConcurrent → 0 < num d.
Proof. by destruct d. Qed.

(** ** Getting one chunk *)

(** A worker on its way to count a chunk, with all of it. *)
Definition productive (p : worker) : Prop :=
  match p with
  | WReceived (Some _) | WStartTime _ | WRequest _ _ | WSetChecksum _ _ _ _ | WEndTime _ _ _
  | WSetDone _ _ _ _ | WSetTime _ _ _ _ | WCount _ _ _ _ => True
  | WWrite i _ checksum rd0 _ _ _ => whole i (Ok (checksum, rd0))
  | _ => False
  end.

Lemma whole_length i checksum rd c :
  whole i (Ok (checksum, rd)) → chunks cm0 !! i = Some c →
  Z.of_nat (length (rd_data rd)) = ranges_len (FileRanges c).
Proof.
  intros (x & rd' & [= <- <-] & Hb & _) Hc. destruct (manager_chunk _ _ _ Hok Hc) as (Hin & _ & _).
  destruct (chunk_bytes_sized src _ _ _ Hsrc Hin) as (b & Hb' & Hl).
  unfold source_bytes in Hb. rewrite Hc in Hb. simplify_eq/=. rewrite Hl.
  by eapply Z2Nat.id, ranges_len_range_in.
Qed.

(** One range of a chunk whose stream is long enough. *)
Lemma write_productive m i t0 checksum rd0 r todo rd n :
  worker_data (mc_Dst m) (WWrite i t0 checksum rd0 (r :: todo) rd n) →
  productive (WWrite i t0 checksum rd0 (r :: todo) rd n) →
  meta_ok cm0 (mc_ChunkManager m) → prepared dst (mc_Dst m) (cm_files cm0) →
  st_healthy dst (mc_Dst m) →
  is_ok (write_range dst onFileComplete r rd (mc_ChunkManager m, mc_Dst m)).1 = true.
Proof.
  intros (c & written & Hc & Hr & _ & Hdata & Hlen & _) Hlong Hm Hp Hw.
  pose proof (mo_files _ _ Hm) as Hff. apply (whole_length _ _ _ c) in Hlong; [|done].
  destruct (manager_chunk _ _ _ Hok Hc) as (Hin & _ & _).
  rewrite Hr in Hin, Hlong. apply Forall_app in Hin as [Hinw [Hinr Hint]%Forall_cons].
  rewrite ranges_len_app, ranges_len_cons in Hlong.
  pose proof (ranges_len_range_in _ _ Hinw). pose proof (ranges_len_range_in _ _ Hint).
  eapply write_range_healthy; [done..|by rewrite Hff|by eapply range_in_files|done|].
  rewrite Hdata, length_drop. lia.
Qed.

(** The checksum of what was written is the one that came with it. *)
Lemma checksum_productive w i t0 checksum rd0 rd n :
  worker_data w (WWrite i t0 checksum rd0 [] rd n) →
  productive (WWrite i t0 checksum rd0 [] rd n) →
  negb (checksum =? 0)%Z && negb (xxh3 (consumed rd0 rd) =? checksum)%Z = false.
Proof.
  intros (c & written & Hc & Hr & _ & Hdata & Hlen & _) Hw.
  pose proof (whole_length _ _ _ c Hw Hc) as Hl. rewrite app_nil_r in Hr. subst written.
  destruct Hw as (x & rd' & [= <- <-] & _ & Hsum).
  rewrite (consumed_take _ _ _ Hdata Hlen), take_ge by lia.
  destruct Hsum as [-> | ->]; [done|]. by rewrite Z.eqb_refl, andb_false_r.
Qed.

Lemma productive_step inp m ex p m' ex' p' :
  worker_step inp m ex p = Some (Ok (m', ex', p')) → productive p →
  (∀ i t0, p = WRequest i t0 → ∃ r, inp = Response r ∧ whole i r) →
  ((∀ i t0, p ≠ WRequest i t0) → worker_data (mc_Dst m) p ∧ meta_ok cm0 (mc_ChunkManager m) ∧
    prepared dst (mc_Dst m) (cm_files cm0) ∧ st_healthy dst (mc_Dst m)) →
  productive p' ∨ ∃ i, ex_counted ex' = i :: ex_counted ex.
Proof.
  intros Hstep Hp Hask Hwrite.
  destruct p as [| |[i|]|i t0|i t0|i t0 z rd0 todo rd n|i t0 z n|i t0 n|i t0 t1 n|i t0 t1 n|
    i t0 t1 n|t0 t1 n|t0 t1 n|t0 t1 n|t0 t1 n|t0 t1 n|t0 t1 n|t0 t1|i|i| |]; try done;
    cbn [Downloader.worker_step] in Hstep.
  - simplify_eq. by left.
  - destruct inp; simplify_eq. by left.
  - destruct (Hask i t0 eq_refl) as (r & -> & Hr). pose proof Hr as (z & rd & -> & _).
    apply some_ok, bind_ok in Hstep as (c & _ & [= <- <- <-]). by left.
  - destruct (Hwrite ltac:(done)) as (Hd & Hm & Hprep & Hw). left. destruct todo as [|r todo].
    + rewrite (checksum_productive _ _ _ _ _ _ _ Hd Hp) in Hstep.
      by destruct verifyOnComplete; simplify_eq.
    + pose proof (write_productive _ _ _ _ _ _ _ _ _ Hd Hp Hm Hprep Hw) as Hok'.
      destruct (write_range _ _ _ _ _) as [[[k rd']|?|?] [cm' w']]; [|done..]. by simplify_eq.
  - apply some_ok, bind_ok in Hstep as (cm' & _ & [= <- <- <-]). by left.
  - destruct inp; simplify_eq. by left.
  - apply some_ok, bind_ok in Hstep as (cm' & _ & [= <- <- <-]). by left.
  - apply some_ok, bind_ok in Hstep as (cm' & _ & [= <- <- <-]). by left.
  - simplify_eq. right. by exists i.
Qed.

(** * Driving the goroutines *)

Section driving.
Context {T : Type} (sys : T → system W) (inv : T → Prop) (next : T → T → Prop) (k0 : nat).
Context (Henv : environment sys inv next k0).
Implicit Types (t : T).
Hypothesis Hpeer : 0 < peerNumConcurrent.
Hypothesis Hlocal : 0 < localNumConcurrent.
Local Abbreviation en_good := (en_good _ _ _ _ Henv _).

Lemma own_drive e k t s1 :
  inv t → thread_event k e = true → unasked e = true → run_event e (sys t) = Some s1 →
  ∃ t', next t t' ∧ inv t' ∧ sys t' = s1.
Proof. apply (en_own _ _ _ _ Henv). Qed.

Lemma sched_drive t k ex m' ex' :
  inv t → sy_execs (sys t) !! k = Some ex →
  sched_step (num (ex_downloader ex)) (sy_main (sys t)) ex = Some (Ok (m', ex')) →
  ∃ t', next t t' ∧ inv t' ∧ sys t' = step_exec k m' ex' (sys t).
Proof.
  intros Hg Hk Hstep. apply (own_drive (EvSched k) k); [done|by apply bool_decide_eq_true|done|].
  unfold Downloader.run_event, with_exec.
  rewrite (da_panicked _ _ _ _ _ _ (gd_data _ (en_good Hg))), Hk. simpl. by rewrite Hstep.
Qed.

Lemma send_drive t k j ex i :
  inv t → sy_execs (sys t) !! k = Some ex → ex_sched ex = SSend i →
  ex_workers ex !! j = Some WReceive →
  ∃ t', next t t' ∧ inv t' ∧ sys t' = step_exec k (sy_main (sys t))
    (set_worker j (WReceived (Some i)) (set_sched SValid ex)) (sys t).
Proof.
  intros Hg Hk Hp Hj. apply (own_drive (EvSend k j) k); [done|by apply bool_decide_eq_true|done|].
  unfold Downloader.run_event, with_exec.
  rewrite (da_panicked _ _ _ _ _ _ (gd_data _ (en_good Hg))), Hk.
  simpl. rewrite Hj. simpl. by rewrite Hp.
Qed.

(** A worker that is not resting makes a step. *)
Lemma worker_drive t k j ex p :
  inv t → sy_execs (sys t) !! k = Some ex → ex_workers ex !! j = Some p → resting p = false →
  ∃ t' s1 inp m' ex' p', next t t' ∧ inv t' ∧ quiet (sys t) s1 ∧
    worker_step inp (sy_main s1) ex p = Some (Ok (m', ex', p')) ∧
    sys t' = step_exec k m' (set_worker j p' ex') s1 ∧
    (∀ i (t0 : Time), p = WRequest i t0 → k = k0 → ∃ r, inp = Response r ∧ whole i r) ∧
    ((∀ i (t0 : Time), p ≠ WRequest i t0) → s1 = sys t).
Proof.
  intros Hg Hk Hj Hp. assert ((∃ i (t0 : Time), p = WRequest i t0) ∨ ∀ i (t0 : Time), p ≠ WRequest i t0)
    as [(i & t0 & ->)|Hr] by (destruct p; eauto).
  - destruct (en_request _ _ _ _ Henv t k j ex i t0 Hg Hk Hj)
      as (t' & s1 & r & Hn & Hg' & Hq & _ & Hwhole & Hrun).
    destruct (run_worker_event _ _ _ _ ex (WRequest i t0) _ Hrun) as (m' & ex' & p' & Hstep & Hs);
      [by rewrite (qu_execs _ _ Hq)|done|apply (da_panicked _ _ _ _ _ _ (gd_data _ (en_good Hg')))|].
    exists t', s1, (Response r), m', ex', p'. split_and!; try done; [|by intros H; destruct (H i t0)].
    intros ? ? [= <- <-] Hk0. exists r. auto.
  - destruct (worker_enabled_now dst xxh3 onFileComplete verifyOnComplete (sy_main (sys t)) ex p)
      as [r Hstep]; [by destruct p..|].
    destruct (run_event (EvWorker k j (Now 0%Z)) (sys t)) as [s1|] eqn:Hrun.
    2: { unfold Downloader.run_event, with_exec in Hrun.
      rewrite (da_panicked _ _ _ _ _ _ (gd_data _ (en_good Hg))), Hk in Hrun. simpl in Hrun.
      rewrite Hj in Hrun. simpl in Hrun. by rewrite Hstep in Hrun. }
    destruct (own_drive (EvWorker k j (Now 0%Z)) k t s1 Hg ltac:(by apply bool_decide_eq_true) eq_refl Hrun)
      as (t' & Hn & Hg' & <-).
    destruct (run_worker_event _ _ _ _ ex p _ Hrun Hk Hj) as (m' & ex' & p' & Hstep' & Hs);
      [apply (da_panicked _ _ _ _ _ _ (gd_data _ (en_good Hg')))|].
    exists t', (sys t), (Now 0%Z), m', ex', p'. split_and!; try done. intros i t0 ->. by destruct (Hr i t0).
Qed.

(** ** Bringing the workers to rest *)

(** What a step of a worker keeps, that follows a quiet change. *)
Lemma worker_drive_keeps t t' s1 inp k j ex p m' ex' p' :
  inv t → quiet (sys t) s1 → sy_execs (sys t) !! k = Some ex → ex_workers ex !! j = Some p →
  worker_step inp (sy_main s1) ex p = Some (Ok (m', ex', p')) →
  sys t' = step_exec k m' (set_worker j p' ex') s1 → settled (sys t) →
  settled (sys t') ∧ (∀ k1 q c, source_at k1 q c (sys t) → source_at k1 q c (sys t')) ∧
  sy_execs (sys t') !! k = Some (set_worker j p' ex') ∧
  ex_workers (set_worker j p' ex') !! j = Some p' ∧
  worker_rank M p' < worker_rank M p ∧
  sum_list_with (exec_rank M) (sy_execs (sys t')) < sum_list_with (exec_rank M) (sy_execs (sys t)).
Proof.
  intros Hg Hq Hk Hj Hstep Hs Hset. assert (sy_execs s1 !! k = Some ex) as Hk1
    by (by rewrite (qu_execs _ _ Hq)).
  pose proof (worker_step_books _ _ _ _ _ _ _ _ _ _ _ Hstep) as Hb.
  pose proof (worker_step_workers _ _ _ _ _ _ _ _ _ _ _ Hstep) as Hwk.
  destruct (worker_step_sched _ _ _ _ peerNumConcurrent localNumConcurrent _ _ _ _ _ _ _ Hstep)
    as (Hsc & _).
  destruct (worker_step_rank _ _ _ _ _ _ _ _ _ _ _ _ Hstep (quiet_ranges _ _ Hq (en_good Hg)))
    as (_ & _ & Hrank).
  rewrite Hs. split_and!; [|intros k1 q c Hat| | |done|].
  - eapply worker_settled; [done..|]. by eapply quiet_settled.
  - eapply worker_source; [done..|]. by eapply quiet_source.
  - by eapply step_exec_lookup.
  - simpl. rewrite Hwk. apply list_lookup_insert_eq. by eapply lookup_lt_Some.
  - rewrite <- (qu_execs _ _ Hq). simpl.
    pose proof (sum_insert (exec_rank M) _ _ _ (set_worker j p' ex') Hk1) as H1.
    pose proof (sum_insert (worker_rank M) _ _ _ p' Hj) as H2. unfold exec_rank in H1 at 2 4.
    simpl in H1. rewrite Hsc, Hwk in H1. lia.
Qed.

(** A worker that has work moves on, whatever its request answers. *)
Lemma busy_drive t k ex j p :
  inv t → settled (sys t) → sy_execs (sys t) !! k = Some ex → ex_workers ex !! j = Some p →
  resting p = false →
  ∃ t', next t t' ∧ inv t' ∧ settled (sys t') ∧
    sum_list_with (exec_rank M) (sy_execs (sys t')) < sum_list_with (exec_rank M) (sy_execs (sys t)) ∧
    ∀ k0 q c, source_at k0 q c (sys t) → source_at k0 q c (sys t').
Proof.
  intros Hg Hset Hk Hj Hp.
  destruct (worker_drive t k j ex p) as (t' & s1 & inp & m' & ex' & p' & Hn & Hg' & Hq & Hstep & Hs & _);
    [done..|].
  destruct (worker_drive_keeps t t' s1 inp k j ex p m' ex' p') as (H1 & H2 & _ & _ & _ & H3); [done..|].
  exists t'. by split_and!.
Qed.

(** A scheduler that has a chunk to hand over finds a worker that waits for it. *)
Lemma rested_send_drive t k ex i :
  inv t → settled (sys t) → sy_execs (sys t) !! k = Some ex → ex_sched ex = SSend i →
  forallb resting (ex_workers ex) = true →
  ∃ t', next t t' ∧ inv t' ∧ settled (sys t') ∧
    sum_list_with (exec_rank M) (sy_execs (sys t')) < sum_list_with (exec_rank M) (sy_execs (sys t)) ∧
    ∃ ex', sy_execs (sys t') !! k = Some ex' ∧ ex_workers ex' !! 0 = Some (WReceived (Some i)) ∧
    ∀ k1 q c, source_at k1 q c (sys t) → source_at k1 (if decide (k1 = k) then SValid else q) c (sys t').
Proof.
  intros Hg Hset Hk Hp Hrest. destruct (good_exec _ _ _ (en_good Hg) Hk) as (_ & [Hl _ _ Hsp] & _).
  rewrite Hp in Hsp. pose proof (num_pos (ex_downloader ex) Hpeer Hlocal).
  destruct (lookup_lt_is_Some_2 (ex_workers ex) 0) as [p Hj]; [rewrite Hsp; [lia|done]|].
  assert (p = WReceive) as ->.
  { pose proof (forallb_lookup _ _ _ _ Hrest Hj). destruct p; try done.
    pose proof (proj1 (Forall_lookup _ _) Hl _ _ Hj eq_refl) as Hc. by rewrite Hp in Hc. }
  destruct (send_drive _ _ _ _ _ Hg Hk Hp Hj) as (t' & Hd & Hg' & Hs).
  exists t'. rewrite Hs. split_and!; [exact Hd|exact Hg'| | |].
  - intros Hc. destruct (Hset Hc) as [?|(k1 & j0 & ex0 & p0 & Hk1 & Hj0 & Hp0)]; [by left|right].
    destruct (decide (k1 = k)) as [->|Hne].
    + simplify_eq. eexists k, j0, _, p0. split_and!; [by eapply step_exec_lookup| |done].
      simpl. rewrite list_lookup_insert_ne; [done|]. intros <-. by simplify_eq.
    + exists k1, j0, ex0, p0. simpl. by rewrite list_lookup_insert_ne.
  - simpl. match goal with |- context [<[k := ?e]> _] =>
      pose proof (sum_insert (exec_rank M) _ _ _ e Hk) as H1 end.
    pose proof (sum_insert (worker_rank M) _ _ _ (WReceived (Some i)) Hj) as H2.
    unfold exec_rank in H1 at 2 4. simpl in H1, H2. rewrite Hp in H1. simpl in H1. lia.
  - eexists. split_and!; [by eapply step_exec_lookup| |].
    + simpl. apply list_lookup_insert_eq. by eapply lookup_lt_Some.
    + intros k1 q c (ex0 & Hk1 & Hv & Ha & Hq & Hc). case_decide as E.
      * subst k1. simplify_eq. eexists. by split_and!; [by eapply step_exec_lookup|..].
      * exists ex0. simpl. by rewrite list_lookup_insert_ne.
Qed.

Lemma flush t k p c :
  inv t → settled (sys t) → source_at k p c (sys t) →
  ∃ t', rtc next t t' ∧ inv t' ∧ settled (sys t') ∧ idle (sys t') ∧ source_at k (settle p) c (sys t').
Proof.
  remember (sum_list_with (exec_rank M) (sy_execs (sys t))) as rank eqn:Hr.
  revert t p Hr. induction (lt_wf rank) as [rank _ IH]; intros t p -> Hg Hset Hsrc0.
  destruct (forallb exec_idle (sy_execs (sys t))) eqn:Hidle.
  { exists t. split_and!; try done. destruct Hsrc0 as (ex & Hk & Hv & Ha & Hp & Hc).
    exists ex. split_and!; try done. pose proof (forallb_lookup _ _ _ _ Hidle Hk) as Hi.
    subst p. apply andb_true_iff in Hi as [Hi _]. by destruct (ex_sched ex). }
  destruct (forallb_false_lookup _ _ Hidle) as (k1 & ex1 & Hk1 & Hbusy).
  unfold exec_idle in Hbusy. destruct (forallb resting (ex_workers ex1)) eqn:Hrest.
  - rewrite andb_true_r in Hbusy. destruct (ex_sched ex1) eqn:Hp1; try done.
    destruct (rested_send_drive t k1 ex1 i) as (t1 & Hd & Hg1 & Hs1 & Hlt & ex' & _ & _ & Hkeep);
      [done..|].
    destruct (IH _ Hlt t1 (if decide (k = k1) then SValid else p)) as (t2 & Hd2 & ? & ? & ? & ?);
      [done..|by apply Hkeep|].
    exists t2. split_and!; try done; [by eapply rtc_l|].
    case_decide; [|done]. subst k1. destruct Hsrc0 as (ex & ? & _ & _ & ? & _). simplify_eq.
    by rewrite Hp1.
  - destruct (forallb_false_lookup _ _ Hrest) as (j & q & Hj & Hq).
    destruct (busy_drive t k1 ex1 j q) as (t1 & Hd & Hg1 & Hs1 & Hlt & Hkeep); [done..|].
    destruct (IH _ Hlt t1 p) as (t2 & Hd2 & ? & ? & ? & ?); [done..|by apply Hkeep|].
    exists t2. split_and!; try done. by eapply rtc_l.
Qed.

(** ** Getting one chunk *)

Lemma work t ex j p q c :
  inv t → settled (sys t) → sy_execs (sys t) !! k0 = Some ex → ex_workers ex !! j = Some p →
  productive p → source_at k0 q c (sys t) →
  ∃ t', rtc next t t' ∧ inv t' ∧ settled (sys t') ∧ source_at k0 q (S c) (sys t').
Proof.
  remember (worker_rank M p) as rank eqn:Hr. revert t ex p Hr.
  induction (lt_wf rank) as [rank _ IH]; intros t ex p -> Hg Hset Hk Hj Hp Hat.
  destruct (worker_drive t k0 j ex p)
    as (t1 & s1 & inp & m' & ex' & p' & Hn & Hg' & Hq & Hstep & Hs & Hwhole & Hsame);
    [done..|by destruct p|].
  destruct (worker_drive_keeps t t1 s1 inp k0 j ex p m' ex' p')
    as (Hset' & Hkeep & Hk' & Hj' & Hrank & _); [done..|].
  destruct (productive_step _ _ _ _ _ _ _ Hstep Hp) as [Hp'|[i Hi]].
  - intros i t0 E. by eapply Hwhole.
  - intros Hno. rewrite (Hsame Hno). pose proof (gd_data _ (en_good Hg)) as Hd.
    split_and!; [by eapply (da_workers _ _ _ _ _ _ Hd)|apply Hd|apply Hd|apply (en_good Hg)].
  - destruct (IH _ Hrank t1 (set_worker j p' ex') p') as (t2 & Hd2 & ? & ? & ?); try done.
    + by apply Hkeep.
    + exists t2. split_and!; try done. by eapply rtc_l.
  - exists t1. split_and!; [by eapply rtc_once|done|done|].
    destruct (Hkeep _ _ _ Hat) as (ex1 & H1 & H2 & H3 & H4 & _).
    exists ex1. split_and!; try done. destruct Hat as (ex0 & Hk0 & _ & _ & _ & Hc). simplify_eq.
    simpl. rewrite Hi. simpl. lia.
Qed.

(** ** Idle states *)

(** Downloader [k0] is a source that can be asked: nothing is under way, nothing was
    cancelled. *)
Record sourced t (ex : exec) : Prop := {
  sd_good : inv t;
  sd_idle : idle (sys t);
  sd_ctx : mc_ctx_done (sy_main (sys t)) = false;
  sd_exec : sy_execs (sys t) !! k0 = Some ex;
  sd_valid : IsValid (ex_downloader ex) = true;
  sd_knows i : i < n0 → announced n0 (ex_downloader ex) i = true
}.

Lemma idle_not_downloading t i :
  inv t → idle (sys t) → chunk_status (mc_ChunkManager (sy_main (sys t))) i ≠ Some ChunkStatusDownloading.
Proof.
  intros Hg Hi Hst. pose proof (si_owners _ (gd_sys _ (en_good Hg)) i) as Ho. unfold downloading in Ho.
  rewrite decide_True in Ho by done. unfold idle in Hi. clear -Hi Ho.
  induction (sy_execs (sys t)) as [|ex l IH]; [done|]. apply andb_true_iff in Hi as [He Hi].
  simpl in Ho. rewrite exec_idle_owners in Ho by done. by apply IH.
Qed.

Lemma counted_le t k ex :
  inv t → sy_execs (sys t) !! k = Some ex → length (ex_counted ex) ≤ n0.
Proof.
  intros Hg%en_good Hk. pose proof (sched_pre _ _ _ (gd_sys _ Hg) Hk) as Hpre.
  apply NoDup_below; [by eapply counted_NoDup|]. apply Forall_forall. intros i Hi.
  rewrite <- (good_count _ Hg). eapply counted_below; [done|by left].
Qed.

Section sourced.
Context (t : T) (ex : exec) (Hsd : sourced t ex).

Lemma sourced_resting j p : ex_workers ex !! j = Some p → resting p = true.
Proof.
  intros Hj. pose proof (forallb_lookup _ _ _ _ (sd_idle _ _ Hsd) (sd_exec _ _ Hsd)) as Hi.
  apply andb_true_iff in Hi as [_ Hw]. by eapply forallb_lookup.
Qed.

(** When every chunk is counted, the flag is set, or about to be. *)
Lemma sourced_complete :
  length (ex_counted ex) = n0 → sched_finishing (ex_sched ex) = false →
  mc_Completed (sy_main (sys t)) = true.
Proof.
  intros Hlen Hp. destruct (good_exec _ _ _ (en_good (sd_good _ _ Hsd)) (sd_exec _ _ Hsd)) as (_ & _ & Hb).
  destruct (bk_full _ _ _ _ Hb Hlen) as [?|[?|(j & p & Hj & Hfin)]]; [done|congruence|].
  apply sourced_resting in Hj. by destruct p.
Qed.

Lemma sourced_in_loop : left_loop (ex_sched ex) = false.
Proof.
  destruct (good_exec _ _ _ (en_good (sd_good _ _ Hsd)) (sd_exec _ _ Hsd)) as (_ & _ & Hb).
  destruct (left_loop (ex_sched ex)) eqn:E; [|done].
  destruct (bk_loop _ _ _ _ Hb E) as [H|H]; [by rewrite (sd_ctx _ _ Hsd) in H|].
  by rewrite (sd_valid _ _ Hsd) in H.
Qed.

(** The queue has the chunks that are not counted. *)
Lemma sourced_queue :
  sched_token (ex_sched ex) = None → length (ex_counted ex) < n0 →
  GetQueue (ex_downloader ex) ≠ [].
Proof.
  intros Hp Hlt Hq. destruct (good_exec _ _ _ (en_good (sd_good _ _ Hsd)) (sd_exec _ _ Hsd)) as (Hex & _).
  assert (n0 ≤ length (ex_counted ex)); [|lia]. rewrite <- (length_seq n0 0).
  apply submseteq_length, NoDup_submseteq; [apply NoDup_seq|]. intros i Hi%elem_of_seq.
  apply elem_of_occ. pose proof (ei_tokens _ _ Hex i) as Ht. unfold tokens in Ht.
  rewrite Hp, Hq, (good_count _ (en_good (sd_good _ _ Hsd))), (sd_knows _ _ Hsd) in Ht by lia.
  assert (sum_list_with (λ p, hits i (worker_token p)) (ex_workers ex) = 0) as Hz.
  { pose proof sourced_resting as Hrest. clear -Hrest.
    induction (ex_workers ex) as [|p l IH]; [done|]. simpl.
    rewrite IH by (intros j; exact (Hrest (S j))). specialize (Hrest 0 p eq_refl). by destruct p. }
  rewrite Hz in Ht. change (hits i None) with 0 in Ht. change (occ i []) with 0 in Ht.
  simpl in Ht. lia.
Qed.

Hypothesis Hpeer31 : (Z.of_nat peerNumConcurrent < 2 ^ 31)%Z.
Hypothesis Hlocal31 : (Z.of_nat localNumConcurrent < 2 ^ 31)%Z.

(** Every worker waits, and is counted. *)
Lemma sourced_ready :
  unspawned (ex_sched ex) = false → downloadWorkerReadyCount ex ≠ 0%Z.
Proof.
  intros Hp. destruct (good_exec _ _ _ (en_good (sd_good _ _ Hsd)) (sd_exec _ _ Hsd))
    as (_ & [Hl _ _ Hsp] & Hb).
  assert (sum_list_with ready (ex_workers ex) = length (ex_workers ex)) as Hsum.
  { pose proof sourced_resting as Hrest. pose proof sourced_in_loop as Hloop.
    assert (chan_closed (ex_sched ex) = false) as Hcl by (by destruct (ex_sched ex)).
    rewrite Hcl in Hl. clear -Hrest Hl.
    induction Hl as [|p l Hp Hl IH]; [done|]. simpl.
    rewrite IH by (intros j; exact (Hrest (S j))). specialize (Hrest 0 p eq_refl).
    destruct p; try done. by specialize (Hp eq_refl). }
  rewrite (bk_ready _ _ _ _ Hb), Hsum, (Hsp Hp). pose proof (num_pos (ex_downloader ex) Hpeer Hlocal).
  assert (Z.of_nat (num (ex_downloader ex)) < 2 ^ 31)%Z by (by destruct (ex_downloader ex)).
  wrap_simpl. lia.
Qed.
End sourced.

(** ** One turn of the scheduler after the other *)

Definition can_complete t : Prop :=
  ∃ t', rtc next t t' ∧ inv t' ∧ mc_Completed (sy_main (sys t')) = true.

Lemma drive_complete t t' : rtc next t t' → can_complete t' → can_complete t.
Proof. intros Hd (t2 & Hd2 & ?). exists t2. split; [by etrans|done]. Qed.

(** Whatever the workers have to do, they finish it first. *)
Lemma resume t p c :
  inv t → settled (sys t) → source_at k0 p c (sys t) →
  (∀ t' ex', sourced t' ex' → ex_sched ex' = settle p → c ≤ length (ex_counted ex') →
    can_complete t') →
  can_complete t.
Proof.
  intros Hg Hset Hat Hnext. destruct (flush _ _ _ _ Hg Hset Hat) as (t1 & Hd & Hg1 & Hset1 & Hi & Hat1).
  apply (drive_complete _ _ Hd). destruct Hat1 as (ex1 & Hk & Hv & Ha & Hp & Hc).
  destruct (mc_ctx_done (sy_main (sys t1))) eqn:Hctx; [|by eapply Hnext].
  exists t1. split_and!; [done|done|].
  destruct (Hset1 Hctx) as [?|(k1 & j0 & ex0 & p0 & Hk1 & Hj0 & Hp0)]; [done|].
  pose proof (forallb_lookup _ _ _ _ Hi Hk1) as [_ Hw]%andb_true_iff.
  pose proof (forallb_lookup _ _ _ _ Hw Hj0). by destruct p0.
Qed.

Lemma sched_step_downloader n m ex m' ex' :
  sched_step n m ex = Some (Ok (m', ex')) →
  IsValid (ex_downloader ex') = IsValid (ex_downloader ex) ∧
  (∀ i, announced n0 (ex_downloader ex') i = announced n0 (ex_downloader ex) i).
Proof.
  intros H. unfold sched_step in H. destruct (ex_sched ex); try done; repeat case_match;
    simplify_eq; try done; try (simpl; split; intros; by destruct (ex_downloader ex));
    by apply bind_ok in H as (? & _ & H); repeat case_match; simplify_eq.
Qed.

Section turn.
Context (t : T) (ex : exec) (Hsd : sourced t ex).
Local Abbreviation num_k := (num (ex_downloader ex)).

Lemma sched_source m' ex' :
  sched_step num_k (sy_main (sys t)) ex = Some (Ok (m', ex')) →
  source_at k0 (ex_sched ex') (length (ex_counted ex')) (step_exec k0 m' ex' (sys t)).
Proof.
  intros Hstep. destruct (sched_step_downloader _ _ _ _ _ Hstep) as [Hv Ha]. exists ex'.
  split_and!; [by eapply step_exec_lookup, sd_exec|rewrite Hv; apply Hsd| |done|done].
  intros i Hi. rewrite Ha. by apply Hsd.
Qed.

(** A step that cancels nothing. *)
Lemma sched_move m' ex' :
  sched_step num_k (sy_main (sys t)) ex = Some (Ok (m', ex')) → mc_ctx_done m' = false →
  (∀ t2 ex2, sourced t2 ex2 → ex_sched ex2 = settle (ex_sched ex') →
    length (ex_counted ex') ≤ length (ex_counted ex2) → can_complete t2) →
  can_complete t.
Proof.
  intros Hstep Hctx Hnext.
  destruct (sched_drive _ _ _ _ _ (sd_good _ _ Hsd) (sd_exec _ _ Hsd) Hstep) as (t1 & Hd & Hg & Hs).
  eapply drive_complete; [by eapply rtc_once|].
  eapply resume; [done| |rewrite Hs; by apply sched_source|done].
  rewrite Hs. intros H. simpl in H. congruence.
Qed.

(** A step that leaves the workers alone. *)
Lemma sched_quiet m' ex' :
  sched_step num_k (sy_main (sys t)) ex = Some (Ok (m', ex')) → mc_ctx_done m' = false →
  ex_workers ex' = ex_workers ex → sending (ex_sched ex') = false →
  ∃ t', next t t' ∧ sourced t' ex' ∧ sys t' = step_exec k0 m' ex' (sys t).
Proof.
  intros Hstep Hctx Hw Hp.
  destruct (sched_drive _ _ _ _ _ (sd_good _ _ Hsd) (sd_exec _ _ Hsd) Hstep) as (t1 & Hd & Hg & Hs).
  destruct (sched_step_downloader _ _ _ _ _ Hstep) as [Hv Ha]. exists t1. split_and!; [done| |done].
  constructor; rewrite ?Hs; [done| |done|by eapply step_exec_lookup, sd_exec|rewrite Hv; apply Hsd|].
  - unfold idle. simpl. apply Is_true_true, forallb_True, Forall_insert.
    + apply forallb_True, Is_true_true, Hsd.
    + apply Is_true_true. unfold exec_idle. rewrite Hw, Hp. simpl.
      pose proof (forallb_lookup _ _ _ _ (sd_idle _ _ Hsd) (sd_exec _ _ Hsd)) as Hi.
      by apply andb_true_iff in Hi as [_ Hi].
  - intros i Hi. rewrite Ha. by apply Hsd.
Qed.
End turn.

(** The two steps that end a download. *)
Lemma complete_next k t ex m' ex' :
  inv t → sy_execs (sys t) !! k = Some ex →
  sched_step (num (ex_downloader ex)) (sy_main (sys t)) ex = Some (Ok (m', ex')) →
  mc_Completed m' = true → can_complete t.
Proof.
  intros Hg Hk Hstep Hc. destruct (sched_drive _ _ _ _ _ Hg Hk Hstep) as (t' & Hd & Hg' & Hs).
  exists t'. rewrite Hs. split_and!; [by eapply rtc_once|done|done].
Qed.

Lemma finishing_completes k t ex :
  inv t → sy_execs (sys t) !! k = Some ex → sched_finishing (ex_sched ex) = true →
  ex_sched ex ≠ SStart → ex_sched ex ≠ SCompare → can_complete t.
Proof.
  intros Hg Hk Hp H1 H2. destruct (ex_sched ex) eqn:E; try done.
  - edestruct (sched_drive t k ex) as (t' & Hd & Hg' & Hs); [done|done|unfold sched_step; by rewrite E|].
    eapply drive_complete; [by eapply rtc_once|].
    eapply complete_next; [done|rewrite Hs; by eapply step_exec_lookup|reflexivity|done].
  - eapply complete_next; [done|done|unfold sched_step; by rewrite E|done].
  - edestruct (sched_drive t k ex) as (t' & Hd & Hg' & Hs); [done|done|unfold sched_step; by rewrite E|].
    eapply drive_complete; [by eapply rtc_once|].
    eapply complete_next; [done|rewrite Hs; by eapply step_exec_lookup|reflexivity|done].
  - eapply complete_next; [done|done|unfold sched_step; by rewrite E|done].
Qed.

(** A chunk that is Pending is fetched and counted. *)
Lemma swap_completes t ex i :
  sourced t ex → ex_sched ex = SSwap i →
  chunk_status (mc_ChunkManager (sy_main (sys t))) i = Some ChunkStatusPending →
  (∀ t2 ex2, sourced t2 ex2 → ex_sched ex2 = SValid →
    length (ex_counted ex) < length (ex_counted ex2) → can_complete t2) →
  can_complete t.
Proof.
  intros Hsd Hp Hst Hnext. unfold chunk_status in Hst.
  destruct (chunks (mc_ChunkManager (sy_main (sys t))) !! i) as [ch|] eqn:Hch; [|done].
  simpl in Hst. injection Hst as Hst.
  assert (∃ cm', UpdateChunkStatus i ChunkStatusPending ChunkStatusDownloading
    (mc_ChunkManager (sy_main (sys t))) = Ok (true, cm')) as [cm' Hup].
  { unfold UpdateChunkStatus. rewrite (index_slice_lookup _ _ _ Hch).
    unfold mbind, result_bind, UpdateStatus. rewrite decide_True by done. by eexists. }
  assert (sched_step (num (ex_downloader ex)) (sy_main (sys t)) ex
    = Some (Ok (set_cm cm' (sy_main (sys t)), set_sched (SSend i) ex))) as Hstep.
  { unfold sched_step. rewrite Hp, Hup. done. }
  pose proof (sched_source _ _ Hsd _ _ Hstep) as Hat.
  destruct (sched_drive _ _ _ _ _ (sd_good _ _ Hsd) (sd_exec _ _ Hsd) Hstep) as (t1 & Hd & Hg & Hs).
  rewrite <- Hs in Hat.
  pose proof (forallb_lookup _ _ _ _ (sd_idle _ _ Hsd) (sd_exec _ _ Hsd))
    as [_ Hrest]%andb_true_iff.
  destruct (rested_send_drive _ k0 (set_sched (SSend i) ex) i Hg)
    as (t2 & Hd2 & Hg2 & Hs2 & _ & ex2 & Hk2 & Hj2 & Hkeep).
  { rewrite Hs. intros Hc. simpl in Hc. by rewrite (sd_ctx _ _ Hsd) in Hc. }
  { rewrite Hs. by eapply step_exec_lookup, sd_exec. }
  { done. }
  { exact Hrest. }
  apply Hkeep in Hat. rewrite decide_True in Hat by done.
  destruct (work _ _ _ _ _ _ Hg2 Hs2 Hk2 Hj2 I Hat) as (t3 & Hd3 & Hg3 & Hs3 & Hat3).
  eapply drive_complete; [by eapply rtc_l; [exact Hd|]; eapply rtc_l|].
  by eapply resume.
Qed.

(** How far the scheduler is from its next pop; a chunk that is counted outweighs it. *)
Definition place (p : sched) : nat :=
  match p with
  | SStart => 30 | SSpawn | SSwap _ => 29 | SPush _ | SCompare => 28
  | SValid => 27 | SCtx => 26 | SReady => 25 | SPop => 24 | SStatus _ => 23 | _ => 22
  end.
Definition to_go (ex : exec) : nat := (n0 - length (ex_counted ex)) * 40 + place (ex_sched ex).

Hypothesis Hpeer31 : (Z.of_nat peerNumConcurrent < 2 ^ 31)%Z.
Hypothesis Hlocal31 : (Z.of_nat localNumConcurrent < 2 ^ 31)%Z.

(** What one state needs from those that have less to go. *)
Section turns.
Context (t : T) (ex : exec) (Hsd : sourced t ex).
Hypothesis Hnext : ∀ t2 ex2, sourced t2 ex2 → to_go ex2 < to_go ex → can_complete t2.
Local Abbreviation m0 := (sy_main (sys t)).
Local Abbreviation num_k := (num (ex_downloader ex)).

Lemma turn_le : length (ex_counted ex) ≤ n0.
Proof. eapply counted_le; apply Hsd. Qed.

Lemma turn_move m' ex' :
  sched_step num_k m0 ex = Some (Ok (m', ex')) → mc_ctx_done m' = false →
  sending (ex_sched ex') = false → to_go ex' < to_go ex → can_complete t.
Proof.
  intros Hstep Hc Hp Hlt. eapply sched_move; [done..|]. intros t2 ex2 Hsd2 Hp2 Hlen.
  apply (Hnext t2 ex2 Hsd2). eapply Nat.le_lt_trans; [|exact Hlt]. unfold to_go.
  rewrite Hp2. assert (settle (ex_sched ex') = ex_sched ex') as -> by (by destruct (ex_sched ex')).
  lia.
Qed.

Lemma turn_full :
  sched_finishing (ex_sched ex) = false → length (ex_counted ex) < n0 ∨ can_complete t.
Proof.
  intros Hp. pose proof turn_le.
  destruct (decide (length (ex_counted ex) = n0)) as [Hn|]; [right|left; lia].
  exists t. split_and!; [done|apply Hsd|]. by eapply sourced_complete.
Qed.

Lemma turn_chunk i :
  sched_token (ex_sched ex) = Some i → is_Some (chunks (mc_ChunkManager m0) !! i).
Proof.
  intros Htok. apply lookup_lt_is_Some. eapply counted_below; [|by right].
  exact (sched_pre _ _ _ (gd_sys _ (en_good (sd_good _ _ Hsd))) (sd_exec _ _ Hsd)).
Qed.

(** A state from which the step that cancels is taken. *)
Lemma turn_finish m' ex' :
  sched_step num_k m0 ex = Some (Ok (m', ex')) → sched_finishing (ex_sched ex') = true →
  ex_sched ex' ≠ SStart → ex_sched ex' ≠ SCompare → can_complete t.
Proof.
  intros Hstep Hp H1 H2.
  destruct (sched_drive _ _ _ _ _ (sd_good _ _ Hsd) (sd_exec _ _ Hsd) Hstep) as (t1 & Hd & Hg1 & Hs).
  eapply drive_complete; [by eapply rtc_once|].
  by eapply finishing_completes; [done|rewrite Hs; by eapply step_exec_lookup, sd_exec|..].
Qed.

Lemma turn_start : ex_sched ex = SStart → can_complete t.
Proof.
  intros E. destruct (decide (GetChunkCount (mc_ChunkManager m0) = 0)) as [H0|H0].
  - by eapply turn_finish; [unfold sched_step; by rewrite E, decide_True by done|..].
  - eapply turn_move; [unfold sched_step; by rewrite E, decide_False by done|apply Hsd|done|].
    unfold to_go. rewrite E. simpl. lia.
Qed.

Lemma turn_compare : ex_sched ex = SCompare → can_complete t.
Proof.
  intros E.
  destruct (Z.eqb_spec (numCompleted ex) (Z.of_nat (GetChunkCount (mc_ChunkManager m0))))
    as [Hn|Hn%Z.eqb_neq].
  - by eapply turn_finish; [unfold sched_step; by rewrite E, Hn, Z.eqb_refl|..].
  - eapply turn_move; [unfold sched_step; by rewrite E, Hn|apply Hsd|done|].
    unfold to_go. rewrite E. simpl. lia.
Qed.

Lemma turn_swap_next t2 ex2 :
  place (ex_sched ex) = 23 ∨ place (ex_sched ex) = 29 → sourced t2 ex2 →
  ex_sched ex2 = SValid → length (ex_counted ex) < length (ex_counted ex2) → can_complete t2.
Proof.
  intros Hp Hsd2 Hp2 Hlt. apply (Hnext t2 ex2 Hsd2). unfold to_go. rewrite Hp2.
  pose proof (counted_le _ _ _ (sd_good _ _ Hsd2) (sd_exec _ _ Hsd2)).
  destruct Hp as [-> | ->]; simpl; lia.
Qed.

Lemma turn_status i : ex_sched ex = SStatus i → can_complete t.
Proof.
  intros E. destruct (GetChunkStatus_total (mc_ChunkManager m0) i) as [st Est];
    [by apply turn_chunk; rewrite E|].
  pose proof (proj1 (GetChunkStatus_ok _ _ _) Est) as Hst.
  assert (sched_step num_k m0 ex = Some (Ok (m0, set_sched
    match st with ChunkStatusPending => SSwap i | ChunkStatusDownloading => SPush i
    | ChunkStatusDone => SCount i end ex))) as Hstep by (unfold sched_step; by rewrite E, Est).
  destruct st.
  - destruct (sched_quiet _ _ Hsd _ _ Hstep) as (t1 & Hd & Hsd1 & Hs); [apply Hsd|done..|].
    eapply drive_complete; [by eapply rtc_once|]. eapply swap_completes; [done|done|by rewrite Hs|].
    intros t2 ex2. apply turn_swap_next. rewrite E. by left.
  - apply idle_not_downloading in Hst; [done|apply Hsd..].
  - eapply turn_move; [exact Hstep|apply Hsd|done|]. unfold to_go. rewrite E. simpl. lia.
Qed.

Lemma turn_swap i : ex_sched ex = SSwap i → can_complete t.
Proof.
  intros E. destruct (turn_chunk i ltac:(by rewrite E)) as [ch Hch].
  destruct (decide (GetStatus ch = ChunkStatusPending)) as [Hst|Hst].
  - eapply swap_completes; [done|done|by unfold chunk_status; rewrite Hch; simpl; rewrite Hst|].
    intros t2 ex2. apply turn_swap_next. rewrite E. by right.
  - eapply (turn_move (set_cm _ m0) (set_sched (SPush i) ex));
      [|exact (sd_ctx _ _ Hsd)|done|unfold to_go; rewrite E; simpl; lia].
    unfold sched_step, UpdateChunkStatus. rewrite E, (index_slice_lookup _ _ _ Hch).
    unfold UpdateStatus. simpl. by rewrite decide_False.
Qed.

Lemma turn_pop : ex_sched ex = SPop → can_complete t.
Proof.
  intros E. destruct turn_full as [Hlt|]; [by rewrite E| |done].
  pose proof (sourced_queue _ _ Hsd ltac:(by rewrite E) Hlt) as Hq.
  destruct (GetQueue (ex_downloader ex)) as [|i q] eqn:Eq; [done|].
  eapply turn_move; [unfold sched_step; rewrite E, Eq; done|apply Hsd|done|].
  unfold to_go. rewrite E. simpl. lia.
Qed.
End turns.

Lemma sourced_completes t ex : sourced t ex → can_complete t.
Proof.
  remember (to_go ex) as rank eqn:Hr. revert t ex Hr.
  induction (lt_wf rank) as [rank _ IH]; intros t ex -> Hsd.
  assert (∀ t2 ex2, sourced t2 ex2 → to_go ex2 < to_go ex → can_complete t2) as Hnext
    by (intros t2 ex2 Hsd2 Hlt; by eapply (IH _ Hlt t2 ex2)).
  pose proof (turn_le _ _ Hsd) as Hle. pose proof (turn_full _ _ Hsd) as Hfull.
  pose proof (sourced_in_loop _ _ Hsd) as Hloop. pose proof Hsd as [Hg Hi Hctx Hk Hv Ha].
  destruct (ex_sched ex) as [| | | | | | | |i|i|i|i|i| | | | | | |] eqn:E; try done;
    try (by eapply finishing_completes; try rewrite E);
    [by eapply turn_start| | | | |by eapply turn_pop|by eapply turn_status|by eapply turn_swap
    | | | |by eapply turn_compare].
  all: try (destruct (Hfull eq_refl) as [Hlt|]; [|done]).
  all: try (by eapply turn_move; [done|done|unfold sched_step; rewrite ?E, ?Hv, ?Hctx; done|done..|];
    unfold to_go; rewrite E; simpl; lia).
  - pose proof (sourced_ready _ _ Hsd Hpeer31 Hlocal31 ltac:(by rewrite E)) as Hready.
    apply Z.eqb_neq in Hready.
    eapply turn_move; [done|done|unfold sched_step; rewrite E, Hready; done|done..|].
    unfold to_go. rewrite E. simpl. lia.
  - pose proof (forallb_lookup _ _ _ _ Hi Hk) as [Hs _]%andb_true_iff. by rewrite E in Hs.
Qed.

(** From every state that was not cancelled the goroutines can complete, if [k0] is valid and
    knows every chunk. *)
Lemma environment_completes t ex :
  inv t → mc_ctx_done (sy_main (sys t)) = false → sy_execs (sys t) !! k0 = Some ex →
  IsValid (ex_downloader ex) = true →
  (∀ i, i < n0 → announced n0 (ex_downloader ex) i = true) → can_complete t.
Proof.
  intros Hg Hctx Hk Hv Ha. eapply (resume t (ex_sched ex) 0 Hg).
  - intros Hc. by rewrite Hctx in Hc.
  - exists ex. split_and!; [done..|lia].
  - intros t2 ex2 Hsd _ _. by eapply sourced_completes.
Qed.
End driving.
End completion.
