(* ===== verification/DownloaderCompletion.v ===== *)
(** A download that has a complete source can always still complete: from every state the
    goroutines can reach, whatever failed before, they can go on until [Completed] is set. *)
From S2P Require Import Prelude Bytes GoStrings Types Storage ChunkBuilder ChunkManager ChunkTransfer ChunkQueue Statistics Availability Delivery Downloader DownloaderSafety DownloaderLiveness DownloaderData DownloaderBooks DownloaderDriving.

(** * The machine by itself

    Its environment: the goroutines' own steps, and responses with the source's bytes. *)

Section completion.
Context {W : Type} (dst : Storage W) `{!StorageSpec dst, !StorageHealthy dst}.
Context {V : Type} (src : Storage V) `{!StorageSpec src} (v : V).
Context (xxh3 : bytes → Z) (onFileComplete : string → Z → io W unit).
Hypothesis onFileComplete_ok : ∀ p s w,
  (onFileComplete p s w).1 = Ok () ∧ same_view dst w (onFileComplete p s w).2.
Hypothesis onFileComplete_healthy : ∀ p s w,
  st_healthy dst w → st_healthy dst (onFileComplete p s w).2.
Context (cm0 : ChunkManager).
Hypothesis Hok : manager_ok cm0.
Hypothesis Hsrc : sized src v (cm_files cm0).
Hypothesis Hsmall : (Z.of_nat (GetChunkCount cm0) < 2 ^ 63)%Z.
Context (verifyOnComplete : bool) (peerNumConcurrent localNumConcurrent : nat).
Context (transferIdleTimeout : Duration).
Implicit Types (s : system W).
Local Abbreviation run_event := (run_event dst xxh3 onFileComplete verifyOnComplete
  peerNumConcurrent localNumConcurrent transferIdleTimeout).
Local Abbreviation run_events := (run_events dst xxh3 onFileComplete verifyOnComplete
  peerNumConcurrent localNumConcurrent transferIdleTimeout).
Local Abbreviation event_ok := (event_ok src v xxh3 cm0).
Local Abbreviation events_ok := (events_ok dst src v xxh3 onFileComplete cm0 verifyOnComplete
  peerNumConcurrent localNumConcurrent transferIdleTimeout).
Local Abbreviation good := (good dst src v xxh3 cm0 peerNumConcurrent localNumConcurrent).
Local Abbreviation run_event_good := (run_event_good dst src v xxh3 onFileComplete onFileComplete_ok
  onFileComplete_healthy cm0 Hok Hsrc Hsmall verifyOnComplete peerNumConcurrent localNumConcurrent
  transferIdleTimeout).

Definition drive s s' : Prop :=
  ∃ e k, thread_event k e = true ∧ event_ok e s ∧ run_event e s = Some s'.

Lemma drive_events s s' :
  rtc drive s s' → ∃ l, Forall (λ e, ∃ k, thread_event k e = true) l ∧
    events_ok l s ∧ run_events l s = Some s'.
Proof.
  induction 1 as [s|s1 s2 s3 (e & k & Hk & He & Hrun) _ (l & Hl & Hev & Hl2)]; [by exists []|].
  exists (e :: l). split_and!; [constructor; [by exists k|done]| |simpl; by rewrite Hrun].
  split; [done|]. intros s' Hs'. by simplify_eq.
Qed.

(** The source has a good stream for every chunk. *)
Lemma source_response i c :
  chunks cm0 !! i = Some c → ∃ b, source_bytes src v (cm_files cm0) (chunks cm0) i = Some b ∧
    good_response src v xxh3 cm0 i 0 (mkReader b [] None).
Proof.
  intros Hc. destruct (manager_chunk _ _ _ Hok Hc) as (Hin & _ & _).
  destruct (chunk_bytes_sized src _ _ _ Hsrc Hin) as (b & Hb & Hl). exists b.
  assert (source_bytes src v (cm_files cm0) (chunks cm0) i = Some b) as Hs
    by (unfold source_bytes; simpl; by rewrite Hc).
  split; [done|]. exists b. split; [done|]. left. simpl. by rewrite firstn_all.
Qed.

Lemma machine_environment k0 :
  environment dst src v xxh3 onFileComplete cm0 verifyOnComplete peerNumConcurrent
    localNumConcurrent transferIdleTimeout id good drive k0.
Proof.
  constructor; unfold id.
  - done.
  - intros e k s s1 Hg Hk He Hrun. exists s1. assert (event_ok e s) as Hev
      by (by destruct e as [|? ? []| | | | | | | | |]).
    split_and!; [by exists e, k|by eapply run_event_good|done].
  - intros s k j ex i t0 Hg Hk Hj. pose proof Hg as [Hs _ Hd _ _].
    assert (is_Some (chunks (mc_ChunkManager (sy_main s)) !! i)) as [c Hc].
    { eapply chunk_status_lookup. by eapply (tp_owns _ _ _ _ (worker_pre _ _ _ _ _ Hs Hk Hj)). }
    destruct (meta_chunk _ _ _ _ (da_meta _ _ _ _ _ _ Hd) Hc) as (c0 & Hc0 & _).
    destruct (source_response i c0 Hc0) as (b & Hb & Hgood).
    set (r := Ok (0%Z, mkReader b [] None)).
    destruct (run_event (EvWorker k j (Response r)) s) as [s'|] eqn:Hrun.
    2: { unfold Downloader.run_event, with_exec in Hrun.
      rewrite (da_panicked _ _ _ _ _ _ Hd), Hk in Hrun. simpl in Hrun.
      rewrite Hj in Hrun. by simpl in Hrun. }
    assert (event_ok (EvWorker k j (Response r)) s) as Hev.
    { intros ex' i' t' Hk' Hj'. by simplify_eq. }
    exists s', s, r. split_and!; [|by eapply run_event_good|done|done| |done].
    + exists (EvWorker k j (Response r)), k. split_and!; [by apply bool_decide_eq_true|done..].
    + intros _. exists 0%Z, (mkReader b [] None). split_and!; [done|done|by left].
Qed.
End completion.

(** * Properties *)

Section properties.
Context {W : Type} (dst : Storage W) `{!StorageSpec dst, !StorageHealthy dst}.
Context {V : Type} (src : Storage V) `{!StorageSpec src} (v : V).
Context (xxh3 : bytes → Z) (onFileComplete : string → Z → io W unit).
Hypothesis onFileComplete_ok : ∀ p s w,
  (onFileComplete p s w).1 = Ok () ∧ same_view dst w (onFileComplete p s w).2.
Hypothesis onFileComplete_healthy : ∀ p s w,
  st_healthy dst w → st_healthy dst (onFileComplete p s w).2.
Context (verifyOnComplete : bool) (peerNumConcurrent localNumConcurrent : nat).
Context (transferIdleTimeout : Duration).
Hypothesis Hpeer : (0 < Z.of_nat peerNumConcurrent < 2 ^ 31)%Z.
Hypothesis Hlocal : (0 < Z.of_nat localNumConcurrent < 2 ^ 31)%Z.
Local Abbreviation run_events := (run_events dst xxh3 onFileComplete verifyOnComplete
  peerNumConcurrent localNumConcurrent transferIdleTimeout).
Local Abbreviation events_ok cm := (events_ok dst src v xxh3 onFileComplete cm verifyOnComplete
  peerNumConcurrent localNumConcurrent transferIdleTimeout).

(** C7: a download never gets into a state it cannot complete from. Whatever happened so far
    (streams that broke off, writes that failed, peers that left), as long as it was not
    cancelled and one downloader is valid and knows every chunk (the local source always is),
    the goroutines can go on, by steps of their own and with streams of the source's bytes,
    until [Completed] is set and every file of the destination is the source's. *)
Theorem download_can_complete `{SliceSort} cs mf files0 cm w now stat from l s k ex :
  (0 < cs < 2 ^ 63)%Z → sizes_ok cs files0 →
  Forall (λ f, int32_range (FileEntry_remainingChunkCount f)) files0 →
  BuildChunks cs mf files0 = Some (cm_files cm, chunks cm) →
  length (chunkChecksums cm) = length (chunks cm) →
  (Z.of_nat (GetChunkCount cm) < 2 ^ 63)%Z →
  sized src v (cm_files cm) → prepared dst w (cm_files cm) → st_healthy dst w →
  events_ok cm l (init_system cm w now stat from) →
  run_events l (init_system cm w now stat from) = Some s →
  mc_ctx_done (sy_main s) = false →
  sy_execs s !! k = Some ex → IsValid (ex_downloader ex) = true →
  (∀ i, i < GetChunkCount cm → announced (GetChunkCount cm) (ex_downloader ex) i = true) →
  ∃ l' s', Forall (λ e, ∃ k, thread_event k e = true) l' ∧ events_ok cm l' s ∧
    run_events l' s = Some s' ∧ mc_Completed (sy_main s') = true ∧
    ∀ f, f ∈ files0 →
      content dst (mc_Dst (sy_main s')) (FileEntry_Name f) = content src v (FileEntry_Name f) ∧
      is_Some (content src v (FileEntry_Name f)).
Proof.
  intros Hcs Hs Hc Hb Hsums Hsmall Hsrc Hdst Hw Hev Hrun Hctx Hk Hv Ha.
  destruct (BuildChunks_manager_ok _ _ _ _ Hcs Hs Hc Hb) as [Hok Hpend].
  set (g := good dst src v xxh3 cm peerNumConcurrent localNumConcurrent).
  assert (g (init_system cm w now stat from)) as Hg0.
  { constructor; [by apply init_inv|apply init_live|by apply init_data|apply init_books|done]. }
  assert (g s) as Hg by (by eapply run_events_good).
  destruct (environment_completes dst src v xxh3 onFileComplete onFileComplete_ok onFileComplete_healthy cm
    Hok Hsrc verifyOnComplete peerNumConcurrent localNumConcurrent transferIdleTimeout id g _ k
    (machine_environment dst src v xxh3 onFileComplete onFileComplete_ok onFileComplete_healthy cm
      Hok Hsrc Hsmall verifyOnComplete peerNumConcurrent localNumConcurrent transferIdleTimeout k)
    ltac:(lia) ltac:(lia) ltac:(lia) ltac:(lia) s ex Hg Hctx Hk Hv Ha) as (s' & Hd & Hg' & Hcd).
  destruct (drive_events dst src v xxh3 onFileComplete cm verifyOnComplete peerNumConcurrent
    localNumConcurrent transferIdleTimeout _ _ Hd) as (l' & Hl' & Hev' & Hrun').
  exists l', s'. split_and!; try done. intros f Hf.
  destruct (BuildChunks_names _ _ _ _ _ f Hcs Hs Hc Hb Hf) as (e & He & <-).
  by eapply inv_content; [..|exact Hcd|exact He]; [done..|apply Hg'|apply Hg'].
Qed.
End properties.
