(* ===== verification/Node.v ===== *)
(** A node that downloads and serves at the same time: the handlers of the HTTP server and the
    goroutines of the download share the chunk manager, the destination, the statistics and the
    [Completed] flag of one [MainContext]. *)
From S2P Require Import Prelude Bytes GoStrings Types Storage ChunkBuilder ChunkManager ChunkTransfer ChunkQueue Statistics Availability Delivery Http HttpServer HttpServing PeerDownloader Network Downloader DownloaderSafety DownloaderData.

(** * State *)

(** A running program: the download machine, what only the server uses, and the world of its
    own source, if it has one. *)
Record node (W V : Type) := mkNode {
  nd_system : system W;
  nd_UUID : string;
  nd_LastSentAt : Time;
  nd_Src : option V
}.
Arguments mkNode {W V}.
Arguments nd_system {W V}.
Arguments nd_UUID {W V}.
Arguments nd_LastSentAt {W V}.
Arguments nd_Src {W V}.

Section state.
Context {W V : Type}.
Implicit Types nd : node W V.

(** The server's part of the context, and the context after the server worked on it. *)
Definition node_server nd : server W :=
  let m := sy_main (nd_system nd) in
  mkServer (mc_ChunkManager m) (mc_Dst m) (mc_Statistics m) (mc_Completed m) (nd_UUID nd)
    (nd_LastSentAt nd).

Definition set_system (s : system W) nd : node W V :=
  mkNode s (nd_UUID nd) (nd_LastSentAt nd) (nd_Src nd).

Definition set_shared (cm : ChunkManager) (w : W) (stat : Statistics) (s : system W) : system W :=
  mkSystem (set_Statistics stat (set_Dst w (set_cm cm (sy_main s)))) (sy_execs s)
    (sy_downloaders s).

Definition node_served (sv : server W) nd : node W V :=
  mkNode (set_shared (sv_ChunkManager sv) (sv_world sv) (sv_Statistics sv) (nd_system nd))
    (nd_UUID nd) (sv_LastSentAt sv) (nd_Src nd).

(** The local downloader worked on the manager's cache and on the source. *)
Definition node_read (cm : ChunkManager) (v : V) nd : node W V :=
  mkNode (mkSystem (set_cm cm (sy_main (nd_system nd))) (sy_execs (nd_system nd))
    (sy_downloaders (nd_system nd))) (nd_UUID nd) (nd_LastSentAt nd) (Some v).
End state.

(** * The invariant *)

Section node.
Context {W : Type} (dst : Storage W) `{!StorageSpec dst}.
Context {V : Type} (src : Storage V) `{!StorageSpec src} (v : V).
Context (xxh3 : bytes → Z) (onFileComplete : string → Z → io W unit).
Hypothesis onFileComplete_ok : ∀ p s w,
  (onFileComplete p s w).1 = Ok () ∧ same_view dst w (onFileComplete p s w).2.
Context (cm0 : ChunkManager).
Hypothesis Hok : manager_ok cm0.
Hypothesis Hsrc : sized src v (cm_files cm0).
Hypothesis Hsmall : (Z.of_nat (GetChunkCount cm0) < 2 ^ 63)%Z.
Context (verifyOnComplete : bool) (peerNumConcurrent localNumConcurrent : nat).
Context (transferIdleTimeout : Duration).
Local Abbreviation run_event := (run_event dst xxh3 onFileComplete verifyOnComplete
  peerNumConcurrent localNumConcurrent transferIdleTimeout).
Local Abbreviation data_inv := (data_inv dst src v xxh3 cm0).
Local Abbreviation event_ok := (event_ok src v xxh3 cm0).

(** A checksum that is 0 (there is none) or the hash of the source's chunk. *)
Definition sum_ok (i : nat) (x : Z) : Prop :=
  x ≠ 0%Z → ∃ b, source_bytes src v (cm_files cm0) (chunks cm0) i = Some b ∧ x = xxh3 b.

Definition worker_sum (p : worker) : Prop :=
  match p with
  | WWrite i _ checksum _ _ _ _ | WSetChecksum i _ checksum _ => sum_ok i checksum
  | _ => True
  end.

(** The Timestamps a downloader has seen can be written in a URL, and what it knows of a chunk
    is that it is ready or not. *)
Definition peer_sound (d : PeerDownloader) : Prop :=
  time_valid (pd_LastUpdatedAt d) ∧
  Forall (λ z, z = AvailableChunkNotReady ∨ z = AvailableChunkReady) (AvailableChunkList d).

Definition downloader_sound (d : Downloader) : Prop :=
  match d with DPeer d => peer_sound d | DLocal _ => True end.

Definition exec_extra (ex : exec) : Prop :=
  downloader_sound (ex_downloader ex) ∧ Forall worker_sum (ex_workers ex).

Definition sums_ok (cm : ChunkManager) : Prop :=
  ∀ i x, chunkChecksums cm !! i = Some x → sum_ok i x.

Record system_inv (s : system W) : Prop := {
  sn_sys : sys_inv s;
  sn_data : data_inv s;
  sn_sums : sums_ok (mc_ChunkManager (sy_main s));
  sn_execs : Forall exec_extra (sy_execs s)
}.

Lemma downloader_sound_set_Queue q d : downloader_sound (set_Queue q d) ↔ downloader_sound d.
Proof. by destruct d. Qed.

(** ** Events *)

Lemma sched_step_extra n (m : main W) ex m' ex' :
  sched_step n m ex = Some (Ok (m', ex')) → exec_extra ex →
  exec_extra ex' ∧ chunkChecksums (mc_ChunkManager m') = chunkChecksums (mc_ChunkManager m).
Proof.
  intros Hstep [Ht Hw]. unfold sched_step in Hstep.
  destruct (ex_sched ex) as [| | | | | | | |i|i|i|i|i| | | | | | |]; try done;
    try (simplify_eq; by repeat split).
  - simplify_eq. split; [|done]. split; [done|]. by apply Forall_replicate.
  - destruct (Pop _) as [[i ok] q]. simplify_eq. split; [|done]. split; [|done]. simpl.
    by apply downloader_sound_set_Queue.
  - destruct (GetChunkStatus _ _); simplify_eq/=. done.
  - unfold UpdateChunkStatus in Hstep. destruct (index_slice _ _) as [c|?|?]; simplify_eq/=.
    destruct (UpdateStatus _ _ c) as [c' b]. simplify_eq/=. done.
  - simplify_eq. split; [|done]. split; [|done]. simpl. by apply downloader_sound_set_Queue.
  - case_match; simplify_eq. done.
Qed.

Lemma write_range_sums r rd cm w :
  chunkChecksums (write_range dst onFileComplete r rd (cm, w)).2.1 = chunkChecksums cm.
Proof.
  unfold write_range, get_manager, put_manager, lift_storage, io_lift, index_slice.
  unfold mbind, io_mbind, io_bind_def, mret, io_mret, io_ret.
  destruct (cm_files cm !! FileIndex r) as [f|]; [|done].
  destruct (Write _ _ _ _ _ _) as [[[n rd']|e|s] w1]; [|done..].
  destruct (decrement_file _ _ _) as [cm' rem] eqn:E.
  assert (chunkChecksums cm' = chunkChecksums cm) as Hc.
  { unfold decrement_file in E. destruct (DecrementRemainingChunkCount f). by simplify_eq. }
  destruct (rem =? 0)%Z; [|done]. by destruct (onFileComplete _ _ _) as [[] ?].
Qed.

Lemma worker_step_extra inp (m : main W) ex p m' ex' p' :
  worker_step dst xxh3 onFileComplete verifyOnComplete inp m ex p = Some (Ok (m', ex', p')) →
  sums_ok (mc_ChunkManager m) → worker_sum p → downloader_sound (ex_downloader ex) →
  (∀ i t0 checksum rd, p = WRequest i t0 → inp = Response (Ok (checksum, rd)) →
    sum_ok i checksum) →
  sums_ok (mc_ChunkManager m') ∧ worker_sum p' ∧ downloader_sound (ex_downloader ex').
Proof.
  intros Hstep Hm Hp Ht Hr.
  assert (∀ (f : result ChunkManager) (g : ChunkManager → main W) q,
    Some (cm' ← f; Ok (g cm', ex, q)) = Some (Ok (m', ex', p')) →
    ∃ cm', f = Ok cm' ∧ m' = g cm' ∧ ex' = ex ∧ p' = q) as Hset.
  { intros f g q H. destruct f as [cm'|?|?]; simplify_eq/=. eauto. }
  destruct p; cbn [worker_step] in Hstep; try discriminate Hstep;
    try (simplify_eq; by repeat split).
  - case_match; simplify_eq. done.
  - simplify_eq. split_and!; [done| |done]. by case_match.
  - destruct inp; simplify_eq. done.
  - destruct inp as [|[[checksum rd]|e|msg]]; try done; [|by simplify_eq].
    destruct (index_slice _ _) as [c|?|?]; simplify_eq/=. split_and!; [done| |done].
    by eapply Hr.
  - destruct todo as [|r todo].
    + case_match; simplify_eq; [done|]. by destruct verifyOnComplete.
    + pose proof (write_range_sums r rd (mc_ChunkManager m) (mc_Dst m)) as Hs.
      destruct (write_range _ _ _ _ _) as [res [cm' w']]. cbn [fst snd] in Hs.
      assert (sums_ok cm') as Hcm' by (unfold sums_ok; by rewrite Hs).
      destruct res as [[k rd']|e|msg]; simplify_eq/=; done.
  - apply Hset in Hstep as (cm' & E & -> & -> & ->). split_and!; [|done..]. cbn.
    unfold SetChunkChecksum in E. destruct (index_slice _ _) as [y|?|?]; simplify_eq/=.
    intros j x [(<- & -> & _)|(_ & Hx)]%list_lookup_insert_Some; [done|by eapply Hm].
  - destruct inp; simplify_eq. done.
  - apply Hset in Hstep as (cm' & E & -> & -> & ->). split_and!; [|done..]. cbn.
    unfold SetChunkStatusDone_status in E. by destruct (index_slice _ _); simplify_eq/=.
  - apply Hset in Hstep as (cm' & E & -> & -> & ->). split_and!; [|done..]. cbn.
    unfold SetChunkStatusDone_time in E. by destruct (index_slice _ _); simplify_eq/=.
  - simplify_eq. split_and!; [done| |done]. by case_match.
  - apply Hset in Hstep as (cm' & E & -> & -> & ->). split_and!; [|done..]. cbn.
    unfold SetChunkStatusPending in E. by destruct (index_slice _ _); simplify_eq/=.
  - simplify_eq. split_and!; [done..|]. cbn. by apply downloader_sound_set_Queue.
Qed.

(** What a node takes from the network: true checksums and valid times. *)
Definition event_extra (e : event) (s : system W) : Prop :=
  match e with
  | EvWorker k j (Response (Ok (checksum, rd))) =>
      ∀ ex i t0, sy_execs s !! k = Some ex → ex_workers ex !! j = Some (WRequest i t0) →
        sum_ok i checksum
  | EvAvailable _ _ al => time_valid (Timestamp al)
  | _ => True
  end.

Definition extra (s : system W) : Prop :=
  sums_ok (mc_ChunkManager (sy_main s)) ∧ Forall exec_extra (sy_execs s).

Lemma with_exec_extra k s f s' :
  extra s → with_exec k s f = Some s' →
  (∀ ex m' ex', sy_execs s !! k = Some ex → exec_extra ex →
    f (sy_main s) ex = Some (Ok (m', ex')) → sums_ok (mc_ChunkManager m') ∧ exec_extra ex') →
  extra s'.
Proof.
  intros [Hm Hex] Hw Hf. unfold with_exec in Hw.
  apply bind_Some in Hw as (ex & Hk & (r & Hr & [= <-])%bind_Some).
  destruct r as [[m' ex']|?|?]; [|by split..].
  destruct (Hf ex m' ex' Hk) as [Hm' Hex']; [|done|].
  - by eapply (proj1 (Forall_lookup _ _) Hex).
  - split; [done|]. by apply Forall_insert.
Qed.

Lemma with_peer_extra k s f s' :
  extra s → with_peer k s f = Some s' →
  (∀ d m' d', f (sy_main s) d = Ok (m', d') → peer_sound d →
    mc_ChunkManager m' = mc_ChunkManager (sy_main s) ∧ peer_sound d') →
  extra s'.
Proof.
  intros He Hw Hf. eapply with_exec_extra; [done..|]. intros ex m' ex' Hk [Ht Hws] H. simpl in H.
  destruct (ex_downloader ex) as [d|] eqn:E; [|done]. destruct (updating d); [|done].
  apply some_ok, bind_ok in H as ([m1 d'] & Hd & [= <- <-]).
  destruct (Hf d m1 d' Hd Ht) as [-> Ht']. split; [apply He|]. by split.
Qed.

Lemma mark_chunks_cells (P : Z → Prop) l d acc res d' :
  mark_chunks l d acc = Ok (res, d') → P AvailableChunkReady →
  Forall P (AvailableChunkList d) → Forall P (AvailableChunkList d').
Proof.
  intros Hm HP. revert d acc Hm.
  induction l as [|z l IH]; intros d acc; cbn [mark_chunks]; [by intros [= _ <-]|].
  intros Hm Hd. unfold markChunkAsReady in Hm.
  destruct (index_slice_int _ _) as [a|?|?]; simpl in Hm; [|done..].
  destruct (a =? AvailableChunkNotReady)%Z; (eapply IH; [exact Hm|]); [by apply Forall_insert|done].
Qed.

Lemma receive_sound choice cm al d d' :
  receiveAvailableList choice cm al d = Ok d' → time_valid (Timestamp al) → peer_sound d →
  peer_sound d'.
Proof.
  unfold receiveAvailableList. intros ([l d1] & Hm & [= <-])%bind_ok Ht [_ Hc].
  split; [|exact (mark_chunks_cells _ _ _ _ _ _ Hm (or_intror eq_refl) Hc)].
  apply mark_chunks_spec in Hm as (new & _ & _ & _ & _ & _ & Ht' & _). simpl.
  by rewrite Ht'.
Qed.

Lemma run_event_extra e s s' :
  event_extra e s → extra s → run_event e s = Some s' → extra s'.
Proof.
  intros He Hs Hrun. unfold Downloader.run_event in Hrun.
  destruct (mc_panicked _); [done|].
  destruct e as [k|k j inp|k j|k choice al|k|k|k|uuid host|host|now|].
  - eapply with_exec_extra; [done..|]. intros ex m' ex' Hk Hex H. simpl in H.
    apply sched_step_extra in H as [Hex' Hsum]; [|done]. split; [|done].
    unfold sums_ok. rewrite Hsum. apply Hs.
  - eapply with_exec_extra; [done..|]. intros ex m' ex' Hk [Ht Hws] H. simpl in H.
    apply bind_Some in H as (p & Hj & (r & Hr & H)%bind_Some).
    apply some_ok, bind_ok in H as ([[m1 ex1] p'] & -> & [= <- <-]).
    pose proof (worker_step_workers _ _ _ _ _ _ _ _ _ _ _ Hr) as Hwk.
    apply worker_step_extra in Hr as (Hm & Hp & Ht'); [|apply Hs| |done|].
    + split; [done|]. split; [done|]. simpl. rewrite Hwk. by apply Forall_insert.
    + by eapply (proj1 (Forall_lookup _ _) Hws).
    + intros i t0 checksum rd -> ->. by eapply He.
  - eapply with_exec_extra; [done..|]. intros ex m' ex' Hk [Ht Hws] H. simpl in H.
    apply bind_Some in H as (p & Hj & H). destruct (ex_sched ex), p; simplify_eq.
    split; [apply Hs|]. split; [done|]. simpl. by apply Forall_insert.
  - eapply with_peer_extra; [done..|]. intros d m' d' (d1 & Hd & [= <- <-])%bind_ok Hp.
    split; [done|]. by eapply receive_sound.
  - eapply with_peer_extra; [done..|]. by intros d m' d' [= <- <-].
  - eapply with_peer_extra; [done..|]. intros d m' d' [= <- <-]. by case_match.
  - eapply with_peer_extra; [done..|]. by intros d m' d' [= <- <-].
  - injection Hrun as <-. unfold PeerDownloaders_Add. case_match; [done|]. split; [apply Hs|].
    apply Forall_app. split; [apply Hs|]. repeat constructor; [done..|].
    apply Forall_replicate. by left.
  - injection Hrun as <-. unfold PeerDownloaders_Remove. case_match; [|done].
    split; [apply Hs|]. simpl. destruct (sy_execs s !! n) as [ex|] eqn:Hk; [|apply Hs].
    destruct Hs as [_ Hex]. apply Forall_insert; [done|].
    destruct (proj1 (Forall_lookup _ _) Hex _ _ Hk) as [Ht Hws]. split; [|done].
    by destruct (ex_downloader ex).
  - destruct (_ || _); [done|]. injection Hrun as <-. split; [|apply Hs]. simpl.
    case_match; apply Hs.
  - injection Hrun as <-. apply Hs.
Qed.

Lemma run_event_system e s s' :
  event_ok e s → event_extra e s → system_inv s → run_event e s = Some s' → system_inv s'.
Proof.
  intros He Hx [Hs Hd Hm Hex] Hrun.
  destruct (run_event_extra e s s' Hx (conj Hm Hex) Hrun) as [Hm' Hex'].
  constructor; [| |done..].
  - eapply run_event_inv; [done| |done]. rewrite (meta_count _ _ (da_meta _ _ _ _ _ _ Hd)). done.
  - by eapply run_event_data.
Qed.

(** ** Serving *)

(** The machine does not see a change that keeps chunks, bytes and flags. *)
Lemma worker_data_view w w' p :
  same_view dst w w' → worker_data dst src v xxh3 cm0 w p → worker_data dst src v xxh3 cm0 w' p.
Proof.
  intros Hv. destruct p; simpl; try done.
  - intros (c & written & ? & ? & Hb & ?). exists c, written. by rewrite <- Hv.
  - intros H c Hc. rewrite <- Hv. by apply H.
  - intros H c Hc. rewrite <- Hv. by apply H.
  - intros H c Hc. rewrite <- Hv. by apply H.
Qed.

Lemma system_inv_view (s : system W) m' :
  system_inv s → chunks (mc_ChunkManager m') = chunks (mc_ChunkManager (sy_main s)) →
  meta_ok cm0 (mc_ChunkManager m') → sums_ok (mc_ChunkManager m') →
  same_view dst (mc_Dst (sy_main s)) (mc_Dst m') →
  mc_Completed m' = mc_Completed (sy_main s) → mc_panicked m' = mc_panicked (sy_main s) →
  system_inv (mkSystem m' (sy_execs s) (sy_downloaders s)).
Proof.
  intros [[Ho He Hc] [Hm Hp Hd Hw Hpan] Hs Hx] Hch Hm' Hs' Hv Hcd Hpan'.
  destruct (same_chunks_status _ _ Hch) as [Hn Hst].
  assert (∀ i, chunk_done (mc_ChunkManager m') i ↔ chunk_done (mc_ChunkManager (sy_main s)) i)
    as Hdone by (intros i; unfold chunk_done; by rewrite Hst).
  constructor; simpl; [..|done|done].
  - constructor; simpl.
    + intros i. rewrite Ho. unfold downloading. by rewrite Hst.
    + eapply Forall_impl; [exact He|]. intros ex. apply exec_inv_le. split; [by rewrite Hn|].
      intros i. by rewrite Hdone.
    + rewrite Hcd. intros H i Hi. apply Hdone, Hc; [done|]. by rewrite <- Hn.
  - constructor; simpl; [done|by rewrite <- Hv| | |congruence].
    + intros i Hi%Hdone c Hci. rewrite <- Hv. exact (Hd i Hi c Hci).
    + intros k j ex p Hk Hj. eapply worker_data_view; [exact Hv|]. by eapply Hw.
Qed.

Lemma node_chunk_bytes cm w i c c0 :
  meta_ok cm0 cm → chunks cm !! i = Some c → chunks cm0 !! i = Some c0 →
  chunk_bytes dst w (cm_files cm) (FileRanges c) = chunk_bytes dst w (cm_files cm0) (FileRanges c0).
Proof.
  intros Hm Hc Hc0. destruct (meta_chunk _ _ _ _ Hm Hc) as (c1 & Hc1 & Hr). simplify_eq.
  by rewrite Hr, (mo_files _ _ Hm).
Qed.

(** What a node serves is the source's. *)
Lemma node_serves nd i c :
  system_inv (nd_system (V := V) nd) →
  serve_GetChunkStatus false (node_server nd) i = Ok ChunkStatusDone →
  chunks (sv_ChunkManager (node_server nd)) !! i = Some c →
  chunk_bytes dst (sv_world (node_server nd)) (cm_files (sv_ChunkManager (node_server nd)))
    (FileRanges c) = source_bytes src v (cm_files cm0) (chunks cm0) i.
Proof.
  intros [Hs Hd _ _] Hst Hc. cbn in Hc |- *. pose proof (da_meta _ _ _ _ _ _ Hd) as Hm.
  destruct (meta_chunk _ _ _ _ Hm Hc) as (c0 & Hc0 & Hr).
  rewrite (node_chunk_bytes _ _ _ _ _ Hm Hc Hc0). unfold source_bytes. rewrite Hc0.
  refine (da_done _ _ _ _ _ _ Hd i _ c0 Hc0). unfold serve_GetChunkStatus in Hst. cbn in Hst.
  destruct (mc_Completed _) eqn:Hcd; [|by apply GetChunkStatus_ok in Hst].
  apply (si_completed _ Hs Hcd). by eapply lookup_lt_Some.
Qed.

Lemma node_server_ok nd :
  system_inv (nd_system (V := V) nd) → server_ok dst xxh3 false (node_server nd).
Proof.
  intros Hi. pose proof Hi as [Hs Hd Hsum _]. pose proof (da_meta _ _ _ _ _ _ Hd) as Hm.
  constructor.
  - cbn. by rewrite (meta_count _ _ Hm).
  - intros i c Hc. cbn in Hc |- *. destruct (meta_chunk _ _ _ _ Hm Hc) as (c0 & Hc0 & Hr).
    destruct (manager_chunk _ _ _ Hok Hc0) as (Hin & _ & Hlen). rewrite Hr in Hin, Hlen.
    split_and!; [|done|].
    + eapply Forall_impl; [exact Hin|]. intros r [Hro _]. eapply range_ok_files; [|exact Hro].
      symmetry. apply Hm.
    + rewrite (mo_files _ _ Hm).
      destruct (chunk_bytes_sized dst _ _ _ (prepared_sized _ _ _ (da_prepared _ _ _ _ _ _ Hd)) Hin)
        as (b & -> & _). done.
  - split; [apply Hm|]. intros i c x Hst Hc Hx Hnz.
    rewrite (node_serves _ _ _ Hi Hst Hc). destruct (Hsum i x Hx Hnz) as (b & Hb & ->). eauto.
Qed.

(** A request that was served leaves the download as it was. *)
Lemma node_served_inv nd sv :
  system_inv (nd_system (V := V) nd) → served dst false (node_server nd) sv →
  server_ok dst xxh3 false sv → system_inv (nd_system (node_served sv nd)).
Proof.
  intros Hi Hsd Hsv. pose proof Hi as [Hs Hd Hsum _]. pose proof (da_meta _ _ _ _ _ _ Hd) as Hm.
  pose proof Hsd as [Hch Hman Hcd _ Hv Hj].
  assert (meta_ok cm0 (sv_ChunkManager sv)) as Hm'.
  { destruct Hm as [Hr Hf _], Hsv as [_ _ [Hl _]].
    constructor; unfold cm_files in *; rewrite ?Hch, ?Hman; [done|done|by rewrite Hl, Hch]. }
  apply (system_inv_view (nd_system nd)); try done. cbn. intros i x Hx Hnz.
  destruct (Hj i) as [Heq|Hst].
  { rewrite Heq in Hx. by apply (Hsum i x). }
  destruct (lookup_lt_is_Some_2 (chunks (sv_ChunkManager sv)) i) as [c Hc].
  { rewrite <- (mo_sums _ _ Hm'). by eapply lookup_lt_Some. }
  destruct (so_sums _ _ _ _ Hsv) as [_ Hs'].
  destruct (Hs' i c x) as (b & Hb & <-); [by rewrite (served_status false (node_server nd))|done..|].
  exists b. split; [|done]. rewrite <- Hb. symmetry.
  rewrite Hch in Hc. rewrite <- (node_serves nd i c Hi Hst Hc).
  rewrite <- Hv. unfold cm_files. by rewrite Hman.
Qed.
End node.
