(* ===== verification/Swarm.v ===== *)
(** A swarm: seeds and nodes that run at the same time, download from each other over the
    network, and serve each other while they download. *)
From S2P Require Import Prelude Bytes GoStrings Types Storage ChunkBuilder ChunkManager ChunkTransfer ChunkQueue Statistics Availability Delivery Http HttpServer HttpServing PeerDownloader Network Downloader DownloaderSafety DownloaderData Node.

(** * State *)

(** The seeds only serve their source; the nodes download, and serve their destination. *)
Record swarm (W V : Type) := mkSwarm { sw_nodes : list (node W V); sw_seeds : list (server V) }.
Arguments mkSwarm {W V}.
Arguments sw_nodes {W V}.
Arguments sw_seeds {W V}.

(** Who listens on an address. *)
Inductive address := ANode (n : nat) | ASeed (n : nat).

(** What happens to one request: the connection is refused, or lasts for so many bytes; and
    the server's clock before and after it. *)
Record connection := mkConnection
  { cn_room : option (option nat); cn_now : Time; cn_finished : Time }.

(** What can happen next: something inside node [n]; a worker of it asks its peer for a
    chunk, or reads it from its own source; the update goroutine of its downloader [k] asks
    for the available list. *)
Inductive swarm_event :=
| SwEvent (n : nat) (e : event)
| SwChunk (n k j : nat) (c : connection)
| SwLocal (n k j : nat)
| SwList (n k : nat) (choice : nat → nat) (c : connection).

(** The events that take nothing from the network. *)
Definition own_event (e : event) : bool :=
  match e with EvWorker _ _ (Response _) | EvAvailable _ _ _ => false | _ => true end.

(** * Steps *)

Section swarm.
Context {W : Type} (dst : Storage W) {V : Type} (src : Storage V) `{Gozstd} `{ListCodec}.
Context (xxh3 : bytes → Z) (onFileComplete : string → Z → io W unit).
Context (DoW : string → io (ChunkManager * W) Z → io (ChunkManager * W) Z).
Context (DoV : string → io (ChunkManager * V) Z → io (ChunkManager * V) Z).
Context (version : Version) (error_String : error → string) (compressType : string).
Context (verifyOnComplete : bool) (peerNumConcurrent localNumConcurrent : nat).
Context (transferIdleTimeout : Duration).
Context (resolve : string → option address).
Local Abbreviation run_event := (run_event dst xxh3 onFileComplete verifyOnComplete
  peerNumConcurrent localNumConcurrent transferIdleTimeout).

(** A request over a connection to a server: its outcome, and the server afterwards. *)
Definition ask {X A : Type} (storage : Storage X)
    (Do : string → io (ChunkManager * X) Z → io (ChunkManager * X) Z) (ServeOnly : bool)
    (host : string) (c : connection) (m : HttpTransport (network X) → io (network X) A)
    (sv : server X) : result A * server X :=
  let '(r, n) := m (peer_transport storage xxh3 Do version ServeOnly error_String host
                      (λ _, cn_room c) (λ k, if decide (k = 0) then cn_now c else cn_finished c))
                   (mkNetwork sv 0 0) in
  (r, nw_server n).

Definition set_node (n : nat) (nd : node W V) (s : swarm W V) : swarm W V :=
  mkSwarm (<[n := nd]> (sw_nodes s)) (sw_seeds s).
Definition set_seed (n : nat) (sv : server V) (s : swarm W V) : swarm W V :=
  mkSwarm (sw_nodes s) (<[n := sv]> (sw_seeds s)).

(** The same, to whoever listens on [host]. *)
Definition contact {A : Type} (host : string) (c : connection)
    (m : ∀ X, HttpTransport (network X) → io (network X) A) (s : swarm W V) :
    result A * swarm W V :=
  let refused := (Err (errors_New "connection refused"), s) in
  match resolve host with
  | Some (ANode n) =>
    match sw_nodes s !! n with
    | Some nd =>
      let '(r, sv) := ask dst DoW false host c (m W) (node_server nd) in
      (r, set_node n (node_served sv nd) s)
    | None => refused
    end
  | Some (ASeed n) =>
    match sw_seeds s !! n with
    | Some sv =>
      let '(r, sv) := ask src DoV true host c (m V) sv in
      (r, set_seed n sv s)
    | None => refused
    end
  | None => refused
  end.

(** [RequestDownload] of the local downloader, and reading what it returned to its end: the
    source does not change, so it does not matter when its bytes are read. *)
Definition local_download (i : nat) : io (ChunkManager * V) (Z * reader) := λ s,
  match LocalDownloader_RequestDownload src xxh3 DoV i verifyOnComplete s with
  | (Ok (checksum, rd), (cm, v)) =>
    let fuel := match chunks cm !! i with Some c => copy_fuel c | None => 1 end in
    let '(res, v) := io_Copy_chunk src cm fuel rd [] v in
    (match res with
     | Ok (Some (data, err)) => Ok (checksum, mkReader data [] err)
     | Ok None => Panic "out of fuel"
     | Err e => Err e
     | Panic msg => Panic msg
     end, (cm, v))
  | (Err e, s) => (Err e, s)
  | (Panic msg, s) => (Panic msg, s)
  end.

Definition node_event (e : event) (n : nat) (s : swarm W V) : option (swarm W V) :=
  nd ← sw_nodes s !! n;
  sys ← run_event e (nd_system nd);
  Some (set_node n (set_system sys nd) s).

(** The downloader and the chunk of a worker that is about to call [RequestDownload]. *)
Definition requesting (n k j : nat) (s : swarm W V) : option (Downloader * nat) :=
  nd ← sw_nodes s !! n;
  ex ← sy_execs (nd_system nd) !! k;
  p ← ex_workers ex !! j;
  match p with WRequest i _ => Some (ex_downloader ex, i) | _ => None end.

Definition swarm_step (e : swarm_event) (s : swarm W V) : option (swarm W V) :=
  match e with
  | SwEvent n e => if own_event e then node_event e n s else None
  | SwChunk n k j c =>
    '(downloader, i) ← requesting n k j s;
    match downloader with
    | DPeer d =>
      let '(r, s) := contact (pd_Host d) c (λ X T,
        RequestDownload (W := network X) compressType i verifyOnComplete d) s in
      node_event (EvWorker k j (Response r)) n s
    | DLocal _ => None
    end
  | SwLocal n k j =>
    '(downloader, i) ← requesting n k j s;
    nd ← sw_nodes s !! n;
    v ← nd_Src nd;
    match downloader with
    | DLocal _ =>
      let '(r, (cm, v)) := local_download i (mc_ChunkManager (sy_main (nd_system nd)), v) in
      node_event (EvWorker k j (Response r)) n (set_node n (node_read cm v nd) s)
    | DPeer _ => None
    end
  | SwList n k choice c =>
    nd ← sw_nodes s !! n;
    ex ← sy_execs (nd_system nd) !! k;
    match ex_downloader ex with
    | DPeer d =>
      let cm := mc_ChunkManager (sy_main (nd_system nd)) in
      let '(r, s) := contact (pd_Host d) c (λ X T,
        UpdatePeerAvailableList (W := network X) compressType choice cm d) s in
      nd ← sw_nodes s !! n;
      if mc_panicked (sy_main (nd_system nd)) then None else
      sys ← with_peer k (nd_system nd) (λ m d,
        match r with Ok d' => Ok (m, d') | Err _ => Ok (m, d) | Panic msg => Panic msg end);
      Some (set_node n (set_system sys nd) s)
    | DLocal _ => None
    end
  end.

Fixpoint swarm_run (l : list swarm_event) (s : swarm W V) : option (swarm W V) :=
  match l with
  | [] => Some s
  | e :: l => s ← swarm_step e s; swarm_run l s
  end.
End swarm.
