(* ===== verification/SwarmFacts.v ===== *)
(** The swarm is correct: whatever the order in which its nodes and seeds run and whatever
    the network does, every node only ever holds, serves and completes with the source's
    bytes. *)
From S2P Require Import Prelude Bytes GoStrings Types Storage ChunkBuilder ChunkManager ChunkTransfer ChunkQueue Statistics Availability Delivery Http HttpServer HttpServing PeerDownloader Network Downloader Controller DownloaderSafety DownloaderLiveness DownloaderData DownloaderBooks Node Swarm.

Section facts.
Context {W : Type} (dst : Storage W) `{!StorageSpec dst}.
Context {V : Type} (src : Storage V) `{!StorageSpec src} (v : V).
Context `{GozstdLaws} `{ListCodecLaws}.
Context (xxh3 : bytes → Z) (onFileComplete : string → Z → io W unit).
Hypothesis xxh3_range : ∀ b, uint64_range (xxh3 b).
Hypothesis onFileComplete_ok : ∀ p s w,
  (onFileComplete p s w).1 = Ok () ∧ same_view dst w (onFileComplete p s w).2.
Context (DoW : string → io (ChunkManager * W) Z → io (ChunkManager * W) Z).
Context (DoV : string → io (ChunkManager * V) Z → io (ChunkManager * V) Z).
Hypothesis DoW_alone : ∀ key m s, DoW key m s = m s.
Hypothesis DoV_alone : ∀ key m s, DoV key m s = m s.
Context (version : Version) (error_String : error → string) (compressType : string).
Context (verifyOnComplete : bool) (peerNumConcurrent localNumConcurrent : nat).
Context (transferIdleTimeout : Duration).
Context (resolve : string → option address).
Hypothesis resolve_plain : ∀ host a, resolve host = Some a → "/"%char ∉ chars host.
Context (cm0 : ChunkManager).
Hypothesis Hok : manager_ok cm0.
Hypothesis Hsrc : sized src v (cm_files cm0).
Hypothesis Hsmall : (Z.of_nat (GetChunkCount cm0) < 2 ^ 63)%Z.

Local Abbreviation run_event := (run_event dst xxh3 onFileComplete verifyOnComplete
  peerNumConcurrent localNumConcurrent transferIdleTimeout).
Local Abbreviation ask := (ask xxh3 version error_String).
Local Abbreviation contact := (contact dst src xxh3 DoW DoV version error_String resolve).
Local Abbreviation swarm_step := (swarm_step dst src xxh3 onFileComplete DoW DoV version
  error_String compressType verifyOnComplete peerNumConcurrent localNumConcurrent
  transferIdleTimeout resolve).
Local Abbreviation swarm_run := (swarm_run dst src xxh3 onFileComplete DoW DoV version
  error_String compressType verifyOnComplete peerNumConcurrent localNumConcurrent
  transferIdleTimeout resolve).
Local Abbreviation system_inv := (system_inv dst src v xxh3 cm0).
Local Abbreviation source_bytes := (source_bytes src v (cm_files cm0) (chunks cm0)).
Local Abbreviation sum_ok := (sum_ok src v xxh3 cm0).

(** * The invariant *)

Record node_inv (nd : node W V) : Prop := {
  ni_system : system_inv (nd_system nd);
  ni_live : sys_live peerNumConcurrent localNumConcurrent (nd_system nd);
  ni_books : sys_books (nd_system nd);
  ni_source w : nd_Src nd = Some w → same_view src v w;
  ni_local k ex ld : sy_execs (nd_system nd) !! k = Some ex → ex_downloader ex = DLocal ld →
    is_Some (nd_Src nd)
}.

Record seed_inv (sv : server V) : Prop := {
  se_meta : meta_ok cm0 (sv_ChunkManager sv);
  se_sums : sums_ok src v xxh3 cm0 (sv_ChunkManager sv);
  se_view : same_view src v (sv_world sv)
}.

Definition swarm_inv (s : swarm W V) : Prop :=
  Forall node_inv (sw_nodes s) ∧ Forall seed_inv (sw_seeds s).

Lemma swarm_inv_node s n nd : swarm_inv s → sw_nodes s !! n = Some nd → node_inv nd.
Proof. intros [Hn _]. by apply Forall_lookup. Qed.

Lemma node_inv_data nd : node_inv nd → data_inv dst src v xxh3 cm0 (nd_system nd).
Proof. intros Hnd. apply (sn_data _ _ _ _ _ _ (ni_system _ Hnd)). Qed.

Lemma node_inv_meta nd : node_inv nd → meta_ok cm0 (mc_ChunkManager (sy_main (nd_system nd))).
Proof. intros Hnd. apply (da_meta _ _ _ _ _ _ (node_inv_data _ Hnd)). Qed.

Lemma swarm_inv_set s n nd : swarm_inv s → node_inv nd → swarm_inv (set_node n nd s).
Proof. intros [Hn Hs] Hnd. split; [by apply Forall_insert|done]. Qed.

(** A change that the goroutines of the download do not see. *)
Lemma node_inv_view nd m' uuid t o :
  node_inv nd → chunks (mc_ChunkManager m') = chunks (mc_ChunkManager (sy_main (nd_system nd))) →
  mc_ctx_done m' = mc_ctx_done (sy_main (nd_system nd)) →
  mc_Completed m' = mc_Completed (sy_main (nd_system nd)) →
  system_inv (mkSystem m' (sy_execs (nd_system nd)) (sy_downloaders (nd_system nd))) →
  (∀ w, o = Some w → same_view src v w) → (is_Some (nd_Src nd) → is_Some o) →
  node_inv (mkNode (mkSystem m' (sy_execs (nd_system nd)) (sy_downloaders (nd_system nd)))
    uuid t o).
Proof.
  intros [_ Hl Hb _ Hld] Hch Hctx Hcd Hsys Hv Ho. constructor; [done|done| |done|eauto].
  apply sys_books_main; [done| |by rewrite Hctx|done]. unfold GetChunkCount. by rewrite Hch.
Qed.

Lemma node_inv_served nd sv :
  node_inv nd → served dst false (node_server nd) sv → server_ok dst xxh3 false sv →
  node_inv (node_served sv nd).
Proof.
  intros Hnd Hsd Hsv. pose proof (node_served_inv dst src v xxh3 cm0 nd sv (ni_system _ Hnd) Hsd Hsv)
    as Hsys. apply (node_inv_view nd); [done|apply Hsd|done|done|exact Hsys|apply Hnd|done].
Qed.

Lemma node_inv_read nd cm w :
  node_inv nd → meta_ok cm0 cm → sums_ok src v xxh3 cm0 cm → same_view src v w →
  chunks cm = chunks (mc_ChunkManager (sy_main (nd_system nd))) → node_inv (node_read cm w nd).
Proof.
  intros Hnd Hm Hs Hv Hch. apply (node_inv_view nd); try done; [|by intros ? [= <-]].
  apply (system_inv_view dst src v xxh3 cm0 (nd_system nd)); try done. apply Hnd.
Qed.

(** ** Seeds *)

Lemma source_chunk_bytes cm w i c :
  meta_ok cm0 cm → same_view src v w → chunks cm !! i = Some c →
  chunk_bytes src w (cm_files cm) (FileRanges c) = source_bytes i.
Proof.
  intros Hm Hv Hc. destruct (meta_chunk _ _ _ _ Hm Hc) as (c0 & Hc0 & Hr).
  unfold Delivery.source_bytes. rewrite Hc0. simpl. by rewrite Hr, <- Hv, (mo_files _ _ Hm).
Qed.

Lemma sums_ok_checksums cm w :
  meta_ok cm0 cm → sums_ok src v xxh3 cm0 cm → same_view src v w →
  checksums_ok src xxh3 (λ _, True) cm w.
Proof.
  intros Hm Hs Hv. split; [apply Hm|]. intros j cj x _ Hj Hx Hnz.
  rewrite (source_chunk_bytes _ _ _ _ Hm Hv Hj). destruct (Hs j x Hx Hnz) as (bj & ? & ->). eauto.
Qed.

Lemma source_chunk_some cm i c :
  meta_ok cm0 cm → chunks cm !! i = Some c →
  Forall (range_ok (cm_files cm)) (FileRanges c) ∧ (ranges_len (FileRanges c) < 2 ^ 63)%Z ∧
  is_Some (source_bytes i).
Proof.
  intros Hm Hc. destruct (meta_chunk _ _ _ _ Hm Hc) as (c0 & Hc0 & Hr).
  destruct (manager_chunk _ _ _ Hok Hc0) as (Hin & _ & Hlen).
  unfold Delivery.source_bytes. rewrite Hc0. simpl. rewrite Hr in *. split_and!; [|done|].
  - eapply Forall_impl; [exact Hin|]. intros r [Hro _]. eapply range_ok_files; [|exact Hro].
    symmetry. apply Hm.
  - destruct (chunk_bytes_sized src _ _ _ Hsrc Hin) as (b & -> & _). done.
Qed.

Lemma seed_server_ok sv : seed_inv sv → server_ok src xxh3 true sv.
Proof.
  intros [Hm Hs Hv]. constructor.
  - by rewrite (meta_count _ _ Hm).
  - intros i c Hc. rewrite (source_chunk_bytes _ _ _ _ Hm Hv Hc). by apply source_chunk_some.
  - split; [apply Hm|]. intros i c x _ Hc Hx Hnz.
    rewrite (source_chunk_bytes _ _ _ _ Hm Hv Hc). destruct (Hs i x Hx Hnz) as (b & Hb & ->). eauto.
Qed.

Lemma seed_served sv sv' :
  seed_inv sv → served src true sv sv' → server_ok src xxh3 true sv' → seed_inv sv'.
Proof.
  intros [Hm Hs Hv] [Hch Hman _ _ Hv' _] [_ _ [Hl Hsum]].
  assert (meta_ok cm0 (sv_ChunkManager sv')) as Hm'.
  { destruct Hm. constructor; unfold cm_files in *; rewrite ?Hch, ?Hman; [done..|by rewrite Hl, Hch]. }
  assert (same_view src v (sv_world sv')) as Hv2 by (by etrans).
  constructor; [done| |done]. intros i x Hx Hnz.
  destruct (lookup_lt_is_Some_2 (chunks (sv_ChunkManager sv')) i) as [c Hc].
  { rewrite <- Hl. by eapply lookup_lt_Some. }
  destruct (Hsum i c x) as (b & Hb & <-); [done..|]. exists b. split; [|done].
  rewrite <- Hb. symmetry. by apply source_chunk_bytes.
Qed.

(** * Requests *)

(** What a worker gets is the source's, or a part of it. *)
Definition chunk_answer (i : nat) (r : result (Z * reader)) : Prop :=
  match r with
  | Ok (checksum, rd) => sum_ok i checksum ∧
      ∃ b, source_bytes i = Some b ∧ rd_data rd `prefix_of` b
  | Err _ => True
  | Panic _ => False
  end.

Lemma ask_chunk {X} (storage : Storage X) `{!StorageSpec storage} Do ServeOnly host c i d sv :
  (∀ key m s, Do key m s = m s) → "/"%char ∉ chars host → pd_Host d = host →
  (Z.of_nat i < 2 ^ 63)%Z → server_ok storage xxh3 ServeOnly sv →
  let '(r, sv') := ask storage Do ServeOnly host c (λ T,
    RequestDownload (W := network X) compressType i verifyOnComplete d) sv in
  server_ok storage xxh3 ServeOnly sv' ∧ served storage ServeOnly sv sv' ∧
  match r with
  | Ok (checksum, rd) => serve_GetChunkStatus ServeOnly sv i = Ok ChunkStatusDone ∧
      ∃ c b, chunks (sv_ChunkManager sv) !! i = Some c ∧
        chunk_bytes storage (sv_world sv) (cm_files (sv_ChunkManager sv)) (FileRanges c) = Some b ∧
        rd_data rd `prefix_of` b ∧ checksum = if verifyOnComplete then xxh3 b else 0%Z
  | Err _ => True
  | Panic _ => False
  end.
Proof.
  intros Hdo Hhost Hd Hi Hsv. unfold Swarm.ask.
  pose proof (RequestDownload_spec storage xxh3 Do Hdo xxh3_range version ServeOnly error_String host
    (λ _, cn_room c) (λ k, if decide (k = 0) then cn_now c else cn_finished c) Hhost compressType d
    (mkNetwork sv 0 0) i verifyOnComplete Hd Hi Hsv) as Hpost.
  unfold post in Hpost. by destruct (RequestDownload _ _ _ _ _) as [r n].
Qed.

(** Serving changes no program counter. *)
Definition same_execs (s s' : swarm W V) : Prop :=
  ∀ n nd, sw_nodes s !! n = Some nd → ∃ nd', sw_nodes s' !! n = Some nd' ∧
    sy_execs (nd_system nd') = sy_execs (nd_system nd).

Lemma same_execs_refl s : same_execs s s.
Proof. intros n nd Hn. eauto. Qed.

Lemma same_execs_set s n nd nd' :
  sw_nodes s !! n = Some nd → sy_execs (nd_system nd') = sy_execs (nd_system nd) →
  same_execs s (set_node n nd' s).
Proof.
  intros Hn Hex k nd1 Hk. simpl. destruct (decide (k = n)) as [->|Hne].
  - simplify_eq. exists nd'. rewrite list_lookup_insert_eq by (by eapply lookup_lt_Some). done.
  - exists nd1. by rewrite list_lookup_insert_ne by done.
Qed.

Lemma contact_spec {A} host c (m : ∀ X, HttpTransport (network X) → io (network X) A)
    (Q : result A → Prop) s :
  swarm_inv s → Q (Err (errors_New "connection refused")) →
  (∀ nd, node_inv nd → "/"%char ∉ chars host →
    let '(r, sv) := ask dst DoW false host c (m W) (node_server nd) in
    server_ok dst xxh3 false sv ∧ served dst false (node_server nd) sv ∧ Q r) →
  (∀ sv0, seed_inv sv0 → "/"%char ∉ chars host →
    let '(r, sv) := ask src DoV true host c (m V) sv0 in
    server_ok src xxh3 true sv ∧ served src true sv0 sv ∧ Q r) →
  let '(r, s') := contact host c m s in swarm_inv s' ∧ same_execs s s' ∧ Q r.
Proof.
  intros Hs Hr Hnode Hseed. unfold Swarm.contact.
  destruct (resolve host) as [[n|n]|] eqn:Hres; [| |by split_and!; [|apply same_execs_refl|]].
  - destruct (sw_nodes s !! n) as [nd|] eqn:Hn; [|by split_and!; [|apply same_execs_refl|]].
    pose proof (swarm_inv_node _ _ _ Hs Hn) as Hnd.
    specialize (Hnode nd Hnd (resolve_plain _ _ Hres)).
    destruct (Swarm.ask _ _ _ _ _ _ _ _ _ _) as [r sv]. destruct Hnode as (Hok' & Hsd & HQ).
    split_and!; [|by eapply same_execs_set|done]. apply swarm_inv_set; [done|].
    by apply node_inv_served.
  - destruct (sw_seeds s !! n) as [sv0|] eqn:Hn; [|by split_and!; [|apply same_execs_refl|]].
    destruct Hs as [Hns Hss]. pose proof (proj1 (Forall_lookup _ _) Hss _ _ Hn) as Hsv0.
    specialize (Hseed sv0 Hsv0 (resolve_plain _ _ Hres)).
    destruct (Swarm.ask _ _ _ _ _ _ _ _ _ _) as [r sv]. destruct Hseed as (Hok' & Hsd & HQ).
    split_and!; [|intros ???; by eauto|done]. split; [done|]. apply Forall_insert; [done|].
    by eapply seed_served.
Qed.

Lemma contact_chunk c i d s :
  swarm_inv s → (Z.of_nat i < 2 ^ 63)%Z →
  let '(r, s') := contact (pd_Host d) c (λ X T,
    RequestDownload (W := network X) compressType i verifyOnComplete d) s in
  swarm_inv s' ∧ same_execs s s' ∧ chunk_answer i r.
Proof.
  intros Hs Hi. apply contact_spec; [done..| |].
  - intros nd Hnd Hhost. pose proof (ni_system _ Hnd) as Hsys.
    pose proof (ask_chunk dst DoW false (pd_Host d) c i d (node_server nd) DoW_alone Hhost eq_refl
      Hi ltac:(by apply (node_server_ok dst src v xxh3 cm0))) as Hask.
    destruct (Swarm.ask _ _ _ _ _ _ _ _ _ _) as [r sv]. destruct Hask as (? & ? & Hr).
    split_and!; [done..|]. destruct r as [[x rd]|e|?]; [|done..].
    destruct Hr as (Hst & ch & b & Hc & Hb & Hpre & ->).
    rewrite (node_serves dst src v xxh3 cm0 nd i ch Hsys Hst Hc) in Hb.
    split; [|by exists b]. intros Hnz. exists b. split; [done|]. by destruct verifyOnComplete.
  - intros sv0 Hsv0 Hhost.
    pose proof (ask_chunk src DoV true (pd_Host d) c i d sv0 DoV_alone Hhost eq_refl
      Hi (seed_server_ok _ Hsv0)) as Hask.
    destruct (Swarm.ask _ _ _ _ _ _ _ _ _ _) as [r sv]. destruct Hask as (? & ? & Hr).
    split_and!; [done..|]. destruct r as [[x rd]|e|?]; [|done..].
    destruct Hr as (Hst & ch & b & Hc & Hb & Hpre & ->), Hsv0 as [Hm _ Hv].
    rewrite (source_chunk_bytes _ _ _ _ Hm Hv Hc) in Hb.
    split; [|by exists b]. intros Hnz. exists b. split; [done|]. by destruct verifyOnComplete.
Qed.

(** ** Reading one's own source *)

Lemma local_download_spec cm w i :
  meta_ok cm0 cm → sums_ok src v xxh3 cm0 cm → same_view src v w →
  is_Some (chunks cm !! i) →
  post (local_download src xxh3 DoV verifyOnComplete i) (cm, w) (λ r '(cm', w'),
    meta_ok cm0 cm' ∧ sums_ok src v xxh3 cm0 cm' ∧ same_view src v w' ∧
    chunks cm' = chunks cm ∧ chunk_answer i r).
Proof.
  intros Hm Hs Hv [c Hc].
  destruct (source_chunk_some _ _ _ Hm Hc) as (Hro & _ & [b Hb]).
  pose proof (source_chunk_bytes _ _ _ _ Hm Hv Hc) as Hcb. rewrite Hb in Hcb.
  pose proof (LocalDownloader_RequestDownload_spec src xxh3 DoV DoV_alone (λ _, True) i c b cm w
    verifyOnComplete I Hc Hro Hcb (sums_ok_checksums _ _ Hm Hs Hv)) as Hreq.
  unfold post in Hreq |- *. unfold local_download.
  destruct (LocalDownloader_RequestDownload _ _ _ _ _ _) as [r [cm' w']]. cbn [fst snd] in Hreq.
  destruct Hreq as (Hv' & Hs' & Hch & Hman & Hr).
  assert (meta_ok cm0 cm') as Hm'.
  { destruct Hm, Hs' as [Hl _]. constructor; unfold cm_files in *; rewrite ?Hch, ?Hman; [done..|].
    by rewrite Hl, Hch. }
  assert (same_view src v w') as Hv2 by (by etrans).
  assert (sums_ok src v xxh3 cm0 cm') as Hsum'.
  { destruct Hs' as [Hl Hs']. intros j x Hx Hnz.
    destruct (lookup_lt_is_Some_2 (chunks cm') j) as [cj Hcj].
    { rewrite <- Hl. by eapply lookup_lt_Some. }
    destruct (Hs' j cj x I Hcj Hx Hnz) as (bj & Hbj & <-). exists bj. split; [|done].
    rewrite <- Hbj. symmetry. by apply source_chunk_bytes. }
  destruct r as [[checksum rd]|e|?]; [|by split_and!|done]. destruct Hr as [-> Hread].
  rewrite Hch, Hc. cbv zeta.
  pose proof (Hread w' Hv') as (data & err & Hcopy & Hview & Hpre & _).
  destruct (io_Copy_chunk _ _ _ _ _ _) as [res w2]. cbn [fst snd] in *. subst res.
  split_and!; [done|done|by etrans|done|]. split.
  - intros Hnz. exists b. split; [done|]. by destruct verifyOnComplete.
  - by exists b.
Qed.

(** ** Lists *)

Lemma receive_no_error choice cm al d e : receiveAvailableList choice cm al d ≠ Err e.
Proof.
  unfold receiveAvailableList. set (l := if IsCompleted al then _ else _).
  assert (∀ l d acc, mark_chunks l d acc ≠ Err e) as Hmark.
  { clear. induction l as [|z l IH]; intros d acc; [done|]. cbn [mark_chunks].
    unfold markChunkAsReady. destruct (index_slice_int _ _) as [a|?|?] eqn:E; [|exfalso|done].
    - simpl. destruct (a =? AvailableChunkNotReady)%Z; apply IH.
    - revert E. unfold index_slice_int, index_slice. by repeat case_match. }
  specialize (Hmark l (set_pd_LastUpdatedAt (Timestamp al) d) []).
  destruct (mark_chunks _ _ _) as [[??]|?|?]; [done| |done]. intros [= ->]. by apply Hmark.
Qed.

Lemma receive_count choice cm cm' al d :
  GetChunkCount cm' = GetChunkCount cm →
  receiveAvailableList choice cm' al d = receiveAvailableList choice cm al d.
Proof. unfold receiveAvailableList. by intros ->. Qed.

(** What the update goroutine gets: a list of chunks of the manifest, or an error. *)
Definition list_answer (choice : nat → nat) (cm : ChunkManager) (d : PeerDownloader)
    (r : result PeerDownloader) : Prop :=
  (∃ e, r = Err e) ∨ ∃ al, r = receiveAvailableList choice cm al d ∧
    time_valid (Timestamp al) ∧
    Forall (λ z, 0 ≤ z < Z.of_nat (GetChunkCount cm0))%Z (TransferChunkIndexList al).

Lemma ask_list {X} (storage : Storage X) `{!StorageSpec storage} Do ServeOnly host c choice cm d sv :
  "/"%char ∉ chars host → pd_Host d = host →
  time_valid (pd_LastUpdatedAt d) → time_valid (cn_now c) →
  GetChunkCount cm = GetChunkCount cm0 → GetChunkCount (sv_ChunkManager sv) = GetChunkCount cm0 →
  server_ok storage xxh3 ServeOnly sv →
  let '(r, sv') := ask storage Do ServeOnly host c (λ T,
    UpdatePeerAvailableList (W := network X) compressType choice cm d) sv in
  server_ok storage xxh3 ServeOnly sv' ∧ served storage ServeOnly sv sv' ∧ list_answer choice cm d r.
Proof.
  intros Hhost Hd Ht Hnow Hcm Hcount Hsv. unfold Swarm.ask.
  pose proof (request_available_list storage xxh3 Do version ServeOnly error_String host
    (λ _, cn_room c) (λ k, if decide (k = 0) then cn_now c else cn_finished c) Hhost compressType
    choice cm d (mkNetwork sv 0 0) Hd Ht Hnow) as Hpost.
  unfold post in Hpost. destruct (UpdatePeerAvailableList _ _ _ _ _) as [r n].
  cbn [fst snd nw_server nw_requests] in Hpost. destruct Hpost as (Hsame & Hsd & Hr).
  split_and!; [|done|].
  - eapply server_ok_view; [done..|]. rewrite Hsame. rewrite <- (sd_view _ _ _ _ Hsd).
    apply (so_sums _ _ _ _ Hsv).
  - destruct Hr as [?| ->]; [by left|right]. eexists. split; [done|].
    pose proof (server_list_range cm (cn_now c) (pd_LastUpdatedAt d) sv
      ltac:(by rewrite Hcount)) as Hrange.
    rewrite Hcm in Hrange. unfold al_indices, server_list in *. by destruct (sv_Completed sv).
Qed.

Lemma contact_list c choice cm d s :
  swarm_inv s → time_valid (pd_LastUpdatedAt d) → time_valid (cn_now c) →
  GetChunkCount cm = GetChunkCount cm0 →
  let '(r, s') := contact (pd_Host d) c (λ X T,
    UpdatePeerAvailableList (W := network X) compressType choice cm d) s in
  swarm_inv s' ∧ same_execs s s' ∧ list_answer choice cm d r.
Proof.
  intros Hs Ht Hnow Hcm. apply contact_spec; [done|left; by eexists| |].
  - intros nd [Hsys _ _ _ _] Hhost. apply ask_list; try done.
    + apply (meta_count cm0), (da_meta _ _ _ _ _ _ (sn_data _ _ _ _ _ _ Hsys)).
    + by apply (node_server_ok dst src v xxh3 cm0).
  - intros sv0 Hsv0 Hhost. apply ask_list; try done; [|by apply seed_server_ok].
    apply meta_count, Hsv0.
Qed.

(** * Steps *)

(** Clocks show years that RFC 3339 can write. *)
Definition clock_ok (e : swarm_event) : Prop :=
  match e with SwList _ _ _ c => time_valid (cn_now c) | _ => True end.

Lemma run_event_node e (nd : node W V) sys :
  node_inv nd → event_ok src v xxh3 cm0 e (nd_system nd) → event_extra src v xxh3 cm0 e (nd_system nd) →
  run_event e (nd_system nd) = Some sys → node_inv (set_system sys nd).
Proof.
  intros [Hsys Hl Hb Hw Hld] He Hx Hrun. constructor; simpl.
  - by eapply run_event_system.
  - by eapply run_event_live.
  - eapply run_event_books; [exact Hrun| |apply Hsys|done].
    by rewrite (meta_count _ _ (da_meta _ _ _ _ _ _ (sn_data _ _ _ _ _ _ Hsys))).
  - done.
  - intros k ex' ld' Hk Hd. eapply run_event_local in Hrun as (ex & ld & Hk' & Hd'); eauto.
Qed.

Lemma node_event_inv e n s s' :
  swarm_inv s →
  (∀ nd, sw_nodes s !! n = Some nd →
    event_ok src v xxh3 cm0 e (nd_system nd) ∧ event_extra src v xxh3 cm0 e (nd_system nd)) →
  node_event dst xxh3 onFileComplete verifyOnComplete peerNumConcurrent localNumConcurrent
    transferIdleTimeout e n s = Some s' → swarm_inv s'.
Proof.
  intros Hs He Hstep. unfold node_event in Hstep.
  apply bind_Some in Hstep as (nd & Hn & (sys & Hrun & [= <-])%bind_Some).
  destruct (He nd Hn). apply swarm_inv_set; [done|].
  eapply run_event_node; [by eapply swarm_inv_node|done..].
Qed.

Lemma own_event_ok e (s : system W) :
  own_event e = true → event_ok src v xxh3 cm0 e s ∧ event_extra src v xxh3 cm0 e s.
Proof. destruct e as [|k j []| | | | | | | | |]; done. Qed.

(** The response to the worker that asked for chunk [i]. *)
Lemma response_ok k j i r (nd : node W V) ex t :
  sy_execs (nd_system nd) !! k = Some ex → ex_workers ex !! j = Some (WRequest i t) →
  chunk_answer i r →
  event_ok src v xxh3 cm0 (EvWorker k j (Response r)) (nd_system nd) ∧
  event_extra src v xxh3 cm0 (EvWorker k j (Response r)) (nd_system nd).
Proof.
  intros Hk Hj Hr. destruct r as [[checksum rd]|e|?]; [|done..].
  destruct Hr as (Hsum & b & Hb & Hpre).
  split; intros ex' i' t' Hk' Hj'; simplify_eq; [|done].
  exists b. split; [done|]. left. simpl. etrans; [|exact Hpre]. apply prefix_take.
Qed.

Lemma requesting_chunk n k j s d i :
  swarm_inv s → requesting n k j s = Some (d, i) → ∃ nd ex t,
    sw_nodes s !! n = Some nd ∧ sy_execs (nd_system nd) !! k = Some ex ∧
    ex_workers ex !! j = Some (WRequest i t) ∧ ex_downloader ex = d ∧
    is_Some (chunks (mc_ChunkManager (sy_main (nd_system nd))) !! i) ∧
    (Z.of_nat i < 2 ^ 63)%Z.
Proof.
  intros Hs Hreq. unfold requesting in Hreq.
  apply bind_Some in Hreq as (nd & Hn & (ex & Hk & (p & Hj & Hp)%bind_Some)%bind_Some).
  destruct p; simplify_eq. exists nd, ex, t0.
  destruct (swarm_inv_node _ _ _ Hs Hn) as [[Hsys Hd _ _] _ _ _ _].
  assert (is_Some (chunks (mc_ChunkManager (sy_main (nd_system nd))) !! i)) as Hsome.
  { eapply chunk_status_lookup. eapply tp_owns; [by eapply worker_pre|done]. }
  split_and!; [done..|]. apply lookup_lt_is_Some in Hsome.
  pose proof (meta_count _ _ (da_meta _ _ _ _ _ _ Hd)) as Hcount. unfold GetChunkCount in *. lia.
Qed.

Lemma list_step_inv n k choice c s s' :
  clock_ok (SwList n k choice c) → swarm_inv s → swarm_step (SwList n k choice c) s = Some s' →
  swarm_inv s'.
Proof.
  intros Hclock Hs Hstep. cbn in Hstep.
  apply bind_Some in Hstep as (nd & Hn & (ex & Hk & Hstep)%bind_Some).
  destruct (ex_downloader ex) as [d|] eqn:Hd; [|done].
  pose proof (swarm_inv_node _ _ _ Hs Hn) as Hnd.
  pose proof (meta_count _ _ (node_inv_meta _ Hnd)) as Hcount.
  destruct (proj1 (Forall_lookup _ _) (sn_execs _ _ _ _ _ _ (ni_system _ Hnd)) _ _ Hk) as [Ht _].
  rewrite Hd in Ht. destruct Ht as [Ht _].
  pose proof (contact_list c choice _ d s Hs Ht Hclock Hcount) as Hc.
  destruct (Swarm.contact _ _ _ _ _ _ _ _ _ _ _ _) as [r s1]. destruct Hc as (Hs1 & Hex & Hr).
  destruct (Hex n nd Hn) as (nd1 & Hn1 & Hex1). rewrite Hn1 in Hstep. simpl in Hstep.
  destruct (mc_panicked _) eqn:Hpan; [done|].
  apply bind_Some in Hstep as (sys & Hpeer & [= <-]).
  pose proof (swarm_inv_node _ _ _ Hs1 Hn1) as Hnd1.
  pose proof (meta_count _ _ (node_inv_meta _ Hnd1)) as Hcount1.
  apply swarm_inv_set; [done|].
  unfold with_peer, with_exec in Hpeer. rewrite Hex1, Hk in Hpeer. simpl in Hpeer.
  rewrite Hd in Hpeer. destruct (updating d) eqn:Hu; [|done]. simpl in Hpeer.
  destruct Hr as [[e ->]|(al & -> & Hal & Hrange)].
  - injection Hpeer as <-. rewrite <- Hex1. simpl. rewrite list_insert_id.
    + by destruct nd1 as [[] ???].
    + rewrite Hex1, Hk. f_equal. unfold set_downloader. rewrite <- Hd. by destruct ex.
  - eapply (run_event_node (EvAvailable k choice al)); [exact Hnd1|exact Hrange|exact Hal|].
    unfold Downloader.run_event, with_peer, with_exec. rewrite Hpan, Hex1, Hk. simpl.
    rewrite Hd, Hu. simpl. rewrite <- Hpeer.
    rewrite (receive_count choice (mc_ChunkManager (sy_main (nd_system nd)))) by congruence.
    destruct (receiveAvailableList _ _ _ _) as [d'|e|?] eqn:Hr; [done| |done].
    by apply receive_no_error in Hr.
Qed.

Lemma swarm_step_inv e s s' :
  clock_ok e → swarm_inv s → swarm_step e s = Some s' → swarm_inv s'.
Proof.
  intros Hclock Hs Hstep. destruct e as [n e|n k j c|n k j|n k choice c]; cbn in Hstep.
  - destruct (own_event e) eqn:He; [|done].
    eapply node_event_inv; [exact Hs| |exact Hstep]. intros nd _. by apply own_event_ok.
  - apply bind_Some in Hstep as ([downloader i] & Hreq & Hstep).
    destruct (requesting_chunk _ _ _ _ _ _ Hs Hreq) as (nd & ex & t & Hn & Hk & Hj & Hd & _ & Hi).
    destruct downloader as [d|]; [|done].
    pose proof (contact_chunk c i d s Hs Hi) as Hc.
    destruct (Swarm.contact _ _ _ _ _ _ _ _ _ _ _ _) as [r s1]. destruct Hc as (Hs1 & Hex & Hr).
    destruct (Hex n nd Hn) as (nd1 & Hn1 & Hex1).
    eapply node_event_inv; [exact Hs1| |exact Hstep]. intros nd' Hn'. simplify_eq.
    eapply response_ok; [by rewrite Hex1|done..].
  - apply bind_Some in Hstep as ([downloader i] & Hreq & (nd & Hn & (w & Hw & Hstep)%bind_Some)%bind_Some).
    destruct (requesting_chunk _ _ _ _ _ _ Hs Hreq)
      as (nd1 & ex & t & Hn1 & Hk & Hj & Hd & Hsome & _). simplify_eq.
    destruct (ex_downloader ex) as [|ld]; [done|].
    pose proof (swarm_inv_node _ _ _ Hs Hn) as Hnd. pose proof (ni_system _ Hnd) as Hsys.
    pose proof (ni_source _ Hnd) as Hsrcs. pose proof Hsys as [_ Hdata Hsum _].
    pose proof (local_download_spec _ w i (da_meta _ _ _ _ _ _ Hdata) Hsum (Hsrcs w Hw) Hsome) as Hl.
    unfold post in Hl. destruct (local_download _ _ _ _ _ _) as [r [cm' w']]. cbn [fst snd] in Hl.
    destruct Hl as (Hm' & Hsum' & Hv' & Hch & Hr).
    assert (swarm_inv (set_node n (node_read cm' w' nd) s)) as Hs1.
    { apply swarm_inv_set; [done|]. by apply node_inv_read. }
    eapply node_event_inv; [exact Hs1| |exact Hstep]. intros nd' Hn'. simpl in Hn'.
    rewrite list_lookup_insert_eq in Hn' by (by eapply lookup_lt_Some). simplify_eq.
    by eapply response_ok.
  - by eapply list_step_inv.
Qed.

Lemma swarm_run_inv l s s' :
  Forall clock_ok l → swarm_inv s → swarm_run l s = Some s' → swarm_inv s'.
Proof.
  intros Hl. revert s. induction Hl as [|e l He Hl IH]; intros s Hs; simpl; [by intros [= <-]|].
  intros (s1 & H1' & H2')%bind_Some. eapply IH; [|exact H2']. by eapply swarm_step_inv.
Qed.

(** * The start

    Every program made its own chunk manager of the same manifest, with nothing cached; the
    nodes have prepared their destination, and sources hold the same files. *)
Definition fresh_manager (cm : ChunkManager) : Prop :=
  chunks cm = chunks cm0 ∧ cm_files cm = cm_files cm0 ∧
  chunkChecksums cm = replicate (GetChunkCount cm) 0%Z.

Definition fresh_node (nd : node W V) : Prop :=
  ∃ cm w now stat from, nd_system nd = init_system cm w now stat from ∧
    fresh_manager cm ∧ prepared dst w (cm_files cm0) ∧
    (is_Some from → is_Some (nd_Src nd)) ∧ ∀ w, nd_Src nd = Some w → same_view src v w.

Definition fresh_seed (sv : server V) : Prop :=
  fresh_manager (sv_ChunkManager sv) ∧ same_view src v (sv_world sv).

Lemma fresh_manager_meta cm :
  fresh_manager cm → meta_ok cm0 cm ∧ sums_ok src v xxh3 cm0 cm.
Proof.
  intros (Hc & Hf & Hs). split.
  - constructor; [by rewrite Hc|by rewrite Hf|by rewrite Hs, length_replicate].
  - intros i x Hx Hnz. rewrite Hs in Hx. by apply lookup_replicate in Hx as [-> _].
Qed.

Lemma fresh_node_inv nd :
  Forall (λ c, GetStatus c = ChunkStatusPending) (chunks cm0) → fresh_node nd → node_inv nd.
Proof.
  intros Hp (cm & w & now & stat & from & Hnd & Hcm & Hprep & Hfrom & Hw).
  constructor; rewrite ?Hnd; [|apply init_live|apply init_books|done|].
  2: { intros k ex ld Hk Hd. apply Hfrom. by destruct from. }
  destruct (fresh_manager_meta _ Hcm) as [Hm Hs]. destruct Hcm as (Hc & _).
  set (cm1 := set_chunkChecksums (replicate (GetChunkCount cm0) 0%Z) cm0).
  assert (system_inv (init_system cm1 w now stat from)) as Hinit.
  { assert (length (chunkChecksums cm1) = length (chunks cm1)) as Hl
      by (simpl; by rewrite length_replicate).
    constructor; [by apply init_inv| | |].
    - pose proof (init_data dst src v xxh3 cm1 w now stat from Hp Hl Hprep) as [].
      by constructor.
    - intros i x Hx Hnz. simpl in Hx. by apply lookup_replicate in Hx as [-> _].
    - destruct from; repeat constructor. }
  assert (init_system cm w now stat from
    = mkSystem (set_cm cm (sy_main (init_system cm1 w now stat from)))
        (sy_execs (init_system cm1 w now stat from)) ∅) as ->.
  { unfold init_system, NewLocalDownloader, GetChunkCount. cbn. by rewrite Hc. }
  by apply (system_inv_view dst src v xxh3 cm0 (init_system cm1 w now stat from)).
Qed.

Lemma fresh_swarm_inv nodes seeds :
  Forall (λ c, GetStatus c = ChunkStatusPending) (chunks cm0) →
  Forall fresh_node nodes → Forall fresh_seed seeds → swarm_inv (mkSwarm nodes seeds).
Proof.
  intros Hp Hn Hs. split; simpl.
  - eapply Forall_impl; [exact Hn|]. intros nd. by apply fresh_node_inv.
  - eapply Forall_impl; [exact Hs|]. intros sv [Hcm Hv].
    destruct (fresh_manager_meta _ Hcm). by constructor.
Qed.
End facts.

(** * The theorem *)

Section properties.
Context {W : Type} (dst : Storage W) `{!StorageSpec dst}.
Context {V : Type} (src : Storage V) `{!StorageSpec src} (v : V).
Context `{GozstdLaws} `{ListCodecLaws}.
Context (xxh3 : bytes → Z) (onFileComplete : string → Z → io W unit).
Hypothesis xxh3_range : ∀ b, uint64_range (xxh3 b).
Hypothesis onFileComplete_ok : ∀ p s w,
  (onFileComplete p s w).1 = Ok () ∧ same_view dst w (onFileComplete p s w).2.
Context (DoW : string → io (ChunkManager * W) Z → io (ChunkManager * W) Z).
Context (DoV : string → io (ChunkManager * V) Z → io (ChunkManager * V) Z).
Hypothesis DoW_alone : ∀ key m s, DoW key m s = m s.
Hypothesis DoV_alone : ∀ key m s, DoV key m s = m s.
Context (version : Version) (error_String : error → string) (compressType : string).
Context (verifyOnComplete : bool) (peerNumConcurrent localNumConcurrent : nat).
Context (transferIdleTimeout : Duration).
Context (resolve : string → option address).
Hypothesis resolve_plain : ∀ host a, resolve host = Some a → "/"%char ∉ chars host.

(** C1: a swarm spreads the source and nothing else. Take any number of seeds and of nodes,
    some with a source of their own, all with the manifest of the same files. Let every
    scheduler, worker, update goroutine, timer and request handler of every node run in any
    order; let peers come and go, any connection be refused or break off at any byte, any
    encoding be used, and nodes fetch from each other while they are downloading themselves.
    No goroutine of any node ever panics; a chunk that is Done anywhere, and so may be
    served, holds the source's bytes, however many hosts it passed through; and a node that
    is Completed has every file, byte for byte. *)
Theorem swarm_correct `{SliceSort} cs mf files0 cm0 nodes seeds l s :
  (0 < cs < 2 ^ 63)%Z → sizes_ok cs files0 →
  Forall (λ f, int32_range (FileEntry_remainingChunkCount f)) files0 →
  BuildChunks cs mf files0 = Some (cm_files cm0, chunks cm0) →
  (Z.of_nat (GetChunkCount cm0) < 2 ^ 63)%Z →
  sized src v (cm_files cm0) →
  Forall (fresh_node dst src v cm0) nodes → Forall (fresh_seed src v cm0) seeds →
  Forall clock_ok l →
  swarm_run dst src xxh3 onFileComplete DoW DoV version error_String compressType
    verifyOnComplete peerNumConcurrent localNumConcurrent transferIdleTimeout resolve
    l (mkSwarm nodes seeds) = Some s →
  ∀ n nd, sw_nodes s !! n = Some nd →
    let m := sy_main (nd_system nd) in
    mc_panicked m = false ∧
    (∀ i c, chunks cm0 !! i = Some c → GetChunkStatus i (mc_ChunkManager m) = Ok ChunkStatusDone →
      chunk_bytes dst (mc_Dst m) (cm_files cm0) (FileRanges c)
      = chunk_bytes src v (cm_files cm0) (FileRanges c)) ∧
    (mc_Completed m = true → ∀ f, f ∈ files0 →
      content dst (mc_Dst m) (FileEntry_Name f) = content src v (FileEntry_Name f) ∧
      is_Some (content src v (FileEntry_Name f))).
Proof.
  intros Hcs Hs Hc Hb Hsmall Hsrc Hnodes Hseeds Hl Hrun n nd Hn.
  destruct (BuildChunks_manager_ok _ _ _ _ Hcs Hs Hc Hb) as [Hok Hpend].
  assert (swarm_inv dst src v xxh3 peerNumConcurrent localNumConcurrent cm0 s) as Hinv.
  { eapply swarm_run_inv; [done..|by apply fresh_swarm_inv|exact Hrun]. }
  destruct (swarm_inv_node _ _ _ _ _ _ _ _ _ _ Hinv Hn) as [[Hsys Hdata _ _] _ _ _ _].
  destruct (inv_content dst src v xxh3 cm0 Hok Hsrc _ Hsys Hdata) as [Hdone Hcompl].
  split_and!; [apply Hdata|exact Hdone|]. intros Hcd f Hf.
  destruct (BuildChunks_names _ _ _ _ _ f Hcs Hs Hc Hb Hf) as (g & Hg & <-). by apply Hcompl.
Qed.
End properties.
