(* ===== verification/SwarmRequests.v ===== *)
(** Requests of a swarm that succeed, because who is asked has everything and the connection
    holds, or that fail without a trace, because the connection is refused. *)
From S2P Require Import Prelude Bytes GoStrings Types Storage ChunkBuilder ChunkManager ChunkTransfer ChunkQueue Statistics Availability Delivery Http HttpServer HttpServing PeerDownloader Network Readable Downloader Controller DownloaderSafety DownloaderLiveness DownloaderData DownloaderBooks DownloaderDriving Node Swarm SwarmFacts.

(** * Connections *)

(** One that holds, and one that is refused, at a time. *)
Definition holding (now : Time) : connection := mkConnection (Some None) now now.
Definition refused (now : Time) : connection := mkConnection None now now.

Section requests.
Context {W : Type} (dst : Storage W) `{!StorageSpec dst, !StorageHealthy dst, !StorageReadable dst}.
Context {V : Type} (src : Storage V) `{!StorageSpec src, !StorageReadable src} (v : V).
Context `{GozstdLaws} `{ListCodecLaws}.
Context (xxh3 : bytes → Z).
Hypothesis xxh3_range : ∀ b, uint64_range (xxh3 b).
Context (DoW : string → io (ChunkManager * W) Z → io (ChunkManager * W) Z).
Context (DoV : string → io (ChunkManager * V) Z → io (ChunkManager * V) Z).
Hypothesis DoW_alone : ∀ key m s, DoW key m s = m s.
Hypothesis DoV_alone : ∀ key m s, DoV key m s = m s.
Context (version : Version) (error_String : error → string) (compressType : string).
Context (verifyOnComplete : bool) (peerNumConcurrent localNumConcurrent : nat).
Context (resolve : string → option address).
Hypothesis resolve_plain : ∀ host a, resolve host = Some a → "/"%char ∉ chars host.
Context (cm0 : ChunkManager).
Hypothesis Hok : manager_ok cm0.
Hypothesis Hsrc : sized src v (cm_files cm0).
Hypothesis Hsmall : (Z.of_nat (GetChunkCount cm0) < 2 ^ 63)%Z.

(** The list of a server that has everything can be encoded: its JSON has a valid time, and zstd
    does not fail on it. *)
Hypothesis list_sent : ∀ t, time_valid t → ∃ b,
  json_Marshal (mkAvailableList t true []) = Ok b ∧ is_ok (gozstd_CompressLevel b) = true.

Local Abbreviation ask := (ask xxh3 version error_String).
Local Abbreviation contact := (contact dst src xxh3 DoW DoV version error_String resolve).
Local Abbreviation node_inv := (node_inv dst src v xxh3 peerNumConcurrent localNumConcurrent cm0).
Local Abbreviation seed_inv := (seed_inv src v xxh3 cm0).
Local Abbreviation source_bytes := (source_bytes src v (cm_files cm0) (chunks cm0)).
Local Abbreviation whole := (whole src v xxh3 cm0).

Local Abbreviation swarm_inv := (swarm_inv dst src v xxh3 peerNumConcurrent localNumConcurrent cm0).

(** ** What a request leaves as it was *)

Definition node_completed (nd : node W V) : bool := mc_Completed (sy_main (nd_system nd)).
Definition node_readable (nd : node W V) : Prop :=
  st_readable dst (mc_Dst (sy_main (nd_system nd))).

(** Whoever listens there has every chunk and can read it, and is not node [n] itself. *)
Definition answering (n : nat) (s : swarm W V) (a : address) : Prop :=
  match a with
  | ANode m => m ≠ n ∧ ∃ nd, sw_nodes s !! m = Some nd ∧ node_completed nd = true ∧ node_readable nd
  | ASeed m => ∃ sv, sw_seeds s !! m = Some sv ∧ sv_Completed sv = true ∧
      st_readable src (sv_world sv)
  end.

(** While node [n] runs, the others stay as they are; at most they serve, if they can. *)
Definition kept_node (nd nd' : node W V) : Prop :=
  node_completed nd' = node_completed nd ∧ (node_completed nd = false → nd' = nd) ∧
  (node_readable nd → node_readable nd').

Definition kept_seed (sv sv' : server V) : Prop :=
  sv_Completed sv' = sv_Completed sv ∧
  (st_readable src (sv_world sv) → st_readable src (sv_world sv')).

Record undisturbed (n : nat) (s s' : swarm W V) : Prop := {
  un_length : length (sw_nodes s') = length (sw_nodes s);
  un_nodes m nd : m ≠ n → sw_nodes s !! m = Some nd →
    ∃ nd', sw_nodes s' !! m = Some nd' ∧ kept_node nd nd';
  un_seeds m sv : sw_seeds s !! m = Some sv → ∃ sv', sw_seeds s' !! m = Some sv' ∧ kept_seed sv sv'
}.

#[export] Instance kept_node_preorder : PreOrder kept_node.
Proof.
  split; [by intros nd|]. intros nd1 nd2 nd3 (Hc & He & Hr) (Hc' & He' & Hr').
  split_and!; [congruence| |auto]. intros Hcd. rewrite He' by congruence. auto.
Qed.
#[export] Instance kept_seed_preorder : PreOrder kept_seed.
Proof.
  split; [by intros sv|]. intros sv1 sv2 sv3 (Hc & Hr) (Hc' & Hr'). split; [congruence|auto].
Qed.
#[export] Instance undisturbed_preorder n : PreOrder (undisturbed n).
Proof.
  split.
  - intros s. constructor; [done|intros m nd _ ?; by exists nd|intros m sv ?; by exists sv].
  - intros s1 s2 s3 [Hl Hn Hs] [Hl' Hn' Hs']. constructor; [congruence|..].
    + intros m nd Hm Hx1. destruct (Hn m nd Hm Hx1) as (nd2 & Hx2 & ?).
      destruct (Hn' m nd2 Hm Hx2) as (nd3 & Hx3 & ?). exists nd3. split; [done|]. by etrans.
    + intros m sv Hx1. destruct (Hs m sv Hx1) as (sv2 & Hx2 & ?).
      destruct (Hs' m sv2 Hx2) as (sv3 & Hx3 & ?). exists sv3. split; [done|]. by etrans.
Qed.

Lemma undisturbed_self n nd s : undisturbed n s (set_node n nd s).
Proof.
  constructor; simpl; [by rewrite length_insert| |intros j sv ?; by exists sv].
  intros m nd0 Hm Hnd. exists nd0. by rewrite list_lookup_insert_ne.
Qed.

Lemma undisturbed_set n m nd nd' s :
  sw_nodes s !! m = Some nd → kept_node nd nd' → undisturbed n s (set_node m nd' s).
Proof.
  intros Hm Hk. constructor; simpl; [by rewrite length_insert| |intros j sv ?; by exists sv].
  intros j nd0 Hj Hnd. destruct (decide (j = m)) as [->|Hne].
  - simplify_eq. exists nd'. rewrite list_lookup_insert_eq by (by eapply lookup_lt_Some). done.
  - exists nd0. by rewrite list_lookup_insert_ne.
Qed.

Lemma undisturbed_seed n m sv sv' s :
  sw_seeds s !! m = Some sv → kept_seed sv sv' → undisturbed n s (set_seed m sv' s).
Proof.
  intros Hm Hk. constructor; simpl; [done|intros j nd _ ?; by exists nd|].
  intros j sv0 Hj. destruct (decide (j = m)) as [->|Hne].
  - simplify_eq. exists sv'. rewrite list_lookup_insert_eq by (by eapply lookup_lt_Some). done.
  - exists sv0. by rewrite list_lookup_insert_ne.
Qed.

Lemma answering_kept n s s' a : undisturbed n s s' → answering n s a → answering n s' a.
Proof.
  intros [_ Hn Hs]. destruct a as [m|m].
  - intros (Hm & nd & Hnd & Hc & Hr). split; [done|].
    destruct (Hn m nd Hm Hnd) as (nd' & ? & Hc' & _ & Hr'). exists nd'. split_and!; [done|congruence|auto].
  - intros (sv & Hsv & Hc & Hr). destruct (Hs m sv Hsv) as (sv' & ? & Hc' & Hr').
    exists sv'. split_and!; [done|congruence|auto].
Qed.

(** ** A server and a connection that holds *)

Lemma contact_answered {A} host a n now (m : ∀ X, HttpTransport (network X) → io (network X) A)
    (Q : result A → Prop) s :
  resolve host = Some a → answering n s a →
  (∀ nd k, sw_nodes s !! k = Some nd → node_completed nd = true → node_readable nd →
    "/"%char ∉ chars host →
    let '(r, sv) := ask dst DoW false host (holding now) (m W) (node_server nd) in
    st_readable dst (sv_world sv) ∧ Q r) →
  (∀ sv0 k, sw_seeds s !! k = Some sv0 → sv_Completed sv0 = true →
    st_readable src (sv_world sv0) → "/"%char ∉ chars host →
    let '(r, sv) := ask src DoV true host (holding now) (m V) sv0 in
    st_readable src (sv_world sv) ∧ sv_Completed sv = sv_Completed sv0 ∧ Q r) →
  let '(r, s') := contact host (holding now) m s in
  undisturbed n s s' ∧ sw_nodes s' !! n = sw_nodes s !! n ∧ Q r.
Proof.
  intros Hres Ha Hnode Hseed. unfold Swarm.contact. pose proof (resolve_plain _ _ Hres) as Hplain.
  rewrite Hres. destruct a as [k|k].
  - destruct Ha as (Hne & nd & Hnd & Hc & Hr). rewrite Hnd.
    specialize (Hnode nd k Hnd Hc Hr Hplain).
    destruct (Swarm.ask _ _ _ _ _ _ _ _ _ _) as [r sv]. destruct Hnode as [Hw HQ].
    split_and!; [|by apply list_lookup_insert_ne|done]. eapply undisturbed_set; [done|].
    split_and!; [done| |done]. intros Hcd. by rewrite Hc in Hcd.
  - destruct Ha as (sv0 & Hsv & Hc & Hr). rewrite Hsv. specialize (Hseed sv0 k Hsv Hc Hr Hplain).
    destruct (Swarm.ask _ _ _ _ _ _ _ _ _ _) as [r sv]. destruct Hseed as (Hw & Hcd & HQ).
    split_and!; [|done|done]. by eapply undisturbed_seed.
Qed.

Lemma ask_chunk_holding {X} (storage : Storage X) `{!StorageSpec storage, !StorageReadable storage}
    Do ServeOnly host now i d sv c b :
  (∀ key m s, Do key m s = m s) → "/"%char ∉ chars host → pd_Host d = host →
  (Z.of_nat i < 2 ^ 63)%Z → server_ok storage xxh3 ServeOnly sv →
  st_readable storage (sv_world sv) → serve_GetChunkStatus ServeOnly sv i = Ok ChunkStatusDone →
  chunks (sv_ChunkManager sv) !! i = Some c →
  chunk_bytes storage (sv_world sv) (cm_files (sv_ChunkManager sv)) (FileRanges c) = Some b →
  source_bytes i = Some b →
  let '(r, sv') := ask storage Do ServeOnly host (holding now) (λ T,
    RequestDownload (W := network X) compressType i verifyOnComplete d) sv in
  st_readable storage (sv_world sv') ∧ whole i r.
Proof.
  intros Hdo Hhost Hd Hi Hsv Hw Hst Hc Hb Hsb.
  pose proof (ask_chunk xxh3 xxh3_range version error_String compressType verifyOnComplete storage
    Do ServeOnly host (holding now) i d sv Hdo Hhost Hd Hi Hsv) as Hask.
  unfold Swarm.ask in Hask |- *.
  pose proof (RequestDownload_readable storage xxh3 Do Hdo xxh3_range version ServeOnly error_String
    host (λ _, cn_room (holding now)) (λ k, if decide (k = 0) then cn_now (holding now)
    else cn_finished (holding now)) Hhost compressType d (mkNetwork sv 0 0) i verifyOnComplete c b
    Hd Hi eq_refl Hsv Hw Hst Hc Hb) as Hpost.
  unfold post, readable_transport in Hpost.
  destruct (RequestDownload _ _ _ _ _) as [r n]. cbn [fst snd] in Hpost.
  destruct Hpost as (Hw' & checksum & rd & -> & <-), Hask as (_ & _ & _ & c' & b' & Hc' & Hb' & _ & Hx).
  cbn [nw_server] in *. simplify_eq. split; [done|].
  eexists _, _. split_and!; [done..|]. destruct verifyOnComplete; auto.
Qed.

Lemma contact_chunk_holding n a now i d s :
  swarm_inv s → resolve (pd_Host d) = Some a → answering n s a → i < GetChunkCount cm0 →
  let '(r, s') := contact (pd_Host d) (holding now) (λ X T,
    RequestDownload (W := network X) compressType i verifyOnComplete d) s in
  undisturbed n s s' ∧ sw_nodes s' !! n = sw_nodes s !! n ∧ whole i r.
Proof.
  intros Hs Hres Ha Hi. destruct (lookup_lt_is_Some_2 _ _ Hi) as [c0 Hc0].
  assert (Z.of_nat i < 2 ^ 63)%Z as Hi' by lia.
  assert (∀ cm, meta_ok cm0 cm → ∃ c, chunks cm !! i = Some c) as Hlk.
  { intros cm Hm. apply lookup_lt_is_Some_2. pose proof (meta_count _ _ Hm). unfold GetChunkCount in *.
    lia. }
  eapply contact_answered; [done..| |].
  - intros nd k Hk Hcd Hr Hplain.
    pose proof (swarm_inv_node _ _ _ _ _ _ _ _ _ _ Hs Hk) as Hnd.
    pose proof (ni_system _ _ _ _ _ _ _ _ Hnd) as Hsys.
    pose proof (node_inv_meta _ _ _ _ _ _ _ _ Hnd) as Hm.
    destruct (Hlk _ Hm) as [c Hc].
    destruct (source_chunk_some src v cm0 Hok Hsrc _ _ _ Hm Hc) as (_ & _ & [b Hb]).
    assert (serve_GetChunkStatus false (node_server nd) i = Ok ChunkStatusDone) as Hst
      by (unfold serve_GetChunkStatus; cbn; unfold node_completed in Hcd; by rewrite Hcd).
    apply (ask_chunk_holding dst DoW false (pd_Host d) now i d (node_server nd) c b DoW_alone); try done.
    + by apply (node_server_ok dst src v xxh3 cm0).
    + rewrite <- Hb. by apply (node_serves dst src v xxh3 cm0).
  - intros sv0 k Hk Hcd Hr Hplain. destruct Hs as [_ Hss].
    pose proof (proj1 (Forall_lookup _ _) Hss _ _ Hk) as Hsv. pose proof Hsv as [Hm _ Hv].
    destruct (Hlk _ Hm) as [c Hc].
    destruct (source_chunk_some src v cm0 Hok Hsrc _ _ _ Hm Hc) as (_ & _ & [b Hb]).
    pose proof (seed_server_ok src v xxh3 cm0 Hok Hsrc Hsmall _ Hsv) as Hsok.
    pose proof (ask_chunk_holding src DoV true (pd_Host d) now i d sv0 c b DoV_alone Hplain eq_refl Hi'
      Hsok Hr eq_refl Hc ltac:(rewrite <- Hb; by apply source_chunk_bytes) Hb) as Hask.
    pose proof (ask_chunk xxh3 xxh3_range version error_String compressType verifyOnComplete src DoV
      true (pd_Host d) (holding now) i d sv0 DoV_alone Hplain eq_refl Hi' Hsok) as Hsd.
    destruct (Swarm.ask _ _ _ _ _ _ _ _ _ _) as [r sv]. destruct Hsd as (_ & Hsd & _).
    split_and!; [apply Hask|apply Hsd|apply Hask].
Qed.

Lemma contact_list_holding n a now choice cm d s :
  time_valid now → resolve (pd_Host d) = Some a → answering n s a →
  let '(r, s') := contact (pd_Host d) (holding now) (λ X T,
    UpdatePeerAvailableList (W := network X) compressType choice cm d) s in
  undisturbed n s s' ∧ sw_nodes s' !! n = sw_nodes s !! n ∧
  r = receiveAvailableList choice cm (mkAvailableList now true []) d.
Proof.
  intros Hnow Hres Ha. destruct (list_sent now Hnow) as (b & Hb & Hz).
  assert (∀ X (storage : Storage X) `{!StorageSpec storage, !StorageReadable storage} Do ServeOnly sv,
    "/"%char ∉ chars (pd_Host d) → sv_Completed sv = true →
    let '(r, sv') := ask storage Do ServeOnly (pd_Host d) (holding now) (λ T,
      UpdatePeerAvailableList (W := network X) compressType choice cm d) sv in
    sv_world sv' = sv_world sv ∧ sv_Completed sv' = true ∧
    r = receiveAvailableList choice cm (mkAvailableList now true []) d) as Hask.
  { intros X storage ?? Do ServeOnly sv Hplain Hcd. unfold Swarm.ask.
    edestruct (UpdatePeerAvailableList_readable storage xxh3 Do version ServeOnly error_String
      (pd_Host d) (λ _, cn_room (holding now)) (λ k, if decide (k = 0) then cn_now (holding now)
      else cn_finished (holding now)) Hplain compressType choice cm d (mkNetwork sv 0 0) b)
      as (n' & Hrun & Hw & Hc); try done.
    unfold readable_transport in Hrun. by rewrite Hrun. }
  apply (contact_answered _ a); [done..| |].
  - intros nd k _ Hcd Hr Hplain. specialize (Hask W dst _ _ DoW false (node_server nd) Hplain Hcd).
    destruct (Swarm.ask _ _ _ _ _ _ _ _ _ _) as [r sv]. by destruct Hask as (-> & _ & ->).
  - intros sv0 k _ Hcd Hr Hplain. specialize (Hask V src _ _ DoV true sv0 Hplain Hcd).
    destruct (Swarm.ask _ _ _ _ _ _ _ _ _ _) as [r sv]. rewrite Hcd.
    by destruct Hask as (-> & -> & ->).
Qed.

(** ** Nobody listens *)

Lemma contact_refused {A} host now (m : ∀ X, HttpTransport (network X) → io (network X) A) s :
  (∀ X (T : HttpTransport (network X)) n, (∀ rq, ∃ e n', http_Do rq n = (Err e, n') ∧
    nw_server n' = nw_server n) → ∃ e n', m X T n = (Err e, n') ∧ nw_server n' = nw_server n) →
  ∃ e, contact host (refused now) m s = (Err e, s).
Proof.
  intros Hm. unfold Swarm.contact.
  assert (∀ X (storage : Storage X) Do ServeOnly sv, ∃ e,
    ask storage Do ServeOnly host (refused now) (m X) sv = (Err e, sv)) as Hask.
  { intros X storage Do ServeOnly sv. unfold Swarm.ask.
    edestruct (Hm X (peer_transport storage xxh3 Do version ServeOnly error_String host
      (λ _, cn_room (refused now)) (λ k, if decide (k = 0) then cn_now (refused now)
      else cn_finished (refused now))) (mkNetwork sv 0 0)) as (e & n' & -> & Hn).
    { intros rq. by eexists _, _. }
    exists e. by rewrite Hn. }
  destruct (resolve host) as [[n|n]|]; [| |by eexists].
  - destruct (sw_nodes s !! n) as [nd|] eqn:Hn; [|by eexists].
    destruct (Hask W dst DoW false (node_server nd)) as [e ->]. exists e. f_equal.
    assert (node_served (node_server nd) nd = nd) as -> by (by destruct nd as [[[] ??] ???]).
    unfold set_node. rewrite list_insert_id by done. by destruct s.
  - destruct (sw_seeds s !! n) as [sv|] eqn:Hn; [|by eexists].
    destruct (Hask V src DoV true sv) as [e ->]. exists e. f_equal.
    unfold set_seed. rewrite list_insert_id by done. by destruct s.
Qed.

Lemma RequestDownload_refused {X} (T : HttpTransport (network X)) i d n :
  (∀ rq, ∃ e n', http_Do rq n = (Err e, n') ∧ nw_server n' = nw_server n) →
  ∃ e n', RequestDownload compressType i verifyOnComplete d n = (Err e, n') ∧
    nw_server n' = nw_server n.
Proof.
  intros Hdo. rewrite RequestDownload_unfold, io_bind_unfold. unfold request. rewrite io_bind_unfold.
  destruct (Hdo (build_request ("http://" +:+ pd_Host d +:+ String "/" ("chunk/" +:+ FormatInt (Z.of_nat i)))
    (apply_options (download_options compressType verifyOnComplete) default_config)))
    as (e & n' & -> & ?). by eexists _, _.
Qed.

(** ** A source of one's own *)

Local Abbreviation local_download := (local_download src xxh3 DoV verifyOnComplete).

Lemma local_download_readable cm w i :
  meta_ok cm0 cm → sums_ok src v xxh3 cm0 cm → same_view src v w →
  is_Some (chunks cm !! i) → st_readable src w →
  post (local_download i) (cm, w) (λ r '(_, w'), st_readable src w' ∧ whole i r).
Proof.
  intros Hm Hs Hv Hsome Hw.
  pose proof (local_download_spec src v xxh3 DoV DoV_alone verifyOnComplete cm0 Hok Hsrc cm w i
    Hm Hs Hv Hsome) as Hspec.
  destruct Hsome as [c Hc]. destruct (source_chunk_some src v cm0 Hok Hsrc _ _ _ Hm Hc)
    as (Hro & _ & [b Hb]).
  pose proof (source_chunk_bytes src v cm0 _ _ _ _ Hm Hv Hc) as Hcb. rewrite Hb in Hcb.
  assert (∃ checksum cm' w', local_download i (cm, w) = (Ok (checksum, mkReader b [] None), (cm', w')) ∧
    st_readable src w') as (checksum & cm' & w' & Hrun & Hw').
  { clear Hspec.
    destruct (LocalDownloader_RequestDownload_readable src xxh3 DoV DoV_alone i c cm w b
      verifyOnComplete Hc (sums_ok_checksums src v xxh3 cm0 _ _ Hm Hs Hv) Hro Hcb Hw)
      as (x & cm1 & w1 & Hreq & Hv1 & Hw1 & Hch & Hman).
    assert (cm_files cm1 = cm_files cm) as Hf by (unfold cm_files; by rewrite Hman).
    unfold Swarm.local_download. rewrite Hreq, Hch, Hc. cbv zeta.
    destruct (read_chunk_readable src cm1 i c w1 b) as (w2 & -> & _ & Hw2);
      [by rewrite Hch|by rewrite Hf|by rewrite Hf, <- Hv1|done|]. by eexists _, _, _. }
  unfold post in Hspec |- *. rewrite Hrun in *. cbn [fst snd] in *.
  destruct Hspec as (_ & _ & _ & _ & Hsum & _). split; [done|].
  eexists _, _. split_and!; [done|done|]. simpl.
  destruct (decide (checksum = 0%Z)) as [|Hnz]; [by left|right].
  destruct (Hsum Hnz) as (b' & Hb' & ->). by simplify_eq.
Qed.
End requests.
