(* ===== verification/SwarmCompletion.v ===== *)
(** The swarm can always complete: from every state that its nodes and seeds can reach, they can
    go on until every node has every file, if each of them can reach a server that has. *)
From S2P Require Import Prelude Bytes GoStrings Types Storage ChunkBuilder ChunkManager ChunkTransfer ChunkQueue Statistics Availability Delivery Http HttpServer HttpServing PeerDownloader Network Readable Downloader Controller DownloaderSafety DownloaderLiveness DownloaderData DownloaderBooks DownloaderDriving Node Swarm SwarmFacts SwarmRequests.

(** What is asked for in a run that completes: steps of the goroutines of the downloads, and
    requests over connections that hold or are refused, at one time of the clock. Peers that
    come or go, signals and idle timers are not needed. *)
Definition driving (now : Time) (e : swarm_event) : Prop :=
  match e with
  | SwEvent _ e => ∃ k, thread_event k e = true
  | SwChunk _ _ _ c | SwList _ _ _ c => c = holding now ∨ c = refused now
  | SwLocal _ _ _ => True
  end.

Lemma driving_clock now e : time_valid now → driving now e → clock_ok e.
Proof. intros Hnow. by destruct e as [| | |n k choice c]; simpl; [..|intros [-> | ->]]. Qed.

Section driving.
Context {W : Type} (dst : Storage W) `{!StorageSpec dst, !StorageHealthy dst, !StorageReadable dst}.
Context {V : Type} (src : Storage V) `{!StorageSpec src, !StorageReadable src} (v : V).
Context `{GozstdLaws} `{ListCodecLaws}.
Context (xxh3 : bytes → Z) (onFileComplete : string → Z → io W unit).
Hypothesis xxh3_range : ∀ b, uint64_range (xxh3 b).
Hypothesis onFileComplete_ok : ∀ p s w,
  (onFileComplete p s w).1 = Ok () ∧ same_view dst w (onFileComplete p s w).2.
Hypothesis onFileComplete_healthy : ∀ p s w,
  st_healthy dst w → st_healthy dst (onFileComplete p s w).2.
Context (DoW : string → io (ChunkManager * W) Z → io (ChunkManager * W) Z).
Context (DoV : string → io (ChunkManager * V) Z → io (ChunkManager * V) Z).
Hypothesis DoW_alone : ∀ key m s, DoW key m s = m s.
Hypothesis DoV_alone : ∀ key m s, DoV key m s = m s.
Context (version : Version) (error_String : error → string) (compressType : string).
Context (verifyOnComplete : bool) (peerNumConcurrent localNumConcurrent : nat).
Context (transferIdleTimeout : Duration).
Hypothesis Hpeer : (0 < Z.of_nat peerNumConcurrent < 2 ^ 31)%Z.
Hypothesis Hlocal : (0 < Z.of_nat localNumConcurrent < 2 ^ 31)%Z.
Context (resolve : string → option address).
Hypothesis resolve_plain : ∀ host a, resolve host = Some a → "/"%char ∉ chars host.
Context (cm0 : ChunkManager).
Hypothesis Hok : manager_ok cm0.
Hypothesis Hsrc : sized src v (cm_files cm0).
Hypothesis Hsmall : (Z.of_nat (GetChunkCount cm0) < 2 ^ 63)%Z.
Hypothesis list_sent : ∀ t, time_valid t → ∃ b,
  json_Marshal (mkAvailableList t true []) = Ok b ∧ is_ok (gozstd_CompressLevel b) = true.
Context (now : Time).
Hypothesis Hnow : time_valid now.

Local Abbreviation run_event := (run_event dst xxh3 onFileComplete verifyOnComplete
  peerNumConcurrent localNumConcurrent transferIdleTimeout).
Local Abbreviation contact := (contact dst src xxh3 DoW DoV version error_String resolve).
Local Abbreviation swarm_step := (swarm_step dst src xxh3 onFileComplete DoW DoV version
  error_String compressType verifyOnComplete peerNumConcurrent localNumConcurrent
  transferIdleTimeout resolve).
Local Abbreviation swarm_run := (swarm_run dst src xxh3 onFileComplete DoW DoV version
  error_String compressType verifyOnComplete peerNumConcurrent localNumConcurrent
  transferIdleTimeout resolve).
Local Abbreviation node_inv := (node_inv dst src v xxh3 peerNumConcurrent localNumConcurrent cm0).
Local Abbreviation swarm_inv := (swarm_inv dst src v xxh3 peerNumConcurrent localNumConcurrent cm0).
Local Abbreviation good := (good dst src v xxh3 cm0 peerNumConcurrent localNumConcurrent).
Local Abbreviation whole := (whole src v xxh3 cm0).
Local Abbreviation chunk_answer := (chunk_answer src v xxh3 cm0).
Local Abbreviation undisturbed := (undisturbed dst src).
Local Abbreviation answering := (answering dst src).

Definition node_healthy (nd : node W V) : Prop := st_healthy dst (mc_Dst (sy_main (nd_system nd))).

Lemma node_good nd : node_inv nd → node_healthy nd → good (nd_system nd).
Proof. intros [[] ? ? _ _] ?. by constructor. Qed.

(** * One node

    Node [n] runs in a swarm that was in state [s0]; [d0] was its downloader [k0] then. *)

Section node.
Context (n k0 : nat) (s0 : swarm W V) (d0 : Downloader).
Hypothesis Hd0 : ∀ d, d0 = DPeer d → ∃ a, resolve (pd_Host d) = Some a ∧ answering n s0 a.

Definition source_open (nd : node W V) : Prop :=
  ∀ ld, d0 = DLocal ld → ∃ w, nd_Src nd = Some w ∧ st_readable src w.

Record driven_node (nd : node W V) : Prop := {
  dn_healthy : node_healthy nd;
  dn_exec : ∃ ex, sy_execs (nd_system nd) !! k0 = Some ex ∧ same_peer d0 (ex_downloader ex);
  dn_source : source_open nd
}.

Record driven (t : swarm W V) : Prop := {
  dr_inv : swarm_inv t;
  dr_others : undisturbed n s0 t;
  dr_node : ∃ nd, sw_nodes t !! n = Some nd ∧ driven_node nd
}.

Definition drives (t t' : swarm W V) : Prop := ∃ e, driving now e ∧ swarm_step e t = Some t'.

(** ** Events *)

Lemma same_peer_trans d1 d2 d3 : same_peer d1 d2 → same_peer d2 d3 → same_peer d1 d3.
Proof.
  destruct d1, d2, d3; try done. intros (Hh & Hs & Hu) (Hh' & Hs' & Hu').
  split_and!; [congruence|auto..].
Qed.

Lemma event_driven e nd sys :
  node_inv nd → driven_node nd → event_ok src v xxh3 cm0 e (nd_system nd) → event_call e = None →
  run_event e (nd_system nd) = Some sys → driven_node (set_system sys nd).
Proof.
  intros Hnd [Hw (ex & Hk & Hd) Hs] He Hc Hrun. constructor; [| |done].
  - eapply run_event_healthy; [done..|exact Hrun|by apply node_good].
  - apply run_event_other in Hrun as [_ Hex]; [|done].
    destruct (Forall2_lookup_l _ _ _ _ _ Hex Hk) as (ex' & Hk' & Hsame). exists ex'.
    split; [done|]. by eapply same_peer_trans.
Qed.

Lemma set_driven t nd nd' :
  driven t → sw_nodes t !! n = Some nd → node_inv nd' → driven_node nd' → driven (set_node n nd' t).
Proof.
  intros [Hinv Hother _] Hn Hnd Hd. constructor.
  - by apply swarm_inv_set.
  - etrans; [exact Hother|apply undisturbed_self].
  - exists nd'. simpl. by rewrite list_lookup_insert_eq by (by eapply lookup_lt_Some).
Qed.

Lemma node_event_driven e t nd sys :
  driven t → sw_nodes t !! n = Some nd → event_ok src v xxh3 cm0 e (nd_system nd) →
  event_extra src v xxh3 cm0 e (nd_system nd) → event_call e = None →
  run_event e (nd_system nd) = Some sys →
  node_event dst xxh3 onFileComplete verifyOnComplete peerNumConcurrent localNumConcurrent
    transferIdleTimeout e n t = Some (set_node n (set_system sys nd) t) ∧
  driven (set_node n (set_system sys nd) t).
Proof.
  intros Ht Hn He Hx Hc Hrun. pose proof (swarm_inv_node _ _ _ _ _ _ _ _ _ _ (dr_inv _ Ht) Hn) as Hnd.
  destruct (dr_node _ Ht) as (nd' & Hn' & Hd). simplify_eq. split.
  - unfold node_event. rewrite Hn. simpl. by rewrite Hrun.
  - eapply set_driven; [done..| |by eapply event_driven].
    eapply run_event_node; [exact onFileComplete_ok|exact Hok|exact Hsrc|exact Hsmall|done..].
Qed.

Lemma answer_driven k j ex i t0 r t nd :
  driven t → sw_nodes t !! n = Some nd → sy_execs (nd_system nd) !! k = Some ex →
  ex_workers ex !! j = Some (WRequest i t0) → chunk_answer i r →
  ∃ sys, run_event (EvWorker k j (Response r)) (nd_system nd) = Some sys ∧
    node_event dst xxh3 onFileComplete verifyOnComplete peerNumConcurrent localNumConcurrent
      transferIdleTimeout (EvWorker k j (Response r)) n t = Some (set_node n (set_system sys nd) t) ∧
    driven (set_node n (set_system sys nd) t).
Proof.
  intros Ht Hn Hk Hj Hr. pose proof (swarm_inv_node _ _ _ _ _ _ _ _ _ _ (dr_inv _ Ht) Hn) as Hnd.
  destruct (run_event (EvWorker k j (Response r)) (nd_system nd)) as [sys|] eqn:Hrun.
  2: { unfold Downloader.run_event, with_exec in Hrun.
    rewrite (da_panicked _ _ _ _ _ _ (node_inv_data _ _ _ _ _ _ _ _ Hnd)), Hk in Hrun.
    simpl in Hrun. rewrite Hj in Hrun. by destruct r as [[? ?]|?|?]. }
  exists sys. split; [done|].
  destruct (response_ok src v xxh3 cm0 k j i r nd ex t0 Hk Hj Hr). by apply node_event_driven.
Qed.

(** ** The environment of its goroutines *)

Context (sys0 : system W).
Definition the_system (t : swarm W V) : system W :=
  match sw_nodes t !! n with Some nd => nd_system nd | None => sys0 end.

Lemma the_system_node t nd : sw_nodes t !! n = Some nd → the_system t = nd_system nd.
Proof. unfold the_system. by intros ->. Qed.

Lemma the_system_set t nd nd' :
  sw_nodes t !! n = Some nd → the_system (set_node n nd' t) = nd_system nd'.
Proof.
  intros Hn. unfold the_system. simpl. by rewrite list_lookup_insert_eq by (by eapply lookup_lt_Some).
Qed.

(** A worker's request over the network, and what it gets. *)
Definition answered (k j i : nat) (t : swarm W V) : Prop :=
  ∃ t' s1 r, drives t t' ∧ driven t' ∧ quiet (the_system t) s1 ∧ calm r ∧ (k = k0 → whole i r) ∧
    run_event (EvWorker k j (Response r)) s1 = Some (the_system t').

Lemma answered_step e k j ex i t0 t t1 nd nd1 r :
  driving now e → driven t1 → sw_nodes t !! n = Some nd → sw_nodes t1 !! n = Some nd1 →
  quiet (nd_system nd) (nd_system nd1) →
  sy_execs (nd_system nd) !! k = Some ex → ex_workers ex !! j = Some (WRequest i t0) →
  chunk_answer i r → (k = k0 → whole i r) →
  swarm_step e t = node_event dst xxh3 onFileComplete verifyOnComplete peerNumConcurrent
    localNumConcurrent transferIdleTimeout (EvWorker k j (Response r)) n t1 → answered k j i t.
Proof.
  intros He Ht1 Hn Hn1 Hq Hk Hj Hr Hw Hstep.
  destruct (answer_driven k j ex i t0 r t1 nd1) as (sys & Hrun & Hev & Hd); try done.
  { by rewrite (qu_execs _ _ Hq). }
  exists (set_node n (set_system sys nd1) t1), (nd_system nd1), r. split_and!; try done.
  - exists e. by rewrite Hstep.
  - by rewrite (the_system_node _ _ Hn).
  - intros msg ->. done.
  - by rewrite (the_system_set _ _ _ Hn1).
Qed.

Lemma peer_answered k j ex i t0 t nd d :
  driven t → sw_nodes t !! n = Some nd → sy_execs (nd_system nd) !! k = Some ex →
  ex_workers ex !! j = Some (WRequest i t0) → ex_downloader ex = DPeer d → answered k j i t.
Proof.
  intros Ht Hn Hk Hj Hd. pose proof (dr_inv _ Ht) as Hinv.
  assert (requesting n k j t = Some (DPeer d, i)) as Hreq.
  { unfold requesting. rewrite Hn. simpl. rewrite Hk. simpl. rewrite Hj. simpl. by rewrite Hd. }
  destruct (requesting_chunk dst src v xxh3 peerNumConcurrent localNumConcurrent cm0 Hsmall _ _ _ _ _ _
    Hinv Hreq) as (nd1 & _ & _ & Hn1 & _ & _ & _ & Hsome & Hi). simplify_eq.
  assert (∀ c, swarm_step (SwChunk n k j c) t =
    let '(r, s) := contact (pd_Host d) c (λ X T,
      RequestDownload (W := network X) compressType i verifyOnComplete d) t in
    node_event dst xxh3 onFileComplete verifyOnComplete peerNumConcurrent localNumConcurrent
      transferIdleTimeout (EvWorker k j (Response r)) n s) as Hstep.
  { intros c. cbn [Swarm.swarm_step]. by rewrite Hreq. }
  destruct (decide (k = k0)) as [->|Hne].
  - specialize (Hstep (holding now)). destruct (dr_node _ Ht) as (nd' & Hn' & [_ (ex' & Hk' & Hsame) _]).
    simplify_eq. rewrite Hd in Hsame. destruct d0 as [d1|] eqn:Ed; [|done]. destruct Hsame as [Hh _].
    destruct (Hd0 d1 eq_refl) as (a & Hres & Ha). rewrite <- Hh in Hres.
    pose proof (contact_chunk dst src v xxh3 xxh3_range DoW DoV DoW_alone DoV_alone version
      error_String compressType verifyOnComplete peerNumConcurrent localNumConcurrent resolve
      resolve_plain cm0 Hok Hsrc Hsmall (holding now) i d t Hinv Hi) as Hc.
    pose proof (contact_chunk_holding dst src v xxh3 xxh3_range DoW DoV DoW_alone DoV_alone version
      error_String compressType verifyOnComplete peerNumConcurrent localNumConcurrent resolve
      resolve_plain cm0 Hok Hsrc Hsmall n a now i d t Hinv Hres) as Hc'.
    destruct (Swarm.contact _ _ _ _ _ _ _ _ _ _ _ _) as [r t1]. destruct Hc as (Hinv1 & _ & Hr).
    destruct Hc' as (Hun & Hsame & Hw).
    { eapply answering_kept; [apply (dr_others _ Ht)|done]. }
    { apply lookup_lt_is_Some in Hsome. pose proof (swarm_inv_node _ _ _ _ _ _ _ _ _ _ Hinv Hn) as Hnd.
      by rewrite <- (meta_count _ _ (node_inv_meta _ _ _ _ _ _ _ _ Hnd)). }
    eapply (answered_step (SwChunk n k0 j (holding now)) k0 j ex i t0 t t1 nd nd r); try done; [by left|..].
    + constructor; [done|etrans; [apply (dr_others _ Ht)|done]|rewrite Hsame; apply (dr_node _ Ht)].
    + by rewrite Hsame.
  - specialize (Hstep (refused now)).
    destruct (contact_refused dst src xxh3 DoW DoV version error_String resolve (pd_Host d) now
      (λ X T, RequestDownload (W := network X) compressType i verifyOnComplete d) t) as [e He].
    { intros X T n'. apply RequestDownload_refused. }
    rewrite He in Hstep.
    apply (answered_step (SwChunk n k j (refused now)) k j ex i t0 t t nd nd (Err e)); try done.
    by right.
Qed.

Lemma local_answered k j ex i t0 t nd ld :
  driven t → sw_nodes t !! n = Some nd → sy_execs (nd_system nd) !! k = Some ex →
  ex_workers ex !! j = Some (WRequest i t0) → ex_downloader ex = DLocal ld → answered k j i t.
Proof.
  intros Ht Hn Hk Hj Hd. pose proof (dr_inv _ Ht) as Hinv.
  pose proof (swarm_inv_node _ _ _ _ _ _ _ _ _ _ Hinv Hn) as Hnd.
  destruct (ni_local _ _ _ _ _ _ _ _ Hnd k ex ld Hk Hd) as [w Hw].
  assert (requesting n k j t = Some (DLocal ld, i)) as Hreq.
  { unfold requesting. rewrite Hn. simpl. rewrite Hk. simpl. rewrite Hj. simpl. by rewrite Hd. }
  destruct (requesting_chunk dst src v xxh3 peerNumConcurrent localNumConcurrent cm0 Hsmall _ _ _ _ _ _
    Hinv Hreq) as (nd1 & _ & _ & Hn1 & _ & _ & _ & Hsome & Hi). simplify_eq.
  pose proof (ni_system _ _ _ _ _ _ _ _ Hnd) as [_ Hdata Hsum _].
  pose proof (da_meta _ _ _ _ _ _ Hdata) as Hm. pose proof (ni_source _ _ _ _ _ _ _ _ Hnd w Hw) as Hv.
  pose proof (local_download_spec src v xxh3 DoV DoV_alone verifyOnComplete cm0 Hok Hsrc _ w i
    Hm Hsum Hv Hsome) as Hl.
  pose proof (local_download_readable src v xxh3 DoV DoV_alone verifyOnComplete cm0 Hok Hsrc _ w i
    Hm Hsum Hv Hsome) as Hread.
  assert (swarm_step (SwLocal n k j) t =
    let '(r, (cm, v)) := local_download src xxh3 DoV verifyOnComplete i
      (mc_ChunkManager (sy_main (nd_system nd)), w) in
    node_event dst xxh3 onFileComplete verifyOnComplete peerNumConcurrent localNumConcurrent
      transferIdleTimeout (EvWorker k j (Response r)) n (set_node n (node_read cm v nd) t)) as Hstep.
  { cbn [Swarm.swarm_step]. rewrite Hreq. simpl. rewrite Hn. simpl. by rewrite Hw. }
  destruct (dr_node _ Ht) as (nd' & Hn' & Hdn). simplify_eq.
  unfold post in Hl, Hread.
  destruct (local_download _ _ _ _ _ _) as [r [cm' w']]. cbn [fst snd] in Hl, Hread.
  destruct Hl as (Hm' & Hsum' & Hv' & Hch & Hr).
  assert (∀ ld', d0 = DLocal ld' → st_readable src w' ∧ whole i r) as Hopen.
  { intros ld' E. destruct (dn_source _ Hdn ld' E) as (w0 & Hw0 & Hrd). simplify_eq. by apply Hread. }
  assert (driven (set_node n (node_read cm' w' nd) t)) as Ht1.
  { apply (set_driven t nd); [done..|by apply node_inv_read|]. destruct Hdn as [Hh Hex Hs].
    constructor; [done|done|]. intros ld' E. exists w'. by destruct (Hopen ld' E). }
  apply (answered_step (SwLocal n k j) k j ex i t0 t (set_node n (node_read cm' w' nd) t) nd
    (node_read cm' w' nd) r); try done.
  - simpl. by rewrite list_lookup_insert_eq by (by eapply lookup_lt_Some).
  - intros ->. destruct (dn_exec _ Hdn) as (ex' & Hk' & Hsame). simplify_eq. rewrite Hd in Hsame.
    destruct d0 as [|ld'] eqn:Ed; [done|]. by destruct (Hopen ld' eq_refl).
Qed.

Lemma swarm_environment :
  environment dst src v xxh3 onFileComplete cm0 verifyOnComplete peerNumConcurrent
    localNumConcurrent transferIdleTimeout the_system driven drives k0.
Proof.
  constructor.
  - intros t [Hinv _ (nd & Hn & Hd)]. rewrite (the_system_node _ _ Hn).
    apply node_good; [by eapply swarm_inv_node|apply Hd].
  - intros e k t s1 Ht Hk He Hrun. destruct (dr_node _ Ht) as (nd & Hn & Hd).
    rewrite (the_system_node _ _ Hn) in Hrun.
    assert (own_event e = true ∧ event_call e = None) as [Ho Hc]
      by (by destruct e as [|? ? []| | | | | | | | |]).
    destruct (own_event_ok src v xxh3 cm0 e (nd_system nd) Ho) as [Hev Hx].
    destruct (node_event_driven e t nd s1) as [Hstep Hd']; [done..|].
    eexists. split_and!; [|exact Hd'|by rewrite (the_system_set _ _ _ Hn)].
    exists (SwEvent n e). split; [by exists k|]. cbn [Swarm.swarm_step]. by rewrite Ho.
  - intros t k j ex i t0 Ht Hk Hj. destruct (dr_node _ Ht) as (nd & Hn & _).
    rewrite (the_system_node _ _ Hn) in Hk. destruct (ex_downloader ex) eqn:Hd.
    + by eapply peer_answered.
    + by eapply local_answered.
Qed.

(** ** Learning what the source has *)

Lemma node_pd_ok nd k ex d :
  node_inv nd → sy_execs (nd_system nd) !! k = Some ex → ex_downloader ex = DPeer d →
  pd_ok (mc_ChunkManager (sy_main (nd_system nd))) d.
Proof.
  intros Hnd Hk Hd. pose proof (ni_system _ _ _ _ _ _ _ _ Hnd) as [Hsys _ _ Hex].
  pose proof (proj1 (Forall_lookup _ _) Hex _ _ Hk) as [Hs _]. rewrite Hd in Hs. destruct Hs as [_ Hs].
  pose proof (ei_avail _ _ (proj1 (Forall_lookup _ _) (si_execs _ Hsys) _ _ Hk) d Hd) as Hl.
  split; [exact Hl|]. intros i Hi. rewrite <- Hl in Hi.
  destruct (lookup_lt_is_Some_2 _ _ Hi) as [z Hz]. rewrite Hz.
  destruct (proj1 (Forall_lookup _ _) Hs _ _ Hz) as [-> | ->]; auto.
Qed.

Lemma learns t nd ex d :
  driven t → sw_nodes t !! n = Some nd → sy_execs (nd_system nd) !! k0 = Some ex →
  ex_downloader ex = DPeer d → updating d = true →
  ∃ t' nd' ex' d', drives t t' ∧ driven t' ∧ sw_nodes t' !! n = Some nd' ∧
    mc_ctx_done (sy_main (nd_system nd')) = mc_ctx_done (sy_main (nd_system nd)) ∧
    sy_execs (nd_system nd') !! k0 = Some ex' ∧ ex_downloader ex' = DPeer d' ∧
    IsSelf d' = IsSelf d ∧
    ∀ i, i < GetChunkCount cm0 → announced (GetChunkCount cm0) (DPeer d') i = true.
Proof.
  intros Ht Hn Hk Hd Hup. pose proof (dr_inv _ Ht) as Hinv.
  pose proof (swarm_inv_node _ _ _ _ _ _ _ _ _ _ Hinv Hn) as Hnd.
  pose proof (node_inv_data _ _ _ _ _ _ _ _ Hnd) as Hdata.
  pose proof (meta_count _ _ (da_meta _ _ _ _ _ _ Hdata)) as Hcount.
  set (cm := mc_ChunkManager (sy_main (nd_system nd))) in *.
  assert (pd_ok cm d) as Hpd by (by eapply node_pd_ok).
  set (al := mkAvailableList now true []).
  destruct (receiveAvailableList_spec id cm al d Hpd)
    as (d' & new & Hrecv & _ & _ & _ & Hann & _ & Hself & _).
  { apply Forall_forall. intros z (i & -> & Hi%elem_of_seq)%list_elem_of_fmap. lia. }
  destruct (dr_node _ Ht) as (nd0 & Hn0 & [Hh (ex0 & Hk0 & Hsame) Hsrcs]). simplify_eq.
  assert (∃ a, resolve (pd_Host d) = Some a ∧ answering n t a) as (a & Hres & Ha).
  { rewrite Hd in Hsame. destruct d0 as [d1|] eqn:Ed; [|done]. destruct Hsame as [-> _].
    destruct (Hd0 d1 eq_refl) as (a & ? & Ha). exists a. split; [done|].
    eapply answering_kept; [apply (dr_others _ Ht)|done]. }
  pose proof (contact_list_holding dst src xxh3 DoW DoV version error_String compressType
    resolve resolve_plain list_sent n a now id cm d t Hnow Hres Ha) as Hc.
  set (sys := mkSystem (sy_main (nd_system nd)) (<[k0 := set_downloader (DPeer d') ex]>
    (sy_execs (nd_system nd))) (sy_downloaders (nd_system nd))).
  assert (∃ t1, swarm_step (SwList n k0 id (holding now)) t = Some (set_node n (set_system sys nd) t1) ∧
    undisturbed n t t1 ∧ sw_nodes t1 !! n = Some nd) as (t1 & Hstep & Hun & Hn1).
  { cbn [Swarm.swarm_step]. rewrite Hn. simpl. rewrite Hk. simpl. rewrite Hd. fold cm.
    destruct (Swarm.contact _ _ _ _ _ _ _ _ _ _ _ _) as [r t1]. destruct Hc as (Hun & Hn1 & ->).
    exists t1. fold al. rewrite Hrecv, Hn1, Hn. simpl. rewrite (da_panicked _ _ _ _ _ _ Hdata).
    split; [|done]. unfold with_peer, with_exec. rewrite Hk. simpl. rewrite Hd, Hup. done. }
  exists (set_node n (set_system sys nd) t1), (set_system sys nd), (set_downloader (DPeer d') ex), d'.
  assert (sw_nodes (set_node n (set_system sys nd) t1) !! n = Some (set_system sys nd)) as Hn'
    by (simpl; by rewrite list_lookup_insert_eq by (by eapply lookup_lt_Some)).
  assert (sy_execs (nd_system (set_system sys nd)) !! k0 = Some (set_downloader (DPeer d') ex)) as Hk'
    by (simpl; by rewrite list_lookup_insert_eq by (by eapply lookup_lt_Some)).
  split_and!; try done.
  - eexists. split; [|exact Hstep]. by left.
  - constructor.
    + eapply swarm_step_inv; [..|exact Hinv|exact Hstep]; done.
    + etrans; [apply (dr_others _ Ht)|]. etrans; [exact Hun|apply undisturbed_self].
    + exists (set_system sys nd). split; [done|]. constructor; [done| |done].
      exists (set_downloader (DPeer d') ex). split; [done|]. rewrite Hd in Hsame.
      eapply same_peer_trans; [exact Hsame|]. by eapply receive_same_peer.
  - intros i Hi. change (announced 0 (DPeer d') i = true). apply Hann. right.
    apply list_elem_of_fmap. exists i. split; [done|]. apply elem_of_seq. lia.
Qed.

(** ** The node completes *)

Lemma node_completes t nd ex :
  driven t → sw_nodes t !! n = Some nd → mc_ctx_done (sy_main (nd_system nd)) = false →
  sy_execs (nd_system nd) !! k0 = Some ex → IsValid (ex_downloader ex) = true →
  (∀ d, ex_downloader ex = DPeer d → updating d = true ∨
    ∀ i, i < GetChunkCount cm0 → announced (GetChunkCount cm0) (DPeer d) i = true) →
  ∃ t' nd', rtc drives t t' ∧ driven t' ∧ sw_nodes t' !! n = Some nd' ∧ node_completed nd' = true.
Proof.
  intros Ht Hn Hctx Hk Hv Hup.
  assert (∃ t1 nd1 ex1, rtc drives t t1 ∧ driven t1 ∧ sw_nodes t1 !! n = Some nd1 ∧
    mc_ctx_done (sy_main (nd_system nd1)) = false ∧ sy_execs (nd_system nd1) !! k0 = Some ex1 ∧
    IsValid (ex_downloader ex1) = true ∧ ∀ i, i < GetChunkCount cm0 →
      announced (GetChunkCount cm0) (ex_downloader ex1) i = true)
    as (t1 & nd1 & ex1 & Hd & Ht1 & Hn1 & Hctx1 & Hk1 & Hv1 & Ha).
  { destruct (ex_downloader ex) as [d|ld] eqn:Hd.
    - destruct (Hup d eq_refl) as [Hu|Ha]; [|exists t, nd, ex; by rewrite Hd].
      destruct (learns t nd ex d Ht Hn Hk Hd Hu)
        as (t' & nd' & ex' & d' & Hs & Ht' & Hn' & Hc & Hk' & Hd' & Hself & Ha).
      exists t', nd', ex'. split_and!; try done; [by apply rtc_once|congruence| |by rewrite Hd'].
      rewrite Hd'. simpl in *. by rewrite Hself.
    - exists t, nd, ex. split_and!; try done; rewrite Hd; [done|]. intros i Hi.
      by apply bool_decide_eq_true. }
  destruct (environment_completes dst src v xxh3 onFileComplete onFileComplete_ok
    onFileComplete_healthy cm0 Hok Hsrc verifyOnComplete peerNumConcurrent localNumConcurrent
    transferIdleTimeout the_system driven drives k0 swarm_environment ltac:(lia) ltac:(lia)
    ltac:(lia) ltac:(lia) t1 ex1 Ht1) as (t2 & Hd2 & Ht2 & Hcd);
    rewrite ?(the_system_node _ _ Hn1); try done.
  destruct (dr_node _ Ht2) as (nd2 & Hn2 & _). exists t2, nd2. split_and!; [by etrans|done..|].
  by rewrite (the_system_node _ _ Hn2) in Hcd.
Qed.
End node.

(** * All nodes

    Nodes are numbered so that each of them can get everything from its own source, a seed, or
    a node with a smaller number. *)

Definition fetches (n : nat) (s : swarm W V) (nd : node W V) (d : Downloader) : Prop :=
  match d with
  | DLocal _ => ∃ w, nd_Src nd = Some w ∧ st_readable src w
  | DPeer d =>
    (updating d = true ∨
      ∀ i, i < GetChunkCount cm0 → announced (GetChunkCount cm0) (DPeer d) i = true) ∧
    match resolve (pd_Host d) with
    | Some (ASeed m) => answering n s (ASeed m)
    | Some (ANode m) => m < n
    | None => False
    end
  end.

(** A node that is done and can be read from; or one that is not cancelled, whose destination
    works, and with a valid downloader. *)
Definition ready (n : nat) (s : swarm W V) (nd : node W V) : Prop :=
  node_completed nd = true ∧ node_readable dst nd ∨
  mc_ctx_done (sy_main (nd_system nd)) = false ∧ node_healthy nd ∧
  ∃ k ex, sy_execs (nd_system nd) !! k = Some ex ∧ IsValid (ex_downloader ex) = true ∧
    fetches n s nd (ex_downloader ex).

Hypothesis healthy_readable : ∀ w, st_healthy dst w → st_readable dst w.

(** Nodes below [N] are done, and the others are as they were in [s]. *)
Record done_below (s : swarm W V) (N : nat) (t : swarm W V) : Prop := {
  db_inv : swarm_inv t;
  db_length : length (sw_nodes t) = length (sw_nodes s);
  db_done m nd : m < N → sw_nodes t !! m = Some nd →
    node_completed nd = true ∧ node_readable dst nd;
  db_kept m nd : N ≤ m → sw_nodes s !! m = Some nd →
    ∃ nd', sw_nodes t !! m = Some nd' ∧ kept_node dst nd nd';
  db_seeds m sv : sw_seeds s !! m = Some sv →
    ∃ sv', sw_seeds t !! m = Some sv' ∧ kept_seed src sv sv'
}.

Lemma done_below_step s N t t' nd :
  done_below s N t → swarm_inv t' → undisturbed N t t' → sw_nodes t' !! N = Some nd →
  node_completed nd = true → node_readable dst nd → done_below s (S N) t'.
Proof.
  intros [_ Hl Hdone Hkept Hseeds] Hinv [Hl' Hn Hs] HN Hc Hr. constructor.
  - done.
  - congruence.
  - intros m nd' Hm Hnd'. destruct (decide (m = N)) as [->|Hne]; [by simplify_eq|].
    assert (is_Some (sw_nodes t !! m)) as [nd0 Hnd0].
    { apply lookup_lt_is_Some. rewrite <- Hl'. by eapply lookup_lt_Some. }
    destruct (Hn m nd0 Hne Hnd0) as (nd1 & Hnd1 & Hcc & _ & Hrr). simplify_eq.
    destruct (Hdone m nd0 ltac:(lia) Hnd0). split; [congruence|auto].
  - intros m nd0 Hm Hnd0. destruct (Hkept m nd0 ltac:(lia) Hnd0) as (nd1 & Hnd1 & Hk).
    destruct (Hn m nd1 ltac:(lia) Hnd1) as (nd2 & Hnd2 & Hk'). exists nd2. split; [done|]. by etrans.
  - intros m sv Hsv. destruct (Hseeds m sv Hsv) as (sv1 & Hsv1 & Hk).
    destruct (Hs m sv1 Hsv1) as (sv2 & Hsv2 & Hk'). exists sv2. split; [done|]. by etrans.
Qed.

Lemma ready_answering s N t nd d :
  done_below s N t → sw_nodes s !! N = Some nd → fetches N s nd (DPeer d) →
  ∃ a, resolve (pd_Host d) = Some a ∧ answering N t a.
Proof.
  intros [_ Hl Hdone _ Hseeds] HN [_ Hres]. destruct (resolve (pd_Host d)) as [[m|m]|]; [| |done].
  - exists (ANode m). split; [done|]. split; [lia|].
    assert (is_Some (sw_nodes t !! m)) as [nd' Hnd'].
    { apply lookup_lt_is_Some. rewrite Hl. apply lookup_lt_Some in HN. lia. }
    exists nd'. split; [done|]. by apply (Hdone m).
  - exists (ASeed m). split; [done|]. destruct Hres as (sv & Hsv & Hc & Hr).
    destruct (Hseeds m sv Hsv) as (sv' & Hsv' & Hc' & Hr'). exists sv'. split_and!; [done|congruence|auto].
Qed.

Lemma next_completes s N t nd :
  done_below s N t → sw_nodes s !! N = Some nd → ready N s nd →
  ∃ t', rtc drives t t' ∧ done_below s (S N) t'.
Proof.
  intros Hb HN Hready. destruct (db_kept _ _ _ Hb N nd ltac:(lia) HN) as (nd' & HN' & Hc & He & Hr).
  destruct (node_completed nd) eqn:Hcd.
  { exists t. split; [done|]. eapply done_below_step; [done|apply Hb|done|done|done|].
    apply Hr. destruct Hready as [[_ ?]|(_ & Hh & _)]; [done|by apply healthy_readable]. }
  rewrite (He eq_refl) in HN'. clear nd' He Hc Hr.
  destruct Hready as [[? _]|(Hctx & Hh & k & ex & Hk & Hv & Hf)]; [congruence|].
  set (d0 := ex_downloader ex) in *.
  assert (∀ d, d0 = DPeer d → ∃ a, resolve (pd_Host d) = Some a ∧ answering N t a) as Hd0.
  { intros d E. rewrite E in Hf. by eapply ready_answering. }
  assert (driven N k t d0 t) as Ht.
  { constructor; [apply Hb|done|]. exists nd. split; [done|]. constructor; [done| |].
    - exists ex. split; [done|]. apply same_peer_refl.
    - intros ld E. by rewrite E in Hf. }
  destruct (node_completes N k t d0 Hd0 (nd_system nd) t nd ex Ht HN' Hctx Hk Hv)
    as (t' & nd' & Hd & Ht' & Hn' & Hcd').
  { intros d E. unfold d0 in Hf. rewrite E in Hf. apply Hf. }
  exists t'. split; [done|]. destruct Ht' as [Hinv' Hun' (nd1 & Hn1 & Hdn)]. simplify_eq.
  eapply done_below_step; [done..|]. apply healthy_readable, Hdn.
Qed.

Lemma all_complete s :
  swarm_inv s → (∀ n nd, sw_nodes s !! n = Some nd → ready n s nd) →
  ∀ N, N ≤ length (sw_nodes s) → ∃ t, rtc drives s t ∧ done_below s N t.
Proof.
  intros Hs Hready. induction N as [|N IH]; intros HN.
  { exists s. split; [done|]. constructor; [done|done|lia|..]; intros m x; [intros _|]; by exists x. }
  destruct IH as (t & Hd & Hb); [lia|]. destruct (lookup_lt_is_Some_2 (sw_nodes s) N) as [nd Hnd]; [lia|].
  destruct (next_completes s N t nd Hb Hnd (Hready _ _ Hnd)) as (t' & Hd' & Hb').
  exists t'. split; [by etrans|done].
Qed.

Lemma drives_run s t :
  rtc drives s t → ∃ l, Forall (driving now) l ∧ swarm_run l s = Some t.
Proof.
  induction 1 as [s|s s1 t (e & He & Hstep) _ (l & Hl & Hrun)]; [by exists []|].
  exists (e :: l). split; [by constructor|]. simpl. by rewrite Hstep.
Qed.
End driving.

(** * The theorem *)

Section properties.
Context {W : Type} (dst : Storage W) `{!StorageSpec dst, !StorageHealthy dst, !StorageReadable dst}.
Context {V : Type} (src : Storage V) `{!StorageSpec src, !StorageReadable src} (v : V).
Context `{GozstdLaws} `{ListCodecLaws}.
Context (xxh3 : bytes → Z) (onFileComplete : string → Z → io W unit).
Hypothesis xxh3_range : ∀ b, uint64_range (xxh3 b).
Hypothesis onFileComplete_ok : ∀ p s w,
  (onFileComplete p s w).1 = Ok () ∧ same_view dst w (onFileComplete p s w).2.
Hypothesis onFileComplete_healthy : ∀ p s w,
  st_healthy dst w → st_healthy dst (onFileComplete p s w).2.
Hypothesis healthy_readable : ∀ w, st_healthy dst w → st_readable dst w.
Context (DoW : string → io (ChunkManager * W) Z → io (ChunkManager * W) Z).
Context (DoV : string → io (ChunkManager * V) Z → io (ChunkManager * V) Z).
Hypothesis DoW_alone : ∀ key m s, DoW key m s = m s.
Hypothesis DoV_alone : ∀ key m s, DoV key m s = m s.
Context (version : Version) (error_String : error → string) (compressType : string).
Context (verifyOnComplete : bool) (peerNumConcurrent localNumConcurrent : nat).
Context (transferIdleTimeout : Duration).
Hypothesis Hpeer : (0 < Z.of_nat peerNumConcurrent < 2 ^ 31)%Z.
Hypothesis Hlocal : (0 < Z.of_nat localNumConcurrent < 2 ^ 31)%Z.
Context (resolve : string → option address).
Hypothesis resolve_plain : ∀ host a, resolve host = Some a → "/"%char ∉ chars host.
Hypothesis list_sent : ∀ t, time_valid t → ∃ b,
  json_Marshal (mkAvailableList t true []) = Ok b ∧ is_ok (gozstd_CompressLevel b) = true.
Local Abbreviation swarm_run := (swarm_run dst src xxh3 onFileComplete DoW DoV version
  error_String compressType verifyOnComplete peerNumConcurrent localNumConcurrent
  transferIdleTimeout resolve).

(** C2: the whole swarm can always still complete. Take any state that seeds and nodes can
    reach, whatever failed on the way. If every node that is not done is not cancelled, has a
    destination that works and a valid downloader that still follows its peer (or knows every
    chunk), and these downloaders lead, from every node to nodes with smaller numbers, to seeds
    or to local sources that can be read, then the swarm can go on, by steps of the goroutines
    and requests alone, until every node is Completed with all files, byte for byte. A node may
    have to get every chunk from another one that has none itself yet. *)
Theorem swarm_can_complete `{SliceSort} cs mf files0 cm0 nodes seeds l s now :
  (0 < cs < 2 ^ 63)%Z → sizes_ok cs files0 →
  Forall (λ f, int32_range (FileEntry_remainingChunkCount f)) files0 →
  BuildChunks cs mf files0 = Some (cm_files cm0, chunks cm0) →
  (Z.of_nat (GetChunkCount cm0) < 2 ^ 63)%Z →
  sized src v (cm_files cm0) →
  Forall (fresh_node dst src v cm0) nodes → Forall (fresh_seed src v cm0) seeds →
  Forall clock_ok l → swarm_run l (mkSwarm nodes seeds) = Some s → time_valid now →
  (∀ n nd, sw_nodes s !! n = Some nd → ready dst src resolve cm0 n s nd) →
  ∃ l' s', Forall (driving now) l' ∧ swarm_run l' s = Some s' ∧
    length (sw_nodes s') = length (sw_nodes s) ∧
    ∀ n nd, sw_nodes s' !! n = Some nd →
      mc_Completed (sy_main (nd_system nd)) = true ∧
      ∀ f, f ∈ files0 →
        content dst (mc_Dst (sy_main (nd_system nd))) (FileEntry_Name f)
        = content src v (FileEntry_Name f) ∧ is_Some (content src v (FileEntry_Name f)).
Proof.
  intros Hcs Hs Hc Hb Hsmall Hsrc Hnodes Hseeds Hl Hrun Hnow Hready.
  destruct (BuildChunks_manager_ok _ _ _ _ Hcs Hs Hc Hb) as [Hok Hpend].
  assert (swarm_inv dst src v xxh3 peerNumConcurrent localNumConcurrent cm0 s) as Hinv.
  { eapply swarm_run_inv; [done..|by apply fresh_swarm_inv|exact Hrun]. }
  destruct (all_complete dst src v xxh3 onFileComplete xxh3_range onFileComplete_ok
    onFileComplete_healthy DoW DoV DoW_alone DoV_alone version error_String compressType
    verifyOnComplete peerNumConcurrent localNumConcurrent transferIdleTimeout Hpeer Hlocal resolve
    resolve_plain cm0 Hok Hsrc Hsmall list_sent now Hnow healthy_readable s Hinv Hready
    (length (sw_nodes s)) ltac:(lia)) as (s' & Hd & [Hinv' Hlen Hdone _ _]).
  apply drives_run in Hd as (l' & Hl' & Hrun'). exists l', s'. split_and!; try done.
  intros n nd Hn. destruct (Hdone n nd) as [Hcd _]; [rewrite <- Hlen; by eapply lookup_lt_Some|done|].
  split; [done|]. intros f Hf.
  destruct (swarm_inv_node _ _ _ _ _ _ _ _ _ _ Hinv' Hn) as [[Hsys Hdata _ _] _ _ _ _].
  destruct (inv_content dst src v xxh3 cm0 Hok Hsrc _ Hsys Hdata) as [_ Hcompl].
  destruct (BuildChunks_names _ _ _ _ _ f Hcs Hs Hc Hb Hf) as (g & Hg & <-). by apply Hcompl.
Qed.
End properties.
