(* ===== verification/DownloadFiles.v ===== *)
(** A whole download: [DownloadFiles] of src/src/downloader.go, from the preparation of the
    destination to the command that is run at the end. *)
From S2P Require Import Prelude Bytes GoStrings Types Storage ChunkBuilder ChunkManager ChunkTransfer ChunkQueue Statistics Availability Delivery Http HttpServer PeerDownloader Network Peers Manifest ManifestFacts Transfer Command Downloader DownloaderSafety DownloaderLiveness DownloaderData.

Section download.
Context {W : Type} (dst : Storage W) (xxh3 : bytes → Z) (onFileComplete : string → Z → io W unit).
Context (verifyOnComplete : bool) (peerNumConcurrent localNumConcurrent : nat).
Context (transferIdleTimeout : Duration).
(** Whether there is a [PeerListProvider], and [mainContext.Command]. *)
Context (peers : bool) (command : Command).

(** [wg.Wait()] returns: the local downloader and the controller with its peer downloaders
    have ended, and so has the idle timer. The controller and the timer end with the
    context. *)
Definition wait_returns (s : system W) : bool :=
  forallb (λ ex, match ex_sched ex with SExit => true | _ => false end) (sy_execs s) &&
  (mc_ctx_done (sy_main s) || negb (peers || (0 <? transferIdleTimeout)%Z)).

(** After the wait, [t1 - t0] later: the main context, and the command that is queued. *)
Definition finish_download (elapsed : Duration) (m : main W) : result (main W * option string) :=
  let '(r, w) := CompleteTransfer (mc_ChunkManager m) dst (mc_Dst m) in
  _ ← r;
  let m := set_Statistics (SetElapsed elapsed (mc_Statistics m)) (set_Dst w m) in
  m ← (if verifyOnComplete then
         let '(r, w) := VerifyTransfer (mc_ChunkManager m) dst (mc_Dst m) in
         ok ← r;
         Ok (if ok : bool then set_Dst w m else set_ExitCode 1 (set_Dst w m))
       else Ok m);
  Ok (m, RunOnComplete command (Z.of_nat (GetFileCount (mc_ChunkManager m)))
           (GetBytesReceivedTotal (mc_Statistics m)) (Duration_String elapsed)).

(** [l] is what happens until the wait returns; [None]: it does not return there. A panic
    takes the program down at once. *)
Definition DownloadFiles (cm : ChunkManager) (w : W) (stat : Statistics)
    (src : option (nat → nat)) (t0 : Time) (l : list event) (t1 : Time) :
    option (result (main W * option string)) :=
  match SetupTransfer cm dst w with
  | (Err e, _) => Some (Err e)
  | (Panic msg, _) => Some (Panic msg)
  | (Ok _, w) =>
    s ← run_events dst xxh3 onFileComplete verifyOnComplete peerNumConcurrent localNumConcurrent
          transferIdleTimeout l (init_system cm w t0 stat src);
    if mc_panicked (sy_main s) then Some (Panic "a goroutine panicked")
    else if wait_returns s then Some (finish_download (t1 - t0)%Z (sy_main s)) else None
  end.
End download.

(** * The exit code of a download

    What an event stores in it: a manifest that is not the seeder's, or an idle timer that
    finds the timeout exceeded. *)
Definition is_timeout (transferIdleTimeout : Duration) {W} (e : event) (s : system W) : bool :=
  match e with
  | EvIdle now => (transferIdleTimeout <=? now - mc_LastUpdatedAt (sy_main s))%Z
  | EvBadChecksum _ => true
  | _ => false
  end.

Section outcome.
Context {W : Type} (dst : Storage W) (xxh3 : bytes → Z) (onFileComplete : string → Z → io W unit).
Context (verifyOnComplete : bool) (peerNumConcurrent localNumConcurrent : nat).
Context (transferIdleTimeout : Duration) (peers : bool) (command : Command).
Implicit Types (s : system W) (m : main W).
Local Abbreviation run_event := (run_event dst xxh3 onFileComplete verifyOnComplete
  peerNumConcurrent localNumConcurrent transferIdleTimeout).
Local Abbreviation run_events := (run_events dst xxh3 onFileComplete verifyOnComplete
  peerNumConcurrent localNumConcurrent transferIdleTimeout).

(** Whether one of the events does. *)
Fixpoint times_out (l : list event) (s : system W) : bool :=
  match l with
  | [] => false
  | e :: l => is_timeout transferIdleTimeout e s ||
      match run_event e s with Some s => times_out l s | None => false end
  end.

Lemma sched_step_ExitCode n m ex m' ex' :
  sched_step n m ex = Some (Ok (m', ex')) → mc_ExitCode m' = mc_ExitCode m.
Proof.
  intros H. unfold sched_step in H.
  destruct (ex_sched ex) as [| | | | | | | |i|i|i|i|i| | | | | | |]; try done; try (by simplify_eq).
  - destruct (Pop _) as [[i ok] q]. by simplify_eq.
  - by apply some_ok, bind_ok in H as (st & _ & [= <- _]).
  - by apply some_ok, bind_ok in H as ([b cm] & _ & [= <- _]).
  - case_match; by simplify_eq.
Qed.

Lemma worker_step_ExitCode inp m ex p m' ex' p' :
  worker_step dst xxh3 onFileComplete verifyOnComplete inp m ex p = Some (Ok (m', ex', p')) →
  mc_ExitCode m' = mc_ExitCode m.
Proof.
  intros H. destruct p; cbn [worker_step] in H; try destruct todo;
    try destruct (write_range _ _ _ _ _) as [[[]| |] []]; repeat case_match; simplify_eq; try done.
  all: by apply bind_ok in H as (? & _ & [= <- _ _]).
Qed.

Lemma with_exec_ExitCode k s f s' (c : Z) :
  with_exec k s f = Some s' → mc_panicked (sy_main s') = false →
  (∀ ex m' ex', f (sy_main s) ex = Some (Ok (m', ex')) → mc_ExitCode m' = c) →
  mc_ExitCode (sy_main s') = c.
Proof.
  intros (ex & Hk & (r & Hr & [= <-])%bind_Some)%bind_Some Hpan Hf.
  destruct r as [[m' ex']|e|msg]; [by eapply Hf|done..].
Qed.

Lemma with_peer_ExitCode k s f s' (c : Z) :
  with_peer k s f = Some s' → mc_panicked (sy_main s') = false →
  (∀ d m' d', f (sy_main s) d = Ok (m', d') → mc_ExitCode m' = c) → mc_ExitCode (sy_main s') = c.
Proof.
  intros Hw Hpan Hf. eapply with_exec_ExitCode; [done..|]. intros ex m' ex' H. simpl in H.
  destruct (ex_downloader ex) as [d|]; [|done]. destruct (updating d); [|done].
  apply some_ok, bind_ok in H as ([m1 d'] & Hd & [= <- _]). by eapply Hf.
Qed.

Lemma run_event_ExitCode e s s' :
  run_event e s = Some s' → mc_panicked (sy_main s') = false →
  mc_ExitCode (sy_main s')
  = if is_timeout transferIdleTimeout e s then 1%Z else mc_ExitCode (sy_main s).
Proof.
  intros Hrun Hpan. unfold Downloader.run_event in Hrun. destruct (mc_panicked _) eqn:Hp; [done|].
  destruct e as [k|k j inp|k j|k choice al|k|k|k|uuid host|host|now|]; cbn [is_timeout].
  - eapply with_exec_ExitCode; [done..|]. intros ex m' ex' H. exact (sched_step_ExitCode _ _ _ _ _ H).
  - eapply with_exec_ExitCode; [done..|]. intros ex m' ex' H. simpl in H.
    apply bind_Some in H as (p & _ & (r & Hr & H)%bind_Some).
    apply some_ok, bind_ok in H as ([[m1 ex1] p1] & -> & [= <- _]).
    by eapply worker_step_ExitCode.
  - eapply with_exec_ExitCode; [done..|]. intros ex m' ex' H. simpl in H.
    apply bind_Some in H as (p & _ & H). repeat case_match; by simplify_eq.
  - eapply with_peer_ExitCode; [done..|]. by intros d m' d' (d1 & _ & [= <- _])%bind_ok.
  - eapply with_peer_ExitCode; [done..|]. by intros d m' d' [= <- _].
  - eapply with_peer_ExitCode; [done..|]. by intros d m' d' [= <- _].
  - eapply with_peer_ExitCode; [done..|]. by intros d m' d' [= <- _].
  - injection Hrun as <-. unfold PeerDownloaders_Add. by case_match.
  - injection Hrun as <-. unfold PeerDownloaders_Remove. by case_match.
  - destruct (_ || _); [done|]. injection Hrun as <-. simpl. by case_match.
  - by injection Hrun as <-.
Qed.

Lemma run_events_ExitCode l s s' :
  run_events l s = Some s' → mc_panicked (sy_main s') = false →
  mc_ExitCode (sy_main s') = if times_out l s then 1%Z else mc_ExitCode (sy_main s).
Proof.
  revert s. induction l as [|e l IH]; intros s; [by intros [= <-]|]. cbn [Downloader.run_events times_out].
  destruct (run_event e s) as [s1|] eqn:H1; [|done]. cbn [mbind option_bind]. intros Hrun Hpan.
  assert (mc_panicked (sy_main s1) = false) as Hpan1.
  { destruct l as [|e2 l]; [by injection Hrun as <-|]. cbn in Hrun.
    apply bind_Some in Hrun as (s2 & H2 & _). by eapply run_event_not_panicked. }
  rewrite (IH s1 Hrun Hpan), (run_event_ExitCode _ _ _ H1 Hpan1).
  destruct (is_timeout _ e s), (times_out l s1); done.
Qed.

(** C35: what [DownloadFiles] does at the end does not depend on whether the transfer is
    complete. Whenever it returns without an error, complete or not, the entries were
    committed and the on-complete command is queued with the number of files and the bytes
    that were counted; and the exit code it stores is 1 exactly when the idle timeout struck, a
    peer's manifest was not the seeder's, or the destination did not verify, and 0 otherwise.
    So a download that a signal interrupts runs the command that is documented to run after
    all files complete, and without [-verify-on-complete] exits with 0. *)
Theorem incomplete_download_runs_command cm w stat src t0 l t1 m c :
  DownloadFiles dst xxh3 onFileComplete verifyOnComplete peerNumConcurrent localNumConcurrent
    transferIdleTimeout peers command cm w stat src t0 l t1 = Some (Ok (m, c)) →
  ∃ w0 s w1 verified,
    let start := init_system cm w0 t0 stat src in
    SetupTransfer cm dst w = (Ok (), w0) ∧ run_events l start = Some s ∧
    wait_returns transferIdleTimeout peers s = true ∧
    mc_Completed m = mc_Completed (sy_main s) ∧
    CompleteTransfer (mc_ChunkManager (sy_main s)) dst (mc_Dst (sy_main s)) = (Ok (), w1) ∧
    (if verifyOnComplete
     then ∃ w2, VerifyTransfer (mc_ChunkManager (sy_main s)) dst w1 = (Ok verified, w2)
     else verified = true) ∧
    c = RunOnComplete command (Z.of_nat (GetFileCount (mc_ChunkManager (sy_main s))))
          (GetBytesReceivedTotal (mc_Statistics (sy_main s))) (Duration_String (t1 - t0)%Z) ∧
    mc_ExitCode m = (if times_out l start || negb verified then 1 else 0)%Z.
Proof.
  unfold DownloadFiles. destruct (SetupTransfer cm dst w) as [[[]|e|msg] w0]; [|done..].
  intros (s & Hrun & H)%bind_Some. destruct (mc_panicked (sy_main s)) eqn:Hpan; [done|].
  destruct (wait_returns _ _ s) eqn:Hwait; [|done]. injection H as H.
  pose proof (run_events_ExitCode _ _ _ Hrun Hpan) as Hcode. cbn [init_system sy_main mc_ExitCode] in Hcode.
  unfold finish_download in H.
  destruct (CompleteTransfer _ _ _) as [[[]|e|msg] w1] eqn:Hct; [|done..]. cbn [mbind result_bind] in H.
  exists w0, s, w1. destruct verifyOnComplete.
  - destruct (VerifyTransfer _ dst _) as [[b|e|msg] w2] eqn:Hv; [|done..].
    cbn in Hv. cbn [mbind result_bind] in H. exists b. injection H as <- <-.
    split_and!; try done; [by destruct b|by eexists|by destruct b|].
    destruct b; cbn; rewrite ?orb_false_r, ?orb_true_r; [exact Hcode|done].
  - exists true. injection H as <- <-. split_and!; try done. cbn. by rewrite orb_false_r.
Qed.
End outcome.

Section properties.
Context {W : Type} (dst : Storage W).
Context `{!StorageSpec dst, !StoragePrepare dst, !StorageWalk dst, !StorageWalkSame dst}.
Context {V : Type} (src : Storage V) `{!StorageSpec src} (v : V).
Context (xxh3 : bytes → Z) (onFileComplete : string → Z → io W unit).
Hypothesis onFileComplete_ok : ∀ p s w,
  (onFileComplete p s w).1 = Ok () ∧ same_view dst w (onFileComplete p s w).2.
Context (verifyOnComplete : bool) (peerNumConcurrent localNumConcurrent : nat).
Context (transferIdleTimeout : Duration) (peers : bool) (command : Command).

Lemma VerifyTransfer_same cm w :
  post (VerifyTransfer cm dst) w (λ r w', same_view dst w w' ∧ calm r).
Proof.
  unfold post, VerifyTransfer. rewrite Walk_law. destruct (st_walk_same "" w) as [Hv Hc].
  destruct (st_walk dst "" w) as [[[es [err|]]|e|msg] w']; cbn in *; [done..|by destruct (Hc msg)].
Qed.

Lemma finish_download_content elapsed (m : main W) :
  match finish_download dst verifyOnComplete command elapsed m with
  | Ok (m', c) => same_view dst (mc_Dst m) (mc_Dst m') ∧ mc_Completed m' = mc_Completed m ∧
      c = RunOnComplete command (Z.of_nat (GetFileCount (mc_ChunkManager m)))
            (GetBytesReceivedTotal (mc_Statistics m)) (Duration_String elapsed)
  | Err _ => True
  | Panic _ => False
  end.
Proof.
  unfold finish_download. pose proof (CompleteTransfer_same dst (mc_ChunkManager m) (mc_Dst m)) as Hct.
  unfold post in Hct. destruct (CompleteTransfer _ _ _) as [[[]|e|msg] w]; destruct Hct as [Hv Hc];
    cbn [mbind result_bind]; [|done|by destruct (Hc msg)].
  set (m1 := set_Statistics _ (set_Dst w m)). cbn [fst snd] in Hv. destruct verifyOnComplete.
  - pose proof (VerifyTransfer_same (mc_ChunkManager m1) (mc_Dst m1)) as Hvt.
    unfold post in Hvt. destruct (VerifyTransfer _ _ _) as [[ok|e|msg] w2]; destruct Hvt as [Hv2 Hc2];
      cbn [mbind result_bind fst snd] in *; [|done|by destruct (Hc2 msg)].
    change (mc_Dst m1) with w in Hv2. split_and!; [|by destruct ok|by destruct ok].
    destruct ok; cbn; by rewrite Hv.
  - by split_and!.
Qed.

(** C3: a whole download, whatever the schedule. Prepare the destination for the chunks of a
    file list; let downloaders, workers, peers, timers and signals run in any order until the
    wait returns; then commit the entries and verify. No goroutine panics. If the download
    was completed, every file of the list is byte for byte the source's at the end, also
    after the permissions were set and the destination was walked; and whatever happened, the
    final command is queued with the number of files and the statistics' bytes. *)
Theorem DownloadFiles_correct `{SliceSort} cs mf files0 cm w stat from t0 l t1 r :
  (0 < cs < 2 ^ 63)%Z → sizes_ok cs files0 →
  Forall (λ f, int32_range (FileEntry_remainingChunkCount f)) files0 →
  BuildChunks cs mf files0 = Some (cm_files cm, chunks cm) →
  length (chunkChecksums cm) = length (chunks cm) →
  (Z.of_nat (GetChunkCount cm) < 2 ^ 63)%Z → sized src v (cm_files cm) →
  (∀ w', SetupTransfer cm dst w = (Ok (), w') → no_sharing dst w' (cm_files cm) ∧
    events_ok dst src v xxh3 onFileComplete cm verifyOnComplete peerNumConcurrent
      localNumConcurrent transferIdleTimeout l (init_system cm w' t0 stat from)) →
  DownloadFiles dst xxh3 onFileComplete verifyOnComplete peerNumConcurrent localNumConcurrent
    transferIdleTimeout peers command cm w stat from t0 l t1 = Some r →
  match r with
  | Ok (m, c) =>
      (mc_Completed m = true → ∀ f, f ∈ files0 →
        content dst (mc_Dst m) (FileEntry_Name f) = content src v (FileEntry_Name f) ∧
        is_Some (content src v (FileEntry_Name f))) ∧
      (onCompleteCommand command ≠ "" → is_Some c)
  | Err _ => True
  | Panic _ => False
  end.
Proof.
  intros Hcs Hs Hc Hb Hsums Hsmall Hsrc Hset. unfold DownloadFiles.
  assert (Forall (λ f, 0 ≤ FileEntry_Size f)%Z (cm_files cm)) as Hnn.
  { apply Forall_forall. intros f [i Hi]%list_elem_of_lookup.
    destruct (Hsrc i f Hi) as (ino & _ & Hl). lia. }
  pose proof (SetupTransfer_spec dst cm w Hnn) as Hsetup. unfold post in Hsetup.
  destruct (SetupTransfer cm dst w) as [[[]|e|msg] w']; [|by intros [= <-]|done].
  destruct (Hset w' eq_refl) as [Hno Hev]. destruct Hsetup as [_ Hprep]. cbn [fst snd] in Hprep.
  destruct (run_events _ _ _ _ _ _ _ l _) as [s|] eqn:Hrun; [|done]. cbn [mbind option_bind].
  destruct (download_content dst src v xxh3 onFileComplete onFileComplete_ok verifyOnComplete
    peerNumConcurrent localNumConcurrent transferIdleTimeout cs mf files0 cm w' t0 stat from l s
    Hcs Hs Hc Hb Hsums Hsmall Hsrc (Hprep Hno) Hev Hrun) as (-> & _ & Hall).
  destruct (wait_returns _ _ s); [|done]. intros [= <-].
  pose proof (finish_download_content (t1 - t0) (sy_main s)) as Hf.
  destruct (finish_download _ _ _ _ _) as [[m c]|e|msg]; [|done..].
  destruct Hf as (Hv & Hcd & ->). split.
  - intros Hm f Hf. rewrite Hcd in Hm. destruct (Hall Hm f Hf) as [Heq Hsome]. split; [|done].
    by rewrite <- Heq, Hv.
  - intros Hne. unfold RunOnComplete. by rewrite decide_False.
Qed.
End properties.
