(* ===== verification/Program.v ===== *)
(** The program from its command line to its exit code: [main] and [Fin] of src/src/main.go with
    the goroutines [main] starts, the download among them, and the server of
    src/src/http_server.go as far as [main] uses it. *)
From S2P Require Import Prelude Bytes GoStrings GoTime Types Storage LocalStorage ChunkBuilder ChunkManager Statistics Http Peers Manifest Command Registry StorageFactory GoFlag Flags Transfer Main Downloader DownloadFiles.

(** * The HTTP server *)

(** The fields of [http.Server] that [CreateHttpServer] sets; the handlers are in HttpServer.v. *)
Record http_Server := mkHttpServer
  { Addr : string; ReadTimeout : Duration; WriteTimeout : Duration }.

Definition CreateHttpServer (f : flags) : http_Server :=
  mkHttpServer (flagListenAddr f) (5 * Second)%Z (60 * Second)%Z.

(** * What [main] does that can be seen *)

(** [PanicTrace] is what the runtime prints when a goroutine panics. *)
Inductive action :=
| PrintError (msg : string)
| PrintUsage
| PrintVersion
| SetVerbose (isVerbose : bool)
| StopRegistry
| StopCommand
| PrintAllStatistics
| CloseLogger
| PanicTrace (msg : string).

#[export] Instance action_eq_dec : EqDecision action.
Proof. solve_decision. Defined.

(** [Fin] *)
Definition MainContext_Fin (c : MainContext) : list action :=
  match PeerRegistry c with Some _ => [StopRegistry] | None => [] end ++
  [StopCommand; PrintAllStatistics].

(** The panic of the heartbeat goroutine that [Init] has started, if its ticker panics. *)
Definition heartbeat_panic (c : MainContext) : option string :=
  match PeerRegistry c with
  | Some pr =>
    match NewTicker (wrap 64 (heartbeatInterval pr * Second)) with
    | Panic msg => Some msg
    | _ => None
    end
  | None => None
  end.

(** * The goroutines of [main] *)

(** Where the goroutine that downloads is: before [DownloadFiles], in its [wg.Wait()] while the
    download machine runs, or returned. The world is the one it leaves. *)
Inductive download (W : Type) :=
| Starting (w : W)
| Waiting (t0 : Time) (s : system W)
| Returned (w : W).
Arguments Starting {W}.
Arguments Waiting {W}.
Arguments Returned {W}.

(** [crashed]: a goroutine has panicked, which ends the process at once. *)
Record process (W : Type) := mkProcess {
  ExitCode : Z;
  ctx_done : bool;
  serving : bool;
  downloading : download W;
  watching : bool;
  LastSentAt : Time;
  crashed : option string
}.
Arguments mkProcess {W}.
Arguments ExitCode {W}.
Arguments ctx_done {W}.
Arguments serving {W}.
Arguments downloading {W}.
Arguments watching {W}.
Arguments LastSentAt {W}.
Arguments crashed {W}.

(** [ServeReturns None] is [http.ErrServerClosed]. [DownloadStep] is a step of the download
    machine; the order of the local source's chunks is [choice]. *)
Inductive main_event :=
| ServeReturns (err : option error)
| DownloadStarts (choice : nat → nat) (t0 : Time)
| DownloadStep (e : event)
| DownloadReturns (t1 : Time)
| Responded (now : Time)
| SeedTick (now : Time)
| SignalReceived
| SeesDone
| HeartbeatStarts.

Section updates.
Context {W : Type}.
Implicit Types (p : process W).

(** [ExitCode.Store(code)]; nothing ever stores 0. *)
Definition store_code (code : Z) p : process W :=
  mkProcess (if (code =? 0)%Z then ExitCode p else code) (ctx_done p) (serving p) (downloading p)
    (watching p) (LastSentAt p) (crashed p).
Definition set_serving (b : bool) p : process W :=
  mkProcess (ExitCode p) (ctx_done p) b (downloading p) (watching p) (LastSentAt p) (crashed p).
Definition set_downloading (d : download W) p : process W :=
  mkProcess (ExitCode p) (ctx_done p) (serving p) d (watching p) (LastSentAt p) (crashed p).
Definition set_watching (b : bool) p : process W :=
  mkProcess (ExitCode p) (ctx_done p) (serving p) (downloading p) b (LastSentAt p) (crashed p).
Definition set_LastSentAt (t : Time) p : process W :=
  mkProcess (ExitCode p) (ctx_done p) (serving p) (downloading p) (watching p) t (crashed p).
Definition set_crashed (msg : string) p : process W :=
  mkProcess (ExitCode p) (ctx_done p) (serving p) (downloading p) (watching p) (LastSentAt p)
    (Some msg).

Definition cancel_system (s : system W) : system W :=
  mkSystem (DownloadCancel (sy_main s)) (sy_execs s) (sy_downloaders s).

(** [ctxCancel()]: [DownloadCtx] is a child of [ctx]. *)
Definition ctxCancel p : process W :=
  mkProcess (ExitCode p) true (serving p)
    match downloading p with Waiting t0 s => Waiting t0 (cancel_system s) | d => d end
    (watching p) (LastSentAt p) (crashed p).

Definition world_of p : W :=
  match downloading p with
  | Starting w | Returned w => w
  | Waiting _ s => mc_Dst (sy_main s)
  end.

(** [wg.Wait()] returns. *)
Definition main_returns p : bool :=
  negb (serving p) && match downloading p with Returned _ => true | _ => false end &&
  negb (watching p).
End updates.

Section goroutines.
Context {W : Type} `{OS W} (xxh3 : bytes → Z) (onFileComplete : Command → string → Z → io W unit).
Context (f : flags) (c : MainContext).
Implicit Types (p : process W).

Definition has_peers : bool := bool_decide (is_Some (PeerListProvider c)).
(** [Dst]; nothing is downloaded when it is nil. *)
Definition Dst_storage : Storage W := LocalStorage (default "" (Dst c)).

Local Abbreviation run_download_event := (run_event Dst_storage xxh3 (onFileComplete (mainCommand c))
  (flagVerifyOnComplete f) (Z.to_nat (flagPeerNumConcurrent f)) (Z.to_nat (flagLocalNumConcurrent f))
  (flagTransferIdleTimeout f)).

(** The events of the download machine that are the download's own: the cancellation comes from
    [ctx], and only a controller adds and removes peers. *)
Definition download_event (e : event) : bool :=
  match e with
  | EvCancel => false
  | EvAdd uuid _ => has_peers && bool_decide (uuid = UUID c)
  | EvRemove _ => has_peers
  | _ => true
  end.

(** [DownloadFiles] up to its wait. *)
Definition start_download (choice : nat → nat) (t0 : Time) (w : W) p : process W :=
  match download_destination c with
  | Ok None => set_downloading (Returned w) p
  | Ok (Some dir) =>
    match SetupTransfer (Main.ChunkManager c) (LocalStorage dir) w with
    | (Ok _, w) =>
      let s := init_system (Main.ChunkManager c) w t0 (mainStatistics c)
                 match Src c with Some _ => Some choice | None => None end in
      set_downloading (Waiting t0 (if ctx_done p then cancel_system s else s)) p
    | (Err _, w) => store_code 1 (ctxCancel (set_downloading (Returned w) p))
    | (Panic msg, w) => set_crashed msg (set_downloading (Returned w) p)
    end
  | Err _ => store_code 1 (ctxCancel (set_downloading (Returned w) p))
  | Panic msg => set_crashed msg p
  end.

(** After its wait. *)
Definition return_download (t0 : Time) (s : system W) (t1 : Time) p : process W :=
  let '(_, w) := CompleteTransfer (mc_ChunkManager (sy_main s)) Dst_storage (mc_Dst (sy_main s)) in
  match finish_download Dst_storage (flagVerifyOnComplete f) (mainCommand c) (t1 - t0) (sy_main s) with
  | Ok (m, _) =>
    let p := store_code (mc_ExitCode m) (set_downloading (Returned (mc_Dst m)) p) in
    if flagExitComplete f then ctxCancel p else p
  | Err _ => store_code 1 (ctxCancel (set_downloading (Returned w) p))
  | Panic msg => set_crashed msg (set_downloading (Returned w) p)
  end.

(** The start of the goroutines. *)
Definition main_start (now : Time) (w : W) : process W :=
  mkProcess 0 false true (Starting w) true now None.

(** [None]: not possible now. [Serve] returns [ErrServerClosed] only after [CloseServer]. *)
Definition main_step (e : main_event) p : option (process W) :=
  if crashed p then None else
  match e with
  | ServeReturns err =>
    if negb (serving p) then None
    else match err with
         | None => if watching p then None else Some (set_serving false p)
         | Some _ => Some (store_code 1 (ctxCancel (set_serving false p)))
         end
  | DownloadStarts choice t0 =>
    match downloading p with
    | Starting w => Some (start_download choice t0 w p)
    | _ => None
    end
  | DownloadStep e =>
    match downloading p with
    | Waiting t0 s =>
      if negb (download_event e) then None
      else
        s ← run_download_event e s;
        let p := store_code (mc_ExitCode (sy_main s)) (set_downloading (Waiting t0 s) p) in
        Some (if mc_panicked (sy_main s) then set_crashed "a goroutine panicked" p else p)
    | _ => None
    end
  | DownloadReturns t1 =>
    match downloading p with
    | Waiting t0 s =>
      if wait_returns (flagTransferIdleTimeout f) has_peers s
      then Some (return_download t0 s t1 p) else None
    | _ => None
    end
  | Responded now => if negb (serving p) then None else Some (set_LastSentAt now p)
  | SeedTick now =>
    if negb (watching p) then None
    else if (0 <? flagSeedIdleTimeout f)%Z && (flagSeedIdleTimeout f <=? now - LastSentAt p)%Z
    then Some (set_watching false (ctxCancel p))
    else Some p
  | SignalReceived =>
    if negb (watching p) then None else Some (set_watching false (ctxCancel p))
  | SeesDone =>
    if negb (watching p) || negb (ctx_done p) then None else Some (set_watching false p)
  | HeartbeatStarts =>
    match PeerRegistry c with
    | Some _ => Some match heartbeat_panic c with Some msg => set_crashed msg p | None => p end
    | None => None
    end
  end.

Fixpoint main_steps (l : list main_event) p : option (process W) :=
  match l with
  | [] => Some p
  | e :: l => p ← main_step e p; main_steps l p
  end.
End goroutines.

(** * The program *)

(** A call whose panic the deferred functions of [main] see. *)
Definition io_result {W A} (m : io W A) : io W (result A) := λ w, let '(r, w) := m w in (Ok r, w).

Section program.
Context {W : Type} `{OS W} `{HttpTransport W} `{Gozstd} `{ManifestCodec} `{SliceSort}.
Context (xxh3 : bytes → Z) (major minor : string) (url_Parse : string → result URL).
Context (LookupIP : string → string → io W (list string)).
Context (LookupSRV : string → string → io W (list (string * Z))).
Context (filepath_Abs : string → result string) (json_heartbeat : HeartbeatRequest → result bytes).
(** [Command.RunOnEachFileComplete] *)
Context (onFileComplete : Command → string → Z → io W unit).
(** [net.Listen("tcp", addr)] *)
Context (net_Listen : string → io W unit).
(** The new UUID, how often [-wait-host] and a manifest can be asked for in time, the time the
    goroutines start, and whether the heartbeat goroutine comes to its ticker before the
    program listens. *)
Context (uuid : string) (waits polls : nat) (now : Time) (heartbeat_first : bool).
Local Abbreviation Init f := (Init xxh3 major minor url_Parse LookupIP LookupSRV filepath_Abs
  json_heartbeat f uuid polls).

(** The wait of [main], which is skipped without [-wait-host]. *)
Definition wait_host (f : flags) : io W unit :=
  if decide (flagWaitHost f ≠ "") then wait_for_host waits (flagWaitHost f) (flagWaitHostTimeout f)
  else mret ().

(** [main] returns, with its deferred calls in the reverse order; the last one exits with the
    code. *)
Definition exit_with (f : flags) (code : Z) (deferred : list action) : option (Z * list action) :=
  Some (code, SetVerbose (flagVerbose f) :: deferred ++ [CloseLogger]).

(** A goroutine of it panics. *)
Definition crash_with (f : flags) (msg : string) : option (Z * list action) :=
  Some (2%Z, [SetVerbose (flagVerbose f); PanicTrace msg]).

(** From the start of the goroutines to [wg.Wait()] and the return of [main]. [None]: they have
    not returned yet. *)
Definition run_goroutines (f : flags) (c : MainContext) (events : list main_event) :
    io W (option (Z * list action)) := λ w,
  match main_steps xxh3 onFileComplete f c events (main_start now w) with
  | Some p =>
    (Ok match crashed p with
        | Some msg => crash_with f msg
        | None => if main_returns p then exit_with f (ExitCode p) (MainContext_Fin c) else None
        end, world_of p)
  | None => (Ok None, w)
  end.

(** [main] behind the flags. A panic of its own goroutine runs the deferred calls as a return
    does, so that the code is 0 when nothing has stored another. *)
Definition main_run (f : flags) (events : list main_event) : io W (option (Z * list action)) :=
  waited ← io_result (wait_host f);
  match waited with
  | Err _ => mret (exit_with f 1 [])
  | Panic _ => mret (exit_with f 0 [])
  | Ok _ =>
    inited ← io_result (Init f);
    match inited with
    | Err _ => mret (exit_with f 1 [])
    | Panic _ => mret (exit_with f 0 [])
    | Ok c =>
      match (if heartbeat_first then heartbeat_panic c else None) with
      | Some msg => mret (crash_with f msg)
      | None =>
        listener ← io_result (net_Listen (Addr (CreateHttpServer f)));
        match listener with
        | Err _ => mret (exit_with f 1 (MainContext_Fin c))
        | Panic _ => mret (exit_with f 0 (MainContext_Fin c))
        | Ok _ => run_goroutines f c events
        end
      end
    end
  end.

(** The program: [flag.Parse] exits by itself when it does not like the arguments. *)
Definition main_program (args : list string) (events : list main_event) :
    io W (option (Z * list action)) :=
  match parse_args args with
  | BadFlag msg => mret (Some (2%Z, [PrintError msg; PrintUsage]))
  | HelpRequested => mret (Some (0%Z, [PrintUsage]))
  | Parsed vs =>
    let f := flags_of vs in
    if flagShowHelp f then mret (Some (0%Z, [PrintUsage]))
    else if flagVersion f then mret (Some (0%Z, [PrintVersion]))
    else main_run f events
  end.
End program.
