(* ===== verification/ProgramFacts.v ===== *)
(** How the program ends: what every event of its goroutines does to the exit code, that a
    cancelled context lets all of them return, and the exit code of the whole program. *)
From S2P Require Import Prelude Bytes GoStrings GoTime Types Storage LocalStorage ChunkBuilder ChunkManager Statistics Http Peers Manifest Command Registry StorageFactory GoFlag Flags Transfer Main MainFacts Downloader DownloaderSafety DownloaderLiveness DownloadFiles Program.

(** * What can go wrong *)

(** How a part of the program ended. *)
Inductive verdict := Fine | Failure | Crash.

Definition worse (u v : verdict) : verdict :=
  match u, v with
  | Crash, _ | _, Crash => Crash
  | Failure, _ | _, Failure => Failure
  | Fine, Fine => Fine
  end.

Definition verdict_of {A} (r : result A) : verdict :=
  match r with Ok _ => Fine | Err _ => Failure | Panic _ => Crash end.

Section goroutines.
Context {W : Type} `{OS W} (xxh3 : bytes → Z) (onFileComplete : Command → string → Z → io W unit).
Context (f : flags) (c : MainContext).
Implicit Types (p : process W) (s : system W).
Local Abbreviation main_step := (main_step xxh3 onFileComplete f c).
Local Abbreviation main_steps := (main_steps xxh3 onFileComplete f c).
Local Abbreviation start_download := (start_download c).
Local Abbreviation return_download := (return_download f c).
Local Abbreviation Dst_storage := (Dst_storage c).
Local Abbreviation peerNum := (Z.to_nat (flagPeerNumConcurrent f)).
Local Abbreviation localNum := (Z.to_nat (flagLocalNumConcurrent f)).
Local Abbreviation run_download_event := (run_event Dst_storage xxh3 (onFileComplete (mainCommand c))
  (flagVerifyOnComplete f) peerNum localNum (flagTransferIdleTimeout f)).
Local Abbreviation run_download_events := (run_events Dst_storage xxh3
  (onFileComplete (mainCommand c)) (flagVerifyOnComplete f) peerNum localNum
  (flagTransferIdleTimeout f)).

(** What goes wrong in an event: the server fails; the destination cannot be prepared, is nil,
    or its entries cannot be committed or do not verify; a manifest is not the seeder's, or the
    idle timeout strikes; a goroutine panics. *)
Definition event_verdict (e : main_event) p : verdict :=
  match e, downloading p with
  | ServeReturns (Some _), _ => Failure
  | HeartbeatStarts, _ => match heartbeat_panic c with Some _ => Crash | None => Fine end
  | DownloadStarts _ _, Starting w =>
    match download_destination c with
    | Ok None => Fine
    | Ok (Some dir) => verdict_of (SetupTransfer (Main.ChunkManager c) (LocalStorage dir) w).1
    | r => verdict_of r
    end
  | DownloadStep e, Waiting _ s =>
    match run_download_event e s with
    | Some s' =>
      if mc_panicked (sy_main s') then Crash
      else if is_timeout (flagTransferIdleTimeout f) e s then Failure else Fine
    | None => Fine
    end
  | DownloadReturns _, Waiting _ s =>
    let cm := mc_ChunkManager (sy_main s) in
    match CompleteTransfer cm Dst_storage (mc_Dst (sy_main s)) with
    | (Ok _, w) =>
      if flagVerifyOnComplete f then
        match (VerifyTransfer cm Dst_storage w).1 with
        | Ok true => Fine
        | Ok false | Err _ => Failure
        | Panic _ => Crash
        end
      else Fine
    | (r, _) => verdict_of r
    end
  | _, _ => Fine
  end.

(** The worst of what goes wrong along a run. *)
Fixpoint run_verdict (l : list main_event) p : verdict :=
  match l with
  | [] => Fine
  | e :: l => worse (event_verdict e p)
      match main_step e p with Some p => run_verdict l p | None => Fine end
  end.

(** * The download machine, once more *)

Lemma ranges_bound cm : ∃ M, ranges_bounded M cm.
Proof.
  exists (max_list (length <$> ranges_of cm)). apply Forall_forall. intros l Hl.
  apply max_list_elem_of_le. by apply list_elem_of_fmap_2.
Qed.

(** No event takes the cancellation back. *)
Lemma run_event_ctx e s s' :
  sys_live peerNum localNum s → run_download_event e s = Some s' →
  mc_panicked (sy_main s') = false → mc_ctx_done (sy_main s) = true →
  mc_ctx_done (sy_main s') = true.
Proof.
  intros Hlive Hrun Hpan Hc. destruct (ranges_bound (mc_ChunkManager (sy_main s))) as [M Hb].
  destruct (sy_execs s !! 0) as [ex|] eqn:Hk.
  { by apply (run_event_stop _ _ _ _ _ _ _ M 0 e s s' ex Hlive Hb Hk Hrun Hpan). }
  assert (sy_execs s = []) as He by (by destruct (sy_execs s)).
  revert Hrun. unfold Downloader.run_event, with_peer, with_exec. destruct (mc_panicked (sy_main s)); [done|].
  rewrite Hc. destruct e; rewrite ?He, ?lookup_nil; try done.
  - intros [= <-]. unfold PeerDownloaders_Add. by case_match.
  - intros [= <-]. unfold PeerDownloaders_Remove. by case_match.
  - by intros [= <-].
Qed.

(** * The invariant of a running process *)

(** The download machine is live and has not panicked, is cancelled with the context, and its
    exit code was stored; without a destination there is no download; the watcher only ends
    when the context is cancelled. *)
Record running p : Prop := {
  ru_alive : crashed p = None;
  ru_waiting : match downloading p with
    | Waiting _ s => sys_live peerNum localNum s ∧ mc_panicked (sy_main s) = false ∧
        (ctx_done p = true → mc_ctx_done (sy_main s) = true) ∧
        (mc_ExitCode (sy_main s) = 0 ∨ mc_ExitCode (sy_main s) = 1 ∧ ExitCode p = 1)%Z
    | _ => True
    end;
  ru_destination : is_panic (download_destination c) = true → ∃ w, downloading p = Starting w;
  ru_watching : watching p = false → ctx_done p = true
}.

(** What a step of a running process does, given what goes wrong in it. *)
Definition step_spec (v : verdict) p p' : Prop :=
  match v with
  | Crash => is_Some (crashed p')
  | v => running p' ∧ ExitCode p' = match v with Failure => 1%Z | _ => ExitCode p end
  end.

Lemma cancel_live s :
  sys_live peerNum localNum s → sys_live peerNum localNum (cancel_system s).
Proof. done. Qed.

Lemma ctxCancel_running p : running p → running (ctxCancel p).
Proof.
  intros [Ha Hw Hd _]. split; cbn; [done| |by intros [w ->]%Hd; exists w|done].
  destruct (downloading p); [done| |done]. cbn. naive_solver.
Qed.

Lemma store_code_running p : running p → running (store_code 1 p).
Proof. intros [Ha Hm Hd Hw]. split; cbn; [done| |done..]. destruct (downloading p); naive_solver. Qed.

Lemma set_serving_running b p : running p → running (set_serving b p).
Proof. by intros [Ha Hm Hd Hw]; split. Qed.

Lemma start_download_spec choice t0 w p :
  running p → downloading p = Starting w →
  step_spec (event_verdict (DownloadStarts choice t0) p) p (start_download choice t0 w p).
Proof.
  intros Hr Hs. unfold event_verdict, Program.start_download. rewrite Hs.
  destruct Hr as [Ha _ Hd Hw].
  destruct (download_destination c) as [[dir|]|e|msg] eqn:Hdest; cbn [step_spec verdict_of].
  - destruct (SetupTransfer _ _ w) as [[u|e|msg] w']; cbn; [|split; [by split; cbn; rewrite ?Hdest|done]|done].
    split; [|done]. split; cbn; [done| |by rewrite Hdest|done].
    pose proof (init_live peerNum localNum (Main.ChunkManager c) w' t0 (mainStatistics c)
      match Src c with Some _ => Some choice | None => None end) as Hl.
    destruct (ctx_done p); split_and!; try done; by left.
  - split; [by split; cbn; rewrite ?Hdest|done].
  - split; [by split; cbn; rewrite ?Hdest|done].
  - done.
Qed.

(** The end of [DownloadFiles], by what the commit and the verification say. *)
Lemma return_download_spec t0 s t1 p :
  running p → downloading p = Waiting t0 s →
  step_spec (event_verdict (DownloadReturns t1) p) p (return_download t0 s t1 p).
Proof.
  intros [Ha Hm Hd Hw] Hs. unfold event_verdict, Program.return_download, finish_download.
  rewrite Hs in Hm |- *. destruct Hm as (_ & _ & _ & Hcode).
  assert (is_panic (download_destination c) = false) as Hdest.
  { destruct (is_panic _); [|done]. destruct (Hd eq_refl) as [w Hw']. congruence. }
  assert (∀ code w, let q := store_code code (set_downloading (Returned w) p) in
    running (if flagExitComplete f then ctxCancel q else q)) as Hret.
  { intros code w. destruct (flagExitComplete f); split; cbn; by rewrite ?Hdest. }
  assert (∀ w, running (store_code 1 (ctxCancel (set_downloading (Returned w) p)))) as Herr.
  { intros w. split; cbn; by rewrite ?Hdest. }
  assert (∀ w, ExitCode (let q := store_code (mc_ExitCode (sy_main s)) (set_downloading (Returned w) p)
    in if flagExitComplete f then ctxCancel q else q) = ExitCode p) as Hsame.
  { intros w. destruct (flagExitComplete f); cbn; by destruct Hcode as [->|[-> ->]]. }
  destruct (CompleteTransfer _ _ _) as [[u|e|msg] w]; cbn [mbind result_bind step_spec verdict_of];
    [|by split|done].
  destruct (flagVerifyOnComplete f).
  - cbn [mc_ChunkManager mc_Dst set_Statistics set_Dst].
    destruct (VerifyTransfer _ _ w) as [[[]|e|msg] w2]; cbn [fst mbind result_bind step_spec];
      [| |by split|done].
    + split; [apply Hret|apply Hsame].
    + split; [apply Hret|]. by destruct (flagExitComplete f).
  - cbn [mbind result_bind step_spec]. split; [apply Hret|apply Hsame].
Qed.

(** A step of the download machine. *)
Lemma download_step_spec e t0 s s' p :
  running p → downloading p = Waiting t0 s → run_download_event e s = Some s' →
  let q := store_code (mc_ExitCode (sy_main s')) (set_downloading (Waiting t0 s') p) in
  step_spec (event_verdict (DownloadStep e) p) p
    (if mc_panicked (sy_main s') then set_crashed "a goroutine panicked" q else q).
Proof.
  intros [Ha Hm Hd Hw] Hs Hrun. unfold event_verdict. rewrite Hs in Hm |- *. rewrite Hrun.
  destruct Hm as (Hlive & Hpan & Hctx & Hcode). destruct (mc_panicked (sy_main s')) eqn:Hpan'; [by eexists|].
  pose proof (run_event_ExitCode _ _ _ _ _ _ _ _ _ _ Hrun Hpan') as Hx.
  pose proof (run_event_live _ _ _ _ _ _ _ _ _ _ Hrun Hlive) as Hlive'.
  assert (running (store_code (mc_ExitCode (sy_main s')) (set_downloading (Waiting t0 s') p))) as Hr.
  { split; cbn; [done| |by intros [w Hw']%Hd; rewrite Hs in Hw'|done].
    split_and!; [done|done|intros Hc; exact (run_event_ctx e s s' Hlive Hrun Hpan' (Hctx Hc))|].
    rewrite Hx. destruct (is_timeout _ e s); [by right|]. by destruct Hcode as [->|[-> ->]]; [left|right]. }
  rewrite Hx in Hr |- *. destruct (is_timeout _ e s); cbn [step_spec]; (split; [done|]); [done|].
  cbn. by destruct Hcode as [->|[-> ->]].
Qed.

(** * Every step *)

Lemma main_step_spec e p p' :
  running p → main_step e p = Some p' → step_spec (event_verdict e p) p p'.
Proof.
  intros Hr. pose proof Hr as [Ha Hm Hd Hw]. unfold Program.main_step. rewrite Ha.
  destruct e as [err|choice t0|e|t1|now|now| | |].
  - destruct (serving p); [|done]. cbn [negb]. destruct err as [e|].
    + intros [= <-]. split; [|done]. apply store_code_running, ctxCancel_running.
      by apply set_serving_running.
    + destruct (watching p); [done|]. intros [= <-].
      split; [by apply set_serving_running|done].
  - destruct (downloading p) eqn:Hs; [|done..]. intros [= <-]. by apply start_download_spec.
  - destruct (downloading p) as [|t0 s|] eqn:Hs; [done| |done].
    destruct (download_event c e); [|done]. cbn [negb].
    intros (s' & Hrun & [= <-])%bind_Some. by apply (download_step_spec e t0 s s' p).
  - destruct (downloading p) as [|t0 s|] eqn:Hs; [done| |done].
    destruct (wait_returns _ _ s); [|done]. intros [= <-]. by apply return_download_spec.
  - destruct (serving p); [|done]. intros [= <-]. by split.
  - destruct (watching p); [|done]. cbn [negb]. destruct (_ && _); intros [= <-]; [|by split].
    split; [|done]. by destruct (ctxCancel_running p Hr).
  - destruct (watching p); [|done]. intros [= <-]. split; [|done].
    by destruct (ctxCancel_running p Hr).
  - destruct (watching p), (ctx_done p) eqn:Hc; try done. intros [= <-]. split; [|done].
    by split; cbn; rewrite ?Hc.
  - unfold event_verdict, heartbeat_panic. destruct (PeerRegistry c) as [pr|]; [|done].
    destruct (NewTicker _); intros [= <-]; by eexists || by split.
Qed.

Lemma main_step_alive e p p' : main_step e p = Some p' → crashed p = None.
Proof. unfold Program.main_step. by destruct (crashed p). Qed.

(** What a run does, given what goes wrong along it. *)
Lemma main_steps_spec l p p' :
  running p → main_steps l p = Some p' → step_spec (run_verdict l p) p p'.
Proof.
  revert p. induction l as [|e l IH]; intros p Hr; [by intros [= <-]|].
  cbn [Program.main_steps run_verdict]. destruct (main_step e p) as [p1|] eqn:He; [|done].
  cbn [mbind option_bind]. intros Hl. pose proof (main_step_spec e p p1 Hr He) as H1.
  destruct (event_verdict e p); cbn [step_spec] in H1.
  - destruct H1 as [Hr1 Hx]. specialize (IH p1 Hr1 Hl).
    destruct (run_verdict l p1); cbn in *; by rewrite <- ?Hx.
  - destruct H1 as [Hr1 Hx]. specialize (IH p1 Hr1 Hl).
    destruct (run_verdict l p1); cbn in *; [|done..]. by rewrite <- Hx.
  - destruct l as [|e' l]; [by injection Hl as <-|]. cbn [Program.main_steps] in Hl.
    apply bind_Some in Hl as (p2 & H2 & _). apply main_step_alive in H2. destruct H1; congruence.
Qed.

Lemma main_steps_app l1 l2 p p1 :
  main_steps l1 p = Some p1 → main_steps (l1 ++ l2) p = main_steps l2 p1.
Proof.
  revert p. induction l1 as [|e l1 IH]; intros p; [by intros [= ->]|]. cbn [app Program.main_steps].
  destruct (main_step e p); [|done]. cbn [mbind option_bind]. apply IH.
Qed.

(** * The goroutines return

    The events that need nothing from outside once the context is cancelled: the steps of the
    downloaders' own threads, and the returns. *)
Definition own_event (e : main_event) : Prop :=
  match e with
  | SeesDone | ServeReturns None | DownloadStarts _ _ | DownloadReturns _ => True
  | DownloadStep e => ∃ k, thread_event k e = true
  | _ => False
  end.

(** A run of the download machine is a run of the process. *)
Lemma download_steps l s s' p t0 :
  Forall (λ e, ∃ k, thread_event k e = true) l → run_download_events l s = Some s' →
  crashed p = None → downloading p = Waiting t0 s →
  ∃ p', main_steps (DownloadStep <$> l) p = Some p' ∧ downloading p' = Waiting t0 s' ∧
    serving p' = serving p ∧ watching p' = watching p ∧
    (mc_panicked (sy_main s) = false → mc_panicked (sy_main s') = true → is_Some (crashed p')).
Proof.
  intros Hl. revert s p. induction Hl as [|e l [k He] Hl IH]; intros s p.
  { intros [= <-] Ha Hs. exists p. split_and!; [done..|congruence]. }
  cbn [run_events fmap list_fmap Program.main_steps]. intros (s1 & H1 & Hrun)%bind_Some Ha Hs.
  unfold Program.main_step. rewrite Ha, Hs.
  assert (download_event c e = true) as -> by by destruct e. cbn [negb]. rewrite H1.
  cbn [mbind option_bind]. destruct (mc_panicked (sy_main s1)) eqn:Hpan.
  - destruct l as [|e' l].
    { injection Hrun as <-. eexists. split; [done|]. cbn. split_and!; [done..|]. by eexists. }
    cbn [run_events] in Hrun. apply bind_Some in Hrun as (s2 & H2 & _).
    apply run_event_not_panicked in H2. congruence.
  - destruct (IH s1 (store_code (mc_ExitCode (sy_main s1)) (set_downloading (Waiting t0 s1) p))
      Hrun Ha eq_refl) as (p' & Hp' & Hs' & Hsv & Hwt & Hcr).
    exists p'. split; [exact Hp'|]. split_and!; [done..|by intros _; apply Hcr].
Qed.

Context (Hpeer : (1 ≤ flagPeerNumConcurrent f)%Z) (Hlocal : (1 ≤ flagLocalNumConcurrent f)%Z).

(** A cancelled download returns. *)
Lemma waiting_returns p t0 s :
  running p → downloading p = Waiting t0 s → ctx_done p = true →
  ∃ l p', Forall own_event l ∧ main_steps l p = Some p' ∧
    (is_Some (crashed p') ∨ (∃ w, downloading p' = Returned w) ∧
      serving p' = serving p ∧ watching p' = watching p).
Proof.
  intros Hr Hs Hc. pose proof Hr as [Ha Hm _ _]. rewrite Hs in Hm.
  destruct Hm as (Hlive & Hpan & Hctx & _). specialize (Hctx Hc).
  destruct (ranges_bound (mc_ChunkManager (sy_main s))) as [M Hb].
  destruct (downloaders_finish Dst_storage xxh3 (onFileComplete (mainCommand c))
    (flagVerifyOnComplete f) peerNum localNum (flagTransferIdleTimeout f) M
    (length (sy_execs s)) s) as (l & s' & Hl & Hrun & Hend); try done; try lia.
  destruct (download_steps l s s' p t0 Hl Hrun Ha Hs) as (p' & Hp' & Hs' & Hsv & Hwt & Hcr).
  assert (Forall own_event (DownloadStep <$> l)) as Hown by by apply Forall_fmap.
  destruct (mc_panicked (sy_main s')) eqn:Hpan'.
  { exists (DownloadStep <$> l), p'. split_and!; [done..|left; by apply Hcr]. }
  destruct (Hend eq_refl) as (Hc' & Hlen & Hexit).
  destruct (crashed p') eqn:Ha'.
  { exists (DownloadStep <$> l), p'. split_and!; [done..|left; by rewrite Ha']. }
  assert (wait_returns (flagTransferIdleTimeout f) (has_peers c) s' = true) as Hw.
  { unfold wait_returns. rewrite Hc', andb_true_r. apply forallb_forall.
    intros ex [k Hk]%list_elem_of_In%list_elem_of_lookup. rewrite (Hexit k ex); [done| |done].
    rewrite <- Hlen. by eapply lookup_lt_Some. }
  exists ((DownloadStep <$> l) ++ [DownloadReturns 0]), (return_download t0 s' 0 p').
  split_and!.
  - apply Forall_app. split; [done|]. by repeat constructor.
  - rewrite (main_steps_app _ _ _ _ Hp'). cbn [Program.main_steps]. unfold Program.main_step.
    by rewrite Ha', Hs', Hw.
  - unfold Program.return_download. destruct (CompleteTransfer _ _ _) as [r w].
    destruct (finish_download _ _ _ _ _) as [[m o]|e|msg]; [|right|left; by eexists].
    + right. destruct (flagExitComplete f); cbn; eauto.
    + cbn; eauto.
Qed.

Lemma main_step_ctx e p p' :
  main_step e p = Some p' → e = SignalReceived ∨ ctx_done p = true → ctx_done p' = true.
Proof.
  unfold Program.main_step. destruct (crashed p); [done|].
  unfold Program.start_download, Program.return_download.
  intros Hstep Hc. destruct e; repeat case_match; simplify_option_eq;
    repeat case_match; destruct Hc; done.
Qed.

Lemma main_steps_ctx l p p' :
  main_steps l p = Some p' → SignalReceived ∈ l ∨ ctx_done p = true → ctx_done p' = true.
Proof.
  revert p. induction l as [|e l IH]; intros p; [intros [= <-]; set_solver|].
  cbn [Program.main_steps]. intros (p1 & H1 & Hl)%bind_Some Hc. apply (IH p1 Hl).
  pose proof (main_step_ctx e p p1 H1). set_solver.
Qed.

Lemma start_download_frame choice t0 w p :
  let p' := start_download choice t0 w p in
  is_Some (crashed p') ∨
  serving p' = serving p ∧ watching p' = watching p ∧ ∀ w', downloading p' ≠ Starting w'.
Proof.
  unfold Program.start_download. destruct (download_destination c) as [[dir|]|e|msg];
    [|by right..|left; by eexists].
  destruct (SetupTransfer (Main.ChunkManager c) (LocalStorage dir) w) as [[u|e|msg] w1]; [by right..|left; by eexists].
Qed.

(** The download, however far it is, returns. *)
Lemma download_returns p :
  running p → ctx_done p = true →
  ∃ l p', Forall own_event l ∧ main_steps l p = Some p' ∧
    (is_Some (crashed p') ∨ (∃ w, downloading p' = Returned w) ∧
      serving p' = serving p ∧ watching p' = watching p).
Proof.
  intros Hr Hc. destruct (downloading p) as [w|t0 s|w] eqn:Hs;
    [|by apply waiting_returns with t0 s|exists [], p; split_and!; [constructor|done|by right; eauto]].
  set (p1 := start_download (λ n, n) 0%Z w p).
  assert (main_step (DownloadStarts (λ n, n) 0%Z) p = Some p1) as H1
    by (unfold Program.main_step; by rewrite (ru_alive _ Hr), Hs).
  pose proof (main_step_ctx _ _ _ H1 (or_intror Hc)) as Hc1.
  assert (∀ l p', main_steps l p1 = Some p' →
    main_steps (DownloadStarts (λ n, n) 0%Z :: l) p = Some p') as Hcons
    by (intros l p' Hl; cbn [Program.main_steps]; by rewrite H1).
  destruct (crashed p1) eqn:Ha1.
  { exists [DownloadStarts (λ n, n) 0%Z], p1. split_and!; [by repeat constructor|by apply Hcons|].
    left. by rewrite Ha1. }
  assert (running p1) as Hr1.
  { pose proof (main_step_spec _ _ _ Hr H1) as Hspec.
    destruct (event_verdict _ p); [apply Hspec..|]. destruct Hspec. congruence. }
  destruct (start_download_frame (λ n, n) 0%Z w p) as [[msg Hm]|(Hsv & Hwt & Hns)];
    [fold p1 in Hm; congruence|]. fold p1 in Hsv, Hwt, Hns.
  destruct (downloading p1) as [w1|t0 s|w1] eqn:Hs1; [by destruct (Hns w1)| |].
  - destruct (waiting_returns p1 t0 s Hr1 Hs1 Hc1) as (l & p' & Hl & Hp' & Hend).
    exists (DownloadStarts (λ n, n) 0%Z :: l), p'. rewrite <- Hsv, <- Hwt.
    split_and!; [by constructor|by apply Hcons|done].
  - exists [DownloadStarts (λ n, n) 0%Z], p1. split_and!; [by repeat constructor|by apply Hcons|].
    right. eauto.
Qed.

(** Then the watcher notices and shuts the server down, which returns. *)
Lemma goroutines_return p :
  running p → ctx_done p = true →
  ∃ l p', Forall own_event l ∧ main_steps l p = Some p' ∧
    (is_Some (crashed p') ∨ main_returns p' = true).
Proof.
  intros Hr Hc. destruct (download_returns p Hr Hc) as (l & p1 & Hl & Hp1 & Hend).
  destruct Hend as [Hcr|([w Hw] & Hsv & Hwt)]; [by exists l, p1; auto|].
  destruct (crashed p1) eqn:Ha; [exists l, p1; split_and!; [done..|left; by rewrite Ha]|].
  pose proof (main_steps_ctx _ _ _ Hp1 (or_intror Hc)) as Hc1.
  exists (l ++ (if watching p1 then [SeesDone] else []) ++ (if serving p1 then [ServeReturns None] else [])).
  exists (set_serving false (set_watching false p1)). split_and!.
  - apply Forall_app. split; [done|]. destruct (watching p1), (serving p1); by repeat constructor.
  - rewrite (main_steps_app _ _ _ _ Hp1). clear Hp1 Hsv Hwt.
    destruct p1 as [x cd sv dl wt ls cr]. cbn in *. subst. by destruct wt, sv.
  - right. unfold main_returns. cbn. by rewrite Hw.
Qed.

(** ** From the start *)

Lemma main_start_running now w : running (main_start now w).
Proof. split; cbn; [done|done|by exists w|done]. Qed.

(** What [main] makes of its goroutines. *)
Lemma goroutines_end now w events p :
  main_steps events (main_start now w) = Some p →
  match run_verdict events (main_start now w) with
  | Crash => is_Some (crashed p)
  | v => crashed p = None ∧ ExitCode p = match v with Failure => 1%Z | _ => 0%Z end ∧
      (SignalReceived ∈ events → ctx_done p = true) ∧
      (main_returns p = true → is_panic (download_destination c) = false) ∧
      (ctx_done p = true → ∃ l p', Forall own_event l ∧
        main_steps (events ++ l) (main_start now w) = Some p' ∧
        (is_Some (crashed p') ∨ main_returns p' = true))
  end.
Proof.
  intros Hp. pose proof (main_steps_spec _ _ _ (main_start_running now w) Hp) as Hspec.
  assert (running p → crashed p = None ∧ (SignalReceived ∈ events → ctx_done p = true) ∧
      (main_returns p = true → is_panic (download_destination c) = false) ∧
      (ctx_done p = true → ∃ l p', Forall own_event l ∧
        main_steps (events ++ l) (main_start now w) = Some p' ∧
        (is_Some (crashed p') ∨ main_returns p' = true))) as Hall.
  { intros Hr. split_and!; [apply Hr|intros Hs; by eapply main_steps_ctx; eauto|..].
    - unfold main_returns. destruct (is_panic _) eqn:Hd; [|done].
      destruct (ru_destination _ Hr Hd) as [w' ->]. by rewrite andb_false_r.
    - intros Hc. destruct (goroutines_return p Hr Hc) as (l & p' & Hl & Hp' & Hend).
      exists l, p'. split_and!; [done|by rewrite (main_steps_app _ _ _ _ Hp)|done]. }
  destruct (run_verdict _ _); cbn [step_spec] in Hspec; [..|done];
    destruct Hspec as [Hr Hx]; specialize (Hall Hr); naive_solver.
Qed.
End goroutines.

(** * The program *)

Section program.
Context {W : Type} `{OS W} `{HttpTransport W} `{Gozstd} `{ManifestCodec} `{SliceSort}.
Context (xxh3 : bytes → Z) (major minor : string) (url_Parse : string → result URL).
Context (LookupIP : string → string → io W (list string)).
Context (LookupSRV : string → string → io W (list (string * Z))).
Context (filepath_Abs : string → result string) (json_heartbeat : HeartbeatRequest → result bytes).
Context (onFileComplete : Command → string → Z → io W unit) (net_Listen : string → io W unit).
Context (uuid : string) (waits polls : nat) (now : Time) (heartbeat_first : bool).
Local Abbreviation Init f := (Init xxh3 major minor url_Parse LookupIP LookupSRV filepath_Abs
  json_heartbeat f uuid polls).
Local Abbreviation wait_host := (wait_host waits).
Local Abbreviation main_run := (main_run xxh3 major minor url_Parse LookupIP LookupSRV filepath_Abs
  json_heartbeat onFileComplete net_Listen uuid waits polls now heartbeat_first).
Local Abbreviation main_program := (main_program xxh3 major minor url_Parse LookupIP LookupSRV
  filepath_Abs json_heartbeat onFileComplete net_Listen uuid waits polls now heartbeat_first).
Local Abbreviation run_goroutines := (run_goroutines xxh3 onFileComplete now).

Lemma io_result_bind {A B} (m : io W A) (k : result A → io W B) w :
  (io_result m ≫= k) w = k (m w).1 (m w).2.
Proof. rewrite io_bind_unfold. unfold io_result. by destruct (m w). Qed.

(** What [Init] guarantees the goroutines: workers, and a destination unless there is no
    source either. *)
Lemma Init_workers f w :
  post (Init f) w (λ r _, match r with
    | Ok c => (1 ≤ flagPeerNumConcurrent f)%Z ∧ (1 ≤ flagLocalNumConcurrent f)%Z ∧
        (Src c = None → Dst c = None → is_panic (download_destination c) = true)
    | _ => True
    end).
Proof.
  unfold Main.Init. destruct (negb _); [done|]. destruct (_ || _); [done|].
  do 7 (apply post_bind_ok; [intros ? ? _|by intros [] ? []]).
  destruct (_ || _) eqn:Hp; [done|]. apply orb_false_iff in Hp as [Hp%Z.ltb_ge _].
  destruct ((flagLocalNumConcurrent f <? 1)%Z || _) eqn:Hl; [done|].
  apply orb_false_iff in Hl as [Hl%Z.ltb_ge _].
  apply post_bind_ok; [intros ? ? _|by intros [] ? []].
  unfold post. cbn. split_and!; [done|done|]. by intros -> ->.
Qed.

(** A part of [main]'s own goroutine went before the rest: an error makes the exit code 1, and a
    panic does not, since the deferred [os.Exit] comes first. *)
Definition main_verdict {A} (r : result A) (v : verdict) : verdict :=
  match r with Ok _ => v | Err _ => Failure | Panic _ => Fine end.

Definition program_verdict (f : flags) (events : list main_event) (w : W) : verdict :=
  let '(waited, w1) := wait_host f w in
  let '(inited, w2) := Init f w1 in
  let '(listener, w3) := net_Listen (Addr (CreateHttpServer f)) w2 in
  main_verdict waited (main_verdict inited match inited with
    | Ok c =>
      match (if heartbeat_first then heartbeat_panic c else None) with
      | Some _ => Crash
      | None => main_verdict listener (run_verdict xxh3 onFileComplete f c events (main_start now w3))
      end
    | _ => Fine
    end).

Definition exit_code (v : verdict) : Z :=
  match v with Fine => 0 | Failure => 1 | Crash => 2 end.

(** What can be seen of a program that got past the flags: once it has ended ([Some]), and while
    its goroutines run. *)
Definition run_outcome (f : flags) (events : list main_event) (w : W)
    (x : option (Z * list action)) : Prop :=
  let '(waited, w1) := wait_host f w in
  let '(inited, w2) := Init f w1 in
  let '(listener, w3) := net_Listen (Addr (CreateHttpServer f)) w2 in
  let v := program_verdict f events w in
  match x with
  | Some (code, actions) =>
    code = exit_code v ∧
    match v with
    | Crash => ∃ msg, actions = [SetVerbose (flagVerbose f); PanicTrace msg]
    | _ =>
      last actions = Some CloseLogger ∧
      (StopCommand ∈ actions ↔ is_ok waited && is_ok inited = true) ∧
      (PrintAllStatistics ∈ actions ↔ is_ok waited && is_ok inited = true)
    end ∧
    (∀ c, inited = Ok c → Src c = None → Dst c = None →
      is_ok waited && is_ok listener = true → v = Crash)
  | None =>
    is_ok waited = true ∧ is_ok listener = true ∧ ∃ c, inited = Ok c ∧
    ∀ p, main_steps xxh3 onFileComplete f c events (main_start now w3) = Some p →
      (SignalReceived ∈ events → ctx_done p = true) ∧
      (ctx_done p = true → ∃ l y w', Forall own_event l ∧
        main_run f (events ++ l) w = (Ok (Some y), w'))
  end.

Lemma Fin_actions c :
  StopCommand ∈ MainContext_Fin c ∧ PrintAllStatistics ∈ MainContext_Fin c.
Proof. unfold MainContext_Fin. destruct (PeerRegistry c); set_solver. Qed.

(** The deferred calls of a [main] that has deferred [Fin], or not. *)
Lemma exit_actions f (deferred : list action) (fin : bool) :
  deferred = [] ∧ fin = false ∨ (∃ c, deferred = MainContext_Fin c) ∧ fin = true →
  let actions := SetVerbose (flagVerbose f) :: deferred ++ [CloseLogger] in
  last actions = Some CloseLogger ∧ (StopCommand ∈ actions ↔ fin = true) ∧
  (PrintAllStatistics ∈ actions ↔ fin = true).
Proof.
  intros Hfin. cbv zeta. split; [by rewrite app_comm_cons, last_snoc|].
  destruct Hfin as [[-> ->]|[[c ->] ->]]; [set_solver|]. destruct (Fin_actions c). set_solver.
Qed.

(** [main] up to its goroutines. *)
Lemma main_run_goroutines f events w w1 c w2 w3 :
  wait_host f w = (Ok (), w1) → Init f w1 = (Ok c, w2) →
  (if heartbeat_first then heartbeat_panic c else None) = None →
  net_Listen (Addr (CreateHttpServer f)) w2 = (Ok (), w3) →
  main_run f events w = run_goroutines f c events w3.
Proof.
  intros Hw Hi Hb Hn. unfold Program.main_run. rewrite io_result_bind, Hw. cbn [fst snd].
  by rewrite io_result_bind, Hi; cbn [fst snd]; rewrite Hb, io_result_bind, Hn.
Qed.

Lemma run_goroutines_spec f c events w :
  (1 ≤ flagPeerNumConcurrent f)%Z → (1 ≤ flagLocalNumConcurrent f)%Z →
  let v := run_verdict xxh3 onFileComplete f c events (main_start now w) in
  ∃ x w', run_goroutines f c events w = (Ok x, w') ∧
  match x with
  | Some (code, actions) =>
    code = exit_code v ∧
    match v with
    | Crash => ∃ msg, actions = [SetVerbose (flagVerbose f); PanicTrace msg]
    | _ => actions = SetVerbose (flagVerbose f) :: MainContext_Fin c ++ [CloseLogger] ∧
        is_panic (download_destination c) = false
    end
  | None =>
    ∀ p, main_steps xxh3 onFileComplete f c events (main_start now w) = Some p →
      (SignalReceived ∈ events → ctx_done p = true) ∧
      (ctx_done p = true → ∃ l y w', Forall own_event l ∧
        run_goroutines f c (events ++ l) w = (Ok (Some y), w'))
  end.
Proof.
  intros Hpeer Hlocal v. unfold Program.run_goroutines.
  destruct (main_steps _ _ _ _ events _) as [p|] eqn:Hp;
    [|eexists _, _; split; [reflexivity|]; intros p Hp'; congruence].
  pose proof (goroutines_end xxh3 onFileComplete f c Hpeer Hlocal now w events p Hp) as Hend.
  fold v in Hend. eexists _, _. split; [reflexivity|].
  assert (∀ l p', main_steps xxh3 onFileComplete f c (events ++ l) (main_start now w) = Some p' →
    is_Some (crashed p') ∨ main_returns p' = true → ∃ y w', Program.run_goroutines xxh3 onFileComplete
      now f c (events ++ l) w = (Ok (Some y), w')) as Hgo.
  { intros l p' Hl Hp'. unfold Program.run_goroutines. rewrite Hl.
    destruct Hp' as [[msg ->]|Hp']; [by eexists _, _|]. rewrite Hp'.
    destruct (crashed p'); by eexists _, _. }
  destruct v; [| |destruct Hend as [msg ->]; cbn; eauto].
  all: destruct Hend as (-> & Hx & Hsig & Hdest & Hstop).
  all: destruct (main_returns p); [cbn; rewrite Hx; eauto|].
  all: intros p' Hp'; assert (p' = p) as -> by congruence; split; [done|].
  all: intros Hc; destruct (Hstop Hc) as (l & p' & Hl & Hp2 & Hpp);
    destruct (Hgo l p' Hp2 Hpp) as (y & w' & Hy); eauto 10.
Qed.

Lemma main_run_spec f events w :
  ∃ x w', main_run f events w = (Ok x, w') ∧ run_outcome f events w x.
Proof.
  unfold run_outcome, program_verdict.
  destruct (wait_host f w) as [waited w1] eqn:Hwait. destruct (Init f w1) as [inited w2] eqn:Hinit.
  destruct (net_Listen _ w2) as [listener w3] eqn:Hlisten.
  assert (main_run f events w = main_run f events w) as Hrun by done.
  revert Hrun. unfold Program.main_run at 2. rewrite io_result_bind, Hwait. cbn [fst snd].
  destruct waited as [[]|e|msg].
  2,3: intros ->; eexists _, _; split; [reflexivity|]; split; [done|];
    split; [by apply exit_actions; left|done].
  rewrite io_result_bind, Hinit. cbn [fst snd main_verdict].
  destruct inited as [c|e|msg].
  2,3: intros ->; eexists _, _; split; [reflexivity|]; split; [done|];
    split; [by apply exit_actions; left|done].
  pose proof (Init_workers f w1) as Hc. unfold post in Hc. rewrite Hinit in Hc.
  destruct Hc as (Hpeer & Hlocal & Hdest). cbn [main_verdict].
  destruct (if heartbeat_first then heartbeat_panic c else None) as [msg|] eqn:Hb.
  { intros ->. eexists _, _. split; [reflexivity|]. split; [done|]. split; [by eexists|done]. }
  rewrite io_result_bind, Hlisten. cbn [fst snd].
  destruct listener as [[]|e|msg]; cbn [main_verdict].
  2,3: intros ->; eexists _, _; split; [reflexivity|]; split; [done|];
    split; [by apply exit_actions; right; eauto|done].
  intros Hrun. destruct (run_goroutines_spec f c events w3 Hpeer Hlocal) as (x & w' & Hx & Hspec).
  exists x, w'. split; [by rewrite Hrun|]. destruct x as [[code actions]|].
  - destruct Hspec as [Hcode Hact]. split; [done|].
    destruct (run_verdict _ _ _ _ _ _) eqn:Hv; [| |split; [done|by intros]].
    all: destruct Hact as [-> Hnd]; split; [by apply exit_actions; right; eauto|].
    all: intros c' [= <-] Hs Hd; specialize (Hdest Hs Hd); congruence.
  - split_and!; [done|done|]. exists c. split; [done|]. intros p Hp.
    destruct (Hspec p Hp) as [Hsig Hstop]. split; [done|]. intros Hc.
    destruct (Hstop Hc) as (l & y & w4 & Hl & Hy). exists l, y, w4. split; [done|].
    by rewrite (main_run_goroutines f (events ++ l) w w1 c w2 w3 Hwait Hinit Hb Hlisten).
Qed.

(** C14: how the program ends. Arguments it cannot parse end it with code 2, [-help] and
    [-version] with code 0, before anything is touched. Otherwise, whatever the order in which
    the server, the steps of the download machine, its return, idle ticks, signals and the
    heartbeat goroutine come, an ended program exits with 2 when a goroutine panicked, with 1 when
    something failed (the wait for a host, [Init], listening, the server, the preparation or the
    commit of the destination, its verification, a manifest that is not the seeder's, the idle
    timeout) and nothing panicked, and else with 0. Without a panic the logger is closed last,
    and commands are waited for and statistics printed exactly when [Init] had succeeded; a
    panic skips all of that. With neither a source nor a destination a program that listens can
    only end by a panic. And [main] does not hang: a signal cancels its context, and once that
    is done, however far the download is, the steps of the download's own threads and the returns
    they enable lead to the end of the program. *)
Theorem program_exit args events w :
  ∃ x w', main_program args events w = (Ok x, w') ∧
    match parse_args args with
    | BadFlag msg => x = Some (2%Z, [PrintError msg; PrintUsage]) ∧ w' = w
    | HelpRequested => x = Some (0%Z, [PrintUsage]) ∧ w' = w
    | Parsed vs =>
      let f := flags_of vs in
      if flagShowHelp f then x = Some (0%Z, [PrintUsage]) ∧ w' = w
      else if flagVersion f then x = Some (0%Z, [PrintVersion]) ∧ w' = w
      else run_outcome f events w x
    end.
Proof.
  unfold Program.main_program. destruct (parse_args args) as [vs| |msg]; [|by eexists _, _..].
  cbv zeta. destruct (flagShowHelp _); [by eexists _, _|].
  destruct (flagVersion _); [by eexists _, _|]. apply main_run_spec.
Qed.
End program.
