(* ===== verification/MemOS.v ===== *)
(** A small file system in memory that keeps the promises of the operating system in
    LocalStorage.v. It models no code: it shows the promises can be kept, and the concrete
    examples run on it. There are no links between files, and any call can be made to fail
    ([fs_fails] says which, by number). *)
From S2P Require Import Prelude Bytes GoStrings Types Storage LocalStorage.

Inductive node :=
| NDir (perm : Z)
| NSymlink (target : string)
| NFile (perm : Z) (data : bytes).

Record fs := mkFs { fs_nodes : gmap string node; fs_fails : nat → bool; fs_clock : nat }.

Definition set_nodes (m : gmap string node) (w : fs) : fs := mkFs m (fs_fails w) (fs_clock w).

(** A call fails when its turn has come to fail. *)
Definition call {A} (body : io fs A) : io fs A := λ w,
  let w' := mkFs (fs_nodes w) (fs_fails w) (S (fs_clock w)) in
  if fs_fails w (fs_clock w) then (Err (errors_New "input/output error"), w') else body w'.

Definition ENOENT : error := errors_New "no such file or directory".

Record mem_file := mkMemFile { mf_path : string; mf_offset : Z }.

Definition node_info (n : node) : FileInfo :=
  match n with
  | NDir p => mkFileInfo KindDir p 0
  | NSymlink _ => mkFileInfo KindSymlink 511 0
  | NFile p d => mkFileInfo KindRegular p (Z.of_nat (length d))
  end.

Definition stat (p : string) : io fs FileInfo := call (λ w,
  match fs_nodes w !! p with Some n => (Ok (node_info n), w) | None => (Err ENOENT, w) end).

(** The prefixes of a path that are directories on the way to it, and itself. *)
Definition path_prefixes (p : string) : list string :=
  let elems := strings_Split "/" p in
  (λ k, join_slash (take (S k) elems)) <$> seq 0 (length elems).

Definition mkdir_all (p : string) (perm : Z) : io fs unit := call (λ w,
  (Ok (), set_nodes (foldl (λ m q, match m !! q with None => <[q := NDir perm]> m | _ => m end)
    (fs_nodes w) (path_prefixes p)) w)).

Definition chmod_node (perm : Z) (n : node) : node :=
  match n with NDir _ => NDir perm | NFile _ d => NFile perm d | n => n end.

Definition parent_of (p : string) : string :=
  join_slash (reverse (tail (reverse (strings_Split "/" p)))).
Definition base_of (p : string) : string := default "" (head (reverse (strings_Split "/" p))).

Definition mem_inode (w : fs) (p : string) : option positive :=
  match fs_nodes w !! p with Some (NFile _ _) => Some (encode p) | _ => None end.
Definition mem_data (w : fs) (j : positive) : bytes :=
  match decode j with
  | Some p =>
    if decide (encode p = j)
    then match fs_nodes w !! p with Some (NFile _ d) => d | _ => [] end else []
  | None => []
  end.

Definition open_file (p : string) (fl : OpenFlags) (perm : Z) : io fs mem_file := call (λ w,
  match fs_nodes w !! p with
  | Some (NFile perm d) =>
    (Ok (mkMemFile p 0),
     if fl_trunc fl then set_nodes (<[p := NFile perm []]> (fs_nodes w)) w else w)
  | Some _ => (Err (errors_New "not a regular file"), w)
  | None =>
    if fl_create fl then (Ok (mkMemFile p 0), set_nodes (<[p := NFile perm []]> (fs_nodes w)) w)
    else (Err ENOENT, w)
  end).

(** A write that fails stores nothing. *)
Definition write_file (f : mem_file) (data : bytes) (w : fs) : (nat * option error) * fs :=
  let '(r, w) := call (λ w,
    match fs_nodes w !! mf_path f with
    | Some (NFile perm d) => (Ok (), set_nodes
        (<[mf_path f := NFile perm (write_at (mf_offset f) data d)]> (fs_nodes w)) w)
    | _ => (Err ENOENT, w)
    end) w in
  match r with
  | Ok _ => ((length data, None), w)
  | Err e => ((0, Some e), w)
  | Panic _ => ((0, Some ENOENT), w)
  end.

#[export] Instance mem_os : OS fs := {|
  File := mem_file;
  os_Stat := stat;
  os_IsNotExist e := match e with errors_New m => bool_decide (m = "no such file or directory")
                     | _ => false end;
  os_MkdirAll := mkdir_all;
  os_Chmod p perm := call (λ w,
    match fs_nodes w !! p with
    | Some n => (Ok (), set_nodes (<[p := chmod_node perm n]> (fs_nodes w)) w)
    | None => (Err ENOENT, w)
    end);
  os_Remove p := call (λ w, (Ok (), set_nodes (delete p (fs_nodes w)) w));
  os_Symlink target p := call (λ w,
    match fs_nodes w !! p with
    | None => (Ok (), set_nodes (<[p := NSymlink target]> (fs_nodes w)) w)
    | Some _ => (Err (errors_New "file exists"), w)
    end);
  os_Readlink p := call (λ w,
    match fs_nodes w !! p with Some (NSymlink t) => (Ok t, w) | _ => (Err ENOENT, w) end);
  os_ReadDir p := call (λ w,
    (Ok (merge_sort String.le (base_of <$> filter (λ q, parent_of q = p ∧ q ≠ "")
      (map_to_list (fs_nodes w)).*1)), w));
  os_Lstat := stat;
  os_OpenFile := open_file;
  File_Seek f off := call (λ w, (Ok (mkMemFile (mf_path f) off), w));
  File_Write := write_file;
  File_reader f w := mkReader
    (drop (Z.to_nat (mf_offset f)) (mem_data w (encode (mf_path f)))) [] None;
  File_Close f := call (λ w, (Ok (), w));
  syscall_Ftruncate f size := call (λ w,
    match fs_nodes w !! mf_path f with
    | Some (NFile perm d) => (Ok (), set_nodes
        (<[mf_path f := NFile perm (truncate_to size d)]> (fs_nodes w)) w)
    | _ => (Err ENOENT, w)
    end)
|}.

Lemma mem_call {A} (body : io fs A) w (Q : result A → fs → Prop) :
  (∀ w1, fs_nodes w1 = fs_nodes w → post body w1 Q) →
  (∀ w1, fs_nodes w1 = fs_nodes w → Q (Err (errors_New "input/output error")) w1) →
  post (call body) w Q.
Proof.
  intros H1 H2. unfold post, call. destruct (fs_fails w (fs_clock w)); [by apply H2|by apply H1].
Qed.

(** Calls that leave the nodes alone. *)
Definition quiet (w w' : fs) : Prop :=
  (∀ q, mem_inode w' q = mem_inode w q) ∧ (∀ j, mem_data w' j = mem_data w j).

Lemma quiet_nodes w w' : fs_nodes w' = fs_nodes w → quiet w w'.
Proof. intros H. split; intros; unfold mem_inode, mem_data; by rewrite H. Qed.

(** Replacing the data of a file. *)
Lemma mem_set_file w w' p perm d perm' d' :
  fs_nodes w !! p = Some (NFile perm d) →
  fs_nodes w' = <[p := NFile perm' d']> (fs_nodes w) →
  (∀ q, mem_inode w' q = mem_inode w q) ∧
  mem_data w (encode p) = d ∧
  (∀ j, mem_data w' j = if decide (j = encode p) then d' else mem_data w j).
Proof.
  intros E Hw. unfold mem_inode, mem_data. rewrite Hw. split_and!.
  - intros q. destruct (decide (q = p)) as [->|].
    + by rewrite lookup_insert_eq, E.
    + by rewrite lookup_insert_ne.
  - rewrite decode_encode, decide_True by done. by rewrite E.
  - intros j. destruct (decide (j = encode p)) as [->|Hj].
    + rewrite decode_encode, decide_True by done. by rewrite lookup_insert_eq.
    + destruct (decode j) as [q|] eqn:Hq; [|done]. case_decide; [|done].
      rewrite lookup_insert_ne; [done|]. by intros <-.
Qed.

#[export] Instance mem_os_laws : OSLaws fs.
Proof.
  refine {| os_inode := mem_inode; os_data := mem_data;
    File_inode := (λ f, encode (mf_path f)) : @File fs mem_os → positive;
    File_offset := mf_offset : @File fs mem_os → Z |}.
  - intros p fl perm w Hc Ht. apply mem_call; intros w1 Hn;
      [|destruct (quiet_nodes w w1 Hn) as [Hq Hd]; by refine (conj Hq (conj Hd _))].
    pose proof (quiet_nodes w w1 Hn) as [Hq Hd]. unfold post. rewrite Hc, Ht.
    unfold mem_inode at 3. rewrite <- Hn.
    destruct (fs_nodes w1 !! p) as [[]|]; simpl; by refine (conj Hq (conj Hd _)).
  - intros f off w. apply mem_call; intros w1 Hn;
      destruct (quiet_nodes w w1 Hn) as [Hq Hd]; by refine (conj Hq (conj Hd _)).
  - intros f w. apply mem_call; intros w1 Hn;
      destruct (quiet_nodes w w1 Hn) as [Hq Hd]; by refine (conj Hq (conj Hd _)).
  - intros f data w. change (File_Write f data w) with (write_file f data w).
    unfold write_file, call. destruct (fs_fails w (fs_clock w)).
    { split_and!; [lia|done|done|]. intros j. rewrite take_0. by case_decide. }
    cbn [fs_nodes]. destruct (fs_nodes w !! mf_path f) as [[p|t|p d]|] eqn:E.
    1, 2, 4: split_and!; [lia|done|done|]; intros j; rewrite take_0; by case_decide.
    edestruct (mem_set_file w) as (Hq & Hd & Hj); [done| |].
    2: split_and!; [lia|done|exact Hq|].
    { done. }
    intros j. rewrite Hj, firstn_all. case_decide; [subst j|done]. by rewrite Hd.
  - intros f w. cbv zeta. split; [done|]. split; [done|]. done.
Defined.

(** Without failing calls it is healthy. *)
#[export] Instance mem_os_healthy : OSHealthy fs.
Proof.
  refine {| os_healthy := λ w : fs, ∀ n, fs_fails w n = false |}.
  - intros p fl perm w Hw Hc Ht [i Hi]. change (mem_inode w p = Some i) in Hi.
    unfold post. cbn -[fs_fails]. unfold open_file, call, mem_inode in *. rewrite Hw. cbn.
    destruct (fs_nodes w !! p) as [[]|]; [done..| |done]. rewrite Ht. done.
  - intros f off w Hw _. unfold post. cbn -[fs_fails]. unfold call. by rewrite Hw.
  - intros f w Hw. unfold post. cbn -[fs_fails]. unfold call. by rewrite Hw.
  - intros f data w p Hw Hp. change (mem_inode w p = Some (encode (mf_path f))) in Hp.
    change (File_Write f data w) with (write_file f data w).
    unfold write_file, call, mem_inode in *. rewrite Hw. cbn.
    destruct (fs_nodes w !! p) as [[]|] eqn:E; [done..| |done].
    assert (p = mf_path f) as -> by (apply (inj encode); by injection Hp). by rewrite E.
  - done.
Defined.

(** ** Preparing *)

Lemma call_calm {A} (body : io fs A) w :
  (∀ w, post body w (λ r _, calm r)) → post (call body) w (λ r _, calm r).
Proof. intros Hb. apply mem_call; intros; [apply Hb|done]. Qed.

Lemma mem_calm_lookup {A} (f : option node → fs → result A * fs) p w :
  (∀ n w, calm (f n w).1) → post (call (λ w, f (fs_nodes w !! p) w)) w (λ r _, calm r).
Proof. intros Hf. apply call_calm. intros w'. apply Hf. Qed.

Lemma mem_call_quiet {A} (body : io fs A) w :
  (∀ w1, fs_nodes (body w1).2 = fs_nodes w1 ∧ calm (body w1).1) →
  post (call body) w (λ r w', os_same w w' ∧ calm r).
Proof.
  intros Hb. apply mem_call; intros w1 Hn; [|split; [apply (quiet_nodes w w1 Hn)|done]].
  destruct (Hb w1) as [Hn' Hc]. split; [|exact Hc]. apply (quiet_nodes w (body w1).2).
  by rewrite Hn'.
Qed.

#[export] Instance mem_os_prepare_laws : OSPrepareLaws fs.
Proof.
  split.
  - intros p w. by apply mem_call_quiet.
  - intros p w. apply mem_call_quiet. intros w1. by destruct (fs_nodes w1 !! p).
  - intros p w. apply mem_call_quiet. intros w1. by destruct (fs_nodes w1 !! p) as [[]|].
  - intros p w. apply call_calm. intros w1. unfold post. by destruct (fs_nodes w1 !! p).
  - intros p perm w. by apply call_calm.
  - intros p w. by apply call_calm.
  - intros t p w. apply call_calm. intros w1. unfold post. by destruct (fs_nodes w1 !! p).
  - intros p fl perm w. apply call_calm. intros w1. unfold post.
    destruct (fs_nodes w1 !! p) as [[]|]; [done..|]. by destruct (fl_create fl).
  - intros p perm w. apply mem_call; intros w1 Hn;
      [|destruct (quiet_nodes w w1 Hn) as [Hq Hd]; by split_and!].
    destruct (quiet_nodes w w1 Hn) as [Hq Hd]. unfold post.
    destruct (fs_nodes w1 !! p) as [n|] eqn:E; [|by split_and!]. cbn [fst snd].
    assert (∀ q, mem_inode (set_nodes (<[p:=chmod_node perm n]> (fs_nodes w1)) w1) q
      = mem_inode w1 q) as Hi.
    { intros q. unfold mem_inode. cbn. destruct (decide (q = p)) as [->|].
      - rewrite lookup_insert_eq, E. by destruct n.
      - by rewrite lookup_insert_ne. }
    assert (∀ j, mem_data (set_nodes (<[p:=chmod_node perm n]> (fs_nodes w1)) w1) j
      = mem_data w1 j) as Hj.
    { intros j. unfold mem_data. destruct (decode j) as [q|]; [|done]. case_decide; [|done]. cbn.
      destruct (decide (q = p)) as [->|].
      - rewrite lookup_insert_eq, E. by destruct n.
      - by rewrite lookup_insert_ne. }
    split_and!; [intros q; exact (eq_trans (Hi q) (Hq q))|intros j; exact (eq_trans (Hj j) (Hd j))|done].
  - intros p fl perm w Hc Ht. apply mem_call; intros w1 Hn; [|done].
    destruct (quiet_nodes w w1 Hn) as [Hq Hd]. unfold post. rewrite Hc, Ht.
    destruct (fs_nodes w1 !! p) as [[d|t|d b]|] eqn:E; cbn [fst snd]; try done.
    + split_and!; [intros q i Hi; by rewrite <- Hi|cbn; unfold mem_inode; by rewrite E|by intros j _].
    + split_and!.
      * intros q i Hi. cbn. rewrite <- Hq in Hi. unfold mem_inode in *. cbn.
        rewrite lookup_insert_ne; [exact Hi|]. intros <-. by rewrite E in Hi.
      * cbn. unfold mem_inode. cbn. by rewrite lookup_insert_eq.
      * intros j Hj. cbn in Hj |- *. rewrite <- Hd. unfold mem_data.
        destruct (decode j) as [q|] eqn:Hdec; [|done]. case_decide as Henc; [|done]. cbn.
        rewrite lookup_insert_ne; [done|]. by intros <-.
  - intros f size w. apply mem_call; intros w1 Hn;
      [|destruct (quiet_nodes w w1 Hn) as [Hq Hd]; by split_and!].
    destruct (quiet_nodes w w1 Hn) as [Hq Hd]. unfold post.
    destruct (fs_nodes w1 !! mf_path f) as [[d|t|d b]|] eqn:E; cbn [fst snd];
      try by split_and!.
    edestruct (mem_set_file w1 (set_nodes (<[mf_path f:=NFile d (truncate_to size b)]>
      (fs_nodes w1)) w1)) as (Hi & Hb & Hj); [exact E|done|].
    split_and!.
    + intros q. exact (eq_trans (Hi q) (Hq q)).
    + done.
    + intros j Hne. rewrite <- Hd. cbn. cbn in Hne. rewrite Hj. by rewrite decide_False.
    + intros _. rewrite <- Hd. cbn. rewrite Hj, decide_True by done. by rewrite Hb.
Qed.
