(* ===== verification/Examples.v ===== *)
(** Concrete transfers between two directories of the in-memory file system. *)
From S2P Require Import Prelude Bytes GoStrings Types Storage ChunkBuilder ChunkManager ChunkTransfer Delivery LocalStorage MemOS.
From Stdlib Require Import Strings.Byte.

Abbreviation srcStorage := (@LocalStorage fs mem_os "/src").
Abbreviation dstStorage := (@LocalStorage fs mem_os "/dst").

Definition a_data : bytes := [x61; x62; x63; x64; x65].
Definition b_data : bytes := [x31; x32; x33].

(** The source's two files; the destination's, truncated to size. *)
Definition src_world : fs := mkFs
  (list_to_map [("/src/a", NFile 384 a_data); ("/src/b", NFile 420 b_data)]) (λ _, false) 0.
Definition dst_world : fs := mkFs
  (list_to_map [("/dst/a", NFile 384 (replicate 5 x00)); ("/dst/b", NFile 420 (replicate 3 x00))])
  (λ _, false) 0.

(** A hash without collisions: the bytes as digits of a number. *)
Fixpoint toy_hash (b : bytes) : Z :=
  match b with [] => 1 | x :: b => Z.of_N (Byte.to_N x) + 256 * toy_hash b end.

Lemma byte_bound x : (0 ≤ Z.of_N (Byte.to_N x) < 256)%Z.
Proof. by destruct x. Qed.

Lemma toy_hash_inj b b' : length b' = length b → toy_hash b' = toy_hash b → b' = b.
Proof.
  revert b'. induction b as [|x b IH]; intros [|y b'] Hl; try done. cbn [toy_hash]. intros H.
  pose proof (byte_bound x). pose proof (byte_bound y).
  assert (toy_hash b' = toy_hash b) as ->%IH by lia; [|simpl in Hl; lia].
  f_equal. assert (Byte.to_N x = Byte.to_N y) as E by lia.
  apply (f_equal Byte.of_N) in E. rewrite !Byte.of_to_N in E. by injection E.
Qed.

Definition example_manifest : Manifest :=
  mkManifest "1" "0" 4 0 2 [] [] [] example_sorted.
Definition example_manager : ChunkManager :=
  mkChunkManager example_manifest [] example_chunks [0%Z; 0%Z].

Definition no_callback (_ : string) (_ : Z) : io fs unit := mret ().

Lemma no_callback_ok p s w :
  (no_callback p s w).1 = Ok () ∧ same_view dstStorage w (no_callback p s w).2.
Proof. done. Qed.

Definition second_chunk : Chunk :=
  mkChunk [mkFileRange 0 4 5; mkFileRange 1 0 3] ChunkStatusPending 0.

Lemma second_chunk_range_ok : Forall (range_ok example_sorted) (FileRanges second_chunk).
Proof. repeat constructor; simpl; lia || done. Qed.

Lemma second_chunk_range_in : Forall (range_in example_sorted) (FileRanges second_chunk).
Proof.
  repeat constructor; simpl; try lia; try done; intros f [= <-]; simpl; lia.
Qed.

Lemma second_chunk_disjoint : ForallOrdPairs ranges_disjoint (FileRanges second_chunk).
Proof. repeat constructor; done. Qed.

Lemma example_prepared : prepared dstStorage dst_world example_sorted.
Proof.
  split.
  - intros [|[|i]] f; [intros [= <-]; by eexists; (split; [done|by vm_compute])..|done].
  - intros [|[|i]] [|[|j]] f g; try done; intros [= <-] [= <-]; vm_compute; done.
Qed.

Lemma example_sized : sized srcStorage src_world example_sorted.
Proof. intros [|[|i]] f; [intros [= <-]; by eexists; (split; [done|by vm_compute])..|done]. Qed.

Lemma GetChunkReader_exact_witness :
  post (io_Copy_chunk srcStorage example_manager (copy_fuel second_chunk) (GetChunkReader 1) [])
    src_world (λ r w', same_view srcStorage src_world w' ∧ ∃ data err, r = Ok (Some (data, err)) ∧
      (err = None → chunk_bytes srcStorage src_world example_sorted (FileRanges second_chunk)
        = Some data)).
Proof.
  apply (GetChunkReader_exact srcStorage example_manager 1 second_chunk src_world);
    [done|apply second_chunk_range_ok].
Defined.

Lemma WriteChunk_exact_witness :
  post (WriteChunk dstStorage toy_hash no_callback 1 (mkReader (x65 :: b_data) [1; 1] None) 0)
    (example_manager, dst_world) (λ res '(cm', w'),
      match res with Ok n => n = 4%Z | _ => True end).
Proof.
  eapply post_mono.
  - apply (WriteChunk_exact dstStorage example_manager toy_hash no_callback 1 second_chunk
      (mkReader (x65 :: b_data) [1; 1] None) 0 dst_world no_callback_ok);
      [done|apply example_prepared|apply second_chunk_range_in|apply second_chunk_disjoint|done].
  - intros [n| |] [cm' w']; [|done..]. by intros (_ & _ & _ & _ & -> & _).
Defined.

Lemma ComputeChunkChecksum_correct_witness :
  post (ComputeChunkChecksum srcStorage toy_hash (λ _ m, m) 1) (example_manager, src_world)
    (λ res _, match res with Panic _ => False | _ => True end).
Proof.
  eapply post_mono.
  - apply (ComputeChunkChecksum_correct srcStorage toy_hash (λ _ m, m) ltac:(done)
      (λ _, True) 1 second_chunk example_manager src_world); [done|done|apply second_chunk_range_ok|].
    split; [done|]. intros [|[|i]] c x _; try done; by intros _ [= <-].
  - by intros [] [] (_ & _ & ?).
Defined.

(** Four calls: one breaks off, one carries garbage and is caught by its checksum, and
    then both chunks arrive, the second one first. *)
Definition example_attempts : list attempt :=
  [mkAttempt 0 (mkReader [x61; x62] [] (Some (errors_New "unexpected EOF"))) 0;
   mkAttempt 1 (mkReader [x7a; x7a; x7a; x7a; x7a] [] None) (toy_hash (x65 :: b_data));
   mkAttempt 1 (mkReader (x65 :: b_data) [2] None) (toy_hash (x65 :: b_data));
   mkAttempt 0 (mkReader [x61; x62; x63; x64] [0; 0] None) 0].

Lemma example_good :
  Forall (good_attempt srcStorage src_world toy_hash example_sorted example_chunks)
    example_attempts.
Proof.
  assert (source_bytes srcStorage src_world example_sorted example_chunks 0
    = Some [x61; x62; x63; x64]) as H0 by by vm_compute.
  assert (source_bytes srcStorage src_world example_sorted example_chunks 1
    = Some (x65 :: b_data)) as H1 by by vm_compute.
  assert (∀ b', length b' = length (x65 :: b_data) →
    toy_hash b' = toy_hash (x65 :: b_data) → b' = x65 :: b_data) as Hinj
    by (intros; by apply toy_hash_inj).
  repeat (apply Forall_cons_2); [| | | |apply Forall_nil_2]; eexists; (split; [done|]).
  - left. by exists [x63; x64].
  - right. by split_and!.
  - left. by exists [].
  - left. by exists [].
Qed.

Lemma transfer_rebuilds_files_witness :
  let w' := (run_attempts dstStorage toy_hash no_callback example_attempts
               (example_manager, dst_world) ∅).1.2 in
  content dstStorage w' "a" = content srcStorage src_world "a" ∧
  is_Some (content dstStorage w' "a").
Proof.
  pose proof (transfer_rebuilds_files dstStorage srcStorage src_world toy_hash no_callback
    no_callback_ok (H := merge_SliceSort) 4 2 example_files example_sorted example_chunks
    example_manager dst_world example_attempts ltac:(lia) ltac:(forall_lia) ltac:(forall_lia)
    BuildChunks_example eq_refl eq_refl example_sized example_prepared example_good) as H.
  assert (∀ i, i < length example_chunks → i ∈ (run_attempts dstStorage toy_hash no_callback
    example_attempts (example_manager, dst_world) ∅).2) as Hall.
  { intros [|[|i]] Hi; [| |simpl in Hi; lia]; apply (bool_decide_unpack _); by vm_compute. }
  revert H Hall. destruct (run_attempts _ _ _ _ _ _) as [[cm' w'] delivered]. intros H Hall.
  apply (H Hall (mkFileEntry "a" 5 384 0)). apply (bool_decide_unpack _). by vm_compute.
Defined.
