(* ===== verification/CompletionExamples.v ===== *)
(** The reports of complete files, computed on the in-memory file system: one per file when
    no attempt fails, and a report that comes too early after one that did. *)
From S2P Require Import Prelude Bytes GoStrings Types Storage ChunkBuilder ChunkManager ChunkTransfer Delivery LocalStorage MemOS Examples Completion.
From Stdlib Require Import Strings.Byte.

(** * A storage next to a list of calls

    The callback's calls are written down in the second half of the state, which the storage
    does not see. *)
Section with_log.
Context {W L : Type}.

Definition keep_log {A} (m : io W A) : io (W * L) A := λ '(w, l),
  let '(r, w) := m w in (r, (w, l)).

Definition with_log (st : Storage W) : Storage (W * L) := {|
  GetBaseDirectory := GetBaseDirectory st;
  Walk := λ A path fn a '(w, l), let '(r, w) := Walk st path fn a w in (r, (w, l));
  Prepare := keep_log (Prepare st);
  PrepareEntry := λ e, keep_log (PrepareEntry st e);
  CommitEntry := λ e, keep_log (CommitEntry st e);
  Write := λ name off size rd, keep_log (Write st name off size rd);
  GetReader := λ name off size, keep_log (GetReader st name off size)
|}.

Lemma post_keep_log {A} (m : io W A) w (l : L) Q :
  post m w (λ r w', Q r (w', l)) → post (keep_log m) (w, l) Q.
Proof. unfold post, keep_log. by destruct (m w). Qed.

Lemma keep_log_snd {A} (m : io W A) s : (keep_log m s).2.2 = s.2.
Proof. destruct s as [w l]. unfold keep_log. by destruct (m w). Qed.

#[export] Instance with_log_spec (st : Storage W) `{!StorageSpec st} :
  StorageSpec (with_log st).
Proof.
  refine {| st_inode s n := st_inode st s.1 n; st_data s i := st_data st s.1 i |}.
  - intros [w l] name i off size rd Hi Ho Hs. cbn. apply post_keep_log.
    by apply (Write_spec (st := st)).
  - intros [w l] name off size Ho Hs. cbn. apply post_keep_log.
    by apply (GetReader_spec (st := st)).
Defined.
End with_log.

(** The callback that writes its calls down. *)
Definition record_call {W} (p : string) (n : Z) : io (W * list (string * Z)) unit :=
  λ '(w, l), (Ok (), (w, l ++ [(p, n)])).

Abbreviation logStorage := (with_log (L := list (string * Z)) dstStorage).
Abbreviation logged_run := (run_attempts logStorage toy_hash record_call).

Lemma record_call_log p s (w : fs * list (string * Z)) :
  (record_call p s w).1 = Ok () ∧ same_view logStorage w (record_call p s w).2 ∧
  (record_call p s w).2.2 = w.2 ++ [(p, s)].
Proof. by destruct w. Qed.

Lemma log_prepared : prepared logStorage (dst_world, []) example_sorted.
Proof.
  split; intros *; [apply (proj1 example_prepared)|apply (proj2 example_prepared)].
Qed.

(** Both chunks, the second one first. *)
Definition clean_attempts : list attempt :=
  [mkAttempt 1 (mkReader (x65 :: b_data) [2] None) (toy_hash (x65 :: b_data));
   mkAttempt 0 (mkReader [x61; x62; x63; x64] [0; 0] None) 0].

Lemma clean_good :
  Forall (good_attempt srcStorage src_world toy_hash example_sorted example_chunks)
    clean_attempts.
Proof.
  pose proof example_good as H. unfold example_attempts in H.
  rewrite !Forall_cons in H. unfold clean_attempts. rewrite !Forall_cons. tauto.
Qed.

Lemma reported_when_complete_witness :
  ∃ complete, NoDup complete ∧
    Forall2 (λ i e, report logStorage <$> example_sorted !! i = Some e) complete
      (logged_run clean_attempts (example_manager, (dst_world, [])) ∅).1.2.2.
Proof.
  pose proof (reported_when_complete logStorage toy_hash record_call snd
    ltac:(intros; apply keep_log_snd) record_call_log srcStorage src_world
    (H := merge_SliceSort) 4 2 example_files example_sorted example_chunks
    example_manager (dst_world, []) clean_attempts ltac:(lia) ltac:(forall_lia)
    ltac:(by repeat constructor) BuildChunks_example ltac:(done) eq_refl eq_refl example_sized
    log_prepared eq_refl clean_good) as H.
  assert (NoDup (at_chunk <$> clean_attempts)) as Hnd by (apply (bool_decide_unpack _); by vm_compute).
  specialize (H Hnd).
  assert (∀ a, a ∈ clean_attempts → at_chunk a ∈ (logged_run clean_attempts
    (example_manager, (dst_world, [])) ∅).2) as Hall.
  { apply Forall_forall, (bool_decide_unpack _). by vm_compute. }
  revert H Hall. destruct (run_attempts _ _ _ _ _ _) as [[cm' w'] delivered]. intros H Hall.
  destruct (H Hall) as (complete & H1 & H2 & _). by exists complete.
Defined.

(** The second chunk arrives; the call for the first one carries garbage, which its checksum
    catches, and [a] is reported with the garbage in it. *)
Definition second_attempt : attempt :=
  mkAttempt 1 (mkReader (x65 :: b_data) [2] None) (toy_hash (x65 :: b_data)).
Definition garbage_attempt : attempt :=
  mkAttempt 0 (mkReader [x7a; x7a; x7a; x7a; x7a] [] None) (toy_hash [x61; x62; x63; x64]).

Lemma second_good :
  Forall (good_attempt srcStorage src_world toy_hash example_sorted example_chunks)
    [second_attempt].
Proof.
  pose proof example_good as H. unfold example_attempts in H.
  rewrite !Forall_cons in H. rewrite !Forall_cons. tauto.
Qed.

Lemma garbage_written :
  match write_ranges logStorage record_call [mkFileRange 0 0 4] (at_reader garbage_attempt) 0
          (logged_run [second_attempt] (example_manager, (dst_world, [])) ∅).1 with
  | (Ok (_, rd'), _) => toy_hash (consumed (at_reader garbage_attempt) rd')
                        ≠ toy_hash [x61; x62; x63; x64]
  | _ => False
  end.
Proof. by vm_compute. Qed.

Lemma garbage_last j c r :
  example_chunks !! j = Some c → r ∈ FileRanges c → FileIndex r = 0 →
  j ∈ (at_chunk <$> [second_attempt]) ++ [at_chunk garbage_attempt].
Proof.
  intros Hj _ _. apply lookup_lt_Some in Hj. vm_compute in Hj.
  destruct j as [|[|j]]; [|..|lia]; apply (bool_decide_unpack _); by vm_compute.
Qed.

