(* ===== verification/HttpExamples.v ===== *)
(** Two peers and the network between them, computed: concrete encodings for the interfaces of
    Http.v and HttpServer.v, and the theorems about requests at concrete inputs. *)
From S2P Require Import Prelude Bytes GoStrings Types Storage ChunkBuilder ChunkManager ChunkTransfer ChunkQueue Statistics Availability Http HttpClosers HttpServer HttpServing PeerDownloader Network Downloader PeerUpdates LocalStorage MemOS Examples.
From Stdlib Require Import Strings.Byte Decimal DecimalString DecimalFacts DecimalPos.

(** * A codec that copies *)

#[local] Instance copy_zstd : Gozstd := {|
  gozstd_CompressLevel data :=
    if (Z.of_nat (length data) <? 2 ^ 63)%Z then Ok data else Err (errors_New "too long");
  gozstd_Writer data := data;
  gozstd_Reader rd := rd
|}.

#[local] Instance copy_zstd_laws : GozstdLaws.
Proof.
  split; cbn; [|done| |done].
  - intros data dst. destruct (Z.ltb_spec (Z.of_nat (length data)) (2 ^ 63)); [|done].
    by intros [= <-].
  - intros. apply prefix_take.
Qed.

(** * Numbers and commas for JSON and times *)

Definition parse_uint (s : string) : option Z :=
  Z.of_N ∘ N.of_uint <$> NilZero.uint_of_string s.

Lemma parse_FormatUint n : (0 ≤ n)%Z → parse_uint (FormatUint n) = Some n.
Proof.
  intros Hn. unfold parse_uint. destruct (uint_of_FormatUint n) as (d & -> & Hd). cbn.
  f_equal. rewrite Hd. by rewrite Z2N.id.
Qed.

Definition comma_list (l : list Z) : string :=
  foldr (λ i s, FormatUint i +:+ String "," s) "" l.

Lemma Split_comma_list l : strings_Split "," (comma_list l) = (FormatUint <$> l) ++ [""].
Proof.
  induction l as [|i l IH]; [done|]. cbn [comma_list foldr]. fold (comma_list l).
  rewrite strings_Split_app by (apply FormatUint_digits; by left). by rewrite IH.
Qed.

Definition comma_encode (al : AvailableList) : string :=
  FormatUint (Timestamp al) +:+ String "," ((if IsCompleted al then "1" else "0") +:+
    String "," (comma_list (TransferChunkIndexList al))).

#[local] Instance comma_codec : ListCodec := {|
  time_Format := FormatUint;
  time_Parse s := match parse_uint s with Some t => Ok t | None => Err (errors_New "time") end;
  json_Marshal al :=
    let b := string_bytes (comma_encode al) in
    if forallb (Z.leb 0) (TransferChunkIndexList al) && (Z.of_nat (length b) <? 2 ^ 63)%Z
    then Ok b else Err (errors_New "json");
  json_Unmarshal b :=
    match strings_Split "," (bytes_string b) with
    | t :: flag :: l =>
      match parse_uint t with
      | Some t => Ok (mkAvailableList t (String.eqb flag "1") (omap parse_uint l))
      | None => Err (errors_New "json")
      end
    | _ => Err (errors_New "json")
    end
|}.

#[local] Instance comma_codec_laws : ListCodecLaws.
Proof.
  split; cbn.
  - intros t [Ht _]. split.
    + intros E. pose proof (parse_FormatUint t Ht) as H. by rewrite E in H.
    + by rewrite parse_FormatUint.
  - intros [t c l] b [Ht _]. cbn [Timestamp] in Ht. cbn.
    destruct (forallb (Z.leb 0) l) eqn:Hl; [|done]. cbn [andb].
    destruct (Z.ltb_spec (Z.of_nat (length (string_bytes (comma_encode (mkAvailableList t c l))))) (2 ^ 63));
      [|done].
    intros [= <-]. split; [done|]. rewrite bytes_string_bytes. unfold comma_encode. cbn.
    rewrite strings_Split_app by (apply FormatUint_digits; by left).
    rewrite strings_Split_app by (by destruct c; apply (bool_decide_unpack _); vm_compute).
    rewrite parse_FormatUint by done. rewrite Split_comma_list.
    assert (omap parse_uint ((FormatUint <$> l) ++ [""]) = l) as ->.
    { clear -Hl. induction l as [|i l IH]; [done|]. cbn in Hl. apply andb_prop in Hl as [Hi Hl].
      cbn. rewrite parse_FormatUint by (by apply Z.leb_le). f_equal. by apply IH. }
    by destruct c.
  - intros b msg. by repeat case_match.
  - intros al msg. by case_match.
Qed.

(** ** Numbers have few digits *)

Lemma Little_double_digits d :
  nb_digits (Little.double d) ≤ S (nb_digits d) ∧ nb_digits (Little.succ_double d) ≤ S (nb_digits d).
Proof. induction d; simpl; lia. Qed.

Lemma to_little_digits p : nb_digits (Pos.to_little_uint p) ≤ Pos.size_nat p.
Proof.
  induction p as [p IH|p IH|]; simpl; [| |done];
    pose proof (Little_double_digits (Pos.to_little_uint p)); lia.
Qed.

Lemma FormatUint_length n k : (0 ≤ n < 2 ^ Z.of_nat k)%Z → String.length (FormatUint n) ≤ S (S k).
Proof.
  intros Hn. unfold FormatUint.
  assert (∀ d, String.length (NilZero.string_of_uint d) ≤ S (nb_digits d)) as Hlen.
  { assert (∀ d, String.length (NilEmpty.string_of_uint d) = nb_digits d) as H
      by (induction d; simpl; congruence).
    intros d. pose proof (H d). unfold NilZero.string_of_uint. destruct d; simpl in *; lia. }
  etrans; [apply Hlen|]. apply le_n_S. destruct n as [|p|p]; [simpl; lia|simpl; apply le_S|lia].
  unfold Pos.to_uint. rewrite nb_digits_rev. etrans; [apply to_little_digits|].
  assert (2 ^ Z.of_nat (Pos.size_nat p) ≤ 2 * Z.pos p)%Z as Hp.
  { clear. induction p as [p IH|p IH|]; [..|done]; cbn [Pos.size_nat];
      rewrite Nat2Z.inj_succ, Z.pow_succ_r by lia; lia. }
  assert (Z.of_nat (Pos.size_nat p) < Z.of_nat k + 1)%Z; [|lia].
  apply (Z.pow_lt_mono_r_iff 2); [lia|lia|]. rewrite Z.pow_add_r by lia. lia.
Qed.

(** The list of a server that has everything is short. *)
Lemma comma_list_sent t :
  time_valid t → ∃ b, json_Marshal (mkAvailableList t true []) = Ok b ∧
    is_ok (gozstd_CompressLevel b) = true.
Proof.
  intros Ht. assert (String.length (FormatUint t) ≤ 71) as Hl.
  { apply (FormatUint_length t 69). unfold time_valid, Second in Ht. lia. }
  cbn [json_Marshal comma_codec TransferChunkIndexList forallb andb].
  set (b := string_bytes _). assert (Z.of_nat (length b) < 2 ^ 63)%Z as Hb.
  { unfold b. rewrite length_string_bytes. unfold comma_encode. cbn [Timestamp IsCompleted].
    assert (∀ s1 s2, String.length (s1 +:+ s2) = String.length s1 + String.length s2) as ->
      by (induction s1; intros s2; simpl; auto).
    generalize dependent (String.length (FormatUint t)). intros k Hk. cbn.
    change (String.length ("1" +:+ ",")) with 2. lia. }
  exists b. cbn [gozstd_CompressLevel copy_zstd]. apply Z.ltb_lt in Hb. by rewrite Hb.
Qed.

(** * A peer that serves the two files of the source directory *)

Definition small_hash (b : bytes) : Z := toy_hash b mod 2 ^ 64.

Lemma small_hash_range b : uint64_range (small_hash b).
Proof. unfold uint64_range, small_hash. apply Z.mod_pos_bound. lia. Qed.

(** Chunk 0 is Done since time 50, chunk 1 is not; nothing is cached. *)
Definition half_manager : ChunkManager :=
  mkChunkManager example_manifest []
    [mkChunk [mkFileRange 0 0 4] ChunkStatusDone 50;
     mkChunk [mkFileRange 0 4 5; mkFileRange 1 0 3] ChunkStatusPending 0] [0%Z; 0%Z].

Definition half_server : server fs :=
  mkServer half_manager src_world (NewStatistics false) false "uuid-of-b" 0.

Definition error_text (e : error) : string :=
  match e with errors_New msg => msg | fmt_Errorf format _ => format | io_EOF => "EOF" end.

Definition example_version : Version := mkVersion "1" "0" "0" "0".
Definition example_host : string := "b:8090".
(** The third connection is refused, the fourth cut after two bytes. *)
Definition example_net (k : nat) : option (option nat) :=
  match k with 2 => None | 3 => Some (Some 2) | _ => Some None end.
Definition example_clock (k : nat) : Time := (100 + Z.of_nat k)%Z.

#[local] Instance example_transport : HttpTransport (network fs) :=
  peer_transport srcStorage small_hash (λ _ m, m) example_version false error_text example_host
    example_net example_clock.
#[local] Instance example_transport_laws : HttpTransportLaws (network fs) :=
  peer_transport_laws srcStorage small_hash (λ _ m, m) example_version false error_text
    example_host example_net example_clock.

Definition example_network (k : nat) : network fs := mkNetwork half_server 0 k.

Definition example_peer : PeerDownloader := NewPeerDownloader example_manager "uuid-of-a" example_host.

Lemma half_server_ok : server_ok srcStorage small_hash false half_server.
Proof.
  split; [done| |].
  - intros [|[|i]] c; [| |done]; intros [= <-]; split_and!; [|done|by eexists|
      apply second_chunk_range_ok|done|by eexists].
    repeat constructor; simpl; lia.
  - split; [done|]. intros [|[|i]] c x _; try done; by intros _ [= <-].
Qed.

(** With and without a digest, encoded or not: the bytes arrive, and the hash. *)
Example RequestDownload_example :
  (RequestDownload "none" 0 true example_peer (example_network 0)).1
    = Ok (small_hash [x61; x62; x63; x64], mkReader [x61; x62; x63; x64] [] None) ∧
  (RequestDownload "zstd" 0 false example_peer (example_network 0)).1
    = Ok (0%Z, mkReader [x61; x62; x63; x64] [] None) ∧
  (RequestDownload "none" 0 true example_peer (example_network 3)).1
    = Ok (small_hash [x61; x62; x63; x64], mkReader [x61; x62] [] (Some ErrUnexpectedEOF)).
Proof. by vm_compute. Qed.

Lemma RequestDownload_correct_witness :
  post (RequestDownload "none" 0 true example_peer) (example_network 0) (λ r n',
    match r with
    | Ok (checksum, rd) => ∃ b, rd_data rd `prefix_of` b ∧ checksum = small_hash b
    | Err _ => True
    | Panic _ => False
    end).
Proof.
  eapply post_mono.
  - apply (RequestDownload_correct srcStorage small_hash (λ _ m, m) ltac:(done) small_hash_range
      example_version false error_text example_host example_net example_clock
      ltac:(apply (bool_decide_unpack _); by vm_compute) "none" example_peer (example_network 0) 0
      true); [done|done|apply half_server_ok].
  - intros [[x rd]|e|?] n' (_ & _ & Hr); [|done..]. destruct Hr as (_ & c & b & _ & _ & Hp & Hx).
    by exists b.
Defined.

(** Chunk 1 is not Done. *)
Definition chunk_one_request : HttpRequest := mkHttpRequest "/chunk/1" ∅ [].

Lemma handle_chunk_refuses_witness :
  let '(s', w') := handle_chunk srcStorage small_hash (λ _ m, m) false error_text chunk_one_request
                     half_server (new_writer None) in
  rs_StatusCode (rw_response w') = StatusForbidden ∧ sv_world s' = src_world.
Proof.
  pose proof (handle_chunk_refuses srcStorage small_hash (λ _ m, m) false error_text
    chunk_one_request half_server None (errors_New "chunk not ready") eq_refl) as H.
  destruct (handle_chunk _ _ _ _ _ _ _ _) as [s' w']. destruct H as (Hst & _ & _ & Hw).
  exact (conj Hst Hw).
Defined.

Lemma UpdatePeerAvailableList_correct_witness :
  post (UpdatePeerAvailableList "none" (λ k, k) example_manager example_peer) (example_network 0)
    (λ r n', match r with
             | Ok d' => announced 0 (DPeer d') 0 = true ∧ announced 0 (DPeer d') 1 = false
             | Err _ => True
             | Panic _ => False
             end).
Proof.
  eapply post_mono.
  - apply (UpdatePeerAvailableList_correct srcStorage small_hash (λ _ m, m)
      example_version false error_text example_host example_net example_clock
      ltac:(apply (bool_decide_unpack _); by vm_compute) "none" (λ k, k) example_manager example_peer
      (example_network 0)); [done|done|done| |done].
    split; [done|]. intros [|[|i]] Hi; [by left|by left|vm_compute in Hi; lia].
  - intros [d'|e|?] n' [_ H]; [|done..]. destruct H as (_ & Hann & _). split.
    + apply Hann. right. eexists. split; [done|]. split; [done|]. by vm_compute.
    + apply not_true_iff_false. intros [H|(c & [= <-] & H & _)]%Hann; [by vm_compute in H|done].
Defined.

Example UpdatePeerAvailableList_example :
  match (UpdatePeerAvailableList "none" (λ k, k) example_manager example_peer
           (example_network 0)).1 with
  | Ok d' => pd_Queue d' = [0] ∧ pd_LastUpdatedAt d' = 100%Z
  | _ => False
  end.
Proof. by vm_compute. Qed.

(** * A peer whose responses carry no digest *)

Definition bare_response : Http.Response :=
  mkResponse 200 "200 OK" (Header_Set ∅ "Content-Type" "application/octet-stream")
    (mkReader [x61; x62] [] None).

#[local] Instance bare_transport : HttpTransport nat :=
  {| http_Do _ n := (Ok bare_response, S n); Body_Close n := (Ok (), pred n) |}.
#[local] Instance bare_transport_laws : HttpTransportLaws nat.
Proof. by refine {| open_bodies := λ n : nat, n |}. Defined.

(** The error leaves one body open. *)
Lemma RequestDownload_bodies_witness :
  (RequestDownload (W := nat) "none" 0 true example_peer 0).2 = 1 ∧
  is_ok (RequestDownload (W := nat) "none" 0 true example_peer 0).1 = false ∧
  post (RequestDownload (W := nat) "none" 0 true example_peer) 0 (λ r w',
    match r with Ok _ => w' = 1 | Err _ => w' = 0 ∨ w' = 1 | Panic _ => False end).
Proof.
  split; [by vm_compute|]. split; [by vm_compute|]. eapply post_mono.
  - apply (RequestDownload_bodies (W := nat) "none" 0 true example_peer 0).
  - intros [x|e|?] w'; [done| |done]. cbn [open_bodies bare_transport_laws].
    intros [?|(_ & ? & _)]; auto.
Defined.

(** * The local source *)

Lemma LocalDownloader_RequestDownload_example :
  post (LocalDownloader_RequestDownload srcStorage toy_hash (λ _ m, m) 1 true)
    (example_manager, src_world) (λ r _,
      match r with Ok (checksum, _) => checksum = toy_hash (x65 :: b_data) | Err _ => True
      | Panic _ => False end).
Proof.
  eapply post_mono.
  - apply (LocalDownloader_RequestDownload_spec srcStorage toy_hash (λ _ m, m) ltac:(done)
      (λ _, True) 1 second_chunk (x65 :: b_data) example_manager src_world true);
      [done|done|apply second_chunk_range_ok|by vm_compute|].
    split; [done|]. intros [|[|i]] c x _; try done; by intros _ [= <-].
  - intros [[x rd]|e|?] [cm' w'] (_ & _ & _ & _ & Hr); [|done..]. by destruct Hr.
Defined.

(** * The update goroutine in the machine *)

Definition peer_system : system fs :=
  PeerDownloaders_Add "uuid-of-a" example_host
    (init_system example_manager dst_world 0 (NewStatistics false) None).
Definition peer_exec : exec := newExec (DPeer example_peer).
Definition peer_round : update_state := mkUpdateState false false example_peer false.

Lemma update_round_refines_witness :
  post (update_round (W := network fs) "none" (λ k, k) example_manager peer_round)
    (example_network 0) (λ r _, match r with Err _ => False | _ => True end).
Proof.
  eapply post_mono.
  - apply (update_round_refines dstStorage toy_hash no_callback true 1 1 0 "none" 0 peer_exec
      peer_system peer_round (λ k, k) (example_network 0)). by constructor.
  - intros [u|e|s] n' (evs & _ & H); [done..|done].
Defined.

(** The three requests of a first round: uuid, checksum, list. *)
Example update_round_example :
  match (update_round (W := network fs) "none" (λ k, k) example_manager peer_round
           (mkNetwork half_server 0 10)).1 with
  | Ok u => us_isSelfInit u = true ∧ us_isValidInit u = true ∧ pd_Queue (us_downloader u) = [0]
  | _ => False
  end.
Proof. by vm_compute. Qed.

(** * The client against the bare peer *)

(** A server that compresses, over a connection whose close reports an error. *)
Definition zstd_response : Http.Response :=
  mkResponse 200 "200 OK"
    (Header_Set (Header_Set ∅ "Content-Type" "text/plain") "Content-Encoding" " zstd ")
    (mkReader [x61; x62] [] None).

Definition drop_one (f : held → held) : io held unit := λ h, (Ok (), f h).
#[local] Instance counted_transport : HttpTransport held := {|
  http_Do _ h := (Ok zstd_response, held_add h (mkHeld 1 0 0));
  Body_Close h := (Err (errors_New "connection reset"),
    mkHeld (pred (held_bodies h)) (held_contexts h) (held_readers h))
|}.
#[local] Instance counted_resources : RequestResources held := {|
  context_WithTimeout h := (Ok (), held_add h (mkHeld 0 1 0));
  cancel h := (Ok (), mkHeld (held_bodies h) (pred (held_contexts h)) (held_readers h));
  gozstd_NewReader h := (Ok (), held_add h (mkHeld 0 0 1));
  gozstd_Release h := (Ok (), mkHeld (held_bodies h) (held_contexts h) (pred (held_readers h)))
|}.
#[local] Instance counted_laws : RequestResourcesLaws held.
Proof.
  refine {| holds := λ h : held, h |}; try done;
    intros w h ->; (split; [|done] || (split; [done|])); apply held_eq; simpl; lia.
Defined.

Lemma Request_releases_witness :
  (Request_closer (W := held) "http://b/chunk/0" [WithExpectedContentType "text/plain"]
    (mkHeld 0 0 0)).2 = mkHeld 1 1 1 ∧
  post (Request_closer (W := held) "http://b/chunk/0" [WithExpectedContentType "text/plain"])
    (mkHeld 0 0 0) (λ r h, match r with
      | Ok (_, rc) => held_contexts h = 1 ∧ (rc_Close rc h).2 = mkHeld 0 0 0
      | Err _ => h = mkHeld 0 0 0
      | Panic _ => False
      end).
Proof.
  split; [by vm_compute|]. eapply post_mono.
  - apply (proj1 (Request_releases (W := held) "http://b/chunk/0"
      [WithExpectedContentType "text/plain"] (mkHeld 0 0 0))).
  - intros [[h rc]|e|s] w' Hr; [|exact Hr|exact Hr]. destruct Hr as (k & _ & Hw' & Hcl & _).
    cbn in Hw'. subst w'. split; [done|]. by destruct (Hcl (mkHeld 1 1 k) (mkHeld 0 0 0) eq_refl).
Defined.

