(* ===== verification/SwarmExamples.v ===== *)
(** A swarm, computed: a seed, a node that downloads from it, and another node that only
    knows the first one and gets its chunks from there while the first still downloads. *)
From S2P Require Import Prelude Bytes GoStrings Types Storage LocalStorage MemOS ChunkBuilder ChunkManager ChunkTransfer ChunkQueue Statistics Availability Delivery Http HttpServer HttpServing PeerDownloader Network Downloader Node Swarm SwarmFacts SwarmRequests SwarmCompletion Examples HttpExamples.
From Stdlib Require Import Strings.Byte.

#[local] Existing Instance copy_zstd.
#[local] Existing Instance copy_zstd_laws.
#[local] Existing Instance comma_codec.
#[local] Existing Instance comma_codec_laws.

Definition swarm_resolve (host : string) : option address :=
  if String.eqb host "seed:8090" then Some (ASeed 0)
  else if String.eqb host "a:8090" then Some (ANode 0)
  else if String.eqb host "b:8090" then Some (ANode 1) else None.

Lemma swarm_resolve_plain host a : swarm_resolve host = Some a → "/"%char ∉ chars host.
Proof.
  unfold swarm_resolve. repeat case_match; try done;
    match goal with H : String.eqb _ _ = true |- _ => apply String.eqb_eq in H as -> end;
    intros _; apply (bool_decide_unpack _); by vm_compute.
Qed.

Definition swarm_node (uuid : string) : node fs fs :=
  mkNode (init_system example_manager dst_world 0 (NewStatistics false) None) uuid 0 None.
Definition swarm_seed : server fs :=
  mkServer example_manager src_world (NewStatistics false) true "uuid-of-seed" 0.
Definition swarm_start : swarm fs fs :=
  mkSwarm [swarm_node "uuid-of-a"; swarm_node "uuid-of-b"] [swarm_seed].

Abbreviation run_swarm := (swarm_run dstStorage srcStorage small_hash no_callback (λ _ m, m)
  (λ _ m, m) example_version error_text "none" true 1 1 0 swarm_resolve).

(** A connection that holds, at a time. *)
Definition link (now : Time) : connection := mkConnection (Some None) now (now + 1)%Z.
(** One that breaks off after two bytes. *)
Definition short_link (now : Time) : connection := mkConnection (Some (Some 2)) now (now + 1)%Z.

Definition on_sched (n count : nat) : list swarm_event := replicate count (SwEvent n (EvSched 0)).
Definition on_worker (n count : nat) : list swarm_event :=
  replicate count (SwEvent n (EvWorker 0 0 (Now 7))).

(** A peer appears: its downloader starts, with one worker. *)
Definition join (n : nat) (uuid host : string) : list swarm_event :=
  [SwEvent n (EvAdd uuid host)] ++ on_sched n 2 ++ on_worker n 1.
(** The scheduler hands an index to the worker, which asks for the chunk. *)
Definition request_next (n : nat) (c : connection) : list swarm_event :=
  on_sched n 6 ++ [SwEvent n (EvSend 0 0)] ++ on_worker n 2 ++ [SwChunk n 0 0 c].

(** The first node gets one chunk from the seed; the second one gets that chunk from the
    first, after a connection that broke off; then the first node completes, and then the
    second, which never talks to the seed. *)
Definition swarm_trace : list swarm_event :=
  join 0 "uuid-of-seed" "seed:8090" ++ join 1 "uuid-of-a" "a:8090" ++
  [SwList 0 0 (λ k, k) (link 100)] ++
  request_next 0 (link 101) ++ on_worker 0 13 ++
  [SwList 1 0 (λ k, k) (link 102)] ++
  request_next 1 (short_link 103) ++ on_worker 1 5 ++
  request_next 1 (link 104) ++ on_worker 1 13 ++
  request_next 0 (link 105) ++ on_worker 0 16 ++
  [SwList 1 0 (λ k, k) (link 200)] ++
  request_next 1 (link 201) ++ on_worker 1 16.

#[local] Instance time_valid_dec t : Decision (time_valid t).
Proof. unfold time_valid. apply _. Defined.
#[local] Instance clock_ok_dec e : Decision (clock_ok e).
Proof. destruct e; apply _. Defined.

Lemma swarm_clocks : Forall clock_ok swarm_trace.
Proof. apply (bool_decide_unpack _). by vm_compute. Qed.

Lemma swarm_trace_runs :
  ∃ s nd, run_swarm swarm_trace swarm_start = Some s ∧ sw_nodes s !! 1 = Some nd ∧
    mc_Completed (sy_main (nd_system nd)) = true.
Proof. do 2 eexists. split_and!; [by vm_compute|done|done]. Qed.

Lemma swarm_nodes_fresh :
  Forall (fresh_node dstStorage srcStorage src_world example_manager) (sw_nodes swarm_start).
Proof.
  assert (∀ uuid, fresh_node dstStorage srcStorage src_world example_manager (swarm_node uuid)).
  { intros uuid. exists example_manager, dst_world, 0%Z, (NewStatistics false), None.
    split_and!; [done..|apply example_prepared|by intros []|done]. }
  by repeat constructor.
Qed.

Lemma swarm_correct_witness :
  ∃ s nd, run_swarm swarm_trace swarm_start = Some s ∧ sw_nodes s !! 1 = Some nd ∧
    mc_panicked (sy_main (nd_system nd)) = false ∧
    content dstStorage (mc_Dst (sy_main (nd_system nd))) "a" = content srcStorage src_world "a".
Proof.
  destruct swarm_trace_runs as (s & nd & Hs & Hn & Hc). exists s, nd.
  split; [exact Hs|]. split; [exact Hn|].
  destruct (swarm_correct dstStorage srcStorage src_world small_hash no_callback small_hash_range
    no_callback_ok (λ _ m, m) (λ _ m, m) ltac:(done) ltac:(done) example_version error_text "none"
    true 1 1 0 swarm_resolve swarm_resolve_plain (H3 := merge_SliceSort) 4 2 example_files
    example_manager (sw_nodes swarm_start) (sw_seeds swarm_start) swarm_trace s) with 1 nd
    as (Hpan & _ & Hall).
  - lia.
  - forall_lia.
  - forall_lia.
  - apply BuildChunks_example.
  - by vm_compute.
  - apply example_sized.
  - apply swarm_nodes_fresh.
  - by repeat constructor.
  - apply swarm_clocks.
  - exact Hs.
  - exact Hn.
  - split; [exact Hpan|]. apply (Hall Hc (mkFileEntry "a" 5 384 0)).
    apply (bool_decide_unpack _). by vm_compute.
Defined.

(** * Going on

    In the middle, after the connection of the second node broke off: it has nothing yet, and
    the first node, its only peer, has one of the two chunks. *)
Definition swarm_prefix : list swarm_event :=
  join 0 "uuid-of-seed" "seed:8090" ++ join 1 "uuid-of-a" "a:8090" ++
  [SwList 0 0 (λ k, k) (link 100)] ++
  request_next 0 (link 101) ++ on_worker 0 13 ++
  [SwList 1 0 (λ k, k) (link 102)] ++
  request_next 1 (short_link 103) ++ on_worker 1 5.

Definition swarm_middle : swarm fs fs := default swarm_start (run_swarm swarm_prefix swarm_start).

(** What is checked of a node. *)
Definition first_peer (nd : node fs fs) : option (bool * bool * bool * option address) :=
  ex ← sy_execs (nd_system nd) !! 0;
  match ex_downloader ex with
  | DPeer d => Some (mc_ctx_done (sy_main (nd_system nd)), IsSelf d, updating d,
      swarm_resolve (pd_Host d))
  | DLocal _ => None
  end.

Lemma first_peer_ready n s nd m :
  first_peer nd = Some (false, false, true, Some m) → node_healthy dstStorage nd →
  match m with ASeed k => answering dstStorage srcStorage n s m | ANode k => k < n end →
  ready dstStorage srcStorage swarm_resolve example_manager n s nd.
Proof.
  intros (ex & Hk & Hex)%bind_Some Hh Hm. right.
  destruct (ex_downloader ex) as [d|] eqn:Hd; [|done]. injection Hex as Hctx Hs Hu Hres.
  split; [exact Hctx|]. split; [exact Hh|]. exists 0, ex. rewrite Hd. split; [exact Hk|].
  split; [by simpl; rewrite Hs|]. split; [by left|]. rewrite Hres. by destruct m.
Qed.

Definition middle_node (n : nat) : node fs fs :=
  default (swarm_node "") (sw_nodes swarm_middle !! n).

Lemma swarm_middle_length : length (sw_nodes swarm_middle) = 2.
Proof. by vm_compute. Qed.

Lemma swarm_middle_ready n nd :
  sw_nodes swarm_middle !! n = Some nd →
  ready dstStorage srcStorage swarm_resolve example_manager n swarm_middle nd.
Proof.
  intros Hn. assert (nd = middle_node n) as -> by (unfold middle_node; by rewrite Hn).
  destruct n as [|[|n]].
  - apply (first_peer_ready 0 _ _ (ASeed 0)); [by vm_compute|intros k; by vm_compute|].
    exists (default swarm_seed (sw_seeds swarm_middle !! 0)).
    split; [by vm_compute|]. split; [by vm_compute|]. intros k. by vm_compute.
  - apply (first_peer_ready 1 _ _ (ANode 0)); [by vm_compute|intros k; by vm_compute|]. lia.
  - apply lookup_lt_Some in Hn. rewrite swarm_middle_length in Hn. clear -Hn. lia.
Qed.

Lemma dst_readable w : st_healthy dstStorage w → st_readable dstStorage w.
Proof. intros H. exact H. Qed.

Lemma swarm_can_complete_witness :
  mc_Completed (sy_main (nd_system (middle_node 1))) = false ∧
  ∃ l s nd, run_swarm l swarm_middle = Some s ∧ sw_nodes s !! 1 = Some nd ∧
    mc_Completed (sy_main (nd_system nd)) = true ∧
    content dstStorage (mc_Dst (sy_main (nd_system nd))) "a" = content srcStorage src_world "a".
Proof.
  split; [by vm_compute|].
  destruct (swarm_can_complete dstStorage srcStorage src_world small_hash no_callback
    small_hash_range no_callback_ok (λ _ _ _ H, H) dst_readable (λ _ m, m) (λ _ m, m) ltac:(done)
    ltac:(done) example_version error_text "none" true 1 1 0 ltac:(lia) ltac:(lia) swarm_resolve
    swarm_resolve_plain comma_list_sent (H3 := merge_SliceSort) 4 2 example_files example_manager
    (sw_nodes swarm_start) (sw_seeds swarm_start) swarm_prefix swarm_middle 300)
    as (l & s & _ & Hrun & Hlen & Hall).
  - lia.
  - forall_lia.
  - forall_lia.
  - apply BuildChunks_example.
  - by vm_compute.
  - apply example_sized.
  - apply swarm_nodes_fresh.
  - by repeat constructor.
  - apply (bool_decide_unpack _). by vm_compute.
  - by vm_compute.
  - by vm_compute.
  - apply swarm_middle_ready.
  - rewrite swarm_middle_length in Hlen.
    destruct (lookup_lt_is_Some_2 (sw_nodes s) 1) as [nd Hnd]; [rewrite Hlen; lia|].
    destruct (Hall 1 nd Hnd) as [Hc Hf]. exists l, s, nd.
    split; [exact Hrun|split; [exact Hnd|split; [exact Hc|]]].
    apply (Hf (mkFileEntry "a" 5 384 0)). apply (bool_decide_unpack _). by vm_compute.
Defined.
