(* ===== verification/DownloadExamples.v ===== *)
(** A complete download on the in-memory file system, step by step, and a lost update of
    the statistics. *)
From S2P Require Import Prelude Bytes GoStrings Types Storage ChunkBuilder ChunkManager ChunkTransfer ChunkQueue Statistics Availability Delivery LocalStorage MemOS HttpServer HttpServing Downloader DownloaderSafety DownloaderLiveness MissedUpdate DownloaderData DownloaderBooks DownloaderCompletion Examples.
From Stdlib Require Import Strings.Byte.

(** One local downloader with one worker; [-verify-on-complete] is off. *)
Abbreviation ex_run := (run_events dstStorage toy_hash no_callback false 1 1 0).
Definition ex_start : system fs :=
  init_system example_manager dst_world 0 (NewStatistics true) (Some (λ _, 0)).

Definition sched_ev (n : nat) : list event := replicate n (EvSched 0).
Definition worker_ev (n : nat) : list event := replicate n (EvWorker 0 0 (Now 7)).

(** The scheduler takes an index off its queue and hands it to the worker, which asks for
    it and gets [rd]. *)
Definition hand_over (rd : reader) : list event :=
  sched_ev 6 ++ [EvSend 0 0] ++ worker_ev 2 ++ [EvWorker 0 0 (Response (Ok (0%Z, rd)))].

Definition first_reader : reader := mkReader [x61; x62; x63; x64] [0; 0] None.
Definition second_reader : reader := mkReader (x65 :: b_data) [2] None.

(** The second chunk breaks off and is retried after the first. *)
Definition ex_trace : list event :=
  sched_ev 2 ++ worker_ev 1 ++
  hand_over (mkReader [x65] [] None) ++ worker_ev 5 ++ worker_ev 1 ++
  hand_over first_reader ++ worker_ev 11 ++ worker_ev 1 ++
  hand_over second_reader ++ worker_ev 14 ++ worker_ev 1 ++
  sched_ev 4 ++ worker_ev 2 ++ sched_ev 1.

(** ** The streams are good

    A checker for traces whose streams are prefixes of the source's chunks. *)

Definition good_stream (i : nat) (rd : reader) : bool :=
  match source_bytes srcStorage src_world example_sorted example_chunks i with
  | Some b => bool_decide (take (length b) (rd_data rd) `prefix_of` b)
  | None => false
  end.

Definition check_event (e : event) (s : system fs) : bool :=
  match e with
  | EvWorker k j (Response (Ok (checksum, rd))) =>
    match sy_execs s !! k with
    | Some ex => match ex_workers ex !! j with
                 | Some (WRequest i _) => good_stream i rd
                 | _ => true
                 end
    | None => true
    end
  | EvAvailable _ _ al =>
    bool_decide (Forall (λ z, 0 ≤ z < Z.of_nat (GetChunkCount example_manager))%Z
      (TransferChunkIndexList al))
  | _ => true
  end.

Section checker.
Context (verify : bool) (np nl : nat) (idle : Duration).
Local Abbreviation step := (run_event dstStorage toy_hash no_callback verify np nl idle).

Fixpoint check_events (l : list event) (s : system fs) : bool :=
  match l with
  | [] => true
  | e :: l => check_event e s && match step e s with Some s => check_events l s | None => true end
  end.

Lemma check_event_ok e s :
  check_event e s = true →
  event_ok srcStorage src_world toy_hash example_manager e s.
Proof.
  destruct e as [|k j [|[[checksum rd]| |]]| |k choice al| | | | | | |]; simpl; try done.
  - intros Hc ex i t0 Hk Hj. rewrite Hk, Hj in Hc. unfold good_stream in Hc.
    destruct (source_bytes _ _ _ _ _) as [b|] eqn:Hb; [|done].
    exists b. split; [done|]. left. by apply bool_decide_eq_true in Hc.
  - by rewrite bool_decide_eq_true.
Qed.

Lemma check_events_ok l s :
  check_events l s = true →
  events_ok dstStorage srcStorage src_world toy_hash no_callback example_manager verify np nl
    idle l s.
Proof.
  revert s. induction l as [|e l IH]; intros s; [done|]. simpl.
  intros [He Hl]%andb_true_iff. split; [by apply check_event_ok|].
  intros s' Hs. apply IH. by rewrite Hs in Hl.
Qed.
End checker.

(** ** The whole run *)

Lemma ex_trace_runs :
  ∃ s, ex_run ex_trace ex_start = Some s ∧ mc_Completed (sy_main s) = true.
Proof. eexists. split; [by vm_compute|done]. Qed.

Lemma completed_means_done_witness :
  ∃ s, ex_run ex_trace ex_start = Some s ∧
    GetChunkStatus 1 (mc_ChunkManager (sy_main s)) = Ok ChunkStatusDone.
Proof.
  destruct ex_trace_runs as (s & Hs & Hc). exists s. split; [done|].
  refine (proj2 (completed_means_done dstStorage toy_hash no_callback false 1 1 0 example_manager
    dst_world 0 (NewStatistics true) (Some (λ _, 0)) ex_trace s _ _ Hs Hc) 1 _).
  - by repeat constructor.
  - by vm_compute.
  - by apply Nat.ltb_lt.
Defined.

(** In the middle of the run: the worker is writing the second chunk. *)
Definition ex_prefix : list event := take 14 ex_trace.

(** While the source's worker writes the second chunk a peer joins that has both: its
    scheduler hands the first one to its worker, finds the second one taken and puts it
    back. *)
Definition both_trace : list event :=
  ex_prefix ++
  [EvAdd "uuid" "peer:1"; EvAvailable 1 (λ _, 0) (mkAvailableList 9 false [1; 0]%Z)] ++
  replicate 2 (EvSched 1) ++ [EvWorker 1 0 (Now 7)] ++
  replicate 6 (EvSched 1) ++ [EvSend 1 0] ++ replicate 6 (EvSched 1).

Lemma exclusive_writers_witness :
  ∃ s, ex_run both_trace ex_start = Some s ∧
    thread_holds s 0 (TWorker 0) = Some 1 ∧ thread_holds s 1 (TWorker 0) = Some 0 ∧
    GetChunkStatus 1 (mc_ChunkManager (sy_main s)) = Ok ChunkStatusDownloading ∧
    ∀ t, thread_holds s 1 t ≠ Some 1.
Proof.
  assert (∃ s, ex_run both_trace ex_start = Some s ∧ thread_holds s 0 (TWorker 0) = Some 1 ∧
    thread_holds s 1 (TWorker 0) = Some 0) as (s & Hs & H0 & H1).
  { eexists. split_and!; [by vm_compute|done|done]. }
  destruct (exclusive_writers dstStorage toy_hash no_callback false 1 1 0 example_manager
    dst_world 0 (NewStatistics true) (Some (λ _, 0)) both_trace s 1) as [Huniq Hiff].
  - by repeat constructor.
  - by vm_compute.
  - exact Hs.
  - exists s. split_and!; [exact Hs|exact H0|exact H1|..].
    + apply Hiff. by exists 0, (TWorker 0).
    + intros t Ht. by destruct (Huniq _ _ _ _ H0 Ht).
Defined.

Lemma no_chunk_lost_witness :
  ∃ s ex, ex_run ex_prefix ex_start = Some s ∧ sy_execs s !! 0 = Some ex ∧ tokens 1 ex = 1.
Proof.
  assert (∃ s ex, ex_run ex_prefix ex_start = Some s ∧ sy_execs s !! 0 = Some ex ∧
    announced (GetChunkCount example_manager) (ex_downloader ex) 1 = true) as (s & ex & Hs & Hk & Ha).
  { do 2 eexists. split_and!; [by vm_compute|done|by vm_compute]. }
  exists s, ex. split_and!; [done|done|].
  destruct (no_chunk_lost dstStorage toy_hash no_callback false 1 1 0 example_manager
    dst_world 0 (NewStatistics true) (Some (λ _, 0)) ex_prefix s 0 ex 1) as (Ht & _).
  - by repeat constructor.
  - by vm_compute.
  - exact Hs.
  - exact Hk.
  - by rewrite Ht, Ha.
Defined.

Lemma no_callback_healthy p s w :
  st_healthy dstStorage w → st_healthy dstStorage (no_callback p s w).2.
Proof. done. Qed.

(** The source goes on from there, although its first stream broke off. *)
Lemma download_can_complete_witness :
  ∃ s l' s', ex_run ex_prefix ex_start = Some s ∧ ex_run l' s = Some s' ∧
    mc_Completed (sy_main s') = true ∧
    content dstStorage (mc_Dst (sy_main s')) "a" = content srcStorage src_world "a".
Proof.
  assert (∃ s ex, ex_run ex_prefix ex_start = Some s ∧ sy_execs s !! 0 = Some ex ∧
    mc_ctx_done (sy_main s) = false ∧ IsValid (ex_downloader ex) = true ∧
    forallb (announced 2 (ex_downloader ex)) (seq 0 2) = true) as (s & ex & Hs & Hk & Hc & Hv & Ha).
  { do 2 eexists. split_and!; [by vm_compute|done|done|done|by vm_compute]. }
  destruct (download_can_complete dstStorage srcStorage src_world toy_hash no_callback
    no_callback_ok no_callback_healthy false 1 1 0 ltac:(lia) ltac:(lia) (H := merge_SliceSort)
    4 2 example_files example_manager dst_world 0 (NewStatistics true) (Some (λ _, 0)) ex_prefix
    s 0 ex) as (l' & s' & _ & _ & Hl' & Hcd & Hall).
  - lia.
  - forall_lia.
  - forall_lia.
  - apply BuildChunks_example.
  - by vm_compute.
  - by vm_compute.
  - apply example_sized.
  - apply example_prepared.
  - intros n. reflexivity.
  - apply check_events_ok. by vm_compute.
  - exact Hs.
  - exact Hc.
  - exact Hk.
  - exact Hv.
  - intros i Hi. change (GetChunkCount example_manager) with 2 in *.
    apply (forallb_lookup _ _ i i Ha). by apply lookup_seq_lt.
  - exists s, l', s'. split_and!; [exact Hs|exact Hl'|exact Hcd|].
    apply (Hall (mkFileEntry "a" 5 384 0)). apply (bool_decide_unpack _). by vm_compute.
Defined.

(** ** A lost update

    The worker that finishes the last chunk cancels the download before it adds the chunk
    to the totals; the scheduler may report the totals in between, because the workers are
    waited for only after that. *)
Definition racy_trace : list event :=
  sched_ev 2 ++ worker_ev 1 ++
  hand_over second_reader ++ worker_ev 12 ++ worker_ev 1 ++
  hand_over first_reader ++ worker_ev 8 ++
  sched_ev 4 ++ worker_ev 8 ++ sched_ev 1.

(** The received-bytes statistic can miss chunks: in this run of one downloader and one
    worker both chunks (4 bytes each) are downloaded and every thread has ended, but only 4
    of the 8 bytes are in [BytesReceivedTotal], the total printed and handed to the
    on-complete command. *)
Theorem statistics_lost_update :
  ∃ s, events_ok dstStorage srcStorage src_world toy_hash no_callback example_manager false 1 1
      0 racy_trace ex_start ∧
    ex_run racy_trace ex_start = Some s ∧
    mc_Completed (sy_main s) = true ∧
    Forall (λ ex, ex_sched ex = SExit ∧ Forall (eq WExit) (ex_workers ex)) (sy_execs s) ∧
    GetBytesReceivedTotal (mc_Statistics (sy_main s)) = 4%Z ∧
    Zsum (Chunk_Size <$> chunks example_manager) = 8%Z.
Proof.
  eexists. split; [apply check_events_ok; by vm_compute|].
  split; [by vm_compute|]. by repeat constructor.
Qed.

Lemma downloader_never_stuck_witness :
  ∃ s e s', ex_run ex_prefix ex_start = Some s ∧ thread_event 0 e = true ∧
    run_event dstStorage toy_hash no_callback false 1 1 0 e s = Some s'.
Proof.
  assert (∃ s ex, ex_run ex_prefix ex_start = Some s ∧ mc_panicked (sy_main s) = false ∧
    sy_execs s !! 0 = Some ex ∧ 0 < num_concurrent 1 1 (ex_downloader ex) ∧
    ex_sched ex ≠ SExit) as (s & ex & Hs & Hpan & Hk & Hn & He).
  { do 2 eexists. split_and!; [by vm_compute|done|done|simpl; lia|done]. }
  pose proof (downloader_never_stuck dstStorage toy_hash no_callback false 1 1 0 example_manager
    dst_world 0 (NewStatistics true) (Some (λ _, 0)) ex_prefix s 0 ex Hs Hpan Hk Hn) as H.
  rewrite decide_False in H by exact He. destruct H as (e & s' & H1 & H2).
  exact (ex_intro _ s (ex_intro _ e (ex_intro _ s' (conj Hs (conj H1 H2))))).
Defined.

(** The second chunk's worker reads the clock at 7 and a list is made at 8; then it marks the
    chunk Done and stamps it 7. A list that is asked for since 8 does not have the chunk,
    although it is Done and the server not complete. *)
Definition clock_prefix : list event :=
  sched_ev 2 ++ worker_ev 1 ++ hand_over second_reader ++ worker_ev 4.

Definition server_of (s : system fs) : server fs :=
  mkServer (mc_ChunkManager (sy_main s)) (mc_Dst (sy_main s)) (NewStatistics false)
    (mc_Completed (sy_main s)) "uuid-of-b" 0.

Lemma missed_update_witness :
  ∃ s s', ex_run clock_prefix ex_start = Some s ∧ ex_run (worker_ev 2) s = Some s' ∧
    mc_Completed (sy_main s') = false ∧
    GetChunkStatus 1 (mc_ChunkManager (sy_main s')) = Ok ChunkStatusDone ∧
    Z.of_nat 1 ∉ TransferChunkIndexList (server_list 8 0 (server_of s)) ∧
    Z.of_nat 1 ∉ TransferChunkIndexList (server_list 20 8 (server_of s')).
Proof.
  assert (∃ s s' ex, ex_run clock_prefix ex_start = Some s ∧ ex_run (worker_ev 2) s = Some s' ∧
    mc_panicked (sy_main s) = false ∧ sy_execs s !! 0 = Some ex ∧
    ex_workers ex !! 0 = Some (WSetDone 1 7 7 4) ∧ mc_Completed (sy_main s') = false ∧
    GetChunkStatus 1 (mc_ChunkManager (sy_main s')) = Ok ChunkStatusDone)
    as (s & s' & ex & Hs & Hs' & Hpan & Hk & Hj & Hc & Hd).
  { do 3 eexists. split_and!; [by vm_compute|by vm_compute|done..]. }
  destruct (missed_update (V := fs) dstStorage toy_hash no_callback false 1 1 0 example_manager
    dst_world 0 (NewStatistics true) (Some (λ _, 0)) clock_prefix s 0 0 ex 1 7 7 4 8)
    as (H1 & _ & H2).
  - by repeat constructor.
  - by vm_compute.
  - exact Hs.
  - exact Hpan.
  - exact Hk.
  - exact Hj.
  - lia.
  - lia.
  - exists s, s'. split_and!; [exact Hs|exact Hs'|exact Hc|exact Hd|by apply H1|].
    by apply (H2 _ _ 20%Z 8%Z (server_of s') Hs').
Defined.

(** The last worker has cancelled the download: thirteen more steps, of at most 1000. *)
Definition stopping_trace : list event := sched_ev 4 ++ worker_ev 8 ++ sched_ev 1.
Definition stopping_prefix : list event :=
  take (length racy_trace - length stopping_trace) racy_trace.

Lemma stopping_prefix_runs :
  match ex_run stopping_prefix ex_start with
  | Some s => mc_ctx_done (sy_main s) = true ∧
    match sy_execs s !! 0, ex_run stopping_trace s with
    | Some ex, Some s' =>
        num_concurrent 1 1 (ex_downloader ex) = 1 ∧ mc_panicked (sy_main s') = false
    | _, _ => False
    end
  | None => False
  end.
Proof. by vm_compute. Qed.

Lemma cancelled_downloader_stops_witness :
  ∃ s ex, ex_run stopping_prefix ex_start = Some s ∧ sy_execs s !! 0 = Some ex ∧
    length (filter (λ e, thread_event 0 e = true) stopping_trace) ≤
      steps_left 2 (num_concurrent 1 1 (ex_downloader ex)) ex ∧
    ∃ l s', ex_run (stopping_trace ++ l) s = Some s' ∧
      (mc_panicked (sy_main s') = false → downloader_exited 0 s').
Proof.
  pose proof stopping_prefix_runs as H. remember (ex_run stopping_prefix ex_start) as o eqn:Hs.
  destruct o as [s|]; [|destruct H]. destruct H as [Hc H].
  destruct (sy_execs s !! 0) as [ex|] eqn:Hk; [|destruct H].
  destruct (ex_run stopping_trace s) as [s'|] eqn:Hs'; [|destruct H]. destruct H as [Hn Hpan].
  symmetry in Hs.
  refine (ex_intro _ s (ex_intro _ ex (conj eq_refl (conj Hk _)))).
  destruct (cancelled_downloader_stops dstStorage toy_hash no_callback false 1 1 0 example_manager
    dst_world 0 (NewStatistics true) (Some (λ _, 0)) 2 stopping_prefix s stopping_trace s' 0 ex)
    as (ex' & _ & Hle & _ & l & s'' & _ & _ & Hl & Hex);
    [by repeat constructor|exact Hs|exact Hc|exact Hk|rewrite Hn; lia|exact Hs'|exact Hpan|].
  split; [|exists l, s''; split; [|exact Hex]].
  - cbv zeta in Hle. lia.
  - by rewrite (run_events_app _ _ _ _ _ _ _ _ _ _ _ Hs').
Defined.
