(* ===== verification/PeerExamples.v ===== *)
(** Peer lists, computed: a small URL parser and resolver, and the theorems about providers,
    addresses and the controller at concrete inputs. *)
From S2P Require Import Prelude Bytes GoStrings Types Storage ChunkBuilder ChunkManager ChunkQueue Statistics Availability Http HttpServer PeerDownloader Network Peers PeersFacts Downloader Controller MemOS Examples DownloadExamples HttpExamples.

(** * A parser of web addresses *)

Definition web_Parse (s : string) : result URL :=
  if decide ("/"%char ∈ chars s) then
    if strings_HasPrefix "http://" s then Ok (mkURL "http" (string_drop 7 s) "")
    else if strings_HasPrefix "https://" s then Ok (mkURL "https" (string_drop 8 s) "")
    else Ok (mkURL "" "" s)
  else Err (errors_New "first path segment in URL cannot contain colon").

Lemma web_Parse_http h p scheme :
  plain h → (∀ q, p = Some q → digits q) → scheme = "http" ∨ scheme = "https" →
  web_Parse (scheme +:+ "://" +:+ authority h p) = Ok (mkURL scheme (authority h p) "").
Proof.
  intros _ _ Hs. unfold web_Parse. generalize (authority h p). intros s.
  rewrite decide_True by (rewrite !chars_app; set_solver). by destruct Hs as [-> | ->], s.
Qed.

Lemma web_Parse_bare h p :
  plain h → (∀ q, p = Some q → digits q) →
  strings_ToLower h ≠ "http" → strings_ToLower h ≠ "https" →
  match web_Parse (authority h p) with
  | Ok u => url_Scheme u ≠ "http" ∧ url_Scheme u ≠ "https"
  | Err _ => True
  | Panic _ => False
  end.
Proof.
  intros Hh Hp _ _. unfold web_Parse. rewrite decide_False; [done|].
  destruct p as [p|]; cbn [authority]; [|by apply (plain_fresh "/"%char h Hh)].
  rewrite !chars_app, !elem_of_app. intros [Hc|[Hc|Hc]].
  - by apply (plain_fresh "/"%char h Hh) in Hc.
  - cbn in Hc. by apply list_elem_of_singleton in Hc.
  - exact (plain_fresh "/"%char p (digits_plain p (Hp p eq_refl)) eq_refl Hc).
Qed.

Lemma normalizePeerAddress_plain_witness :
  normalizePeerAddress web_Parse "https://node-1.example" 8090 = Ok "node-1.example:8090" ∧
  normalizePeerAddress web_Parse "node-1.example:8090" 8090 = Ok "node-1.example:8090".
Proof.
  refine (normalizePeerAddress_plain web_Parse web_Parse_http web_Parse_bare "node-1.example" None
    "https://" 8090 _ _ _ _ _ _).
  - split; [done|]. intros c Hc. revert c Hc. apply (proj1 (Forall_forall _ _)).
    by repeat constructor.
  - done.
  - lia.
  - done.
  - done.
  - by right; right.
Defined.

Example normalizePeerAddress_port :
  normalizePeerAddress web_Parse " http://b:80 " 8090 = Ok "b:80".
Proof. by vm_compute. Qed.

(** * Providers *)

(** A resolver that knows nothing. *)
Definition no_LookupIP (_ _ : string) : io (network fs) (list string) :=
  io_fail (errors_New "no such host").
Definition no_LookupSRV (_ _ : string) : io (network fs) (list (string * Z)) :=
  io_fail (errors_New "no such host").

Definition two_peers : Factory := mkFactory (Some (StaticProvider ["b:8090"; "c:1"])) 8090.

#[local] Existing Instance copy_zstd.

Definition example_options : list (Config → Config) := [WithURL "http://list/peers"].

(** The answer has the static peers when the list is served, and is an error when it is not. *)
Lemma Factory_Create_peers_witness :
  match (Factory_Create (H := example_transport) web_Parse no_LookupIP no_LookupSRV two_peers
           example_options (example_network 0)).1 with
  | Ok (Some p) => ∀ w',
      match (remote_list (H := example_transport) web_Parse no_LookupIP no_LookupSRV
               (mkConfig "" "" "http://list/peers" "") 8090 w').1,
            (GetPeers (H := example_transport) web_Parse no_LookupIP no_LookupSRV p w').1 with
      | Ok _, Ok l => NoDup l ∧ "b:8090" ∈ l ∧ "c:1" ∈ l
      | Err _, Err _ | Panic _, Panic _ => True
      | _, _ => False
      end
  | _ => False
  end.
Proof.
  destruct (Factory_Create_peers (H := example_transport) web_Parse no_LookupIP no_LookupSRV
    "http://b,http://c:1,https://b:8090" 8090 two_peers example_options (example_network 0)
    ltac:(by vm_compute)) as (statics & Hstat & H).
  assert (statics = ["b:8090"; "c:1"; "b:8090"]) as ->
    by (assert (E : normalized web_Parse "http://b,http://c:1,https://b:8090" 8090
          = Ok ["b:8090"; "c:1"; "b:8090"]) by (by vm_compute);
        rewrite decide_False in Hstat by done; rewrite E in Hstat; by injection Hstat as <-).
  assert (match (Factory_Create (H := example_transport) web_Parse no_LookupIP no_LookupSRV
    two_peers example_options (example_network 0)).1 with Ok (Some _) => True | _ => False end) as Hr
    by by vm_compute.
  unfold post in H. destruct (Factory_Create _ _ _ _ _ _) as [[[p|]|e|msg] w1]; cbn [fst snd] in *;
    [|done..].
  destruct H as [_ H]. intros w'. specialize (H w').
  change (foldl _ _ example_options) with (mkConfig "" "" "http://list/peers" "") in H.
  destruct (GetPeers web_Parse no_LookupIP no_LookupSRV p w') as [answer w2].
  destruct (remote_list _ _ _ _ _ _) as [found w3].
  destruct H as [_ H]. cbn [fst]. destruct answer, found; try exact H; try destruct H; try exact I.
  rename H into Hnd, H0 into Hin.
  split; [exact Hnd|]. split;
    refine (proj2 (Hin _) (or_intror _)); apply (bool_decide_unpack _); by vm_compute.
Defined.

(** * The controller *)

(** Two peers come, a poll fails, one goes, and the controller stops. *)
Definition example_rounds : list round :=
  [(Polled ["b:8090"; "c:1"], [EvAdd "u" "c:1"; EvAdd "u" "b:8090"]);
   (PollFailed, [EvSched 1]);
   (Polled ["c:1"], [EvRemove "b:8090"]);
   (Stopped, [EvCancel; EvRemove "c:1"])].

Abbreviation two_run := (run_events dstStorage toy_hash no_callback false 1 1 0).

Lemma example_rounds_follow : follows example_rounds ∅.
Proof.
  split_and!; [|done..]. change (omap _ _) with [PeerAdded "c:1"; PeerAdded "b:8090"].
  pose proof (reconcile_spec ["b:8090"; "c:1"] ∅) as H. cbn [controller_turn].
  destruct (reconcile _ _) as [calls ps]. destruct H as (_ & Ha & Hr & Hnd). cbn [fst].
  apply NoDup_Permutation; [by repeat constructor; set_solver|done|].
  intros [h|h]; [rewrite Ha|rewrite Hr]; set_solver.
Qed.

Lemma example_rounds_run :
  match two_run (concat example_rounds.*2)
    (init_system example_manager dst_world 0 (NewStatistics true) None) with
  | Some s => match sy_execs s !! 0 with
              | Some ex => match ex_downloader ex with DPeer _ => True | DLocal _ => False end
              | None => False
              end
  | None => False
  end.
Proof. by vm_compute. Qed.

Lemma controller_tracks_peers_witness :
  ∃ s ex d, two_run (concat example_rounds.*2)
      (init_system example_manager dst_world 0 (NewStatistics true) None) = Some s ∧
    sy_execs s !! 0 = Some ex ∧ ex_downloader ex = DPeer d ∧ updating d = false.
Proof.
  pose proof example_rounds_run as H. destruct (two_run _ _) as [s|] eqn:Hs; [|destruct H].
  destruct (sy_execs s !! 0) as [ex|] eqn:Hk; [|destruct H].
  destruct (ex_downloader ex) as [d|] eqn:Hd; [|destruct H].
  destruct (controller_tracks_peers dstStorage toy_hash no_callback false 1 1 0 example_manager
    dst_world 0 (NewStatistics true) None example_rounds s example_rounds_follow Hs) as (_ & _ & Hst).
  exists s, ex, d. split_and!; [done|done|done|]. by apply (Hst eq_refl 0 ex d).
Defined.
