(* ===== verification/ManifestExamples.v ===== *)
(** Manifests computed: the source directory of Examples.v turned into a chunk manager, and
    fetched by another peer over the network of HttpExamples.v. *)
From S2P Require Import Prelude Bytes GoStrings Types Storage ChunkBuilder ChunkManager ChunkTransfer Delivery Statistics Availability Http HttpServer HttpServing PeerDownloader Network Peers Manifest ManifestFacts TokenCodec LocalStorage MemOS Examples HttpExamples.
From Stdlib Require Import Strings.Byte.

#[local] Existing Instances copy_zstd copy_zstd_laws comma_codec comma_codec_laws merge_SliceSort.

(** * From a source *)

(** A machine without a network. *)
#[local] Instance no_network : HttpTransport fs := {|
  http_Do _ := io_fail (errors_New "network is unreachable");
  Body_Close := mret ()
|}.

Definition no_peer (_ _ : string) : io fs (list string) := io_fail (errors_New "no such host").
Definition no_service (_ _ : string) : io fs (list (string * Z)) :=
  io_fail (errors_New "no such host").
Definition no_Parse (_ : string) : result URL := Err (errors_New "not a URL").

Definition make_manager (w : fs) : result ChunkManager * fs :=
  NewChunkManager small_hash "1" "0" no_Parse no_peer no_service (Some srcStorage) None 0 4 2 w.

Definition source_entries : list Entry :=
  [EFile (mkFileEntry "a" 5 384 0); EFile (mkFileEntry "b" 3 420 0)].

Lemma src_world_walk :
  ∃ w', st_walk srcStorage "" src_world = (Ok (source_entries, None), w').
Proof. eexists. by vm_compute. Qed.

Lemma NewChunkManager_from_source_witness :
  match make_manager src_world with
  | (Ok cm, _) => chunkChecksums cm = replicate (length (chunks cm)) 0%Z ∧
      FileEntry_Copy <$> cm_files cm ≡ₚ walk_files source_entries
  | _ => False
  end.
Proof.
  destruct src_world_walk as [w' Hw].
  assert (is_ok (make_manager src_world).1 = true) as Hok by by vm_compute.
  pose proof (NewChunkManager_from_source small_hash "1" "0" no_Parse no_peer no_service srcStorage
    None 0 4 2 src_world source_entries None w' ltac:(lia) Hw ltac:(forall_lia)
    ltac:(apply (bool_decide_unpack _); by vm_compute)) as H.
  unfold post in H. unfold make_manager in *.
  destruct (NewChunkManager _ _ _ _ _ _ _ _ _ _ _ _) as [[cm|e|msg] w'']; [|done..].
  cbn [fst snd] in H. destruct H as (_ & _ & _ & _ & _ & _ & _ & Hp & Hs & _). by split.
Defined.

(** ** A walk that breaks off *)

(** The third call of the operating system fails: the directory was read and the first file
    was seen, the second was not. *)
Definition flaky_world : fs := mkFs (fs_nodes src_world) (λ k, bool_decide (k = 2)) 0.

(** The error of a walk is lost. In this run the operating system fails on the second
    file; the walk reports the error, and the chunk manager is made all the same, of the
    first file only, without an error. *)
Theorem walk_error_lost :
  ∃ w1 e cm w2,
    st_walk srcStorage "" flaky_world = (Ok (take 1 source_entries, Some e), w1) ∧
    make_manager flaky_world = (Ok cm, w2) ∧
    FileEntry_Name <$> cm_files cm = ["a"] ∧
    FileEntry_Name <$> walk_files source_entries = ["a"; "b"].
Proof. do 4 eexists. split_and!; by vm_compute. Qed.

(** * From a peer *)

Definition made_manager : ChunkManager := Eval vm_compute in
  match (make_manager src_world).1 with Ok cm => cm | _ => example_manager end.

Definition seed_server : server fs :=
  mkServer made_manager src_world (NewStatistics false) false "uuid-of-b" 0.
Definition seed_network : network fs := mkNetwork seed_server 0 0.

#[local] Instance seed_transport : HttpTransport (network fs) :=
  peer_transport srcStorage small_hash (λ _ m, m) example_version false error_text example_host
    example_net example_clock.

Definition own_manifest : Manifest := mkManifest "1" "0" 4 0 0 [] [] [] [].

Lemma made_manager_ok :
  well_made small_hash merge_SliceSort 2 (manifest made_manager) (chunks made_manager).
Proof.
  exists (walk_files source_entries). split_and!.
  - change (ChunkSize (manifest made_manager)) with 4%Z. forall_lia.
  - done.
  - apply (bool_decide_unpack _). by vm_compute.
  - by vm_compute.
  - by vm_compute.
  - by vm_compute.
Qed.

(** Names: Korean and an emoji go through JSON unchanged; a byte of another encoding, an overlong
    slash and a surrogate do not. *)
Definition utf8_names : list string :=
  byte_string <$> [[97; 237; 149; 156]; [240; 159; 152; 128; 46]; [97; 255]; [192; 175]; [237; 160; 128]]%N.

Example names_in_JSON :
  utf8_ValidString <$> utf8_names = [true; true; false; false; false] ∧
  utf8_coerce <$> utf8_names =
    take 2 utf8_names ++ ["a" +:+ RuneError; RuneError +:+ RuneError; RuneError +:+ RuneError +:+ RuneError].
Proof. by vm_compute. Qed.

(** A peer takes over a directory under another name than the seeder's. *)
Definition renamed_dir : Manifest :=
  let m := manifest made_manager in
  mkManifest (MajorVersion m) (MinorVersion m) (ChunkSize m) (ChunkChecksum m) (TransferChunkCount m)
    [mkDirEntry (byte_string [100; 255]%N) 493] (Symlinks m) (EmptyFiles m) (Files m).

Example changed_directory :
  match accept_manifest small_hash example_host 2 own_manifest (json_form renamed_dir) with
  | Ok (m', l) => Dirs m' = [mkDirEntry ("d" +:+ RuneError) 493] ∧ l = chunks made_manager
  | _ => False
  end.
Proof. by vm_compute. Qed.

Lemma getManifestFromPeer_agrees_witness :
  match (getManifestFromPeer small_hash example_host 2 own_manifest seed_network).1 with
  | Ok (m', chunkList') => chunkList' = chunks made_manager ∧ Files m' = cm_files made_manager
  | _ => False
  end.
Proof.
  assert ("/"%char ∉ chars example_host) as Hhost by (apply (bool_decide_unpack _); by vm_compute).
  assert (0 < ChunkSize (manifest made_manager) < 2 ^ 63)%Z as Hcs by (by vm_compute).
  assert (json_manifest (manifest made_manager) = Ok (GetManifestJson made_manager)) as Hj
    by (by vm_compute).
  assert (post (getManifestFromPeer small_hash example_host 2 own_manifest) seed_network (λ r _,
    match r with
    | Ok (m', chunkList') => chunkList' = chunks made_manager ∧ Files m' = cm_files made_manager
    | Err _ => True
    | Panic _ => False
    end)) as H.
  { eapply post_mono.
    - exact (getManifestFromPeer_agrees merge_SliceSort srcStorage small_hash (λ _ m, m)
        example_version false error_text example_host example_net example_clock Hhost 2 2 own_manifest
        (manifest made_manager) (chunks made_manager) seed_network Hcs made_manager_ok Hj).
    - intros [[m' l']|e|msg] n' [_ H]; [|done..]. destruct H as (_ & _ & _ & _ & Hsame).
      destruct (Hsame ltac:(apply (bool_decide_unpack _); by vm_compute)) as [_ Heq]. by apply Heq. }
  unfold post in H.
  assert (is_ok (getManifestFromPeer small_hash example_host 2 own_manifest seed_network).1 = true)
    as Hok by by vm_compute.
  destruct (getManifestFromPeer _ _ _ _ _) as [[[m' l']|e|msg] n']; [exact H|done..].
Defined.
