(* ===== verification/DownloadFilesExamples.v ===== *)
(** Whole downloads on the in-memory file system: one that completes, and one that idles. *)
From S2P Require Import Prelude Bytes GoStrings Types Storage LocalStorage ChunkBuilder ChunkManager ChunkTransfer ChunkQueue Statistics Availability Delivery Manifest ManifestFacts Transfer Command Downloader DownloaderSafety DownloaderData DownloadFiles MemOS Examples DownloadExamples.
From Stdlib Require Import Strings.Byte.

(** An empty destination directory. *)
Definition empty_dst : fs := mkFs (list_to_map [("/dst", NDir 448)]) (λ _, false) 0.

Definition setup_world : fs :=
  Eval vm_compute in (SetupTransfer example_manager dstStorage empty_dst).2.

Lemma setup_runs : SetupTransfer example_manager dstStorage empty_dst = (Ok (), setup_world).
Proof. by vm_compute. Qed.

Lemma setup_no_sharing : no_sharing dstStorage setup_world (cm_files example_manager).
Proof. by intros [|[|i]] [|[|j]] f g; intros [= <-] [= <-] H; vm_compute in H. Qed.

Definition notify : Command := mkCommand "notify %{file_count} %{total_file_size}" "".

(** With [-verify-on-complete] a worker takes one more step per chunk. *)
Definition verified_trace : list event :=
  sched_ev 2 ++ worker_ev 1 ++
  hand_over (mkReader [x65] [] None) ++ worker_ev 5 ++ worker_ev 1 ++
  hand_over first_reader ++ worker_ev 12 ++ worker_ev 1 ++
  hand_over second_reader ++ worker_ev 15 ++ worker_ev 1 ++
  sched_ev 4 ++ worker_ev 2 ++ sched_ev 1.

Definition whole_download (idle : Duration) (l : list event) :
    option (result (main fs * option string)) :=
  DownloadFiles dstStorage toy_hash no_callback true 1 1 idle false notify example_manager empty_dst
    (NewStatistics true) (Some (λ _, 0)) 0 l 5.

(** Everything arrives, verifies and is counted. *)
Lemma whole_download_runs :
  match whole_download 0 verified_trace with
  | Some (Ok (m, c)) => mc_Completed m = true ∧ mc_ExitCode m = 0%Z ∧ c = Some "notify 2 8"
  | _ => False
  end.
Proof. by vm_compute. Qed.

Lemma DownloadFiles_correct_witness :
  ∃ m c, whole_download 0 verified_trace = Some (Ok (m, c)) ∧
    content dstStorage (mc_Dst m) "a" = content srcStorage src_world "a".
Proof.
  pose proof whole_download_runs as H.
  destruct (whole_download 0 verified_trace) as [[[m c]|e|msg]|] eqn:Hr; [|destruct H..].
  destruct H as (Hcd & _). exists m, c. split; [done|].
  destruct (DownloadFiles_correct dstStorage srcStorage src_world toy_hash no_callback no_callback_ok
    true 1 1 0 false notify (H := merge_SliceSort) 4 2 example_files example_manager empty_dst
    (NewStatistics true) (Some (λ _, 0)) 0 verified_trace 5 (Ok (m, c))) as [Hall _].
  - lia.
  - forall_lia.
  - forall_lia.
  - apply BuildChunks_example.
  - done.
  - by vm_compute.
  - apply example_sized.
  - intros w' Hw. assert (w' = setup_world) as -> by (rewrite setup_runs in Hw; congruence).
    split; [apply setup_no_sharing|]. apply check_events_ok. by vm_compute.
  - exact Hr.
  - apply (Hall Hcd (mkFileEntry "a" 5 384 0)). apply (bool_decide_unpack _). by vm_compute.
Defined.

(** ** An idle download *)

(** The source never answers; the idle timer fires. *)
Definition idle_trace : list event := [EvIdle 20] ++ sched_ev 6 ++ worker_ev 3 ++ sched_ev 1.

Lemma idle_download_runs :
  match whole_download 10 idle_trace with
  | Some (Ok (m, c)) =>
      mc_Completed m = false ∧ mc_ExitCode m = 1%Z ∧ c = Some "notify 2 0" ∧
      (VerifyTransfer example_manager dstStorage (mc_Dst m)).1 = Ok true ∧
      content dstStorage (mc_Dst m) "a" = Some (replicate 5 x00) ∧
      content srcStorage src_world "a" = Some a_data
  | _ => False
  end.
Proof. by vm_compute. Qed.

(** A signal comes instead: the command is run, and the exit code is 0. The destination even
    verifies, with zeros in its files. *)
Definition signal_trace : list event := [EvCancel] ++ sched_ev 6 ++ worker_ev 3 ++ sched_ev 1.

Lemma signal_download_runs :
  match whole_download 10 signal_trace with
  | Some (Ok (m, c)) => mc_Completed m = false ∧ content dstStorage (mc_Dst m) "a" = Some (replicate 5 x00)
  | _ => False
  end.
Proof. by vm_compute. Qed.

Lemma incomplete_download_runs_command_witness :
  ∃ m, whole_download 10 signal_trace = Some (Ok (m, Some "notify 2 0")) ∧
    mc_Completed m = false ∧ mc_ExitCode m = 0%Z ∧
    content dstStorage (mc_Dst m) "a" = Some (replicate 5 x00).
Proof.
  pose proof signal_download_runs as H.
  destruct (whole_download 10 signal_trace) as [[[m c]|e|msg]|] eqn:Hr; [|destruct H..].
  destruct H as [Hc Ha]. exists m.
  destruct (incomplete_download_runs_command dstStorage toy_hash no_callback true 1 1 10 false notify
    example_manager empty_dst (NewStatistics true) (Some (λ _, 0)) 0 signal_trace 5 m c Hr)
    as (w0 & s & w1 & verified & Hsetup & Hrun & _ & _ & Hct & [w2 Hv] & Hcmd & Hcode).
  rewrite setup_runs in Hsetup. injection Hsetup as <-.
  vm_compute in Hrun. injection Hrun as <-. vm_compute in Hct. injection Hct as <-.
  vm_compute in Hv. injection Hv as <- _. vm_compute in Hcmd. vm_compute in Hcode. subst c.
  exact (conj eq_refl (conj Hc (conj Hcode Ha))).
Defined.
