(* ===== verification/MainExamples.v ===== *)
(** The remaining parts at concrete inputs: preparing and verifying a destination, the
    registry, and [Init]. *)
From S2P Require Import Prelude Bytes GoStrings Types Storage LocalStorage ChunkBuilder ChunkManager ChunkTransfer Delivery Statistics Availability Http HttpServer PeerDownloader Network Peers Manifest ManifestFacts Transfer Command Registry StorageFactory GoFlag Flags Main MainFacts Downloader DownloadFiles Program ProgramFacts TokenCodec MemOS Examples HttpExamples DownloadExamples ManifestExamples DownloadFilesExamples.
From Stdlib Require Import Strings.Byte.

#[local] Existing Instances copy_zstd copy_zstd_laws merge_SliceSort no_network.

(** * Preparation *)

Lemma SetupTransfer_prepares_witness : prepared dstStorage setup_world (cm_files example_manager).
Proof.
  pose proof (SetupTransfer_prepares dstStorage example_manager empty_dst ltac:(forall_lia)) as H.
  unfold post in H. rewrite setup_runs in H. exact (proj2 H setup_no_sharing).
Defined.

(** * Verification *)

(** The prepared destination has the permissions files are created with, and not those of the
    manifest: it is not verified. *)
Definition setup_entries : list Entry :=
  [EFile (mkFileEntry "a" 5 511 0); EFile (mkFileEntry "b" 3 511 0)].

Lemma VerifyTransfer_spec_witness :
  ∃ w', VerifyTransfer example_manager dstStorage setup_world = (Ok false, w').
Proof.
  assert (∃ w', st_walk dstStorage "" setup_world = (Ok (setup_entries, None), w')) as [w' Hw]
    by (eexists; by vm_compute).
  destruct (VerifyTransfer_spec dstStorage example_manager setup_world setup_entries None w' Hw
    ltac:(apply NoDup_nil_2) ltac:(apply NoDup_nil_2) ltac:(apply NoDup_nil_2)
    ltac:(apply (bool_decide_unpack _); by vm_compute)) as (b & Hv & Hb).
  exists w'. rewrite Hv. destruct b; [|done].
  destruct (proj1 Hb eq_refl) as (_ & _ & _ & _ & Hf). exfalso.
  specialize (Hf (mkFileEntry "a" 5 384 2) ltac:(apply (bool_decide_unpack _); by vm_compute)).
  revert Hf. apply (bool_decide_unpack _). by vm_compute.
Defined.

(** * The registry *)

Definition empty_json (_ : HeartbeatRequest) : result bytes := Ok [].

#[local] Instance no_network_laws : HttpTransportLaws fs.
Proof. by refine {| open_bodies _ := 0 |}. Defined.

(** A registry that nobody reaches: the world counts the requests. *)
#[local] Instance refused_transport : HttpTransport nat := {|
  http_Do _ n := (Err (errors_New "connection refused"), S n);
  Body_Close n := (Ok (), n)
|}.
#[local] Instance refused_laws : HttpTransportLaws nat.
Proof. by refine {| open_bodies _ := 0 |}. Defined.


(** * The start of a seed *)

Definition seed_flags : flags :=
  default (flags_of ∅) (flags_from ["-chunk-size=4"; "--files-per-chunk"; "2"; "-src"; "local:/src"]).

Example Init_seed :
  match (Init small_hash "1" "0" no_Parse no_peer no_service Ok empty_json seed_flags "u" 0 src_world).1
  with
  | Ok c => ServeOnly c = true ∧ Src c = Some "/src" ∧ length (chunks (Main.ChunkManager c)) = 2
  | _ => False
  end.
Proof. by vm_compute. Qed.

(** Nothing to serve and nobody to ask. *)
Example Init_nothing :
  is_ok (Init small_hash "1" "0" no_Parse no_peer no_service Ok empty_json
    (default (flags_of ∅) (flags_from ["-compress-type"; "zstd"; "-dst=/dst"])) "u" 0 src_world).1 = false.
Proof. by vm_compute. Qed.

(** * The program *)

(** Every flag is shown in the usage once, in some group; one of them, as it is printed. *)
Example usage_complete : concat (gr_flags <$> groups) ≡ₚ fl_Name <$> flag_table.
Proof. apply (bool_decide_unpack _). by vm_compute. Qed.
Example usage_line_ex :
  usage_line flag_table "wait-host-timeout"
  = "  -wait-host-timeout" +:+ tab +:+ "Timeout for -wait-host. (default 10m0s)" +:+ newline.
Proof. by vm_compute. Qed.

(** The defaults, and how arguments are read. *)
Example default_flags :
  (λ f, (flagPeerNumConcurrent f, flagChunkSize f, flagListenAddr f, flagSeedIdleTimeout f)) <$>
    flags_from [] = Some (2, 16777216, "0.0.0.0:10090", 0)%Z.
Proof. by vm_compute. Qed.
Example read_flags :
  (λ f, (flagChunkSize f, flagVerbose f, flagCommandTimeout f, flagSrc f)) <$>
    flags_from ["-chunk-size"; "0x10"; "--verbose"; "-command-timeout=1m30s"; "-src=a"; "x"; "-src=b"]
  = Some (16, true, 90 * Second, "a")%Z.
Proof. by vm_compute. Qed.
Example refused_flags :
  parse_args <$> [["-chunk-size=big"]; ["-no-such-flag"]; ["-src"]; ["-h"]; ["-=3"]]
  = [BadFlag "invalid value for flag -chunk-size"; BadFlag "flag provided but not defined: -no-such-flag";
     BadFlag "flag needs an argument: -src"; HelpRequested; BadFlag "bad flag syntax: -=3"].
Proof. by vm_compute. Qed.

(** Nobody listens yet on any address but the default one. *)
Definition example_Listen (addr : string) : io fs unit :=
  if decide (addr = "0.0.0.0:10090") then mret () else io_fail (errors_New "address in use").

Local Abbreviation example_program args events :=
  (main_program small_hash "1" "0" no_Parse no_peer no_service Ok empty_json (λ _, no_callback)
     example_Listen "u" 0 0 0 false args events src_world).

(** A seed that is interrupted while it serves; one whose port is taken, whose commands are
    stopped all the same; and a peer without anybody to ask. *)
Example program_runs :
  (example_program ["-chunk-size=4"; "-src=/src"]
     [DownloadStarts id 1; Responded 5; SignalReceived; ServeReturns None]).1
    = Ok (Some (0%Z, [SetVerbose false; StopCommand; PrintAllStatistics; CloseLogger])) ∧
  (example_program ["-src=/src"; "-listen-addr=:80"] []).1
    = Ok (Some (1%Z, [SetVerbose false; StopCommand; PrintAllStatistics; CloseLogger])) ∧
  (example_program ["-dst=/dst"; "-verbose"] []).1
    = Ok (Some (1%Z, [SetVerbose true; CloseLogger])) ∧
  (example_program ["-version"] []).1 = Ok (Some (0%Z, [PrintVersion])) ∧
  (example_program ["-src=/src"] [Responded 5]).1 = Ok None.
Proof. by vm_compute. Qed.

(** A copy on one host with two workers that a signal interrupts before its first chunk: the
    download's threads run to their exits, and the program ends with code 0. *)
Definition both_workers (n : nat) : list event :=
  concat (replicate n [EvWorker 0 0 (Now 1); EvWorker 0 1 (Now 1)]).

Definition interrupted_copy : list main_event :=
  [DownloadStarts id 0; DownloadStep (EvSched 0); SignalReceived] ++
  (DownloadStep <$> sched_ev 5 ++ both_workers 3 ++ sched_ev 1) ++
  [DownloadReturns 9; ServeReturns None].

Example copy_runs :
  (example_program ["-src=/src"; "-dst=/dst"; "-local-num-concurrent=2"] interrupted_copy).1
    = Ok (Some (0%Z, [SetVerbose false; StopCommand; PrintAllStatistics; CloseLogger])).
Proof. by vm_compute. Qed.

(** The destination is a file: the download fails, and the program with it. *)
Example unprepared_copy_runs :
  (example_program ["-src=/src"; "-dst=/src/a"] [DownloadStarts id 0; SeesDone; ServeReturns None]).1
    = Ok (Some (1%Z, [SetVerbose false; StopCommand; PrintAllStatistics; CloseLogger])).
Proof. by vm_compute. Qed.

(** Neither a source nor a destination: the download goroutine takes the process down. *)
Definition nowhere : MainContext :=
  mkMainContext "u" None None example_manager false false None None notify (NewStatistics false).

Example nowhere_crashes :
  crashed <$> main_steps small_hash (λ _, no_callback) (flags_of ∅) nowhere
    [Responded 5; DownloadStarts id 6] (main_start 0 src_world)
  = Some (Some "invalid memory address or nil pointer dereference").
Proof. by vm_compute. Qed.
