(* ===== verification/DnsExamples.v ===== *)
(** The DNS server of the tests on concrete packets. *)
From S2P Require Import Prelude Bytes GoStrings GoNet Dns DnsFacts.

(** Names in ASCII are all there is here. *)
#[local] Instance ascii_Unicode : Unicode := { ToLower := strings_ToLower; ToLower_ascii s _ := eq_refl }.

(** * net.ParseIP *)

Definition ip_values (s : string) : option (list Z) :=
  match net_ParseIP s with Some b => Some (map byte_val b) | None => None end.

Example parse_ipv4 : To4 (net_ParseIP "192.168.0.12") = map byte_of [192; 168; 0; 12]%Z.
Proof. by vm_compute. Qed.
Example parse_ipv6 :
  ip_values "fe80::1:ff" = Some [254; 128; 0; 0; 0; 0; 0; 0; 0; 0; 0; 0; 0; 1; 0; 255]%Z.
Proof. by vm_compute. Qed.
Example parse_mapped : To4 (net_ParseIP "::ffff:10.0.0.1") = map byte_of [10; 0; 0; 1]%Z.
Proof. by vm_compute. Qed.
Example parse_refused :
  Forall (λ s, net_ParseIP s = None)
    ["01.2.3.4"; "1.2.3"; "1.2.3.4.5"; "1.2.3.256"; "1..2.3"; "1:2:3"; "1::2::3"; "12345::";
     "fe80::1%eth0"; "peer.local"; ""; "1:2:3:4:5:6:7:8:9"].
Proof. repeat constructor; by vm_compute. Qed.

(** * A query for [Peers.Test] *)

Definition ex_labels : list string := ["Peers"; "Test"].
Definition ex_id : bytes := [Byte.xab; Byte.x01].
Definition ex_hdr : bytes :=
  [Byte.x01; Byte.x00; Byte.x00; Byte.x01; Byte.x00; Byte.x00; Byte.x00; Byte.x00; Byte.x00; Byte.x00].
Definition ex_class : bytes := [Byte.x00; Byte.x01].
Definition ex_addrs : list (Z * Z * Z * Z) :=
  [(10, 0, 0, 1); (10, 0, 0, 2); (10, 0, 0, 3); (10, 0, 0, 4)]%Z.

Lemma ex_labels_plain : Forall plain_label ex_labels.
Proof. repeat constructor; try done; cbn; try lia; set_solver. Qed.

Lemma ex_query_ok : query_ok ex_id ex_hdr ex_labels ex_class.
Proof. split_and!; [done..|exact ex_labels_plain]. Qed.

Lemma ex_names : names "peers.TEST" ex_labels.
Proof.
  split_and!; [done|done|done|exact ex_labels_plain|]. eexists. split; [by left|]. by vm_compute.
Qed.

Lemma dynamic_A_answers_witness :
  ∃ sent s',
    (Start (Ok ()) (Ok ()) ≫= λ _, Start_loop (replicate 20
       (Ok (encode_query ex_id ex_hdr ex_labels 1 ex_class [], "client"))))
      (AddDynamicRecord "peers.TEST" (dotted <$> ex_addrs) (NewDNSMockServer "127.0.0.1:53"))
    = (Ok sent, s') ∧
    (λ r, length ∘ ms_answers <$> decode_message r.1) <$> sent
    = (Some <$> replicate 5 3) ++ (Some <$> replicate 10 4) ++ (Some <$> replicate 5 3).
Proof.
  destruct (dynamic_A_answers "peers.TEST" ex_labels ex_addrs ex_id ex_hdr ex_class [] "client"
    "127.0.0.1:53" 20) as (sent & s' & Hrun & Hl & Hall).
  - exact ex_names.
  - exact ex_query_ok.
  - repeat constructor; lia.
  - cbn. lia.
  - apply Nat.leb_le. by vm_compute.
  - lia.
  - exists sent, s'. split; [exact Hrun|]. apply list_eq_same_length with 20.
    + by vm_compute.
    + by rewrite length_fmap, Hl.
    + intros k x y Hk. rewrite list_lookup_fmap. intros Hx Hy.
      apply fmap_Some in Hx as (r & Hr & ->). destruct (Hall k r Hr) as [_ Hd]. rewrite Hd.
      do 20 (destruct k as [|k]; [by injection Hy as <-|]). lia.
Defined.

(** * Services and names *)

Definition ex_srvs : list SRVRecord :=
  [mkSRVRecord 10 5 8090 "peer1.local."; mkSRVRecord 20 0 65535 "peer2.local"].
Definition ex_targets : list (list string) := [["peer1"; "local"]; ["peer2"; "local"]].

Lemma ex_target_plain n : n ∈ ["peer1"; "peer2"] → Forall plain_label [n; "local"].
Proof.
  intros Hn. repeat apply Forall_cons_2; [|..|by apply Forall_nil_2].
  - rewrite !elem_of_cons in Hn. destruct Hn as [->|[->|[]%not_elem_of_nil]]; split_and!;
      try done; cbn; try lia; set_solver.
  - split_and!; try done; cbn; try lia; set_solver.
Qed.

Lemma ex_srvs_ok : Forall2 srv_ok ex_srvs ex_targets.
Proof.
  repeat constructor; cbn; try lia; try done; try (apply ex_target_plain; set_solver);
    apply (bool_decide_unpack _); by vm_compute.
Qed.

(** The two services are told; a query for mail servers gets nothing. *)
Lemma SRV_answers_witness :
  (∃ r s', handleQuery (encode_query ex_id ex_hdr ex_labels 33 ex_class [])
            (AddSRVRecord "peers.TEST" ex_srvs (NewDNSMockServer "127.0.0.1:53"))
          = (Ok (Some r), s') ∧
    ∃ m, decode_message r = Some m ∧
      (decode_srv ∘ an_data <$> ms_answers m)
      = [Some (10, 5, 8090, ["peer1"; "local"]); Some (20, 0, 65535, ["peer2"; "local"])]%Z) ∧
  (handleQuery (encode_query ex_id ex_hdr ex_labels 15 ex_class [])
    (NewDNSMockServer "127.0.0.1:53")).1 = Ok None.
Proof.
  destruct (SRV_answers "peers.TEST" ex_labels ex_srvs ex_targets ex_id ex_hdr ex_class [] 0
    (NewDNSMockServer "127.0.0.1:53")) as [(r & s' & Hr & _ & m & Hm & _ & _ & _ & _ & _ & Ha) Hother].
  - exact ex_names.
  - exact ex_query_ok.
  - exact ex_srvs_ok.
  - cbn. lia.
  - done.
  - lia.
  - split; [exists r, s'; split; [exact Hr|]; exists m; by split|].
    destruct (Hother 15%Z ltac:(lia)) as [_ Hnone].
    exact (f_equal fst (Hnone ltac:(apply (bool_decide_unpack _); by vm_compute))).
Defined.

Lemma domain_name_roundtrip_witness :
  parseDomainName (ex_hdr ++ encodeDomainName "peer1.local" ++ ex_class) 10
  = Ok ("peer1.local.", 23).
Proof.
  refine (domain_name_roundtrip ["peer1"; "local"] "peer1.local" ex_hdr ex_class _ _ _ _).
  - done.
  - apply ex_target_plain. set_solver.
  - by left.
  - by vm_compute.
Defined.

(** * What does not work *)

(** An address that is not IPv4 is announced with four bytes of data, which do not follow. *)
Example ipv6_record_is_malformed :
  decode_message (buildResponse ex_id (encode_question ex_labels 1 ex_class) "::1") = None.
Proof. by vm_compute. Qed.

(** A target that is an address gets a name under [.local]. *)
Example ip_target : encodeDomainName "10.0.0.1" = encode_labels ["10"; "0"; "0"; "1"; "local"].
Proof. by vm_compute. Qed.

(** After [Stop] the loop of [Start] goes round without an end, whatever arrives. *)
Lemma loop_after_stop {C} (received : list (result (bytes * C))) s s' :
  conn s = Some SocketOpen → Stop s = (Ok (), s') → Start_loop received s' = (Ok [], s').
Proof.
  intros Hc Hs. unfold Stop in Hs. rewrite Hc in Hs. injection Hs as <-.
  induction received as [|p received IH]; [done|]. cbn [Start_loop].
  erewrite io_bind_ok; [|reflexivity]. by erewrite io_bind_ok; [|exact IH].
Qed.
