(* ===== verification/TestStorageExamples.v ===== *)
(** The directories of the tests, made in the file system in memory. *)
From S2P Require Import Prelude Bytes GoStrings Types Storage LocalStorage StorageFactory TestStorage MemOS.

#[local] Instance list_range : MapRange.
Proof. refine {| map_range A (m : gmap string A) := map_to_list m |}. done. Defined.

Definition temp_dir : string := "/tmp/p2pcp-test-1".
#[local] Instance mem_temp : TempDirs fs := {|
  os_MkdirTemp _ _ := _ ← mkdir_all temp_dir 448; mret temp_dir;
  os_RemoveAll p := call (λ w,
    (Ok (), set_nodes (filter (λ kn, bool_decide (kn.1 = p) || strings_HasPrefix (p +:+ "/") kn.1 = false)
                         (fs_nodes w)) w))
|}.

Definition no_files : fs := mkFs ∅ (λ _, false) 0.

(** What a storage lists. *)
Definition listed (dir : string) (w : fs) : result (list Entry) :=
  match (LocalStorage_Walk dir (list Entry) "" (λ l e, (l ++ [e], None)) [] w).1 with
  | Ok (l, None) => Ok l
  | Ok (_, Some e) => Err e
  | Err e => Err e
  | Panic s => Panic s
  end.

Example with_entries_listed :
  let '(r, w) := CreateTestStorageWithEntries (W := fs) Ok no_files in
  match r with
  | Ok (stor, dir, _) =>
    stor = Some dir ∧
    listed dir w = Ok
      [EEmptyFile (mkEmptyFileEntry "empty.txt" 420); EFile (mkFileEntry "file1.txt" 1000 420 0);
       EFile (mkFileEntry "file2.txt" 2000 420 0); ESymlink (mkSymlinkEntry "link.txt" "file1.txt");
       EFile (mkFileEntry "subdir/file3.txt" 500 420 0); EDir (mkDirEntry "subdir" 493)]
  | _ => False
  end.
Proof. by vm_compute. Qed.

(** A full disk in the middle, and nothing is left of the files. *)
Example failure_leaves_nothing :
  let full := mkFs ∅ (λ n, bool_decide (n = 9)) 0 in
  let '(r, w) := CreateTestStorageWithEntries (W := fs) Ok full in
  is_ok r = false ∧ filter (λ kn, strings_HasPrefix (temp_dir +:+ "/") kn.1 = true) (fs_nodes w) = ∅.
Proof. by vm_compute. Qed.
