(* ===== verification/LoggerExamples.v ===== *)
(** A log in memory that keeps the promises of zap, and the logger on it. *)
From S2P Require Import Prelude Bytes Logger.

(** What the laws see, the next pointer, the hostname, and how many entries a buffer holds
    before it is written. It cannot be synchronised, like a terminal. *)
Record mem_zap := mkMemZap
  { mz_view : zap_view; mz_next : positive; mz_hostname : result string; mz_buffer : nat }.

Definition mz_set (v : zap_view) (w : mem_zap) : mem_zap :=
  mkMemZap v (mz_next w) (mz_hostname w) (mz_buffer w).
Definition mz_step (w : mem_zap) : mem_zap :=
  mkMemZap (mz_view w) (Pos.succ (mz_next w)) (mz_hostname w) (mz_buffer w).

(** A pointer nobody has. *)
Definition fresh_pointer {A} (m : gmap positive A) (p : positive) : positive :=
  match m !! p with None => p | Some _ => fresh (dom m) end.

Lemma fresh_pointer_None {A} (m : gmap positive A) p : m !! fresh_pointer m p = None.
Proof.
  unfold fresh_pointer. destruct (m !! p) eqn:E; [|done]. apply not_elem_of_dom, is_fresh.
Qed.

Definition ENOTSUP : error := errors_New "inappropriate ioctl for device".

#[export] Instance mem_zap_Zap : Zap mem_zap := {
  os_Hostname w := (match mz_hostname w with Panic _ => Err ENOTSUP | r => r end, w);
  fmt_Fprintf s format args w := (Ok (), mz_set (receive s [Text format args] (mz_view w)) w);
  zap_NewAtomicLevelAt l w :=
    let a := fresh_pointer (zv_levels (mz_view w)) (mz_next w) in
    (Ok a, mz_step (mz_set (set_level a l (mz_view w)) w));
  AtomicLevel_SetLevel a l w := (Ok (), mz_set (set_level a l (mz_view w)) w);
  zap_New cfg w :=
    let lg := fresh_pointer (zv_loggers (mz_view w)) (mz_next w) in
    (Ok lg, mz_step (mz_set (set_logger lg (cfg, []) (mz_view w)) w));
  SugaredLogger_Logf lg lvl format args w :=
    match zv_loggers (mz_view w) !! lg with
    | Some (cfg, buf) =>
      let enab := default FatalLevel (zv_levels (mz_view w) !! zc_enab cfg) in
      let buf := buf ++ entry_of cfg enab lvl format args in
      let k := if decide (mz_buffer w < length buf) then length buf else 0 in
      (Ok (), mz_set (written lg cfg buf k (mz_view w)) w)
    | None => (Ok (), w)
    end;
  SugaredLogger_Sync lg w :=
    match zv_loggers (mz_view w) !! lg with
    | Some (cfg, buf) => (Err ENOTSUP, mz_set (written lg cfg buf (length buf) (mz_view w)) w)
    | None => (Err ENOTSUP, w)
    end;
  zap_flush lg w :=
    match zv_loggers (mz_view w) !! lg with
    | Some (cfg, buf) => mz_set (written lg cfg buf (length buf) (mz_view w)) w
    | None => w
    end
}.

#[export] Instance mem_zap_laws : ZapLaws mem_zap.
Proof.
  refine {| view := mz_view |}; simpl.
  - intros w. split; [|done]. by destruct (mz_hostname w).
  - done.
  - intros l w. eexists _, _. split_and!; [done|apply fresh_pointer_None|done].
  - intros a l w _. by eexists.
  - intros cfg w _. eexists _, _. split_and!; [done|apply fresh_pointer_None|done].
  - intros lg lvl format args w cfg buf enab -> -> _. by eexists _, _.
  - intros lg w cfg buf ->. done.
  - intros lg w. destruct (zv_loggers _ !! lg) as [[cfg buf]|]; [by eexists|done].
Defined.

(** * A run *)

Definition quiet_terminal (hostname : result string) : mem_zap :=
  mkMemZap (mkZapView ∅ ∅ [] []) 1 hostname 2.

Definition some_calls : list log_call :=
  [CallSetVerbose false; CallPrint "one" []; CallDebug "hidden" []; CallError "two" [];
   CallSetVerbose true; CallDebug "three" []].

Definition run_calls (l : list log_call) (s : with_instance (W := mem_zap)) :=
  foldl (λ s c, (run_call c s).2) s l.

Lemma run_calls_run l s s' : log_run l s s' → ∀ l', log_run (l ++ l') s (run_calls l' s').
Proof.
  intros H l'. revert l s' H. induction l' as [|c l' IH]; intros l s' H; [by rewrite app_nil_r|].
  replace (l ++ c :: l') with ((l ++ [c]) ++ l') by (by rewrite <- app_assoc). simpl.
  by apply IH, run_next.
Qed.

(** Nothing is printed before the buffers are full, and all of it after [Close]; the hostname
    cannot be found. *)
Lemma log_complete_witness :
  let w := quiet_terminal (Err ENOTSUP) in
  let s := run_calls some_calls (None, w) in
  received Stdout (view s.2) = [] ∧
  received Stdout (view (run_call CallClose s).2.2) =
    [Logged (mkEntryOf InfoLevel "localhost" "one" []);
     Logged (mkEntryOf DebugLevel "localhost" "three" [])] ∧
  received Stderr (view (run_call CallClose s).2.2) =
    [Text "Hostname retrieval error.: %s\n" [AErr ENOTSUP];
     Logged (mkEntryOf ErrorLevel "localhost" "two" [])].
Proof.
  intros w s. pose proof (log_complete w some_calls s CallClose eq_refl
    (run_calls_run [] _ _ (run_none _) some_calls)) as [_ H].
  split; [by vm_compute|]. split.
  - by rewrite (proj2 (H Stdout) eq_refl).
  - by rewrite (proj2 (H Stderr) eq_refl).
Defined.
